(* ===== verification/_CoqProject ===== *)
-Q . S2P
Prelude.v
Crc32.v
RingBuffer.v
Frame.v
Parser.v
Session.v
Ipc.v
Upgrade.v
Driver.v
Os.v
Log.v
Cli.v
Transport.v
Firmware.v
Worker.v
Daemon.v
DaemonSafety.v
DaemonClients.v
DaemonRun.v
Devctl.v
Device.v
Stm32Protocol.v
Stm32Update.v
Simulator.v
DeviceSim.v
System.v
Deployment.v
ClientServer.v
