(* ===== verification/Prelude.v ===== *)
(** * Verification of the Linux embedded device manager

    The repository under src/ holds a daemon that owns a serial line to an
    embedded device, a command-line client that talks to the daemon over a
    local socket, a simulated device on a pseudo-terminal, and a reference port
    of the device side to the STM32F103.  This library is a model of that code
    in Rocq together with the theorems that make it correct.

    ** The program and where it is modelled

    - src/common: [Crc32] (crc32.c), [RingBuffer] (ring_buffer.c), [Log] (log.c)
      and, in this file, [devmgr_status_string] (error.c) and the status codes.
    - src/protocol: [Frame] (frame.c, the wire format) and [Parser] (parser.c, the
      stream parser on top of the ring buffer).
    - src/device: [Session] (session.c, the connection state machine and the one
      pending request with its deadline and retries).
    - src/ipc: [Ipc] (codec.c, the messages between client and daemon).
    - src/upgrade: [Upgrade] (upgrade.c, the host's state machine) and [Firmware]
      (firmware.c, the mapped image).
    - src/transport: [Transport] (serial.c and pty.c).
    - src/worker: [Worker] (worker.c, the thread that opens images).
    - apps/devmgrd: [Daemon] (daemon.c: every handler of the event loop, the
      set-up and the clean-up); [DaemonSafety], [DaemonClients] and [DaemonRun]
      hold the theorems about it; main.c is in [Cli].
    - apps/devctl: [Devctl]; apps/device-sim: [DeviceSim].
    - simulator/device: [Simulator].
    - firmware/stm32f103: [Stm32Protocol] and [Stm32Update].

    [Os] describes system calls, [Cli] what the programs use of getopt_long,
    strtoul and strtol.  Two files are interfaces: [Driver] is what the daemon
    promises to a device, [Device] (the class [UpdateDevice] and the relation
    [slot_step]) what a device promises to an upgrade.  [System] composes the two
    on a lossy line; [Deployment] puts the daemon itself and a device on it;
    [ClientServer] composes client, daemon and simulated device.

    ** How the code is translated

    A C function is a Rocq function of the same name.  Integers are in [Z], with
    the wrap-around of their type written out ([u8], [u16], [u32], [u64], [i32]);
    arrays are lists of bytes accessed through [load], [store], [memcpy] and the
    like, which give [None] outside the array.  As the result of a C function
    [None] is undefined behaviour, and nothing else except the end of fuel or of a
    script; statuses are values, and a pointer that may be NULL is an option too.
    Structs are records, enums inductive types, with the names of the code; a
    field is replaced with [r <| field := v |>].  Pointers that a caller passes
    for results are results; local arrays and structs that start uninitialised are
    arguments, so that nothing depends on their contents.

    The outcomes of system calls are arguments: a loop that repeats a call takes a
    list of outcomes, and the daemon's other calls read an oracle ([kernel]).
    Descriptors and mappings that are acquired and released are logged, and [held]
    replays the log.  The daemon's handlers are computations in a state monad that
    can be stuck, [M], with a rule per operation ([wp]).

    ** What is proved

    - Data: CRC-32 is the one docs/protocol.md names; the ring buffer refines a
      bounded queue; frames and IPC messages round trip, decoders accept only
      canonical encodings, and bursts of up to 32 bits are always detected.
    - Streams: the parser refines a scanner on lists for every callback and every
      fragmentation of the input, and delivers the frames of a noisy stream.
    - Sessions and upgrades: requests are repeated a bounded number of times, expire
      once the transport has accepted these repetitions, are all accounted for, and
      are never completed by a stale answer; an upgrade stays well
      formed, ends whatever the device answers, sends the image, and completes
      only after every step was confirmed.
    - Devices: the simulator sends one answer to every request, unless a configured
      fault loses it or a write fails, and survives all input; the simulator and the STM32 bootloader implement the contract of [Device]; the
      two implementations of the wire format agree.
    - Processes: the daemon never gets stuck, holds exactly what its context and its
      worker account for and nothing when it returns (only the line may be closed
      twice, when its close is interrupted), keeps the image mapped while an upgrade
      uses it, writes whole frames in order, and refines [Driver]; the worker answers
      each job once in every interleaving and loses no wake-up; a firmware image is
      opened exactly when the file is regular and of the right size and can be
      mapped; transport, devctl and device-sim give back what they open on every path
      and end with a status, but for devctl's wait for an upgrade, which lasts as
      long as the daemon says that it goes on.
    - Together: when the event loop of the daemon ends an upgrade as complete, the
      device runs the requested version and its flash has the size and CRC of the
      image, for every device that satisfies the contract, every loss of frames and
      whatever else the daemon does ([Deployment], from [System] and the refinement
      of [Driver], whose steps are calls of the upgrade's code); a request of devctl
      arrives at the worker of a daemon that is ready and idle with its path and
      version, and the description of the simulated device is printed as it was
      sent.

    A few theorems without a number show what the code does not do; each is about
    a concrete run (a late answer that ends the daemon, a retried VERIFY that is
    refused, and others in [DaemonRun], [Simulator], [Stm32Update], [Transport]).

    ** Fuel and scripts

    Loops over a buffer have fuel: [drain_loop] and [feed_loop] one more than the
    number of bytes that can be consumed, since every turn consumes one or stops;
    [duplicate_loop] the length of the chunk; [flush_loop], [read_loop] and
    [client_output_loop] the length of their script.  The theorems show that the
    fuel suffices.  [upgrade_terminates] bounds the exchanges of an upgrade by four
    times the size of the image plus 32.

    A theorem about a loop that repeats a system call assumes that its script is
    long enough to end the loop.  What that excludes is a call that is interrupted
    forever ([open_retry], [interruptions], [write_ends]), and a line or socket that
    gives one event bytes to read or connections to accept without end ([read_ends],
    [open_ends]: the daemon goes on until there is nothing left).  A close that is interrupted any number of times is included.  devctl's wait for
    an upgrade has no bound in the code: the model takes any number of polls, and
    its result tells a program that still polls from one that has ended.  Scripts
    of mmap deliver the bytes of the file: a file that is truncated while it is
    mapped is excluded.

    ** Not modelled

    - The text of usage and log messages in the daemon; devctl's and device-sim's
      output is represented by the arguments of printf.
    - strtod and realpath, which are arguments of the definitions that use them,
      and the flash driver of the bootloader, which is not in the repository.
    - Time that passes: sleeps and response delays only cost time, and clocks are
      arguments.  Signals appear as what poll or epoll reports; installing handlers
      is left out.
    - The C memory model: the critical sections of [Worker] are atomic because the
      code holds its mutex.  The reactor takes a result of the worker when the
      eventfd has reported one, as the daemon does, not between the publication of a
      result and its report.
    - Tests, fuzzing, scripts, packaging, documentation and build files. *)

From stdpp Require Export prelude list strings.
From Stdlib Require Export ZArith Lia.

#[global] Open Scope Z_scope.

(** ** Record update

    [r <| field := v |>] is the record [r] with one field replaced.  A record
    type declares its eta expansion once; setters are derived from it. *)

Class Eta (R : Type) := eta_expand : R → R.
Class Setter {R E : Type} (get : R → E) := upd : (E → E) → R → R.

Ltac derive_setter :=
  lazymatch goal with
  | |- @Setter ?R ?E ?get =>
      let e := constr:(_ : Eta R) in
      let e := eval red in e in
      lazymatch eval pattern get in e with
      | ?k _ =>
          let u := eval cbv beta in (λ (f : E → E), k (λ r : R, f (get r))) in
          exact u
      end
  end.

#[global] Hint Extern 0 (Setter _) => derive_setter : typeclass_instances.
Arguments upd {R E} get {_} f r /.

Declare Scope devmgr_scope.
Delimit Scope devmgr_scope with devmgr.
#[global] Open Scope devmgr_scope.

Notation "x <| f := v |>" := (upd f (λ _, v) x)
  (at level 1, f at next level, left associativity,
   format "x <| f  :=  v |>") : devmgr_scope.

(** [lia] extended with the equations of [/] and [mod]. *)
Ltac mlia := Z.div_mod_to_equations; lia.

(** ** Machine integers

    A C unsigned integer of width w is a [Z] in [0, 2^w); a conversion or an
    arithmetic operation that can leave the range is followed by [u8], [u16],
    [u32] or [u64].  [i32] is the conversion of a 32-bit pattern to int32_t. *)

Definition UINT32_MAX : Z := 4294967295.
Definition UINT64_MAX : Z := 18446744073709551615.
Definition PTRDIFF_MAX : Z := 9223372036854775807.

Definition u8 (x : Z) : Z := x mod 256.
Definition u16 (x : Z) : Z := x mod 65536.
Definition u32 (x : Z) : Z := x mod 4294967296.
Definition u64 (x : Z) : Z := x mod 18446744073709551616.
Definition i32 (x : Z) : Z :=
  if u32 x <? 2147483648 then u32 x else u32 x - 4294967296.

Definition is_u8 (x : Z) : Prop := 0 ≤ x < 256.
Definition is_u16 (x : Z) : Prop := 0 ≤ x < 65536.
Definition is_u32 (x : Z) : Prop := 0 ≤ x < 4294967296.
Definition is_u64 (x : Z) : Prop := 0 ≤ x < 18446744073709551616.

#[global] Instance is_u8_dec x : Decision (is_u8 x).
Proof. unfold is_u8. apply _. Defined.
#[global] Instance is_u16_dec x : Decision (is_u16 x).
Proof. unfold is_u16. apply _. Defined.
#[global] Instance is_u32_dec x : Decision (is_u32 x).
Proof. unfold is_u32. apply _. Defined.
#[global] Instance is_u64_dec x : Decision (is_u64 x).
Proof. unfold is_u64. apply _. Defined.

Lemma u8_range x : is_u8 (u8 x).
Proof. unfold is_u8, u8. mlia. Qed.
Lemma u16_range x : is_u16 (u16 x).
Proof. unfold is_u16, u16. mlia. Qed.
Lemma u32_range x : is_u32 (u32 x).
Proof. unfold is_u32, u32. mlia. Qed.
Lemma u64_range x : is_u64 (u64 x).
Proof. unfold is_u64, u64. mlia. Qed.

Lemma u8_id x : is_u8 x → u8 x = x.
Proof. unfold is_u8, u8. mlia. Qed.
Lemma u16_id x : is_u16 x → u16 x = x.
Proof. unfold is_u16, u16. mlia. Qed.
Lemma u32_id x : is_u32 x → u32 x = x.
Proof. unfold is_u32, u32. mlia. Qed.
Lemma u64_id x : is_u64 x → u64 x = x.
Proof. unfold is_u64, u64. mlia. Qed.

(** The signed conversion inverts the unsigned one on the int32_t range. *)
Lemma i32_u32 x : -2147483648 ≤ x < 2147483648 → i32 (u32 x) = x.
Proof. unfold i32, u32. intros. case_match; mlia. Qed.

Create HintDb devmgr.
Create Rewrite HintDb devmgr.
Lemma i32_range x : -2147483648 ≤ i32 x < 2147483648.
Proof. unfold i32. pose proof (u32_range x). unfold is_u32 in *. destruct (Z.ltb_spec (u32 x) 2147483648); lia. Qed.

Lemma u32_i32 x : is_u32 x → u32 (i32 x) = x.
Proof.
  intros. unfold i32. rewrite (u32_id x) by done. unfold u32, is_u32 in *.
  destruct (Z.ltb_spec x 2147483648); mlia.
Qed.

#[export] Hint Resolve u8_range u16_range u32_range u64_range : devmgr.
#[export] Hint Rewrite u8_id u16_id u32_id u64_id using (first [assumption | lia]) : devmgr.

(** ** Boolean tests

    [ztest] replaces the outermost comparison of the goal by its two cases,
    [zreduce] evaluates comparisons that the context decides. *)

Ltac ztest :=
  match goal with
  | |- context [?a =? ?b] => destruct (Z.eqb_spec a b)
  | |- context [?a <? ?b] => destruct (Z.ltb_spec a b)
  | |- context [?a <=? ?b] => destruct (Z.leb_spec a b)
  end; simpl; try (exfalso; lia).

Ltac ztests := repeat ztest.

Ltac ztest_in H :=
  match type of H with
  | context [?a =? ?b] => destruct (Z.eqb_spec a b)
  | context [?a <? ?b] => destruct (Z.ltb_spec a b)
  | context [?a <=? ?b] => destruct (Z.leb_spec a b)
  end; simpl in H; try (exfalso; lia).

Ltac zdecide_step :=
  match goal with
  | |- context [?a =? ?b] =>
      first [ rewrite (proj2 (Z.eqb_eq a b)) by lia
            | rewrite (proj2 (Z.eqb_neq a b)) by lia ]
  | |- context [?a <? ?b] =>
      first [ rewrite (proj2 (Z.ltb_lt a b)) by lia
            | rewrite (proj2 (Z.ltb_ge a b)) by lia ]
  | |- context [?a <=? ?b] =>
      first [ rewrite (proj2 (Z.leb_le a b)) by lia
            | rewrite (proj2 (Z.leb_gt a b)) by lia ]
  end.

Ltac zreduce := repeat (zdecide_step; cbn [andb orb negb]).

(** Running the first of two statements. *)
Lemma bind_ok {A B} (x : A) (k : A → option B) : (Some x ≫= k) = k x.
Proof. done. Qed.

Ltac run_stmt := rewrite bind_ok; cbv beta.

(** ** Memory

    A C array is a [list Z] of its elements; a pointer into it is an offset.
    Every access is checked: [None] is the undefined behaviour of an access
    outside the array, so a theorem [f x = Some r] also states that [f] makes
    no out-of-bounds access on [x]. *)

Abbreviation len l := (Z.of_nat (length l)).

Definition in_range (off n size : Z) : bool :=
  (0 <=? off) && (0 <=? n) && (off + n <=? size).

(** [a[i]] *)
Definition load (a : list Z) (i : Z) : option Z :=
  if in_range i 1 (len a) then a !! Z.to_nat i else None.

(** [a[i] = v] *)
Definition store (a : list Z) (i v : Z) : option (list Z) :=
  if in_range i 1 (len a) then Some (<[Z.to_nat i := v]> a) else None.

Definition slice (a : list Z) (off n : Z) : list Z :=
  take (Z.to_nat n) (drop (Z.to_nat off) a).

Definition splice (a : list Z) (off : Z) (bs : list Z) : list Z :=
  take (Z.to_nat off) a ++ bs ++ drop (Z.to_nat off + length bs) a.

(** The bytes a memcpy of [n] bytes reads from [a + off]. *)
Definition mem_read (a : list Z) (off n : Z) : option (list Z) :=
  if in_range off n (len a) then Some (slice a off n) else None.

(** A memcpy of the bytes [bs] to [a + off]. *)
Definition mem_write (a : list Z) (off : Z) (bs : list Z) : option (list Z) :=
  if in_range off (len bs) (len a) then Some (splice a off bs) else None.

(** [memcpy(dst + doff, src + soff, n)] *)
Definition memcpy (dst : list Z) (doff : Z) (src : list Z) (soff n : Z) : option (list Z) :=
  bs ← mem_read src soff n; mem_write dst doff bs.

(** An array of [n] zero bytes, the effect of [memset(p, 0, n)]. *)
Definition zeros (n : Z) : list Z := replicate (Z.to_nat n) 0.
Arguments zeros : simpl never.

Lemma in_range_true off n size :
  in_range off n size = true ↔ 0 ≤ off ∧ 0 ≤ n ∧ off + n ≤ size.
Proof. unfold in_range. rewrite !andb_true_iff, !Z.leb_le. lia. Qed.

Lemma in_range_intro off n size :
  0 ≤ off → 0 ≤ n → off + n ≤ size → in_range off n size = true.
Proof. rewrite in_range_true. lia. Qed.

Lemma len_slice a off n :
  0 ≤ off → 0 ≤ n → off + n ≤ len a → len (slice a off n) = n.
Proof. intros. unfold slice. rewrite length_take, length_drop. lia. Qed.

Lemma length_slice a off n :
  0 ≤ off → 0 ≤ n → off + n ≤ len a → length (slice a off n) = Z.to_nat n.
Proof. intros. unfold slice. rewrite length_take, length_drop. lia. Qed.

Lemma length_splice a off bs :
  0 ≤ off → off + len bs ≤ len a → length (splice a off bs) = length a.
Proof.
  intros. unfold splice. rewrite !length_app, length_take, length_drop. lia.
Qed.

Lemma mem_read_ok a off n :
  0 ≤ off → 0 ≤ n → off + n ≤ len a → mem_read a off n = Some (slice a off n).
Proof. intros. unfold mem_read. by rewrite in_range_intro. Qed.

Lemma mem_write_ok a off bs :
  0 ≤ off → off + len bs ≤ len a → mem_write a off bs = Some (splice a off bs).
Proof. intros. unfold mem_write. by rewrite in_range_intro by lia. Qed.

Lemma memcpy_ok dst doff src soff n :
  0 ≤ soff → 0 ≤ n → soff + n ≤ len src → 0 ≤ doff → doff + n ≤ len dst →
  memcpy dst doff src soff n = Some (splice dst doff (slice src soff n)).
Proof.
  intros. unfold memcpy. rewrite mem_read_ok by lia. simpl.
  apply mem_write_ok; rewrite ?len_slice; lia.
Qed.

Lemma load_ok a i : 0 ≤ i < len a → ∃ v, load a i = Some v ∧ a !! Z.to_nat i = Some v.
Proof.
  intros. unfold load. rewrite in_range_intro by lia.
  destruct (lookup_lt_is_Some_2 a (Z.to_nat i)) as [v Hv]; [lia|eauto].
Qed.

Lemma load_Some a i v : load a i = Some v ↔ 0 ≤ i ∧ a !! Z.to_nat i = Some v.
Proof.
  unfold load. split.
  - destruct (in_range _ _ _) eqn:E; [|done]. apply in_range_true in E. naive_solver lia.
  - intros [? Hv]. rewrite in_range_intro; try lia; [done|].
    apply lookup_lt_Some in Hv. lia.
Qed.

Lemma store_ok a i v : 0 ≤ i < len a → store a i v = Some (<[Z.to_nat i := v]> a).
Proof. intros. unfold store. by rewrite in_range_intro by lia. Qed.

Lemma insert_as_splice (a : list Z) (i v : Z) :
  0 ≤ i < len a → <[Z.to_nat i := v]> a = splice a i [v].
Proof.
  intros. unfold splice. rewrite insert_take_drop by lia. simpl.
  do 3 f_equal. lia.
Qed.

(** Successive writes to adjacent ranges build the written prefix. *)
Lemma mem_write_app (p r bs : list Z) off :
  off = len p → len bs ≤ len r →
  mem_write (p ++ r) off bs = Some ((p ++ bs) ++ drop (length bs) r).
Proof.
  intros -> ?. rewrite mem_write_ok by (rewrite ?length_app; lia).
  unfold splice. rewrite Nat2Z.id, take_app_length, drop_app_add.
  by rewrite (assoc_L (++)).
Qed.

Lemma store_app (p r : list Z) off v :
  off = len p → 1 ≤ len r →
  store (p ++ r) off v = Some ((p ++ [v]) ++ drop 1 r).
Proof.
  intros. change (drop 1 r) with (drop (length [v]) r).
  rewrite <- (mem_write_app p r [v] off) by (simpl; lia).
  rewrite store_ok, mem_write_ok by (rewrite ?length_app; simpl; lia).
  rewrite insert_as_splice; [done|rewrite ?length_app; lia].
Qed.

Lemma slice_app_l (p r : list Z) off n :
  0 ≤ off → 0 ≤ n → off + n ≤ len p → slice (p ++ r) off n = slice p off n.
Proof.
  intros. unfold slice. rewrite drop_app_le by lia.
  rewrite take_app_le; [done|]. rewrite length_drop. lia.
Qed.

Lemma slice_app_r (p r : list Z) off n :
  len p ≤ off → 0 ≤ n → slice (p ++ r) off n = slice r (off - len p) n.
Proof.
  intros. unfold slice. rewrite drop_app_ge by lia. repeat f_equal. lia.
Qed.

Lemma slice_all (a : list Z) : slice a 0 (len a) = a.
Proof. unfold slice. simpl. by rewrite drop_0, Nat2Z.id, firstn_all. Qed.

Lemma slice_prefix (p r : list Z) n : n = len p → slice (p ++ r) 0 n = p.
Proof. intros ->. rewrite slice_app_l by lia. apply slice_all. Qed.

Lemma slice_middle (p x r : list Z) off n :
  off = len p → n = len x → slice (p ++ x ++ r) off n = x.
Proof.
  intros -> ->. rewrite slice_app_r, Z.sub_diag by lia. by apply slice_prefix.
Qed.

(** The [k]-th field of a message laid out as consecutive fields. *)
Lemma slice_concat (fs : list (list Z)) (k : nat) x off n :
  fs !! k = Some x → off = len (concat (take k fs)) → n = len x →
  slice (concat fs) off n = x.
Proof.
  intros Hk -> ->. rewrite <- (take_drop_middle fs k x Hk) at 1.
  rewrite concat_app. by apply slice_middle.
Qed.

Lemma slice_0 (a : list Z) n : slice a 0 n = take (Z.to_nat n) a.
Proof. unfold slice. simpl. by rewrite drop_0. Qed.

Lemma slice_slice (a : list Z) o1 n1 o2 n2 :
  0 ≤ o1 → 0 ≤ o2 → 0 ≤ n2 → o2 + n2 ≤ n1 →
  slice (slice a o1 n1) o2 n2 = slice a (o1 + o2) n2.
Proof.
  intros. unfold slice.
  replace (Z.to_nat n1) with (Z.to_nat o2 + Z.to_nat (n1 - o2))%nat by lia.
  rewrite <- take_drop_commute, take_take, drop_drop. f_equal; [lia|]. f_equal. lia.
Qed.

Lemma slice_split (a : list Z) off n1 n2 :
  0 ≤ off → 0 ≤ n1 → 0 ≤ n2 →
  slice a off (n1 + n2) = slice a off n1 ++ slice a (off + n1) n2.
Proof.
  intros. unfold slice.
  replace (Z.to_nat (n1 + n2)) with (Z.to_nat n1 + Z.to_nat n2)%nat by lia.
  replace (Z.to_nat (off + n1)) with (Z.to_nat off + Z.to_nat n1)%nat by lia.
  by rewrite <- drop_drop, take_take_drop.
Qed.

(** Reading back a range that was just written. *)
Lemma slice_splice_same (a bs : list Z) off :
  0 ≤ off → off + len bs ≤ len a → slice (splice a off bs) off (len bs) = bs.
Proof.
  intros. unfold splice. rewrite slice_app_r by (rewrite ?length_take; lia).
  rewrite length_take. replace (off - _) with 0 by lia. by apply slice_prefix.
Qed.

Lemma lookup_splice (a bs : list Z) (off : Z) (j : nat) :
  0 ≤ off → off + len bs ≤ len a →
  splice a off bs !! j =
    if decide (off ≤ Z.of_nat j < off + len bs) then bs !! (j - Z.to_nat off)%nat else a !! j.
Proof.
  intros. unfold splice. case_decide.
  - rewrite lookup_app_r by (rewrite length_take; lia).
    rewrite length_take, lookup_app_l by lia. f_equal. lia.
  - destruct (decide (Z.of_nat j < off)).
    + rewrite lookup_app_l by (rewrite length_take; lia). apply lookup_take_lt. lia.
    + rewrite lookup_app_r by (rewrite length_take; lia).
      rewrite length_take, lookup_app_r, lookup_drop by lia. f_equal. lia.
Qed.

Lemma lookup_slice (a : list Z) (off n : Z) (j : nat) :
  0 ≤ off → Z.of_nat j < n → slice a off n !! j = a !! (Z.to_nat off + j)%nat.
Proof. intros. unfold slice. rewrite lookup_take_lt by lia. apply lookup_drop. Qed.

Lemma slice_cons a off n b :
  load a off = Some b → 0 < n → slice a off n = b :: slice a (off + 1) (n - 1).
Proof.
  intros [? Hb]%load_Some ?. unfold slice.
  rewrite (drop_S _ b _ Hb). replace (Z.to_nat n) with (S (Z.to_nat (n - 1))) by lia.
  simpl. do 3 f_equal. lia.
Qed.

Lemma slice_nil a off : slice a off 0 = [].
Proof. done. Qed.

Lemma load_u8 a i : Forall is_u8 a → 0 ≤ i < len a → ∃ v, load a i = Some v ∧ is_u8 v.
Proof.
  intros Ha Hi. destruct (load_ok a i Hi) as (v & ? & Hv). exists v. split; [done|].
  by eapply Forall_lookup_1.
Qed.

(** A write in the middle of an array, as a write to the end of its prefix. *)
Lemma splice_app (p r bs : list Z) off :
  off = len p → len bs ≤ len r → splice (p ++ r) off bs = (p ++ bs) ++ drop (length bs) r.
Proof.
  intros -> ?. unfold splice. rewrite Nat2Z.id, take_app_length, drop_app_add.
  by rewrite (assoc_L (++)).
Qed.

Lemma take_drop_at (a : list Z) off :
  0 ≤ off ≤ len a → ∃ p r, a = p ++ r ∧ off = len p ∧ len r = len a - off.
Proof.
  intros. exists (take (Z.to_nat off) a), (drop (Z.to_nat off) a).
  rewrite take_drop, length_take, length_drop. split_and!; [done|lia..].
Qed.

(** Two arrays of the same length with the same elements are equal. *)
Lemma array_eq (a b : list Z) :
  length a = length b → (∀ i : nat, (i < length a)%nat → a !! i = b !! i) → a = b.
Proof.
  intros Hlen H. apply list_eq. intros i. destruct (decide (i < length a)%nat); [auto|].
  by rewrite !lookup_ge_None_2 by lia.
Qed.

Lemma slice_Forall (P : Z → Prop) a off n : Forall P a → Forall P (slice a off n).
Proof. intros. by apply Forall_take, Forall_drop. Qed.

Lemma splice_Forall (P : Z → Prop) a off bs :
  Forall P a → Forall P bs → Forall P (splice a off bs).
Proof.
  intros. unfold splice. apply Forall_app; split; [by apply Forall_take|].
  apply Forall_app; split; [done|by apply Forall_drop].
Qed.

Lemma zeros_Forall n : Forall is_u8 (zeros n).
Proof. apply Forall_replicate. unfold is_u8. lia. Qed.

Lemma len_zeros n : 0 ≤ n → len (zeros n) = n.
Proof. intros. unfold zeros. rewrite length_replicate. lia. Qed.

#[export] Hint Resolve slice_Forall splice_Forall zeros_Forall : devmgr.

(** ** Little-endian numbers *)

Fixpoint le_value (l : list Z) : Z :=
  match l with
  | [] => 0
  | b :: l' => Z.lxor b (Z.shiftl (le_value l') 8)
  end.

Fixpoint le_bytes (n : nat) (v : Z) : list Z :=
  match n with
  | O => []
  | S n' => v mod 256 :: le_bytes n' (v / 256)
  end.

Lemma le_value_range l : Forall is_u8 l → 0 ≤ le_value l < 2 ^ (8 * len l).
Proof.
  induction 1 as [|b l Hb Hl IH]; [simpl; lia|]. simpl le_value.
  rewrite length_cons, Nat2Z.inj_succ.
  replace (8 * Z.succ (len l)) with (8 + 8 * len l) by lia.
  unfold is_u8 in Hb. assert (0 ≤ Z.shiftl (le_value l) 8) by (apply Z.shiftl_nonneg; lia).
  assert (0 ≤ Z.lxor b (Z.shiftl (le_value l) 8)) by (apply Z.lxor_nonneg; lia).
  split; [done|]. apply Z.bounded_iff_bits_nonneg; [lia..|]. intros i Hi.
  rewrite Z.lxor_spec, Z.shiftl_spec by lia.
  rewrite (proj1 (Z.bounded_iff_bits_nonneg 8 b ltac:(lia) ltac:(lia)) ltac:(lia)) by lia.
  rewrite (proj1 (Z.bounded_iff_bits_nonneg (8 * len l) (le_value l) ltac:(lia) ltac:(lia))
             ltac:(lia)) by lia. done.
Qed.

Lemma le_value_cons b l : is_u8 b → le_value (b :: l) = b + 256 * le_value l.
Proof.
  unfold is_u8. intros. simpl. rewrite <- Z.add_nocarry_lxor.
  - rewrite Z.shiftl_mul_pow2 by lia. change (2 ^ 8) with 256. lia.
  - apply Z.bits_inj'. intros i Hi. rewrite Z.land_spec, Z.bits_0, Z.shiftl_spec by lia.
    destruct (Z.ltb_spec i 8).
    + rewrite (Z.testbit_neg_r _ (i - 8)) by lia. apply andb_false_r.
    + by rewrite (proj1 (Z.bounded_iff_bits_nonneg 8 b ltac:(lia) ltac:(lia)) ltac:(lia)).
Qed.

Lemma le_value_inj l1 l2 :
  Forall is_u8 l1 → Forall is_u8 l2 → length l1 = length l2 →
  le_value l1 = le_value l2 → l1 = l2.
Proof.
  intros H1. revert l2. induction H1 as [|b l1 Hb H1 IH]; intros [|c l2] H2 Hn H; try done.
  inversion H2; subst. rewrite !le_value_cons in H by done. unfold is_u8 in *.
  f_equal; [lia|]. apply IH; [done|by simplify_eq/=|lia].
Qed.

Lemma length_le_bytes n v : length (le_bytes n v) = n.
Proof. revert v. induction n; intros; simpl; auto. Qed.

Lemma le_bytes_Forall n v : Forall is_u8 (le_bytes n v).
Proof. revert v. induction n; intros; constructor; [unfold is_u8; mlia|auto]. Qed.

#[export] Hint Resolve le_bytes_Forall : devmgr.

Lemma le_value_bytes n v : 0 ≤ v < 2 ^ (8 * Z.of_nat n) → le_value (le_bytes n v) = v.
Proof.
  revert v. induction n as [|n IH]; intros v Hv; [simpl in *; lia|].
  cbn [le_bytes]. rewrite le_value_cons by (unfold is_u8; mlia).
  replace (8 * Z.of_nat (S n)) with (8 + 8 * Z.of_nat n) in Hv by lia.
  rewrite Z.pow_add_r in Hv by lia. change (2 ^ 8) with 256 in Hv.
  rewrite IH by mlia. mlia.
Qed.

Lemma le_bytes_value l : Forall is_u8 l → le_bytes (length l) (le_value l) = l.
Proof.
  intros Hl. apply le_value_inj; auto using le_bytes_Forall, length_le_bytes.
  rewrite le_value_bytes; [done|]. by apply le_value_range.
Qed.

Lemma le_value_lxor b l : le_value (b :: l) = Z.lxor b (Z.shiftl (le_value l) 8).
Proof. done. Qed.

Lemma le_value_nil : le_value [] = 0.
Proof. done. Qed.

Arguments le_bytes : simpl never.
Arguments le_value : simpl never.

(** A disjunction of disjoint fields is a sum. *)
Lemma lor_shiftl_add a b n : 0 ≤ n → 0 ≤ a < 2 ^ n → Z.lor a (Z.shiftl b n) = a + b * 2 ^ n.
Proof.
  intros Hn Ha. rewrite <- Z.shiftl_mul_pow2 by done.
  assert (Z.land a (Z.shiftl b n) = 0) as H0.
  { apply Z.bits_inj'. intros i Hi. rewrite Z.land_spec, Z.bits_0, Z.shiftl_spec by lia.
    destruct (Z.ltb_spec i n).
    - rewrite (Z.testbit_neg_r _ (i - n)) by lia. apply andb_false_r.
    - by rewrite (proj1 (Z.bounded_iff_bits_nonneg n a ltac:(lia) ltac:(lia)) ltac:(lia)). }
  rewrite Z.add_nocarry_lxor by done. by rewrite Z.lxor_lor.
Qed.

Lemma lor_shiftl_8 a b : 0 ≤ a < 256 → Z.lor a (Z.shiftl b 8) = a + b * 256.
Proof. apply (lor_shiftl_add a b 8). lia. Qed.
Lemma lor_shiftl_16 a b : 0 ≤ a < 65536 → Z.lor a (Z.shiftl b 16) = a + b * 65536.
Proof. apply (lor_shiftl_add a b 16). lia. Qed.
Lemma lor_shiftl_24 a b : 0 ≤ a < 16777216 → Z.lor a (Z.shiftl b 24) = a + b * 16777216.
Proof. apply (lor_shiftl_add a b 24). lia. Qed.

(** ** C strings

    A string is an array holding a terminating zero; [None] is again the
    undefined behaviour of running past the end of the array. *)

Fixpoint find_zero (l : list Z) : option nat :=
  match l with
  | [] => None
  | x :: l' => if x =? 0 then Some 0%nat else S <$> find_zero l'
  end.

(** [strlen(a + off)] *)
Definition strlen (a : list Z) (off : Z) : option Z :=
  if in_range off 0 (len a) then Z.of_nat <$> find_zero (drop (Z.to_nat off) a) else None.

(** [memchr(a + off, 0, n)], as an offset from [a + off]; the inner [None] is NULL. *)
Definition memchr0 (a : list Z) (off n : Z) : option (option Z) :=
  bs ← mem_read a off n; Some (Z.of_nat <$> find_zero bs).

(** The characters of the string at [a + off]. *)
Definition c_string (a : list Z) (off : Z) : option (list Z) :=
  n ← strlen a off; mem_read a off n.

(** [strcmp(a + i, b + j) == 0] *)
Definition strcmp_eq (a : list Z) (i : Z) (b : list Z) (j : Z) : option bool :=
  s ← c_string a i; t ← c_string b j; Some (bool_decide (s = t)).

(** [memcmp(a + i, b + j, n) == 0] *)
Definition memcmp_eq (a : list Z) (i : Z) (b : list Z) (j n : Z) : option bool :=
  s ← mem_read a i n; t ← mem_read b j n; Some (bool_decide (s = t)).

Lemma find_zero_Some l n :
  find_zero l = Some n ↔
  ∃ s r, l = s ++ 0 :: r ∧ length s = n ∧ Forall (λ x, x ≠ 0) s.
Proof.
  revert n. induction l as [|x l IH]; intros n; simpl.
  - split; [done|]. intros (s & r & H & _). by destruct s.
  - destruct (Z.eqb_spec x 0) as [->|Hx].
    + split.
      * intros [= <-]. by exists [], l.
      * intros (s & r & H & <- & Hs). destruct s as [|y s]; [done|].
        simplify_eq/=. by inversion Hs.
    + rewrite fmap_Some. split.
      * intros (m & Hm & ->). apply IH in Hm as (s & r & -> & <- & ?).
        exists (x :: s), r. split_and!; [done..|by constructor].
      * intros (s & r & H & <- & Hs). destruct s as [|y s]; simplify_eq/=.
        inversion Hs; subst. exists (length s). split; [|done].
        apply IH. by exists s, r.
Qed.

(** The string [s] stored with its terminator at [a + off]. *)
Lemma find_zero_string (s r : list Z) :
  Forall (λ x, x ≠ 0) s → find_zero (s ++ 0 :: r) = Some (length s).
Proof. intros. apply find_zero_Some. by exists s, r. Qed.

(** The array [a] holds the string [s] at its start. *)
Definition holds_string (a s : list Z) : Prop :=
  ∃ r, a = s ++ 0 :: r ∧ Forall (λ x, x ≠ 0) s.

Lemma strlen_at (p s r : list Z) off :
  off = len p → Forall (λ x, x ≠ 0) s → strlen (p ++ s ++ 0 :: r) off = Some (len s).
Proof.
  intros -> Hs. unfold strlen. rewrite in_range_intro by (rewrite ?length_app; lia).
  rewrite Nat2Z.id, drop_app_length. by rewrite find_zero_string.
Qed.

Lemma c_string_at (p s r : list Z) off :
  off = len p → Forall (λ x, x ≠ 0) s → c_string (p ++ s ++ 0 :: r) off = Some s.
Proof.
  intros -> Hs. unfold c_string. rewrite strlen_at by done. simpl.
  rewrite mem_read_ok by (rewrite ?length_app; lia). by rewrite slice_middle.
Qed.

Lemma strlen_holds a s : holds_string a s → strlen a 0 = Some (len s).
Proof. intros (r & -> & ?). by apply (strlen_at []). Qed.

Lemma c_string_holds a s : holds_string a s → c_string a 0 = Some s.
Proof. intros (r & -> & ?). by apply (c_string_at []). Qed.

Lemma holds_string_bound a s : holds_string a s → len s < len a.
Proof. intros (r & -> & ?). rewrite length_app. simpl. lia. Qed.

Lemma slice_terminated (p s r : list Z) off n :
  off = len p → n = len s + 1 → slice (p ++ s ++ 0 :: r) off n = s ++ [0].
Proof.
  intros -> ->. change (0 :: r) with ([0] ++ r). rewrite (assoc_L (++) s).
  apply slice_middle; [done|]. rewrite length_app. simpl. lia.
Qed.

Lemma holds_string_slice a s : holds_string a s → slice a 0 (len s + 1) = s ++ [0].
Proof.
  intros (r & -> & ?). by apply (slice_terminated []).
Qed.

(** A string copied over an array with its terminator. *)
Lemma holds_string_splice a s :
  Forall (λ x, x ≠ 0) s → len s < len a → holds_string (splice a 0 (s ++ [0])) s.
Proof.
  intros. unfold splice. simpl. exists (drop (length (s ++ [0])) a).
  rewrite <- (assoc_L (++)). done.
Qed.

(** The string at the start of an array. *)
Definition string_of (a : list Z) : list Z := default [] (c_string a 0).

Lemma string_of_holds a s : holds_string a s → string_of a = s.
Proof. intros. unfold string_of. by erewrite c_string_holds. Qed.

(** A 32-byte string array. *)
Definition version_ok (a : list Z) : Prop :=
  len a = 32 ∧ Forall is_u8 a ∧ ∃ s, holds_string a s.

Lemma version_copy (dst : list Z) v :
  len dst = 32 → Forall is_u8 dst → Forall is_u8 v → Forall (λ x, x ≠ 0) v → len v < 32 →
  version_ok (splice dst 0 (v ++ [0])) ∧ string_of (splice dst 0 (v ++ [0])) = v.
Proof.
  intros Hl Hd Hv Hz Hn.
  assert (holds_string (splice dst 0 (v ++ [0])) v) as Hh by (apply holds_string_splice; [done|lia]).
  split; [|by apply string_of_holds]. split; [|split; [|by exists v]].
  - rewrite length_splice; rewrite ?length_app; simpl; lia.
  - apply splice_Forall; [done|]. apply Forall_app; split; [done|]. by repeat constructor.
Qed.

(** A literal of the source, with its terminator. *)
Definition chars (s : string) : list Z :=
  map (λ c, Z.of_N (Ascii.N_of_ascii c)) (String.list_ascii_of_string s).

Definition literal (s : string) : list Z := chars s ++ [0].

Lemma literal_holds x :
  forallb (λ c, negb (c =? 0)) (chars x) = true → holds_string (literal x) (chars x).
Proof.
  intros H. exists []. split; [done|]. apply Is_true_eq_left in H. rewrite forallb_True in H.
  eapply Forall_impl; [exact H|]. intros c Hc. cbn in Hc. by destruct (Z.eqb_spec c 0).
Qed.

(** A terminator found in a range of the array. *)
Lemma memchr0_Some a off n m :
  0 ≤ off → 0 ≤ n → off + n ≤ len a → memchr0 a off n = Some (Some m) →
  ∃ p s r, a = p ++ s ++ 0 :: r ∧ off = len p ∧ m = len s ∧ Forall (λ x, x ≠ 0) s ∧ m < n.
Proof.
  intros ??? H. unfold memchr0 in H. rewrite mem_read_ok in H by lia. simpl in H.
  injection H as H. apply fmap_Some in H as (k & (s & r & E & <- & Hs)%find_zero_Some & ->).
  pose proof (len_slice a off n ltac:(lia) ltac:(lia) ltac:(lia)) as Hn.
  rewrite E, length_app in Hn. simpl in Hn.
  exists (take (Z.to_nat off) a), s, (r ++ drop (Z.to_nat off + Z.to_nat n) a).
  split_and!; try done; try lia; [|rewrite length_take; lia].
  rewrite app_comm_cons, (assoc_L (++) s), <- E. unfold slice.
  rewrite <- drop_drop, take_drop. by rewrite take_drop.
Qed.

Lemma memchr0_total a off n :
  0 ≤ off → 0 ≤ n → off + n ≤ len a → ∃ r, memchr0 a off n = Some r.
Proof. intros. unfold memchr0. rewrite mem_read_ok by lia. simpl. eauto. Qed.

(** ** Status codes: include/devmgr/error.h and src/common/error.c *)

Definition DEVMGR_OK : Z := 0.
Definition DEVMGR_ERROR_INVALID : Z := -1.
Definition DEVMGR_ERROR_NOMEM : Z := -2.
Definition DEVMGR_ERROR_OVERFLOW : Z := -3.
Definition DEVMGR_ERROR_UNDERFLOW : Z := -4.
Definition DEVMGR_ERROR_CRC : Z := -5.
Definition DEVMGR_ERROR_PROTOCOL : Z := -6.
Definition DEVMGR_ERROR_TIMEOUT : Z := -7.
Definition DEVMGR_ERROR_DISCONNECTED : Z := -8.
Definition DEVMGR_ERROR_IO : Z := -9.
Definition DEVMGR_ERROR_STATE : Z := -10.
Definition DEVMGR_ERROR_BUSY : Z := -11.
Definition DEVMGR_ERROR_NOT_FOUND : Z := -12.
Definition DEVMGR_ERROR_LIMIT : Z := -13.

Definition devmgr_status_string (status : Z) : string :=
  if status =? DEVMGR_OK then "success"%string
  else if status =? DEVMGR_ERROR_INVALID then "invalid argument"%string
  else if status =? DEVMGR_ERROR_NOMEM then "out of memory"%string
  else if status =? DEVMGR_ERROR_OVERFLOW then "overflow"%string
  else if status =? DEVMGR_ERROR_UNDERFLOW then "underflow"%string
  else if status =? DEVMGR_ERROR_CRC then "CRC mismatch"%string
  else if status =? DEVMGR_ERROR_PROTOCOL then "protocol error"%string
  else if status =? DEVMGR_ERROR_TIMEOUT then "timeout"%string
  else if status =? DEVMGR_ERROR_DISCONNECTED then "disconnected"%string
  else if status =? DEVMGR_ERROR_IO then "I/O error"%string
  else if status =? DEVMGR_ERROR_STATE then "invalid state"%string
  else if status =? DEVMGR_ERROR_BUSY then "busy"%string
  else if status =? DEVMGR_ERROR_NOT_FOUND then "not found"%string
  else if status =? DEVMGR_ERROR_LIMIT then "limit exceeded"%string
  else "unknown error"%string.
