(* ===== verification/Crc32.v ===== *)
(** * CRC-32: src/common/crc32.c

    The bitwise CRC of the library, its equivalence with the parametrised CRC
    model that docs/protocol.md names, its composition over fragments and the
    errors it detects.  The register update is linear over GF(2) and injective
    on 32-bit states; everything else follows from these two facts. *)

From S2P Require Import Prelude.

(** ** The code *)

Definition DEVMGR_CRC32_INIT : Z := 0xFFFFFFFF.
Definition DEVMGR_CRC32_XOR_OUT : Z := 0xFFFFFFFF.

(** One iteration of the loop over [bit]. *)
Definition crc32_bit (state : Z) : Z :=
  let mask := u32 (0 - Z.land state 1) in
  Z.lxor (Z.shiftr state 1) (Z.land 0xEDB88320 mask).

Fixpoint crc32_bits (bits : nat) (state : Z) : Z :=
  match bits with
  | O => state
  | S bits' => crc32_bits bits' (crc32_bit state)
  end.

(** The loop over [index], with [n] iterations left. *)
Fixpoint crc32_loop (bytes : list Z) (index : Z) (n : nat) (state : Z) : option Z :=
  match n with
  | O => Some state
  | S n' =>
      b ← load bytes index;
      crc32_loop bytes (index + 1) n' (crc32_bits 8 (Z.lxor state b))
  end.

(** [data] is NULL or points to an array. *)
Definition devmgr_crc32_update (state : Z) (data : option (list Z)) (length : Z) : option Z :=
  match data with
  | None => Some state
  | Some bytes => crc32_loop bytes 0 (Z.to_nat length) state
  end.

Definition devmgr_crc32_finish (state : Z) : Z := Z.lxor state DEVMGR_CRC32_XOR_OUT.

Definition devmgr_crc32 (data : option (list Z)) (length : Z) : option Z :=
  state ← devmgr_crc32_update DEVMGR_CRC32_INIT data length;
  Some (devmgr_crc32_finish state).

Arguments crc32_bit : simpl never.
Arguments crc32_bits : simpl never.
Arguments devmgr_crc32_update : simpl never.
Arguments devmgr_crc32 : simpl never.

Lemma crc32_bits_S n s : crc32_bits (S n) s = crc32_bits n (crc32_bit s).
Proof. done. Qed.

(** ** Functional form *)

Definition crc_byte (s b : Z) : Z := crc32_bits 8 (Z.lxor s b).
Definition crc_fold (s : Z) (l : list Z) : Z := foldl crc_byte s l.
Arguments crc_byte : simpl never.
Definition crc_of (l : list Z) : Z := devmgr_crc32_finish (crc_fold DEVMGR_CRC32_INIT l).

Lemma crc_fold_cons s b l : crc_fold s (b :: l) = crc_fold (crc32_bits 8 (Z.lxor s b)) l.
Proof. done. Qed.

Lemma crc32_loop_spec (pre l post : list Z) s :
  crc32_loop (pre ++ l ++ post) (len pre) (length l) s = Some (crc_fold s l).
Proof.
  revert pre s. induction l as [|b l IH]; intros pre s; [done|].
  rewrite crc_fold_cons. cbn [crc32_loop length]. rewrite (proj2 (load_Some _ _ b)).
  - simpl. replace (len pre + 1) with (len (pre ++ [b])) by (rewrite length_app; simpl; lia).
    replace (pre ++ b :: l ++ post) with ((pre ++ [b]) ++ l ++ post)
      by (by rewrite <- (assoc_L (++))).
    apply IH.
  - split; [lia|]. rewrite Nat2Z.id. by apply list_lookup_middle.
Qed.

Lemma devmgr_crc32_update_spec s bytes n :
  0 ≤ n ≤ len bytes →
  devmgr_crc32_update s (Some bytes) n = Some (crc_fold s (take (Z.to_nat n) bytes)).
Proof.
  intros. unfold devmgr_crc32_update.
  rewrite <- (crc32_loop_spec [] (take (Z.to_nat n) bytes) (drop (Z.to_nat n) bytes) s).
  simpl. rewrite take_drop, length_take. f_equal. lia.
Qed.

Lemma devmgr_crc32_spec bytes n :
  0 ≤ n ≤ len bytes →
  devmgr_crc32 (Some bytes) n = Some (crc_of (take (Z.to_nat n) bytes)).
Proof. intros. unfold devmgr_crc32. by rewrite devmgr_crc32_update_spec. Qed.

Lemma crc_fold_app s a b : crc_fold s (a ++ b) = crc_fold (crc_fold s a) b.
Proof. apply foldl_app. Qed.

(** ** Linearity and injectivity of the register update *)

Lemma crc32_bit_odd s :
  crc32_bit s = Z.lxor (Z.shiftr s 1) (if Z.odd s then 0xEDB88320 else 0).
Proof.
  unfold crc32_bit. f_equal. change 1 with (Z.ones 1) at 1.
  rewrite Z.land_ones by lia. change (2 ^ 1) with 2. rewrite Zmod_odd.
  by destruct (Z.odd s).
Qed.

Lemma odd_lxor a b : Z.odd (Z.lxor a b) = xorb (Z.odd a) (Z.odd b).
Proof. rewrite <- !Z.bit0_odd. apply Z.lxor_spec. Qed.

Lemma crc32_bit_lxor a b : crc32_bit (Z.lxor a b) = Z.lxor (crc32_bit a) (crc32_bit b).
Proof.
  rewrite !crc32_bit_odd, odd_lxor, Z.shiftr_lxor.
  apply Z.bits_inj'. intros i Hi. rewrite !Z.lxor_spec.
  destruct (Z.odd a), (Z.odd b); simpl; rewrite ?Z.bits_0;
    destruct (Z.testbit (Z.shiftr a 1) i), (Z.testbit (Z.shiftr b 1) i),
      (Z.testbit 3988292384 i); done.
Qed.

Lemma crc32_bit_double t : crc32_bit (Z.shiftl t 1) = t.
Proof.
  rewrite crc32_bit_odd, Z.shiftr_shiftl_l, Z.shiftl_0_r by lia.
  rewrite (Z.shiftl_mul_pow2 t) by lia. rewrite Z.odd_mul, andb_false_r.
  apply Z.lxor_0_r.
Qed.

Lemma crc32_bits_lxor n a b :
  crc32_bits n (Z.lxor a b) = Z.lxor (crc32_bits n a) (crc32_bits n b).
Proof.
  revert a b. induction n as [|n IH]; intros a b; [done|].
  by rewrite !crc32_bits_S, crc32_bit_lxor, IH.
Qed.

Lemma crc32_bits_add m n s : crc32_bits (m + n) s = crc32_bits n (crc32_bits m s).
Proof. revert s. induction m as [|m IH]; intros s; [done|apply IH]. Qed.

Lemma crc32_bits_shiftl n t : crc32_bits n (Z.shiftl t (Z.of_nat n)) = t.
Proof.
  induction n as [|n IH]; [done|]. rewrite crc32_bits_S.
  replace (Z.shiftl t (Z.of_nat (S n))) with (Z.shiftl (Z.shiftl t (Z.of_nat n)) 1)
    by (rewrite Z.shiftl_shiftl by lia; f_equal; lia).
  by rewrite crc32_bit_double.
Qed.

Lemma u32_high_bits a i : is_u32 a → 32 ≤ i → Z.testbit a i = false.
Proof.
  unfold is_u32. intros [??] ?.
  by apply (proj1 (Z.bounded_iff_bits_nonneg 32 a ltac:(lia) ltac:(lia))).
Qed.

Lemma lxor_u32 a b : is_u32 a → is_u32 b → is_u32 (Z.lxor a b).
Proof.
  intros Ha Hb. assert (0 ≤ Z.lxor a b) by (unfold is_u32 in *; apply Z.lxor_nonneg; lia).
  split; [done|]. change 4294967296 with (2 ^ 32).
  apply Z.bounded_iff_bits_nonneg; [lia..|]. intros l Hl. rewrite Z.lxor_spec.
  by rewrite !u32_high_bits.
Qed.

Lemma crc32_bit_u32 s : is_u32 s → is_u32 (crc32_bit s).
Proof.
  intros Hs. rewrite crc32_bit_odd. apply lxor_u32.
  - unfold is_u32 in *. rewrite Z.shiftr_div_pow2 by lia. change (2 ^ 1) with 2. mlia.
  - unfold is_u32. by destruct (Z.odd s).
Qed.

Lemma crc32_bits_u32 n s : is_u32 s → is_u32 (crc32_bits n s).
Proof. revert s. induction n; intros s Hs; [done|]. by apply IHn, crc32_bit_u32. Qed.

Lemma u8_u32 b : is_u8 b → is_u32 b.
Proof. unfold is_u8, is_u32. lia. Qed.

Lemma crc_fold_u32 s l : is_u32 s → Forall is_u8 l → is_u32 (crc_fold s l).
Proof.
  intros Hs Hl. revert s Hs. induction Hl as [|b l Hb Hl IH]; intros s Hs; [done|].
  rewrite crc_fold_cons. apply IH. by apply crc32_bits_u32, lxor_u32, u8_u32.
Qed.

Lemma crc_of_u32 l : Forall is_u8 l → is_u32 (crc_of l).
Proof.
  intros. apply lxor_u32; [|done]. by apply crc_fold_u32.
Qed.

(** A 32-bit state whose successor is zero is zero: the top coefficient of the
    polynomial is set and a shifted state has no bit 31. *)
Lemma crc32_bit_zero s : is_u32 s → crc32_bit s = 0 → s = 0.
Proof.
  unfold is_u32. intros Hs. rewrite crc32_bit_odd, Z.shiftr_div_pow2 by lia.
  change (2 ^ 1) with 2. intros H%Z.lxor_eq.
  pose proof (Zmod_odd s) as Ho. destruct (Z.odd s); mlia.
Qed.

Lemma crc32_bits_zero n s : is_u32 s → crc32_bits n s = 0 → s = 0.
Proof.
  revert s. induction n as [|n IH]; intros s Hs H; [done|]. rewrite crc32_bits_S in H.
  apply crc32_bit_zero; [done|]. apply IH; auto using crc32_bit_u32.
Qed.

Lemma crc32_bits_inj n a b :
  is_u32 a → is_u32 b → crc32_bits n a = crc32_bits n b → a = b.
Proof.
  intros Ha Hb H. apply Z.lxor_eq. apply (crc32_bits_zero n); [by apply lxor_u32|].
  by rewrite crc32_bits_lxor, H, Z.lxor_nilpotent.
Qed.

(** With the same input, different registers stay different. *)
Lemma crc_fold_inj_state l a b :
  Forall is_u8 l → is_u32 a → is_u32 b → crc_fold a l = crc_fold b l → a = b.
Proof.
  intros Hl. revert a b. induction Hl as [|x l Hx Hl IH]; intros a b Ha Hb H; [done|].
  apply u8_u32 in Hx. rewrite !crc_fold_cons in H.
  apply IH in H; [|by apply crc32_bits_u32, lxor_u32..].
  apply crc32_bits_inj in H; [|by apply lxor_u32..].
  assert (Z.lxor (Z.lxor a x) x = Z.lxor (Z.lxor b x) x) as E by by rewrite H.
  by rewrite !Z.lxor_assoc, !Z.lxor_nilpotent, !Z.lxor_0_r in E.
Qed.

(** ** A block of bytes is absorbed as one little-endian number *)

Lemma crc_fold_block s l : crc_fold s l = crc32_bits (8 * length l) (Z.lxor s (le_value l)).
Proof.
  revert s. induction l as [|b l IH]; intros s.
  - symmetry. apply Z.lxor_0_r.
  - rewrite crc_fold_cons, IH, le_value_lxor. replace (8 * length (b :: l))%nat with (8 + 8 * length l)%nat by (simpl; lia).
    rewrite crc32_bits_add, <- Z.lxor_assoc, (crc32_bits_lxor 8 (Z.lxor s b)).
    change (Z.shiftl (le_value l) 8) with (Z.shiftl (le_value l) (Z.of_nat 8)).
    by rewrite crc32_bits_shiftl.
Qed.

(** ** Detected errors *)

(** Two blocks of at most four bytes absorbed from the same register leave
    different registers. *)
Lemma crc_fold_inj_block s l1 l2 :
  is_u32 s → Forall is_u8 l1 → Forall is_u8 l2 →
  length l1 = length l2 → (length l1 ≤ 4)%nat →
  crc_fold s l1 = crc_fold s l2 → l1 = l2.
Proof.
  intros Hs H1 H2 Hlen Hn H. rewrite !crc_fold_block, <- Hlen in H.
  assert (∀ l, Forall is_u8 l → length l = length l1 → is_u32 (le_value l)) as Hu.
  { intros l Hl E. pose proof (le_value_range l Hl) as Hr. rewrite E in Hr.
    unfold is_u32. assert (2 ^ (8 * len l1) ≤ 2 ^ 32) by (apply Z.pow_le_mono_r; lia).
    change (2 ^ 32) with 4294967296 in *. lia. }
  apply crc32_bits_inj in H; [|apply lxor_u32; auto..].
  apply le_value_inj; [done..|].
  rewrite <- (Z.lxor_0_l (le_value l1)), <- (Z.lxor_0_l (le_value l2)).
  by rewrite <- (Z.lxor_nilpotent s), !Z.lxor_assoc, H.
Qed.

(** A message changed inside one window of at most four bytes leaves a
    different register, whatever the initial register. *)
Lemma crc_fold_burst s pre w1 w2 post :
  is_u32 s → Forall is_u8 pre → Forall is_u8 post →
  Forall is_u8 w1 → Forall is_u8 w2 → length w1 = length w2 → (length w1 ≤ 4)%nat →
  crc_fold s (pre ++ w1 ++ post) = crc_fold s (pre ++ w2 ++ post) → w1 = w2.
Proof.
  intros Hs Hpre Hpost H1 H2 Hlen Hn. rewrite !crc_fold_app. intros H.
  assert (is_u32 (crc_fold s pre)) by by apply crc_fold_u32.
  apply crc_fold_inj_state in H; [|done|by apply crc_fold_u32..].
  by apply crc_fold_inj_block in H.
Qed.

(** *** Residue

    Absorbing a message followed by its own CRC in little-endian order leaves
    a constant register, and only the right CRC does so. *)

Definition crc_residue : Z := 0xDEBB20E3.

Lemma crc_residue_iff l c :
  Forall is_u8 l → Forall is_u8 c → length c = 4%nat →
  crc_fold DEVMGR_CRC32_INIT (l ++ c) = crc_residue ↔ le_value c = crc_of l.
Proof.
  intros Hl Hc Hlen. rewrite crc_fold_app, crc_fold_block, Hlen.
  set (s := crc_fold DEVMGR_CRC32_INIT l).
  assert (is_u32 s) by by apply crc_fold_u32.
  assert (is_u32 (le_value c)).
  { pose proof (le_value_range c Hc) as Hr. rewrite Hlen in Hr. done. }
  assert (is_u32 (Z.lxor s (le_value c))) as Hsc by by apply lxor_u32.
  assert (is_u32 DEVMGR_CRC32_XOR_OUT) as Hout by done.
  assert (crc_residue = crc32_bits 32 DEVMGR_CRC32_XOR_OUT) as -> by by vm_compute.
  unfold crc_of, devmgr_crc32_finish. fold s. change (8 * 4)%nat with 32%nat. split.
  - intros E. apply (crc32_bits_inj 32 _ _ Hsc Hout) in E as Ex. clear E.
    by rewrite <- Ex, <- Z.lxor_assoc, Z.lxor_nilpotent, Z.lxor_0_l.
  - intros ->. by rewrite <- Z.lxor_assoc, Z.lxor_nilpotent, Z.lxor_0_l.
Qed.

(** ** The CRC of docs/protocol.md

    The parametrised model of a 32-bit CRC: a most-significant-bit-first shift
    register with polynomial 0x04C11DB7, initial value 0xFFFFFFFF, input bytes
    taken least significant bit first (reflected input), the register reflected
    on output and complemented. *)

Fixpoint reflect (n : nat) (x : Z) : Z :=
  match n with
  | O => 0
  | S n' => Z.lor (Z.shiftl (Z.b2z (Z.odd x)) (Z.of_nat n')) (reflect n' (Z.shiftr x 1))
  end.

Fixpoint lsb_first (n : nat) (x : Z) : list bool :=
  match n with
  | O => []
  | S n' => Z.odd x :: lsb_first n' (Z.shiftr x 1)
  end.

Definition ref_bit (reg : Z) (bit : bool) : Z :=
  let shifted := u32 (Z.shiftl reg 1) in
  if xorb (Z.testbit reg 31) bit then Z.lxor shifted 0x04C11DB7 else shifted.

Definition ref_crc32 (message : list Z) : Z :=
  let reg := foldl ref_bit 0xFFFFFFFF (message ≫= lsb_first 8) in
  Z.lxor (reflect 32 reg) 0xFFFFFFFF.

(** The two registers hold the same coefficients in opposite order. *)
Definition mirrored (s reg : Z) : Prop :=
  is_u32 s ∧ is_u32 reg ∧ ∀ i, 0 ≤ i < 32 → Z.testbit s i = Z.testbit reg (31 - i).

Lemma reflect_testbit n x i :
  0 ≤ i → Z.testbit (reflect n x) i = (i <? Z.of_nat n) && Z.testbit x (Z.of_nat n - 1 - i).
Proof.
  revert x. induction n as [|n IH]; intros x Hi.
  - simpl. rewrite Z.bits_0. by ztest.
  - cbn [reflect]. rewrite Z.lor_spec, Z.shiftl_spec, IH by done.
    destruct (Z.ltb_spec i (Z.of_nat n)).
    + rewrite Z.testbit_neg_r by lia. zreduce. simpl. rewrite Z.shiftr_spec by lia. f_equal; lia.
    + destruct (decide (i = Z.of_nat n)) as [->|].
      * rewrite Z.sub_diag. zreduce. simpl. rewrite orb_false_r.
        replace (Z.of_nat (S n) - 1 - Z.of_nat n) with 0 by lia.
        rewrite Z.bit0_odd. by destruct (Z.odd x).
      * zreduce. simpl. rewrite orb_false_r.
        apply Z.bits_above_log2; destruct (Z.odd x); simpl; lia.
Qed.

Lemma mirrored_reflect s reg : mirrored s reg → reflect 32 reg = s.
Proof.
  intros (Hs & Hr & H). apply Z.bits_inj'. intros i Hi. rewrite reflect_testbit by done.
  change (Z.of_nat 32) with 32. destruct (Z.ltb_spec i 32); simpl.
  - rewrite H by lia. f_equal.
  - by rewrite u32_high_bits.
Qed.

Lemma poly_mirrored i :
  0 ≤ i < 32 → Z.testbit 0xEDB88320 i = Z.testbit 0x04C11DB7 (31 - i).
Proof.
  intros Hi.
  assert (Forall (λ i, Z.testbit 0xEDB88320 i = Z.testbit 0x04C11DB7 (31 - i)) (seqZ 0 32))
    as H by (refine (bool_decide_eq_true_1 _ _); by vm_compute).
  rewrite Forall_forall in H. apply H, elem_of_seqZ. lia.
Qed.

Lemma shifted_testbit reg i :
  0 ≤ i < 32 → Z.testbit (u32 (Z.shiftl reg 1)) (31 - i) = (i <? 31) && Z.testbit reg (30 - i).
Proof.
  intros. unfold u32. change 4294967296 with (2 ^ 32).
  rewrite Z.mod_pow2_bits_low, Z.shiftl_spec by lia.
  ztest; [f_equal; lia|]. apply Z.testbit_neg_r. lia.
Qed.

Lemma mirrored_bit s reg (b : bool) :
  mirrored s reg → mirrored (crc32_bit (Z.lxor s (Z.b2z b))) (ref_bit reg b).
Proof.
  intros (Hs & Hr & H).
  assert (is_u32 (Z.lxor s (Z.b2z b))) by (apply lxor_u32; [done|by destruct b]).
  assert (Z.odd (Z.lxor s (Z.b2z b)) = xorb (Z.testbit reg 31) b) as Hodd.
  { rewrite odd_lxor, <- Z.bit0_odd, H by lia. by destruct b. }
  split_and!.
  - by apply crc32_bit_u32.
  - unfold ref_bit. case_match; [apply lxor_u32; [|done]|]; apply u32_range.
  - intros i Hi. rewrite crc32_bit_odd, Hodd, Z.lxor_spec, Z.shiftr_spec by lia.
    rewrite Z.lxor_spec. rewrite (Z.bits_above_log2 (Z.b2z b)) by (destruct b; simpl; lia).
    rewrite xorb_false_r. unfold ref_bit.
    assert (Z.testbit s (i + 1) = (i <? 31) && Z.testbit reg (30 - i)) as ->.
    { ztest; [rewrite H by lia; f_equal; lia|by apply u32_high_bits; [|lia]]. }
    case_match; rewrite ?Z.lxor_spec, shifted_testbit, ?poly_mirrored, ?Z.bits_0 by lia;
      [done|apply xorb_false_r].
Qed.

(** Absorbing a whole byte and shifting eight times is absorbing its bits one
    by one, least significant first. *)
Lemma crc32_bits_lsb_first n s x :
  0 ≤ x < 2 ^ Z.of_nat n →
  crc32_bits n (Z.lxor s x) = foldl (λ s b, crc32_bit (Z.lxor s (Z.b2z b))) s (lsb_first n x).
Proof.
  revert s x. induction n as [|n IH]; intros s x Hx.
  - simpl in *. assert (x = 0) as -> by lia. apply Z.lxor_0_r.
  - rewrite crc32_bits_S. cbn [lsb_first foldl]. rewrite <- IH.
    + f_equal. assert (x = Z.lxor (Z.b2z (Z.odd x)) (Z.shiftl (Z.shiftr x 1) 1)) as Ex.
      { apply Z.bits_inj'. intros i Hi. rewrite Z.lxor_spec, Z.shiftl_spec by done.
        destruct (decide (i = 0)) as [->|].
        - rewrite Z.b2z_bit0, (Z.testbit_neg_r (Z.shiftr x 1)), xorb_false_r by lia. by rewrite Z.bit0_odd.
        - rewrite Z.shiftr_spec by lia. rewrite (Z.bits_above_log2 (Z.b2z _)).
          + rewrite xorb_false_l. f_equal. lia.
          + destruct (Z.odd x); simpl; lia.
          + destruct (Z.odd x); simpl; lia. }
      rewrite Ex at 1. by rewrite <- Z.lxor_assoc, crc32_bit_lxor, crc32_bit_double.
    + rewrite Z.shiftr_div_pow2 by lia. rewrite Nat2Z.inj_succ, Z.pow_succ_r in Hx by lia.
      change (2 ^ 1) with 2. mlia.
Qed.

Lemma mirrored_fold l s reg :
  Forall is_u8 l → mirrored s reg →
  mirrored (crc_fold s l) (foldl ref_bit reg (l ≫= lsb_first 8)).
Proof.
  intros Hl. revert s reg. induction Hl as [|b l Hb Hl IH]; intros s reg H; [done|].
  rewrite crc_fold_cons. cbn [mbind list_bind]. rewrite foldl_app. apply IH.
  rewrite crc32_bits_lsb_first by (unfold is_u8 in Hb; simpl; lia).
  clear -H. generalize (lsb_first 8 b). intros bits. revert s reg H.
  induction bits as [|x bits IH]; intros s reg H; simpl; [done|].
  by apply IH, mirrored_bit.
Qed.

(** C32: on every readable buffer the bitwise routine of the library makes no
    out-of-bounds access and returns the CRC-32 of docs/protocol.md: polynomial
    0x04C11DB7, initial value and final xor 0xFFFFFFFF, input and output
    reflected. *)
Theorem devmgr_crc32_reference bytes n :
  Forall is_u8 bytes → 0 ≤ n ≤ len bytes →
  devmgr_crc32 (Some bytes) n = Some (ref_crc32 (take (Z.to_nat n) bytes)).
Proof.
  intros Hb Hn. rewrite devmgr_crc32_spec by done. f_equal.
  unfold crc_of, ref_crc32, devmgr_crc32_finish. f_equal. symmetry.
  apply mirrored_reflect, mirrored_fold; [by apply Forall_take|].
  split; [done|split; [done|]]. intros i Hi.
  change DEVMGR_CRC32_INIT with (Z.ones 32). change 0xFFFFFFFF with (Z.ones 32).
  by rewrite !Z.ones_spec_low by lia.
Qed.

(** The ASCII text 123456789, whose check value the protocol document gives. *)
Definition check_input : list Z := [49; 50; 51; 52; 53; 54; 55; 56; 57].

Lemma devmgr_crc32_reference_witness :
  ref_crc32 check_input = 0xCBF43926 ∧
  devmgr_crc32 (Some check_input) 9 = Some (ref_crc32 (take (Z.to_nat 9) check_input)).
Proof.
  split; [by vm_compute|].
  apply (devmgr_crc32_reference check_input 9); [by refine (bool_decide_eq_true_1 _ _)|done].
Defined.

(** The CRC of a message can be computed over any fragmentation of it:
    updating the register fragment by fragment gives the register of the whole. *)
Theorem devmgr_crc32_update_fragments (state : Z) (fragments : list (list Z)) :
  foldl (λ s f, s ← s; devmgr_crc32_update s (Some f) (len f)) (Some state) fragments =
  devmgr_crc32_update state (Some (concat fragments)) (len (concat fragments)).
Proof.
  rewrite devmgr_crc32_update_spec, Nat2Z.id, firstn_all by lia.
  revert state. induction fragments as [|f fs IH]; intros state; [done|]. simpl.
  rewrite devmgr_crc32_update_spec, Nat2Z.id, firstn_all by lia.
  by rewrite IH, crc_fold_app.
Qed.
