(* ===== verification/RingBuffer.v ===== *)
(** * Ring buffer: src/common/ring_buffer.c

    The ring buffer that holds the undecoded input of the frame parser.  Its
    abstract value is the list of stored bytes, oldest first; [Queue]
    states what the operations promise on that value, and the ring operations
    are proved to implement it without leaving the storage array. *)

From S2P Require Import Prelude.

(** ** The code *)

Record devmgr_ring_buffer := mk_ring {
  ring_storage : list Z;
  ring_capacity : Z;
  ring_read_pos : Z;
  ring_size : Z;
}.

#[export] Instance eta_ring : Eta devmgr_ring_buffer := λ r,
  mk_ring (ring_storage r) (ring_capacity r) (ring_read_pos r) (ring_size r).

Definition minimum (left right : Z) : Z := if left <? right then left else right.

Definition devmgr_ring_init (ring : devmgr_ring_buffer) (storage : option (list Z))
    (capacity : Z) : Z * devmgr_ring_buffer :=
  match storage with
  | None => (DEVMGR_ERROR_INVALID, ring)
  | Some storage =>
      if capacity =? 0 then (DEVMGR_ERROR_INVALID, ring)
      else (DEVMGR_OK, mk_ring storage capacity 0 0)
  end.

Definition devmgr_ring_reset (ring : devmgr_ring_buffer) : devmgr_ring_buffer :=
  ring <| ring_read_pos := 0 |> <| ring_size := 0 |>.

Definition devmgr_ring_size (ring : devmgr_ring_buffer) : Z := ring.(ring_size).

Definition devmgr_ring_space (ring : devmgr_ring_buffer) : Z :=
  u64 (ring.(ring_capacity) - ring.(ring_size)).

Definition devmgr_ring_empty (ring : devmgr_ring_buffer) : bool :=
  devmgr_ring_size ring =? 0.

Definition devmgr_ring_full (ring : devmgr_ring_buffer) : bool :=
  ring.(ring_size) =? ring.(ring_capacity).

(** [a % b] on size_t, undefined for [b = 0]. *)
Definition size_rem (a b : Z) : option Z := if b =? 0 then None else Some (a mod b).

Definition devmgr_ring_write (ring : devmgr_ring_buffer) (data : option (list Z))
    (length : Z) : option (Z * devmgr_ring_buffer) :=
  match data with
  | None => Some (0, ring)
  | Some data =>
      if length =? 0 then Some (0, ring)
      else
        let count := minimum length (devmgr_ring_space ring) in
        write_pos ← size_rem (u64 (ring.(ring_read_pos) + ring.(ring_size)))
                             ring.(ring_capacity);
        let first := minimum count (u64 (ring.(ring_capacity) - write_pos)) in
        storage ← memcpy ring.(ring_storage) write_pos data 0 first;
        storage ← memcpy storage 0 data first (u64 (count - first));
        Some (count, ring <| ring_storage := storage |>
                          <| ring_size := u64 (ring.(ring_size) + count) |>)
  end.

(** The destination [data] is an array of the caller; the result is the count
    and the array after the call. *)
Definition devmgr_ring_peek (ring : devmgr_ring_buffer) (offset : Z) (data : list Z)
    (length : Z) : option (Z * list Z) :=
  if (ring.(ring_size) <=? offset) || (length =? 0) then Some (0, data)
  else
    let count := minimum length (u64 (ring.(ring_size) - offset)) in
    position ← size_rem (u64 (ring.(ring_read_pos) + offset)) ring.(ring_capacity);
    let first := minimum count (u64 (ring.(ring_capacity) - position)) in
    data ← memcpy data 0 ring.(ring_storage) position first;
    data ← memcpy data first ring.(ring_storage) 0 (u64 (count - first));
    Some (count, data).

Definition devmgr_ring_discard (ring : devmgr_ring_buffer) (length : Z)
    : option (Z * devmgr_ring_buffer) :=
  if length =? 0 then Some (0, ring)
  else
    let count := minimum length ring.(ring_size) in
    read_pos ← size_rem (u64 (ring.(ring_read_pos) + count)) ring.(ring_capacity);
    let size := u64 (ring.(ring_size) - count) in
    Some (count, ring <| ring_size := size |>
                      <| ring_read_pos := if size =? 0 then 0 else read_pos |>).

Definition devmgr_ring_read (ring : devmgr_ring_buffer) (data : list Z) (length : Z)
    : option (Z * list Z * devmgr_ring_buffer) :=
  '(count, data) ← devmgr_ring_peek ring 0 data length;
  '(_, ring) ← devmgr_ring_discard ring count;
  Some (count, data, ring).

Arguments devmgr_ring_write : simpl never.
Arguments devmgr_ring_peek : simpl never.
Arguments devmgr_ring_discard : simpl never.
Arguments devmgr_ring_read : simpl never.

(** ** Abstract value and invariant *)

Definition ring_wf (r : devmgr_ring_buffer) : Prop :=
  0 < ring_capacity r ≤ PTRDIFF_MAX ∧ len (ring_storage r) = ring_capacity r ∧
  0 ≤ ring_read_pos r < ring_capacity r ∧ 0 ≤ ring_size r ≤ ring_capacity r ∧
  Forall is_u8 (ring_storage r).

Definition contents (r : devmgr_ring_buffer) : list Z :=
  take (Z.to_nat (ring_size r))
       (drop (Z.to_nat (ring_read_pos r)) (ring_storage r) ++ ring_storage r).

(** The cell of the [i]-th stored byte. *)
Definition cell (r : devmgr_ring_buffer) (i : nat) : nat :=
  let p := ring_read_pos r + Z.of_nat i in
  Z.to_nat (if p <? ring_capacity r then p else p - ring_capacity r).

Lemma wrap_mod x c : 0 ≤ x < 2 * c → x mod c = if x <? c then x else x - c.
Proof.
  intros. ztest; [apply Z.mod_small; lia|].
  symmetry. apply Z.mod_unique_pos with 1; lia.
Qed.

Lemma minimum_min a b : minimum a b = Z.min a b.
Proof. unfold minimum. ztest; lia. Qed.

Lemma length_contents r : ring_wf r → len (contents r) = ring_size r.
Proof.
  intros (? & ? & ? & ? & _). unfold contents.
  rewrite length_take, length_app, length_drop. lia.
Qed.

Lemma lookup_contents r i :
  ring_wf r → Z.of_nat i < ring_size r → contents r !! i = ring_storage r !! cell r i.
Proof.
  intros (? & ? & ? & ? & _) ?. unfold contents, cell.
  rewrite lookup_take_lt by lia. ztest.
  - rewrite lookup_app_l, lookup_drop by (rewrite ?length_drop; lia). f_equal. lia.
  - rewrite lookup_app_r, length_drop by (rewrite ?length_drop; lia). f_equal. lia.
Qed.

Lemma contents_Forall r : ring_wf r → Forall is_u8 (contents r).
Proof.
  intros (_ & _ & _ & _ & ?). apply Forall_take, Forall_app; split; [|done].
  by apply Forall_drop.
Qed.

(** ** The promise: a bounded FIFO of bytes *)

Module Queue.

Definition write (capacity : Z) (q data : list Z) (n : Z) : Z * list Z :=
  let count := Z.min n (capacity - len q) in
  (count, q ++ take (Z.to_nat count) data).

Definition peek (q : list Z) (offset n : Z) : list Z := slice q offset n.

Definition discard (q : list Z) (n : Z) : Z * list Z :=
  (Z.min n (len q), drop (Z.to_nat n) q).

End Queue.

(** ** The ring implements it *)

(** The two memcpys of a write: cell [j] receives the byte of [data] that lies
    [j - wp] cells after the write position, cyclically, if there is one. *)
Lemma wrapped_write_lookup (st data : list Z) (cap wp count : Z) (j : nat) :
  let first := Z.min count (cap - wp) in
  len st = cap → 0 ≤ wp < cap → 0 ≤ count ≤ cap → count ≤ len data → Z.of_nat j < cap →
  splice (splice st wp (slice data 0 first)) 0 (slice data first (count - first)) !! j =
    if decide (wp ≤ Z.of_nat j < wp + count) then data !! (j - Z.to_nat wp)%nat
    else if decide (Z.of_nat j + cap < wp + count) then data !! Z.to_nat (Z.of_nat j + cap - wp)
    else st !! j.
Proof.
  intros first ? ? ? ? ?.
  assert (length (splice st wp (slice data 0 first)) = length st) as Hl
    by (apply length_splice; rewrite ?len_slice; lia).
  rewrite lookup_splice; rewrite ?len_slice, ?Hl; try lia.
  rewrite lookup_splice; rewrite ?len_slice; try lia.
  repeat case_decide; try lia; rewrite ?lookup_slice by lia; try done; f_equal; lia.
Qed.

Lemma ring_write_spec r data n :
  ring_wf r → Forall is_u8 data → 0 ≤ n ≤ len data →
  ∃ r', devmgr_ring_write r (Some data) n =
          Some (fst (Queue.write (ring_capacity r) (contents r) data n), r') ∧
        contents r' = snd (Queue.write (ring_capacity r) (contents r) data n) ∧
        ring_wf r' ∧ ring_capacity r' = ring_capacity r.
Proof.
  intros Hwf Hdata Hn. pose proof Hwf as (Hcap & Hst & Hrp & Hsz & Hb).
  pose proof (length_contents r Hwf) as Hlen.
  unfold devmgr_ring_write, Queue.write, size_rem, devmgr_ring_space. simpl.
  rewrite Hlen. unfold PTRDIFF_MAX in *.
  destruct (Z.eqb_spec n 0) as [->|].
  { exists r. rewrite Z.min_l, app_nil_r by lia. done. }
  zreduce. simpl. rewrite !minimum_min.
  rewrite (u64_id (ring_read_pos r + ring_size r)), wrap_mod by (unfold is_u64; lia).
  rewrite (u64_id (ring_capacity r - ring_size r)) by (unfold is_u64; lia).
  set (wp := if ring_read_pos r + ring_size r <? ring_capacity r then _ else _).
  assert (0 ≤ wp < ring_capacity r) by (unfold wp; ztest; lia).
  set (count := Z.min n (ring_capacity r - ring_size r)).
  rewrite (u64_id (ring_capacity r - wp)) by (unfold is_u64; lia).
  set (first := Z.min count (ring_capacity r - wp)).
  rewrite (u64_id (count - first)), (u64_id (ring_size r + count)) by (unfold is_u64; lia).
  rewrite memcpy_ok by lia. simpl.
  set (st1 := splice (ring_storage r) wp (slice data 0 first)).
  assert (len st1 = ring_capacity r).
  { unfold st1. rewrite length_splice; rewrite ?len_slice; lia. }
  rewrite memcpy_ok by lia. simpl. eexists. split; [done|].
  set (st2 := splice st1 0 (slice data first (count - first))).
  assert (len st2 = ring_capacity r).
  { unfold st2. rewrite length_splice; rewrite ?len_slice; lia. }
  assert (ring_wf (mk_ring st2 (ring_capacity r) (ring_read_pos r) (ring_size r + count)))
    as Hwf'.
  { unfold ring_wf, PTRDIFF_MAX. simpl. split_and!; try lia. unfold st2, st1.
    eauto with devmgr. }
  split_and!; [|done|done]. simpl.
  apply array_eq; [apply Nat2Z.inj; rewrite length_app, length_take, Nat2Z.inj_add;
    rewrite length_contents by done; simpl; lia|].
  intros i Hi. pose proof (length_contents _ Hwf') as Hlen'. simpl in Hlen'.
  rewrite lookup_contents by (simpl; auto; lia). unfold cell. simpl.
  unfold st2, st1, first.
  rewrite wrapped_write_lookup by (auto; try ztest; lia).
  destruct (decide (Z.of_nat i < ring_size r)).
  - rewrite lookup_app_l, lookup_contents by (auto; lia). unfold cell, wp in *.
    repeat ztest; repeat case_decide; try lia; done.
  - rewrite lookup_app_r, lookup_take_lt by lia. unfold wp in *.
    repeat ztest; repeat case_decide; try lia; f_equal; lia.
Qed.

(** The two memcpys of a peek: the cells from [p] on, cyclically. *)
Lemma wrapped_read_lookup (st dst : list Z) (cap p n : Z) (i : nat) :
  let first := Z.min n (cap - p) in
  len st = cap → 0 ≤ p < cap → 0 ≤ n ≤ cap → n ≤ len dst →
  splice (splice dst 0 (slice st p first)) first (slice st 0 (n - first)) !! i =
    if decide (Z.of_nat i < n) then
      st !! Z.to_nat (if p + Z.of_nat i <? cap then p + Z.of_nat i else p + Z.of_nat i - cap)
    else dst !! i.
Proof.
  intros first ? ? ? ?.
  assert (length (splice dst 0 (slice st p first)) = length dst) as Hl
    by (apply length_splice; rewrite ?len_slice; lia).
  rewrite lookup_splice; rewrite ?len_slice, ?Hl; try lia.
  rewrite lookup_splice; rewrite ?len_slice; try lia.
  repeat case_decide; try lia; ztests; try (rewrite lookup_slice by lia); f_equal; lia.
Qed.

Definition peek_count (q : list Z) (offset n : Z) : Z := Z.max 0 (Z.min n (len q - offset)).

Lemma ring_peek_spec r offset dst n :
  ring_wf r → 0 ≤ offset → 0 ≤ n → peek_count (contents r) offset n ≤ len dst →
  let count := peek_count (contents r) offset n in
  devmgr_ring_peek r offset dst n =
    Some (count, Queue.peek (contents r) offset count ++ drop (Z.to_nat count) dst).
Proof.
  intros Hwf ?? Hdst count. fold count in Hdst.
  pose proof Hwf as (Hcap & Hst & Hrp & Hsz & Hb).
  assert (count = Z.max 0 (Z.min n (ring_size r - offset))) as Hcount
    by (unfold count, peek_count; by rewrite length_contents).
  clearbody count. pose proof (length_contents r Hwf) as Hlen.
  unfold devmgr_ring_peek, Queue.peek, size_rem. simpl. unfold PTRDIFF_MAX in *.
  destruct (decide (count = 0)) as [Hc|].
  { rewrite Hc. unfold slice. simpl. rewrite drop_0. by ztests. }
  zreduce. simpl. rewrite !minimum_min.
  rewrite (u64_id (ring_read_pos r + offset)), wrap_mod by (unfold is_u64; lia).
  rewrite (u64_id (ring_size r - offset)) by (unfold is_u64; lia).
  replace (Z.min n (ring_size r - offset)) with count by lia.
  set (p := if ring_read_pos r + offset <? ring_capacity r then _ else _).
  assert (0 ≤ p < ring_capacity r) by (unfold p; ztest; lia).
  rewrite (u64_id (ring_capacity r - p)), u64_id by (unfold is_u64; lia).
  rewrite memcpy_ok by lia. simpl.
  rewrite memcpy_ok; try (rewrite length_splice; rewrite ?len_slice); try lia.
  simpl. do 2 f_equal. apply list_eq. intros i.
  rewrite wrapped_read_lookup by lia. case_decide.
  - rewrite lookup_app_l by (rewrite length_slice; lia).
    rewrite lookup_slice, lookup_contents by (auto; lia).
    unfold cell, p. f_equal. ztests; lia.
  - rewrite lookup_app_r, length_slice, lookup_drop by (rewrite ?length_slice; lia).
    f_equal. lia.
Qed.

Lemma ring_discard_spec r n :
  ring_wf r → 0 ≤ n →
  ∃ r', devmgr_ring_discard r n = Some (fst (Queue.discard (contents r) n), r') ∧
        contents r' = snd (Queue.discard (contents r) n) ∧
        ring_wf r' ∧ ring_capacity r' = ring_capacity r.
Proof.
  intros Hwf Hn. pose proof Hwf as (Hcap & Hst & Hrp & Hsz & Hb).
  pose proof (length_contents r Hwf) as Hlen.
  unfold devmgr_ring_discard, Queue.discard, size_rem. simpl. rewrite Hlen.
  unfold PTRDIFF_MAX in *. destruct (Z.eqb_spec n 0) as [->|].
  { exists r. rewrite Z.min_l by lia. done. }
  zreduce. simpl. rewrite !minimum_min.
  rewrite (u64_id (ring_read_pos r + _)), wrap_mod by (unfold is_u64; lia).
  rewrite (u64_id (ring_size r - _)) by (unfold is_u64; lia).
  set (count := Z.min n (ring_size r)). eexists. split; [done|].
  match goal with |- contents ?r' = _ ∧ _ => set (r'' := r') end.
  assert (ring_wf r'') as Hwf'.
  { unfold ring_wf, r'', PTRDIFF_MAX. simpl. split_and!; try done; repeat ztest; lia. }
  split_and!; [|done|done]. pose proof (length_contents _ Hwf') as Hlen'. simpl in Hlen'.
  apply array_eq; [rewrite length_drop; lia|]. intros i Hi.
  rewrite lookup_contents, lookup_drop, lookup_contents by (simpl; auto; lia).
  unfold cell. simpl. f_equal. repeat ztest; lia.
Qed.

Lemma ring_init_spec r storage capacity :
  Forall is_u8 storage → len storage = capacity → 0 < capacity ≤ PTRDIFF_MAX →
  ∃ r', devmgr_ring_init r (Some storage) capacity = (DEVMGR_OK, r') ∧
        ring_wf r' ∧ contents r' = [] ∧ ring_capacity r' = capacity.
Proof.
  intros. unfold devmgr_ring_init. rewrite (proj2 (Z.eqb_neq _ _)) by lia.
  eexists. split; [done|]. unfold ring_wf. simpl. split_and!; try done; lia.
Qed.

Lemma ring_reset_spec r :
  ring_wf r → ring_wf (devmgr_ring_reset r) ∧ contents (devmgr_ring_reset r) = [].
Proof. intros (?&?&?&?&?). unfold ring_wf. simpl. split_and!; try done; lia. Qed.

Lemma ring_space_spec r :
  ring_wf r → devmgr_ring_space r = ring_capacity r - len (contents r).
Proof.
  intros Hwf. pose proof Hwf as (?&?&?&?&?). rewrite length_contents by done.
  unfold devmgr_ring_space. apply u64_id. unfold is_u64, PTRDIFF_MAX in *. lia.
Qed.

Lemma ring_read_spec r dst n :
  ring_wf r → 0 ≤ n ≤ len dst →
  let count := Z.min n (len (contents r)) in
  ∃ r', devmgr_ring_read r dst n =
          Some (count, take (Z.to_nat count) (contents r) ++ drop (Z.to_nat count) dst, r') ∧
        contents r' = drop (Z.to_nat count) (contents r) ∧
        ring_wf r' ∧ ring_capacity r' = ring_capacity r.
Proof.
  intros Hwf Hn count.
  assert (peek_count (contents r) 0 n = count) as Hc by (unfold peek_count; lia).
  unfold devmgr_ring_read. rewrite ring_peek_spec by (auto; lia). simpl. rewrite Hc.
  destruct (ring_discard_spec r count) as (r' & -> & Hr' & ?); [done|lia|].
  simpl in *. exists r'. by rewrite Hr', <- slice_0.
Qed.

(** ** Sequences of operations *)

Inductive ring_op :=
  | OpWrite (data : list Z)
  | OpRead (n : Z)
  | OpPeek (offset n : Z)
  | OpDiscard (n : Z)
  | OpReset.

Definition op_ok (o : ring_op) : Prop :=
  match o with
  | OpWrite data => Forall is_u8 data
  | OpRead n | OpDiscard n => 0 ≤ n
  | OpPeek offset n => 0 ≤ offset ∧ 0 ≤ n
  | OpReset => True
  end.

(** One call on the ring; what the caller observes is the returned count and
    the bytes delivered into a fresh buffer of the requested length. *)
Definition ring_call (o : ring_op) (r : devmgr_ring_buffer)
    : option ((Z * list Z) * devmgr_ring_buffer) :=
  match o with
  | OpWrite data => '(c, r) ← devmgr_ring_write r (Some data) (len data); Some ((c, []), r)
  | OpRead n =>
      '(c, dst, r) ← devmgr_ring_read r (zeros n) n; Some ((c, take (Z.to_nat c) dst), r)
  | OpPeek offset n =>
      '(c, dst) ← devmgr_ring_peek r offset (zeros n) n; Some ((c, take (Z.to_nat c) dst), r)
  | OpDiscard n => '(c, r) ← devmgr_ring_discard r n; Some ((c, []), r)
  | OpReset => Some ((0, []), devmgr_ring_reset r)
  end.

(** The same call on the bounded FIFO. *)
Definition queue_call (capacity : Z) (o : ring_op) (q : list Z) : (Z * list Z) * list Z :=
  match o with
  | OpWrite data => let '(c, q) := Queue.write capacity q data (len data) in ((c, []), q)
  | OpRead n =>
      let c := Z.min n (len q) in ((c, take (Z.to_nat c) q), drop (Z.to_nat c) q)
  | OpPeek offset n =>
      let c := peek_count q offset n in ((c, Queue.peek q offset c), q)
  | OpDiscard n => let '(c, q) := Queue.discard q n in ((c, []), q)
  | OpReset => ((0, []), [])
  end.

Fixpoint ring_run (os : list ring_op) (r : devmgr_ring_buffer)
    : option (list (Z * list Z) * devmgr_ring_buffer) :=
  match os with
  | [] => Some ([], r)
  | o :: os =>
      '(out, r) ← ring_call o r;
      '(outs, r) ← ring_run os r;
      Some (out :: outs, r)
  end.

Fixpoint queue_run (capacity : Z) (os : list ring_op) (q : list Z)
    : list (Z * list Z) * list Z :=
  match os with
  | [] => ([], q)
  | o :: os =>
      let '(out, q) := queue_call capacity o q in
      let '(outs, q) := queue_run capacity os q in (out :: outs, q)
  end.

Lemma ring_call_refines o r :
  ring_wf r → op_ok o →
  ∃ r', ring_call o r = Some (fst (queue_call (ring_capacity r) o (contents r)), r') ∧
        contents r' = snd (queue_call (ring_capacity r) o (contents r)) ∧
        ring_wf r' ∧ ring_capacity r' = ring_capacity r.
Proof.
  intros Hwf Ho. destruct o as [data|n|offset n|n|]; simpl in *.
  - destruct (ring_write_spec r data (len data)) as (r' & -> & ?); [done..|lia|]. by exists r'.
  - destruct (ring_read_spec r (zeros n) n) as (r' & -> & ?); [done|rewrite len_zeros; lia|].
    exists r'. simpl. rewrite take_app_length'; [done|rewrite length_take; lia].
  - destruct Ho. assert (0 ≤ peek_count (contents r) offset n ≤ n) by (unfold peek_count; lia).
    rewrite ring_peek_spec by (rewrite ?len_zeros; auto; lia). exists r. simpl.
    rewrite take_app_length'; [done|]. unfold Queue.peek, peek_count in *.
    destruct (decide (offset ≤ len (contents r))).
    + rewrite length_slice; lia.
    + unfold slice. rewrite length_take, length_drop. lia.
  - destruct (ring_discard_spec r n) as (r' & -> & ?); [done..|]. by exists r'.
  - exists (devmgr_ring_reset r). destruct (ring_reset_spec r Hwf) as [? ->]. done.
Qed.

(** C31: every sequence of ring operations, from any well-formed ring, returns
    the counts and bytes that a FIFO queue of the same capacity returns, makes
    no access outside the storage array and leaves a well-formed ring holding
    the queue's contents. *)
Theorem ring_refines_bounded_fifo os r :
  ring_wf r → Forall op_ok os →
  ∃ r', ring_run os r = Some (fst (queue_run (ring_capacity r) os (contents r)), r') ∧
        contents r' = snd (queue_run (ring_capacity r) os (contents r)) ∧ ring_wf r'.
Proof.
  intros Hwf Hos. revert r Hwf. induction Hos as [|o os Ho Hos IH]; intros r Hwf; simpl.
  { by exists r. }
  destruct (ring_call_refines o r Hwf Ho) as (r1 & -> & Hq & Hwf1 & Hcap). simpl.
  destruct (IH r1 Hwf1) as (r2 & -> & Hq2 & ?). simpl. exists r2.
  rewrite Hcap, Hq in *.
  destruct (queue_call (ring_capacity r) o (contents r)) as [out q]. simpl in *.
  destruct (queue_run (ring_capacity r) os q) as [outs q']. done.
Qed.

(** A write that wraps around the end of the storage array and is read back. *)
Definition wrapping_run : list ring_op :=
  [OpWrite [1; 2; 3]; OpDiscard 2; OpWrite [4; 5; 6]; OpPeek 1 2; OpRead 9].

Lemma ring_refines_bounded_fifo_witness :
  ring_wf (mk_ring (zeros 4) 4 0 0) ∧
  ring_run wrapping_run (mk_ring (zeros 4) 4 0 0) =
    Some ([(3, []); (2, []); (3, []); (2, [4; 5]); (4, [3; 4; 5; 6])],
          mk_ring [5; 6; 3; 4] 4 0 0) ∧
  ∃ r', ring_run wrapping_run (mk_ring (zeros 4) 4 0 0) =
          Some (fst (queue_run 4 wrapping_run []), r') ∧
        contents r' = snd (queue_run 4 wrapping_run []) ∧ ring_wf r'.
Proof.
  assert (ring_wf (mk_ring (zeros 4) 4 0 0)) as Hwf.
  { unfold ring_wf. simpl. split_and!; try done. apply zeros_Forall. }
  split_and!; [done|by vm_compute|].
  apply (ring_refines_bounded_fifo wrapping_run (mk_ring (zeros 4) 4 0 0) Hwf).
  repeat constructor; unfold is_u8; simpl; lia.
Defined.
