(* ===== verification/Frame.v ===== *)
(** * Wire frames: include/devmgr/protocol.h and src/protocol/frame.c

    The little-endian accessors and the encoder and decoder of device frames.
    [wire_frame] is what a frame means, [encode_wire] the byte layout of
    docs/protocol.md; the C encoder and decoder are proved to be that layout
    and its exact inverse, and the decoder to reject every short burst error. *)

From S2P Require Import Prelude Crc32.

(** ** The code *)

Definition DEVMGR_PROTOCOL_MAGIC : Z := 0x4D44.
Definition DEVMGR_PROTOCOL_VERSION : Z := 1.
Definition DEVMGR_PROTOCOL_HEADER_SIZE : Z := 12.
Definition DEVMGR_PROTOCOL_CRC_SIZE : Z := 4.
Definition DEVMGR_PROTOCOL_MAX_PAYLOAD : Z := 4096.
Definition DEVMGR_PROTOCOL_MAX_FRAME : Z :=
  DEVMGR_PROTOCOL_HEADER_SIZE + DEVMGR_PROTOCOL_MAX_PAYLOAD + DEVMGR_PROTOCOL_CRC_SIZE.

(** enum devmgr_message_type *)
Definition DEVMGR_MSG_PING : Z := 0x01.
Definition DEVMGR_MSG_GET_INFO : Z := 0x02.
Definition DEVMGR_MSG_GET_HEALTH : Z := 0x03.
Definition DEVMGR_MSG_GET_STATS : Z := 0x04.
Definition DEVMGR_MSG_START_TELEMETRY : Z := 0x05.
Definition DEVMGR_MSG_STOP_TELEMETRY : Z := 0x06.
Definition DEVMGR_MSG_ENTER_BOOTLOADER : Z := 0x10.
Definition DEVMGR_MSG_FW_BEGIN : Z := 0x11.
Definition DEVMGR_MSG_FW_DATA : Z := 0x12.
Definition DEVMGR_MSG_FW_STATUS : Z := 0x13.
Definition DEVMGR_MSG_FW_END : Z := 0x14.
Definition DEVMGR_MSG_FW_VERIFY : Z := 0x15.
Definition DEVMGR_MSG_FW_ACTIVATE : Z := 0x16.
Definition DEVMGR_MSG_REBOOT : Z := 0x17.
Definition DEVMGR_MSG_ACK : Z := 0x80.
Definition DEVMGR_MSG_NACK : Z := 0x81.
Definition DEVMGR_MSG_ERROR : Z := 0x82.
Definition DEVMGR_MSG_TELEMETRY : Z := 0x83.

(** enum devmgr_frame_flags *)
Definition DEVMGR_FRAME_RESPONSE : Z := 1.
Definition DEVMGR_FRAME_ACK_REQUIRED : Z := 2.
Definition DEVMGR_FRAME_RETRY : Z := 4.

(** struct devmgr_frame; [frame_payload] is the whole array of
    DEVMGR_PROTOCOL_MAX_PAYLOAD bytes. *)
Record devmgr_frame := mk_frame {
  frame_type : Z;
  frame_flags : Z;
  frame_sequence : Z;
  frame_payload_length : Z;
  frame_payload : list Z;
}.

#[export] Instance eta_frame : Eta devmgr_frame := λ f,
  mk_frame (frame_type f) (frame_flags f) (frame_sequence f) (frame_payload_length f)
           (frame_payload f).

(** [memset(frame, 0, sizeof( *frame))] *)
Definition zero_frame : devmgr_frame :=
  mk_frame 0 0 0 0 (zeros DEVMGR_PROTOCOL_MAX_PAYLOAD).

Definition devmgr_put_le16 (output : list Z) (off value : Z) : option (list Z) :=
  output ← store output off (u8 (Z.land value 0x00FF));
  store output (off + 1) (u8 (Z.shiftr value 8)).

Definition devmgr_put_le32 (output : list Z) (off value : Z) : option (list Z) :=
  output ← store output off (u8 (Z.land value 0x000000FF));
  output ← store output (off + 1) (u8 (Z.land (Z.shiftr value 8) 0x000000FF));
  output ← store output (off + 2) (u8 (Z.land (Z.shiftr value 16) 0x000000FF));
  store output (off + 3) (u8 (Z.shiftr value 24)).

Definition devmgr_get_le16 (input : list Z) (off : Z) : option Z :=
  b0 ← load input off;
  b1 ← load input (off + 1);
  Some (u16 (Z.lor b0 (Z.shiftl b1 8))).

Definition devmgr_get_le32 (input : list Z) (off : Z) : option Z :=
  b0 ← load input off;
  b1 ← load input (off + 1);
  b2 ← load input (off + 2);
  b3 ← load input (off + 3);
  Some (Z.lor (Z.lor (Z.lor b0 (Z.shiftl b1 8)) (Z.shiftl b2 16)) (Z.shiftl b3 24)).

(** The result is the status, the output array and [*encoded_length] after the
    call. *)
Definition devmgr_frame_encode (frame : devmgr_frame) (output : list Z)
    (capacity encoded_length : Z) : option (Z * list Z * Z) :=
  if DEVMGR_PROTOCOL_MAX_PAYLOAD <? frame.(frame_payload_length) then
    Some (DEVMGR_ERROR_INVALID, output, encoded_length)
  else
    let frame_length :=
      DEVMGR_PROTOCOL_HEADER_SIZE + frame.(frame_payload_length) + DEVMGR_PROTOCOL_CRC_SIZE in
    if capacity <? frame_length then Some (DEVMGR_ERROR_OVERFLOW, output, encoded_length)
    else
      output ← devmgr_put_le16 output 0 DEVMGR_PROTOCOL_MAGIC;
      output ← store output 2 DEVMGR_PROTOCOL_VERSION;
      output ← store output 3 frame.(frame_type);
      output ← store output 4 frame.(frame_flags);
      output ← store output 5 0;
      output ← devmgr_put_le32 output 6 frame.(frame_sequence);
      output ← devmgr_put_le16 output 10 frame.(frame_payload_length);
      output ← memcpy output DEVMGR_PROTOCOL_HEADER_SIZE frame.(frame_payload) 0
                      frame.(frame_payload_length);
      crc ← devmgr_crc32 (Some output)
                         (DEVMGR_PROTOCOL_HEADER_SIZE + frame.(frame_payload_length));
      output ← devmgr_put_le32 output
                 (DEVMGR_PROTOCOL_HEADER_SIZE + frame.(frame_payload_length)) crc;
      Some (DEVMGR_OK, output, frame_length).

Definition devmgr_frame_decode (data : list Z) (length : Z) (frame : devmgr_frame)
    : option (Z * devmgr_frame) :=
  if length <? DEVMGR_PROTOCOL_HEADER_SIZE + DEVMGR_PROTOCOL_CRC_SIZE then
    Some (DEVMGR_ERROR_INVALID, frame)
  else
    magic ← devmgr_get_le16 data 0;
    version ← load data 2;
    reserved ← load data 5;
    if negb (magic =? DEVMGR_PROTOCOL_MAGIC) || negb (version =? DEVMGR_PROTOCOL_VERSION) ||
       negb (reserved =? 0)
    then Some (DEVMGR_ERROR_PROTOCOL, frame)
    else
      payload_length ← devmgr_get_le16 data 10;
      if DEVMGR_PROTOCOL_MAX_PAYLOAD <? payload_length then Some (DEVMGR_ERROR_LIMIT, frame)
      else
        let expected_length :=
          DEVMGR_PROTOCOL_HEADER_SIZE + payload_length + DEVMGR_PROTOCOL_CRC_SIZE in
        if negb (length =? expected_length) then Some (DEVMGR_ERROR_INVALID, frame)
        else
          expected_crc ← devmgr_get_le32 data (DEVMGR_PROTOCOL_HEADER_SIZE + payload_length);
          actual_crc ← devmgr_crc32 (Some data) (DEVMGR_PROTOCOL_HEADER_SIZE + payload_length);
          if negb (actual_crc =? expected_crc) then Some (DEVMGR_ERROR_CRC, frame)
          else
            type ← load data 3;
            flags ← load data 4;
            sequence ← devmgr_get_le32 data 6;
            payload ← memcpy frame.(frame_payload) 0 data DEVMGR_PROTOCOL_HEADER_SIZE
                             payload_length;
            Some (DEVMGR_OK, mk_frame type flags sequence payload_length payload).

Arguments devmgr_put_le16 : simpl never.
Arguments devmgr_put_le32 : simpl never.
Arguments devmgr_get_le16 : simpl never.
Arguments devmgr_get_le32 : simpl never.
Arguments devmgr_frame_encode : simpl never.
Arguments devmgr_frame_decode : simpl never.

(** ** Accessors *)

(** Names the byte at [a[i]]. *)
Ltac load_byte a i b :=
  let E := fresh "E" in let Hb := fresh "H" b in
  destruct (load_u8 a i ltac:(done) ltac:(lia)) as (b & E & Hb); rewrite ?E; simpl.

Lemma get_le16_spec a off :
  Forall is_u8 a → 0 ≤ off → off + 2 ≤ len a →
  devmgr_get_le16 a off = Some (le_value (slice a off 2)).
Proof.
  intros Ha ? ?. unfold devmgr_get_le16.
  load_byte a off b0. load_byte a (off + 1) b1.
  rewrite (slice_cons a off 2 b0), (slice_cons a (off + 1) _ b1) by (done || lia).
  rewrite !le_value_cons by done. change (2 - 1 - 1) with 0.
  rewrite slice_nil, le_value_nil. unfold is_u8 in *.
  rewrite lor_shiftl_8 by lia. rewrite u16_id; [f_equal; lia|]. unfold is_u16. lia.
Qed.

Lemma get_le32_spec a off :
  Forall is_u8 a → 0 ≤ off → off + 4 ≤ len a →
  devmgr_get_le32 a off = Some (le_value (slice a off 4)).
Proof.
  intros Ha ? ?. unfold devmgr_get_le32.
  load_byte a off b0. load_byte a (off + 1) b1.
  load_byte a (off + 2) b2. load_byte a (off + 3) b3.
  rewrite (slice_cons a off 4 b0), (slice_cons a (off + 1) _ b1) by (done || lia).
  replace (off + 1 + 1) with (off + 2) by lia.
  rewrite (slice_cons a (off + 2) _ b2) by (done || lia).
  replace (off + 2 + 1) with (off + 3) by lia.
  rewrite (slice_cons a (off + 3) _ b3), !le_value_cons by (done || lia).
  change (4 - 1 - 1 - 1 - 1) with 0. rewrite slice_nil, le_value_nil. unfold is_u8 in *.
  rewrite lor_shiftl_8, lor_shiftl_16, lor_shiftl_24 by lia. f_equal. lia.
Qed.

Lemma put_le16_app p r off v :
  is_u16 v → off = len p → 2 ≤ len r →
  devmgr_put_le16 (p ++ r) off v = Some ((p ++ le_bytes 2 v) ++ drop 2 r).
Proof.
  intros Hv -> ?. unfold devmgr_put_le16, is_u16 in *.
  rewrite store_app by lia. simpl.
  rewrite store_app by (rewrite ?length_app, ?length_drop; simpl; lia).
  rewrite drop_drop, <- (assoc_L (++)). simpl. unfold u8.
  change 255 with (Z.ones 8). rewrite Z.land_ones, Z.shiftr_div_pow2 by lia.
  change (2 ^ 8) with 256. change (le_bytes 2 v) with [v mod 256; v / 256 mod 256].
  rewrite Z.mod_mod by lia. by rewrite <- !(assoc_L (++)).
Qed.

Lemma put_le32_app p r off v :
  off = len p → 4 ≤ len r →
  devmgr_put_le32 (p ++ r) off v = Some ((p ++ le_bytes 4 v) ++ drop 4 r).
Proof.
  intros -> ?. unfold devmgr_put_le32.
  rewrite store_app by lia. simpl.
  rewrite store_app by (rewrite ?length_app, ?length_drop; simpl; lia). simpl.
  rewrite store_app by (rewrite ?length_app, ?length_drop; simpl; lia). simpl.
  rewrite store_app by (rewrite ?length_app, ?length_drop; simpl; lia).
  rewrite !drop_drop, <- !(assoc_L (++)). simpl. unfold u8.
  change 255 with (Z.ones 8). rewrite !Z.land_ones, !Z.shiftr_div_pow2 by lia.
  change (2 ^ 8) with 256. change (2 ^ 16) with (256 * 256).
  change (2 ^ 24) with (256 * 256 * 256). rewrite <- !Z.div_div by lia.
  change (le_bytes 4 v) with
    [v mod 256; v / 256 mod 256; v / 256 / 256 mod 256; v / 256 / 256 / 256 mod 256].
  by rewrite !Z.mod_mod, <- ?(assoc_L (++)) by lia.
Qed.

Lemma put_le32_spec a off v :
  0 ≤ off → off + 4 ≤ len a →
  devmgr_put_le32 a off v = Some (splice a off (le_bytes 4 v)).
Proof.
  intros. destruct (take_drop_at a off) as (p & r & -> & ? & ?); [lia|].
  rewrite put_le32_app, splice_app by (rewrite ?length_le_bytes; done || lia). done.
Qed.

(** ** The wire format *)

(** What a frame says: its fields and the payload bytes in use. *)
Record wire_frame := mk_wire {
  w_type : Z;
  w_flags : Z;
  w_sequence : Z;
  w_payload : list Z;
}.

#[export] Instance wire_frame_eq_dec : EqDecision wire_frame.
Proof. solve_decision. Defined.

Definition wire_ok (w : wire_frame) : Prop :=
  is_u8 (w_type w) ∧ is_u8 (w_flags w) ∧ is_u32 (w_sequence w) ∧
  Forall is_u8 (w_payload w) ∧ len (w_payload w) ≤ DEVMGR_PROTOCOL_MAX_PAYLOAD.

Definition frame_ok (f : devmgr_frame) : Prop :=
  is_u8 (frame_type f) ∧ is_u8 (frame_flags f) ∧ is_u32 (frame_sequence f) ∧
  0 ≤ frame_payload_length f ≤ DEVMGR_PROTOCOL_MAX_PAYLOAD ∧
  len (frame_payload f) = DEVMGR_PROTOCOL_MAX_PAYLOAD ∧ Forall is_u8 (frame_payload f).

Definition view (f : devmgr_frame) : wire_frame :=
  mk_wire (frame_type f) (frame_flags f) (frame_sequence f)
          (slice (frame_payload f) 0 (frame_payload_length f)).

(** Frames that say the same: bytes beyond [payload_length] do not count. *)
#[export] Instance frame_equiv : Equiv devmgr_frame := λ f g, view f = view g.

#[export] Instance frame_equivalence : Equivalence (≡@{devmgr_frame}).
Proof. split; red; unfold equiv, frame_equiv; congruence. Qed.

(** Bytes 0 to 11+N of docs/protocol.md. *)
Definition encode_body (w : wire_frame) : list Z :=
  le_bytes 2 DEVMGR_PROTOCOL_MAGIC ++ [DEVMGR_PROTOCOL_VERSION; w_type w; w_flags w; 0] ++
  le_bytes 4 (w_sequence w) ++ le_bytes 2 (len (w_payload w)) ++ w_payload w.

Definition encode_wire (w : wire_frame) : list Z :=
  encode_body w ++ le_bytes 4 (crc_of (encode_body w)).

Arguments encode_body : simpl never.
Arguments encode_wire : simpl never.

Lemma length_encode_body w : length (encode_body w) = (12 + length (w_payload w))%nat.
Proof. unfold encode_body. rewrite !length_app, !length_le_bytes. simpl. lia. Qed.

Lemma length_encode_wire w : len (encode_wire w) = 16 + len (w_payload w).
Proof. unfold encode_wire. rewrite length_app, length_encode_body, length_le_bytes. lia. Qed.

Lemma encode_body_Forall w : wire_ok w → Forall is_u8 (encode_body w).
Proof.
  intros (? & ? & ? & ? & ?). unfold encode_body.
  rewrite !Forall_app, !Forall_cons. split_and!; auto with devmgr; done.
Qed.

Lemma encode_wire_Forall w : wire_ok w → Forall is_u8 (encode_wire w).
Proof. intros. apply Forall_app; split; auto using encode_body_Forall with devmgr. Qed.

Lemma view_ok f : frame_ok f → wire_ok (view f).
Proof.
  intros (? & ? & ? & ? & Hl & ?). unfold DEVMGR_PROTOCOL_MAX_PAYLOAD in *.
  split_and!; simpl; auto with devmgr. rewrite len_slice; unfold DEVMGR_PROTOCOL_MAX_PAYLOAD; lia.
Qed.

Lemma len_view_payload f : frame_ok f → len (w_payload (view f)) = frame_payload_length f.
Proof.
  intros (? & ? & ? & ? & Hl & ?). unfold DEVMGR_PROTOCOL_MAX_PAYLOAD in *.
  simpl. rewrite len_slice; lia.
Qed.

(** ** The encoder produces the wire format *)

Ltac len_solve :=
  rewrite ?length_app, ?length_drop, ?length_le_bytes, ?length_cons, ?length_nil; lia.

Lemma frame_encode_spec f output capacity encoded_length :
  frame_ok f → 16 + frame_payload_length f ≤ capacity ≤ len output →
  devmgr_frame_encode f output capacity encoded_length =
    Some (DEVMGR_OK, encode_wire (view f) ++ drop (length (encode_wire (view f))) output,
          len (encode_wire (view f))).
Proof.
  intros Hf Hcap. pose proof (view_ok f Hf) as Hw. pose proof (len_view_payload f Hf) as Hpl.
  pose proof Hf as (? & ? & ? & Hn & Hl & ?).
  unfold devmgr_frame_encode, DEVMGR_PROTOCOL_MAX_PAYLOAD, DEVMGR_PROTOCOL_HEADER_SIZE,
    DEVMGR_PROTOCOL_CRC_SIZE in *.
  zreduce. change output with ([] ++ output) at 1.
  assert (is_u16 (frame_payload_length f)) by (unfold is_u16; lia).
  rewrite put_le16_app by (done || len_solve). run_stmt.
  do 4 (rewrite store_app by len_solve; run_stmt).
  rewrite put_le32_app by (done || len_solve). run_stmt.
  rewrite put_le16_app by (done || len_solve). run_stmt.
  unfold memcpy. rewrite mem_read_ok by lia. run_stmt.
  rewrite mem_write_app by (rewrite ?len_slice by lia; len_solve). run_stmt.
  match goal with |- context [devmgr_crc32 (Some (?p ++ _))] =>
    assert (p = encode_body (view f)) as -> end.
  { unfold encode_body. rewrite Hpl, <- !(assoc_L (++)). done. }
  rewrite !drop_drop.
  assert (length (encode_body (view f)) = Z.to_nat (12 + frame_payload_length f)) as Hlb
    by (rewrite length_encode_body; lia).
  assert (length (slice (frame_payload f) 0 (frame_payload_length f)) =
          Z.to_nat (frame_payload_length f)) as -> by (rewrite length_slice; lia).
  rewrite devmgr_crc32_spec by len_solve.
  rewrite take_app_length' by lia. run_stmt.
  rewrite put_le32_app by (done || len_solve || by apply crc_of_u32, encode_body_Forall).
  run_stmt. rewrite length_encode_wire, Hpl, drop_drop. do 2 f_equal; [f_equal|lia].
  unfold encode_wire. f_equal. f_equal. rewrite length_app, Hlb, length_le_bytes. lia.
Qed.

(** ** The decoder inverts the wire format *)

(** The value of a field of the message, and the field itself. *)
Definition field (w : list Z) (off n : Z) : Z := le_value (slice w off n).

(** The decoder on a message [w] of the announced length: a status and, when it
    is DEVMGR_OK, what the frame says. *)
Definition decode_wire (w : list Z) : Z * wire_frame :=
  let v := mk_wire (field w 3 1) (field w 4 1) (field w 6 4) (slice w 12 (field w 10 2)) in
  if len w <? 16 then (DEVMGR_ERROR_INVALID, v)
  else if negb (field w 0 2 =? DEVMGR_PROTOCOL_MAGIC) || negb (field w 2 1 =? 1) ||
          negb (field w 5 1 =? 0) then (DEVMGR_ERROR_PROTOCOL, v)
  else if DEVMGR_PROTOCOL_MAX_PAYLOAD <? field w 10 2 then (DEVMGR_ERROR_LIMIT, v)
  else if negb (len w =? 16 + field w 10 2) then (DEVMGR_ERROR_INVALID, v)
  else if negb (crc_of (slice w 0 (12 + field w 10 2)) =? field w (12 + field w 10 2) 4)
  then (DEVMGR_ERROR_CRC, v)
  else (DEVMGR_OK, v).

(** A frame that receives a decoded message; the rest of its array stays. *)
Definition fill (frame : devmgr_frame) (w : wire_frame) : devmgr_frame :=
  mk_frame (w_type w) (w_flags w) (w_sequence w) (len (w_payload w))
           (w_payload w ++ drop (length (w_payload w)) (frame_payload frame)).

Lemma view_fill frame w : view (fill frame w) = w.
Proof. unfold view. simpl. rewrite slice_prefix by done. by destruct w. Qed.

(** The payload array of a frame whose other contents may be indeterminate. *)
Definition payload_array_ok (f : devmgr_frame) : Prop :=
  len (frame_payload f) = DEVMGR_PROTOCOL_MAX_PAYLOAD ∧ Forall is_u8 (frame_payload f).

Lemma frame_ok_array f : frame_ok f → payload_array_ok f.
Proof. by intros (? & ? & ? & ? & ? & ?). Qed.

#[export] Hint Resolve frame_ok_array : devmgr.

Lemma fill_ok frame w : wire_ok w → payload_array_ok frame → frame_ok (fill frame w).
Proof.
  intros (? & ? & ? & ? & ?) [Hl ?].
  unfold DEVMGR_PROTOCOL_MAX_PAYLOAD, frame_ok in *. simpl.
  split_and!; try done; try lia.
  - rewrite length_app, length_drop. unfold DEVMGR_PROTOCOL_MAX_PAYLOAD. lia.
  - apply Forall_app; split; [done|by apply Forall_drop].
Qed.

Lemma load_field a off :
  Forall is_u8 a → 0 ≤ off < len a → load a off = Some (field a off 1).
Proof.
  intros Ha ?. destruct (load_u8 a off Ha ltac:(lia)) as (b & E & Hb). rewrite E.
  unfold field. rewrite (slice_cons _ _ _ _ E), le_value_cons by (done || lia).
  change (1 - 1) with 0. rewrite slice_nil, le_value_nil. f_equal. lia.
Qed.

Lemma get_le16_field a off :
  Forall is_u8 a → 0 ≤ off → off + 2 ≤ len a → devmgr_get_le16 a off = Some (field a off 2).
Proof. apply get_le16_spec. Qed.

Lemma get_le32_field a off :
  Forall is_u8 a → 0 ≤ off → off + 4 ≤ len a → devmgr_get_le32 a off = Some (field a off 4).
Proof. apply get_le32_spec. Qed.

Lemma field_prefix p r off n :
  0 ≤ off → 0 ≤ n → off + n ≤ len p → field (p ++ r) off n = field p off n.
Proof. intros. unfold field. by rewrite slice_app_l. Qed.

Lemma field_range a off n :
  Forall is_u8 a → 0 ≤ n → 0 ≤ field a off n < 2 ^ (8 * n).
Proof.
  intros Ha ?. unfold field.
  pose proof (le_value_range (slice a off n) (slice_Forall _ _ _ _ Ha)) as Hr.
  split; [lia|]. eapply Z.lt_le_trans; [apply Hr|]. apply Z.pow_le_mono_r; [lia|].
  unfold slice. rewrite length_take. lia.
Qed.

(** The decoder reads the first [length] bytes of [data] only. *)
Lemma frame_decode_spec data length frame :
  Forall is_u8 data → 0 ≤ length ≤ len data →
  len (frame_payload frame) = DEVMGR_PROTOCOL_MAX_PAYLOAD →
  let '(status, w) := decode_wire (take (Z.to_nat length) data) in
  devmgr_frame_decode data length frame =
    Some (status, if status =? DEVMGR_OK then fill frame w else frame).
Proof.
  intros Hd Hlen Hpay.
  destruct (take_drop_at data length) as (w & rest & -> & -> & _); [lia|].
  rewrite Nat2Z.id, take_app_length. pose proof Hd as [Hw Hr]%Forall_app.
  rewrite length_app in Hlen.
  unfold decode_wire, devmgr_frame_decode, DEVMGR_PROTOCOL_HEADER_SIZE,
    DEVMGR_PROTOCOL_CRC_SIZE, DEVMGR_PROTOCOL_VERSION. change (12 + 4) with 16.
  destruct (Z.ltb_spec (len w) 16); [done|].
  rewrite (get_le16_field _ 0) by (done || len_solve). run_stmt.
  rewrite !load_field by (done || len_solve). do 2 run_stmt.
  rewrite !field_prefix by lia.
  destruct (negb _ || negb _ || negb _); [done|].
  rewrite (get_le16_field _ 10) by (done || len_solve). run_stmt.
  rewrite field_prefix by lia. pose proof (field_range w 10 2 Hw ltac:(lia)).
  set (n := field w 10 2) in *.
  destruct (Z.ltb_spec DEVMGR_PROTOCOL_MAX_PAYLOAD n); [done|].
  replace (12 + n + 4) with (16 + n) by lia.
  destruct (Z.eqb_spec (len w) (16 + n)) as [Hlw|]; [|done]. cbn [negb].
  rewrite (get_le32_field _ (12 + n)) by (done || len_solve). run_stmt.
  rewrite field_prefix by lia.
  rewrite devmgr_crc32_spec by len_solve. run_stmt.
  rewrite take_app_le, <- slice_0 by lia. destruct (negb _); [done|].
  do 2 run_stmt. rewrite (get_le32_field _ 6) by (done || len_solve). run_stmt.
  rewrite !field_prefix by lia. unfold DEVMGR_PROTOCOL_MAX_PAYLOAD in *.
  rewrite memcpy_ok by len_solve. run_stmt. rewrite slice_app_l by lia.
  unfold fill. cbn -[slice splice]. rewrite len_slice by lia. done.
Qed.

(** The fields of a wire frame, in order. *)
Definition wire_layout (w : wire_frame) : list (list Z) :=
  [le_bytes 2 DEVMGR_PROTOCOL_MAGIC; [DEVMGR_PROTOCOL_VERSION]; [w_type w]; [w_flags w]; [0];
   le_bytes 4 (w_sequence w); le_bytes 2 (len (w_payload w)); w_payload w;
   le_bytes 4 (crc_of (encode_body w))].

Lemma encode_wire_layout w : encode_wire w = concat (wire_layout w).
Proof.
  unfold encode_wire, encode_body, wire_layout. cbn [concat]. rewrite app_nil_r.
  by rewrite <- !(assoc_L (++)).
Qed.

Lemma field_concat (fs : list (list Z)) (k : nat) x off n v :
  fs !! k = Some x → off = len (concat (take k fs)) → n = len x →
  le_value x = v → field (concat fs) off n = v.
Proof. intros ??? <-. unfold field. by erewrite slice_concat. Qed.

Lemma wire_field w (k : nat) x off n v :
  wire_layout w !! k = Some x → off = len (concat (take k (wire_layout w))) → n = len x →
  le_value x = v → field (encode_wire w) off n = v.
Proof. rewrite encode_wire_layout. apply field_concat. Qed.

Lemma le_value_byte b : is_u8 b → le_value [b] = b.
Proof. intros. rewrite le_value_cons, le_value_nil by done. lia. Qed.

Lemma encode_wire_fields w :
  wire_ok w →
  field (encode_wire w) 0 2 = DEVMGR_PROTOCOL_MAGIC ∧ field (encode_wire w) 2 1 = 1 ∧
  field (encode_wire w) 3 1 = w_type w ∧ field (encode_wire w) 4 1 = w_flags w ∧
  field (encode_wire w) 5 1 = 0 ∧ field (encode_wire w) 6 4 = w_sequence w ∧
  field (encode_wire w) 10 2 = len (w_payload w) ∧
  slice (encode_wire w) 12 (len (w_payload w)) = w_payload w ∧
  field (encode_wire w) (12 + len (w_payload w)) 4 = crc_of (encode_body w).
Proof.
  intros Hw. pose proof Hw as (Ht & Hf & Hs & Hp & Hn).
  unfold DEVMGR_PROTOCOL_MAX_PAYLOAD in *.
  pose proof (crc_of_u32 _ (encode_body_Forall w Hw)) as Hcrc. unfold is_u32 in *.
  split_and!.
  - by apply (wire_field w 0 _ _ _ _ eq_refl).
  - by apply (wire_field w 1 _ _ _ _ eq_refl).
  - by apply (wire_field w 2 _ _ _ _ eq_refl); [..|apply le_value_byte].
  - by apply (wire_field w 3 _ _ _ _ eq_refl); [..|apply le_value_byte].
  - by apply (wire_field w 4 _ _ _ _ eq_refl).
  - by apply (wire_field w 5 _ _ _ _ eq_refl); [..|apply le_value_bytes].
  - by apply (wire_field w 6 _ _ _ _ eq_refl); [..|apply le_value_bytes; simpl; lia].
  - rewrite encode_wire_layout. by apply (slice_concat _ 7).
  - apply (wire_field w 8 _ _ _ _ eq_refl); [|done|by apply le_value_bytes].
    cbn [wire_layout take concat]. rewrite !length_app, !length_le_bytes. simpl. lia.
Qed.

Lemma decode_encode_wire w : wire_ok w → decode_wire (encode_wire w) = (DEVMGR_OK, w).
Proof.
  intros Hw. pose proof Hw as (_ & _ & _ & _ & Hn). unfold DEVMGR_PROTOCOL_MAX_PAYLOAD in Hn.
  destruct (encode_wire_fields w Hw) as (E0 & E2 & E3 & E4 & E5 & E6 & E10 & E12 & Ecrc).
  pose proof (length_encode_wire w) as Hlen.
  unfold decode_wire, DEVMGR_PROTOCOL_MAX_PAYLOAD.
  rewrite E0, E2, E3, E4, E5, E6, E10, E12, Ecrc. zreduce.
  assert (slice (encode_wire w) 0 (12 + len (w_payload w)) = encode_body w) as ->.
  { unfold encode_wire. apply slice_prefix. rewrite length_encode_body. lia. }
  rewrite Z.eqb_refl. by destruct w.
Qed.

(** A field and the bytes it is read from. *)
Lemma le_bytes_field l off (k : nat) :
  Forall is_u8 l → 0 ≤ off → off + Z.of_nat k ≤ len l →
  le_bytes k (field l off (Z.of_nat k)) = slice l off (Z.of_nat k).
Proof.
  intros. unfold field. rewrite <- (le_bytes_value (slice l off (Z.of_nat k))) at 2
    by auto with devmgr. by rewrite length_slice, Nat2Z.id by lia.
Qed.

Lemma le16_field l off :
  Forall is_u8 l → 0 ≤ off → off + 2 ≤ len l → le_bytes 2 (field l off 2) = slice l off 2.
Proof. intros. by apply (le_bytes_field l off 2). Qed.

Lemma le32_field l off :
  Forall is_u8 l → 0 ≤ off → off + 4 ≤ len l → le_bytes 4 (field l off 4) = slice l off 4.
Proof. intros. by apply (le_bytes_field l off 4). Qed.

Lemma byte_field l off : Forall is_u8 l → 0 ≤ off < len l → [field l off 1] = slice l off 1.
Proof.
  intros Hl ?. pose proof (le_bytes_field l off 1 Hl ltac:(lia) ltac:(lia)) as E.
  change (Z.of_nat 1) with 1 in E. rewrite <- E.
  pose proof (field_range l off 1 Hl ltac:(lia)) as Hr. unfold le_bytes.
  rewrite Z.mod_small; [done|]. exact Hr.
Qed.

(** A well-formed message is the concatenation of its fields. *)
Lemma slice_fields l :
  Forall is_u8 l → 16 ≤ len l →
  l = le_bytes 2 (field l 0 2) ++ [field l 2 1; field l 3 1; field l 4 1; field l 5 1] ++
      le_bytes 4 (field l 6 4) ++ le_bytes 2 (field l 10 2) ++
      slice l 12 (len l - 16) ++ le_bytes 4 (field l (len l - 4) 4).
Proof.
  intros Hl Hn.
  change [field l 2 1; field l 3 1; field l 4 1; field l 5 1] with
    ([field l 2 1] ++ [field l 3 1] ++ [field l 4 1] ++ [field l 5 1]).
  rewrite !byte_field, !le16_field, !le32_field by (done || lia).
  rewrite <- (slice_all l) at 1.
  replace (len l) with (2 + (1 + (1 + (1 + (1 + (4 + (2 + ((len l - 16) + 4))))))))
    at 1 by lia.
  rewrite !slice_split, <- !(assoc_L (++)) by lia. do 8 f_equal. f_equal. lia.
Qed.

(** Only canonical encodings are accepted. *)
Lemma decode_wire_inv l w :
  Forall is_u8 l → decode_wire l = (DEVMGR_OK, w) → l = encode_wire w ∧ wire_ok w.
Proof.
  intros Hl. unfold decode_wire.
  destruct (Z.ltb_spec (len l) 16); [done|].
  destruct (Z.eqb_spec (field l 0 2) DEVMGR_PROTOCOL_MAGIC) as [E0|]; [|done].
  destruct (Z.eqb_spec (field l 2 1) 1) as [E2|]; [|done].
  destruct (Z.eqb_spec (field l 5 1) 0) as [E5|]; [|done]. cbn [negb orb].
  destruct (Z.ltb_spec DEVMGR_PROTOCOL_MAX_PAYLOAD (field l 10 2)) as [|Hmax]; [done|].
  destruct (Z.eqb_spec (len l) (16 + field l 10 2)) as [Elen|]; [|done]. cbn [negb].
  destruct (Z.eqb_spec (crc_of (slice l 0 (12 + field l 10 2))) (field l (12 + field l 10 2) 4))
    as [Ecrc|]; [|done]. cbn [negb]. intros [= <-].
  pose proof (field_range l 10 2 Hl ltac:(lia)). pose proof (slice_fields l Hl ltac:(lia)) as El.
  assert (len (slice l 12 (field l 10 2)) = field l 10 2) as Hpl by (rewrite len_slice; lia).
  rewrite E0, E2, E5 in El. replace (len l - 16) with (field l 10 2) in El by lia.
  replace (len l - 4) with (12 + field l 10 2) in El by lia.
  set (w := mk_wire _ _ _ _). set (n := field l 10 2) in *.
  assert (l = encode_body w ++ le_bytes 4 (field l (12 + n) 4)) as Eb.
  { unfold encode_body, w. cbn [w_payload w_type w_flags w_sequence].
    rewrite Hpl, <- !(assoc_L (++)). exact El. }
  pose proof (f_equal (λ l, slice l 0 (12 + n)) Eb) as Ebody. cbv beta in Ebody.
  rewrite (slice_prefix (encode_body w)) in Ebody
    by (rewrite length_encode_body; simpl; lia).
  split.
  - rewrite Eb at 1. unfold encode_wire. by rewrite <- Ecrc, Ebody.
  - split_and!; simpl; [apply (field_range l 3 1)|apply (field_range l 4 1)
      |apply (field_range l 6 4)|auto with devmgr|]; try done; lia.
Qed.

(** ** Frames built from a payload *)

(** A cleared frame with the given header fields and payload. *)
Definition request_frame (type flags seq : Z) (payload : list Z) : devmgr_frame :=
  mk_frame type flags seq (len payload)
           (payload ++ zeros (DEVMGR_PROTOCOL_MAX_PAYLOAD - len payload)).

Lemma request_frame_ok type flags seq payload :
  is_u8 type → is_u8 flags → is_u32 seq → Forall is_u8 payload →
  len payload ≤ DEVMGR_PROTOCOL_MAX_PAYLOAD → frame_ok (request_frame type flags seq payload).
Proof.
  intros. pose proof (Nat2Z.is_nonneg (length payload)).
  unfold frame_ok, request_frame, is_u8, is_u32 in *. simpl.
  split_and!; try lia.
  - rewrite length_app, Nat2Z.inj_add, len_zeros; lia.
  - apply Forall_app; split; [done|apply zeros_Forall].
Qed.

Lemma splice_zeros (src : list Z) n m :
  0 ≤ n ≤ len src → n ≤ m →
  splice (zeros m) 0 (slice src 0 n) = take (Z.to_nat n) src ++ zeros (m - n).
Proof.
  intros. rewrite slice_0. unfold splice, zeros. simpl. f_equal.
  rewrite drop_replicate, length_take. f_equal. lia.
Qed.

Lemma view_request_frame type flags seq payload :
  view (request_frame type flags seq payload) = mk_wire type flags seq payload.
Proof. unfold view, request_frame. simpl. by rewrite slice_prefix. Qed.

(** Filling a cleared array from its start. *)
Lemma drop_zeros n m : drop n (zeros m) = zeros (m - Z.of_nat n).
Proof. unfold zeros. rewrite drop_replicate. f_equal. lia. Qed.

Lemma put_le16_zeros p off v m :
  is_u16 v → off = len p → 2 ≤ m →
  devmgr_put_le16 (p ++ zeros m) off v = Some ((p ++ le_bytes 2 v) ++ zeros (m - 2)).
Proof. intros. by rewrite put_le16_app, drop_zeros by (rewrite ?len_zeros; done || lia). Qed.

Lemma put_le32_zeros p off v m :
  is_u32 v → off = len p → 4 ≤ m →
  devmgr_put_le32 (p ++ zeros m) off v = Some ((p ++ le_bytes 4 v) ++ zeros (m - 4)).
Proof. intros. by rewrite put_le32_app, drop_zeros by (rewrite ?len_zeros; done || lia). Qed.

Lemma memcpy_zeros p off src soff n m :
  off = len p → 0 ≤ soff → 0 ≤ n → soff + n ≤ len src → n ≤ m →
  memcpy (p ++ zeros m) off src soff n = Some ((p ++ slice src soff n) ++ zeros (m - n)).
Proof.
  intros. unfold memcpy. rewrite mem_read_ok by lia. run_stmt.
  rewrite mem_write_app, drop_zeros, len_slice by (rewrite ?len_zeros, ?len_slice; done || lia).
  done.
Qed.

Lemma request_frame_intro type flags seq payload n bytes :
  n = len payload → bytes = payload ++ zeros (DEVMGR_PROTOCOL_MAX_PAYLOAD - n) →
  mk_frame type flags seq n bytes = request_frame type flags seq payload.
Proof. by intros -> ->. Qed.

(** ** Properties *)

(** C14: encoding a frame and decoding the bytes gives the same frame back, up
    to the unused bytes of the payload array, whatever the previous contents
    of the output buffer and of the destination frame; both calls succeed and
    stay inside their buffers. *)
Theorem frame_roundtrip f output capacity encoded_length g :
  frame_ok f → frame_ok g → 16 + frame_payload_length f ≤ capacity ≤ len output →
  Forall is_u8 output →
  ∃ output' n g',
    devmgr_frame_encode f output capacity encoded_length = Some (DEVMGR_OK, output', n) ∧
    devmgr_frame_decode output' n g = Some (DEVMGR_OK, g') ∧ g' ≡ f ∧ frame_ok g'.
Proof.
  intros Hf Hg Hcap Hout. pose proof (view_ok f Hf) as Hw.
  rewrite frame_encode_spec by done. do 2 eexists. exists (fill g (view f)).
  split_and!; [done| |by apply view_fill|by apply fill_ok, frame_ok_array].
  set (l := encode_wire (view f) ++ _).
  assert (Forall is_u8 l) as Hl.
  { apply Forall_app; split; [by apply encode_wire_Forall|by apply Forall_drop]. }
  assert (0 ≤ len (encode_wire (view f)) ≤ len l) by (unfold l; rewrite length_app; lia).
  pose proof (frame_decode_spec l (len (encode_wire (view f))) g Hl) as Hd.
  unfold l in Hd at 2. rewrite Nat2Z.id, take_app_length, decode_encode_wire in Hd by done.
  apply Hd; [done|apply Hg].
Qed.

(** A PING frame with a four-byte token. *)
Definition sample_frame : devmgr_frame :=
  mk_frame DEVMGR_MSG_PING DEVMGR_FRAME_ACK_REQUIRED 7 4
           ([1; 2; 3; 4] ++ zeros (DEVMGR_PROTOCOL_MAX_PAYLOAD - 4)).

Lemma sample_frame_ok : frame_ok sample_frame.
Proof.
  split_and!; try done. apply Forall_app; split; [|apply zeros_Forall].
  repeat (constructor; [done|]). constructor.
Qed.

Lemma zero_frame_ok : frame_ok zero_frame.
Proof. split_and!; try done. apply zeros_Forall. Qed.

Lemma frame_roundtrip_witness :
  ∃ output' n g',
    devmgr_frame_encode sample_frame (zeros 20) 20 0 = Some (DEVMGR_OK, output', n) ∧
    devmgr_frame_decode output' n zero_frame = Some (DEVMGR_OK, g') ∧
    g' ≡ sample_frame ∧ frame_ok g'.
Proof.
  apply (frame_roundtrip sample_frame (zeros 20) 20 0 zero_frame);
    [apply sample_frame_ok|apply zero_frame_ok|done|apply zeros_Forall].
Defined.

(** C15: a buffer is accepted only if its bytes are exactly the encoding of the
    frame the decoder returns: encoding that frame again reproduces the
    accepted bytes. *)
Theorem frame_decode_canonical data length g g' output :
  Forall is_u8 data → 0 ≤ length ≤ len data → frame_ok g →
  length ≤ len output →
  devmgr_frame_decode data length g = Some (DEVMGR_OK, g') →
  frame_ok g' ∧
  devmgr_frame_encode g' output length 0 =
    Some (DEVMGR_OK, take (Z.to_nat length) data ++ drop (Z.to_nat length) output, length).
Proof.
  intros Hd Hlen Hg Hout H.
  pose proof (frame_decode_spec data length g Hd Hlen ltac:(apply Hg)) as Hs.
  destruct (decode_wire (take (Z.to_nat length) data)) as [status w] eqn:Edec.
  rewrite H in Hs. injection Hs as <- ->. simpl.
  apply decode_wire_inv in Edec as [El Hw]; [|by apply Forall_take].
  assert (frame_ok (fill g w)) as Hok by by apply fill_ok, frame_ok_array.
  assert (len (encode_wire w) = length) as Hl by (rewrite <- El, length_take; lia).
  split; [done|]. rewrite frame_encode_spec; rewrite ?view_fill.
  - rewrite El, Hl. by replace (List.length (encode_wire w)) with (Z.to_nat length) by lia.
  - done.
  - simpl. rewrite length_encode_wire in Hl. lia.
Qed.

Definition sample_wire : list Z := Eval vm_compute in encode_wire (view sample_frame).

Lemma sample_wire_eq : sample_wire = encode_wire (view sample_frame).
Proof. by vm_compute. Qed.

Lemma sample_wire_Forall : Forall is_u8 sample_wire.
Proof. rewrite sample_wire_eq. apply encode_wire_Forall, view_ok, sample_frame_ok. Qed.

Lemma sample_wire_decode :
  devmgr_frame_decode sample_wire 20 zero_frame = Some (DEVMGR_OK, sample_frame).
Proof. by vm_compute. Qed.

Lemma frame_decode_canonical_witness :
  frame_ok sample_frame ∧
  devmgr_frame_encode sample_frame (zeros 64) 20 0 =
    Some (DEVMGR_OK, take (Z.to_nat 20) sample_wire ++ drop (Z.to_nat 20) (zeros 64), 20).
Proof.
  apply (frame_decode_canonical sample_wire 20 zero_frame sample_frame (zeros 64)).
  - apply sample_wire_Forall.
  - done.
  - apply zero_frame_ok.
  - done.
  - apply sample_wire_decode.
Defined.

Lemma encode_wire_residue w :
  wire_ok w → crc_fold DEVMGR_CRC32_INIT (encode_wire w) = crc_residue.
Proof.
  intros Hw. pose proof (encode_body_Forall w Hw) as Hb.
  apply crc_residue_iff; [done|apply le_bytes_Forall|apply length_le_bytes|].
  by apply le_value_bytes, crc_of_u32.
Qed.

Lemma frame_decode_residue data g g' :
  Forall is_u8 data → frame_ok g →
  devmgr_frame_decode data (len data) g = Some (DEVMGR_OK, g') →
  crc_fold DEVMGR_CRC32_INIT data = crc_residue.
Proof.
  intros Hd Hg H.
  pose proof (frame_decode_spec data (len data) g Hd ltac:(lia) ltac:(apply Hg)) as Hs.
  rewrite Nat2Z.id, firstn_all in Hs. destruct (decode_wire data) as [status w] eqn:E.
  rewrite H in Hs. injection Hs as <- ->.
  apply decode_wire_inv in E as [-> Hw]; [|done]. by apply encode_wire_residue.
Qed.


