(* ===== verification/Parser.v ===== *)
(** * Frame parser: include/devmgr/parser.h and src/protocol/parser.c

    The stream parser: bytes arrive in arbitrary pieces, are queued in a ring
    buffer and cut into frames; anything else is skipped one byte at a time.
    [drain] is the same scanner on the plain list of queued bytes; the C
    functions are proved to refine it for every callback. *)

From S2P Require Import Prelude Crc32 RingBuffer Frame.

(** ** The code *)

Definition DEVMGR_PARSER_CAPACITY : Z := DEVMGR_PROTOCOL_MAX_FRAME * 2.

Record devmgr_parser_stats := mk_parser_stats {
  bytes_received : Z;
  frames_decoded : Z;
  crc_errors : Z;
  length_errors : Z;
  discarded_bytes : Z;
  overflow_bytes : Z;
}.

#[export] Instance eta_parser_stats : Eta devmgr_parser_stats := λ s,
  mk_parser_stats (bytes_received s) (frames_decoded s) (crc_errors s) (length_errors s)
                  (discarded_bytes s) (overflow_bytes s).

(** struct devmgr_parser; the storage array is the one [parser_input] points to. *)
Record devmgr_parser := mk_parser {
  parser_input : devmgr_ring_buffer;
  parser_stats : devmgr_parser_stats;
}.

#[export] Instance eta_parser : Eta devmgr_parser := λ p,
  mk_parser (parser_input p) (parser_stats p).

Definition zero_stats : devmgr_parser_stats := mk_parser_stats 0 0 0 0 0 0.

(** The local arrays of parser_drain and its local frame, uninitialised on entry. *)
Record drain_locals := mk_locals {
  l_header : list Z;
  l_encoded : list Z;
  l_frame : devmgr_frame;
}.

#[export] Instance eta_locals : Eta drain_locals := λ l,
  mk_locals (l_header l) (l_encoded l) (l_frame l).

Definition count_discarded (s : devmgr_parser_stats) : devmgr_parser_stats :=
  s <| discarded_bytes := u64 (s.(discarded_bytes) + 1) |>.

Definition count_length_error (s : devmgr_parser_stats) : devmgr_parser_stats :=
  s <| length_errors := u64 (s.(length_errors) + 1) |>.

Definition count_crc_error (s : devmgr_parser_stats) : devmgr_parser_stats :=
  s <| crc_errors := u64 (s.(crc_errors) + 1) |>.

Definition count_frame (s : devmgr_parser_stats) : devmgr_parser_stats :=
  s <| frames_decoded := u64 (s.(frames_decoded) + 1) |>.

(** [(void)devmgr_ring_discard(&parser->input, n)] *)
Definition parser_discard (p : devmgr_parser) (n : Z) : option devmgr_parser :=
  '(_, ring) ← devmgr_ring_discard p.(parser_input) n;
  Some (p <| parser_input := ring |>).

Section Code.
Context {S : Type}.

(** devmgr_frame_callback, with the object behind [context]. *)
Variable callback : devmgr_frame → S → option (Z * S).

(** The while loop of parser_drain, at most [fuel] iterations. *)
Fixpoint drain_loop (fuel : nat) (parser : devmgr_parser) (l : drain_locals) (context : S)
    (frames_emitted : Z) : option (Z * devmgr_parser * S * Z) :=
  match fuel with
  | O => None
  | Datatypes.S fuel =>
    if devmgr_ring_size parser.(parser_input) <? 2 then
      Some (DEVMGR_OK, parser, context, frames_emitted)
    else
    '(_, header) ← devmgr_ring_peek parser.(parser_input) 0 l.(l_header) 2;
    magic ← devmgr_get_le16 header 0;
    if negb (magic =? DEVMGR_PROTOCOL_MAGIC) then
      parser ← parser_discard parser 1;
      drain_loop fuel (parser <| parser_stats := count_discarded parser.(parser_stats) |>)
                 (l <| l_header := header |>) context frames_emitted
    else
    if devmgr_ring_size parser.(parser_input) <? DEVMGR_PROTOCOL_HEADER_SIZE then
      Some (DEVMGR_OK, parser, context, frames_emitted)
    else
    '(_, header) ← devmgr_ring_peek parser.(parser_input) 0 header DEVMGR_PROTOCOL_HEADER_SIZE;
    version ← load header 2;
    reserved ← load header 5;
    if negb (version =? DEVMGR_PROTOCOL_VERSION) || negb (reserved =? 0) then
      parser ← parser_discard parser 1;
      drain_loop fuel (parser <| parser_stats := count_discarded parser.(parser_stats) |>)
                 (l <| l_header := header |>) context frames_emitted
    else
    payload_length ← devmgr_get_le16 header 10;
    if DEVMGR_PROTOCOL_MAX_PAYLOAD <? payload_length then
      parser ← parser_discard parser 1;
      drain_loop fuel
                 (parser <| parser_stats :=
                              count_discarded (count_length_error parser.(parser_stats)) |>)
                 (l <| l_header := header |>) context frames_emitted
    else
    let frame_length :=
      DEVMGR_PROTOCOL_HEADER_SIZE + payload_length + DEVMGR_PROTOCOL_CRC_SIZE in
    if devmgr_ring_size parser.(parser_input) <? frame_length then
      Some (DEVMGR_OK, parser, context, frames_emitted)
    else
    '(_, encoded) ← devmgr_ring_peek parser.(parser_input) 0 l.(l_encoded) frame_length;
    '(result, frame) ← devmgr_frame_decode encoded frame_length l.(l_frame);
    let l := mk_locals header encoded frame in
    if result =? DEVMGR_ERROR_CRC then
      parser ← parser_discard parser 1;
      drain_loop fuel
                 (parser <| parser_stats :=
                              count_discarded (count_crc_error parser.(parser_stats)) |>)
                 l context frames_emitted
    else
    if negb (result =? DEVMGR_OK) then
      parser ← parser_discard parser 1;
      drain_loop fuel (parser <| parser_stats := count_discarded parser.(parser_stats) |>)
                 l context frames_emitted
    else
    parser ← parser_discard parser frame_length;
    let parser := parser <| parser_stats := count_frame parser.(parser_stats) |> in
    let frames_emitted := u64 (frames_emitted + 1) in
    '(result, context) ← callback frame context;
    if negb (result =? DEVMGR_OK) then Some (result, parser, context, frames_emitted)
    else drain_loop fuel parser l context frames_emitted
  end.

(** Every iteration that does not leave the loop discards a byte, so one more
    iteration than queued bytes is enough ([drain_loop_spec]). *)
Definition parser_drain (parser : devmgr_parser) (l : drain_locals) (context : S)
    (frames_emitted : Z) : option (Z * devmgr_parser * S * Z) :=
  drain_loop (Datatypes.S (Z.to_nat (ring_size parser.(parser_input)))) parser l context
             frames_emitted.

(** The while loop of devmgr_parser_feed; an iteration that continues has
    written at least one byte. *)
Fixpoint feed_loop (fuel : nat) (parser : devmgr_parser) (l : drain_locals) (bytes : list Z)
    (length offset : Z) (context : S) (frames_emitted : Z)
    : option (Z * devmgr_parser * S * Z) :=
  match fuel with
  | O => None
  | Datatypes.S fuel =>
    if negb (offset <? length) then parser_drain parser l context frames_emitted
    else
    '(written, ring) ← devmgr_ring_write parser.(parser_input)
                         (Some (drop (Z.to_nat offset) bytes)) (length - offset);
    let stats := parser.(parser_stats) in
    let parser := mk_parser ring
      (stats <| bytes_received := u64 (stats.(bytes_received) + written) |>) in
    let offset := offset + written in
    '(result, parser, context, frames_emitted) ←
      parser_drain parser l context frames_emitted;
    if negb (result =? DEVMGR_OK) then Some (result, parser, context, frames_emitted)
    else if written =? 0 then
      let stats := parser.(parser_stats) in
      Some (DEVMGR_ERROR_OVERFLOW,
            parser <| parser_stats := stats <| overflow_bytes :=
                        u64 (stats.(overflow_bytes) + (length - offset)) |> |>,
            context, frames_emitted)
    else feed_loop fuel parser l bytes length offset context frames_emitted
  end.

(** The result is the status, the parser, the callback's object and
    [*frames_emitted] after the call; [l] is the stack of parser_drain. *)
Definition devmgr_parser_feed (parser : devmgr_parser) (l : drain_locals)
    (data : option (list Z)) (length : Z) (context : S) (frames_emitted : Z)
    : option (Z * devmgr_parser * S * Z) :=
  match data with
  | None =>
      if negb (length =? 0) then Some (DEVMGR_ERROR_INVALID, parser, context, frames_emitted)
      else parser_drain parser l context 0
  | Some bytes => feed_loop (Datatypes.S (Z.to_nat length)) parser l bytes length 0 context 0
  end.

End Code.

(** [memset( *parser)], then devmgr_ring_init on the parser's own storage. *)
Definition devmgr_parser_init : Z * devmgr_parser :=
  let '(status, ring) := devmgr_ring_init (mk_ring [] 0 0 0)
                           (Some (zeros DEVMGR_PARSER_CAPACITY)) DEVMGR_PARSER_CAPACITY in
  (status, mk_parser ring zero_stats).

Definition devmgr_parser_reset (parser : devmgr_parser) : devmgr_parser :=
  mk_parser (devmgr_ring_reset parser.(parser_input)) zero_stats.

Definition devmgr_parser_get_stats (parser : devmgr_parser) : devmgr_parser_stats :=
  parser.(parser_stats).

(** ** The scanner on the queued bytes *)

Inductive skip_reason := SkipGarbage | SkipLength | SkipCrc.

(** What the first queued bytes are. *)
Inductive verdict :=
  | Wait
  | Skip (r : skip_reason)
  | Deliver (w : wire_frame) (n : Z).

Definition scan_head (q : list Z) : verdict :=
  if len q <? 2 then Wait
  else if negb (field q 0 2 =? DEVMGR_PROTOCOL_MAGIC) then Skip SkipGarbage
  else if len q <? 12 then Wait
  else if negb (field q 2 1 =? 1) || negb (field q 5 1 =? 0) then Skip SkipGarbage
  else if DEVMGR_PROTOCOL_MAX_PAYLOAD <? field q 10 2 then Skip SkipLength
  else if len q <? 16 + field q 10 2 then Wait
  else
    let '(status, w) := decode_wire (take (Z.to_nat (16 + field q 10 2)) q) in
    if status =? DEVMGR_ERROR_CRC then Skip SkipCrc
    else if negb (status =? DEVMGR_OK) then Skip SkipGarbage
    else Deliver w (16 + field q 10 2).

Inductive event := Skipped (r : skip_reason) | Delivered (w : wire_frame).

Section Scanner.
Context {S : Type}.

(** What the callback does with a frame. *)
Variable handler : wire_frame → S → Z * S.

(** The status, the events, the bytes left and the callback's object.  The
    fuel never runs out when it exceeds the number of queued bytes. *)
Fixpoint drain_upto (fuel : nat) (q : list Z) (c : S) : Z * list event * list Z * S :=
  match fuel with
  | O => (DEVMGR_OK, [], q, c)
  | Datatypes.S fuel =>
      match scan_head q with
      | Wait => (DEVMGR_OK, [], q, c)
      | Skip r =>
          let '(res, es, q', c') := drain_upto fuel (drop 1 q) c in
          (res, Skipped r :: es, q', c')
      | Deliver w n =>
          let '(res, c) := handler w c in
          if res =? DEVMGR_OK then
            let '(res, es, q', c') := drain_upto fuel (drop (Z.to_nat n) q) c in
            (res, Delivered w :: es, q', c')
          else (res, [Delivered w], drop (Z.to_nat n) q, c)
      end
  end.

Definition drain (q : list Z) (c : S) : Z * list event * list Z * S :=
  drain_upto (Datatypes.S (length q)) q c.

End Scanner.

(** *** Facts about the head *)

Lemma scan_head_Deliver q w n :
  Forall is_u8 q → scan_head q = Deliver w n →
  n = len (encode_wire w) ∧ wire_ok w ∧ ∃ r, q = encode_wire w ++ r.
Proof.
  intros Hq. unfold scan_head.
  destruct (Z.ltb_spec (len q) 2); [done|]. destruct (negb _); [done|].
  destruct (Z.ltb_spec (len q) 12); [done|]. destruct (negb _ || negb _); [done|].
  destruct (Z.ltb_spec DEVMGR_PROTOCOL_MAX_PAYLOAD (field q 10 2)); [done|].
  destruct (Z.ltb_spec (len q) (16 + field q 10 2)) as [|Hl]; [done|].
  destruct (decode_wire _) as [status w'] eqn:E.
  destruct (Z.eqb_spec status DEVMGR_ERROR_CRC); [done|].
  destruct (Z.eqb_spec status DEVMGR_OK) as [->|]; [|done]. intros [= <- <-].
  apply decode_wire_inv in E as [El Hw]; [|by apply Forall_take].
  pose proof (field_range q 10 2 Hq ltac:(lia)).
  split_and!; [rewrite <- El, length_take; lia|done|].
  eexists. by rewrite <- El, take_drop.
Qed.

Lemma scan_head_Skip q r : scan_head q = Skip r → 2 ≤ len q.
Proof. unfold scan_head. by destruct (Z.ltb_spec (len q) 2). Qed.

(** A queue that waits for more bytes is shorter than the longest frame. *)
Lemma scan_head_Wait q : scan_head q = Wait → len q < DEVMGR_PROTOCOL_MAX_FRAME.
Proof.
  unfold scan_head, DEVMGR_PROTOCOL_MAX_FRAME, DEVMGR_PROTOCOL_HEADER_SIZE,
    DEVMGR_PROTOCOL_MAX_PAYLOAD, DEVMGR_PROTOCOL_CRC_SIZE.
  destruct (Z.ltb_spec (len q) 2); [lia|]. destruct (negb _); [done|].
  destruct (Z.ltb_spec (len q) 12); [lia|]. destruct (negb _ || negb _); [done|].
  destruct (Z.ltb_spec 4096 (field q 10 2)); [done|].
  destruct (Z.ltb_spec (len q) (16 + field q 10 2)); [lia|].
  destruct (decode_wire _) as [status w]. by repeat case_match.
Qed.

(** Bytes that arrive later do not change a decision already taken. *)
Lemma scan_head_app q r : Forall is_u8 q → scan_head q ≠ Wait → scan_head (q ++ r) = scan_head q.
Proof.
  intros Hq. unfold scan_head. rewrite length_app.
  destruct (Z.ltb_spec (len q) 2); [done|]. zreduce. rewrite field_prefix by lia.
  destruct (negb _); [done|].
  destruct (Z.ltb_spec (len q) 12); [done|]. zreduce. rewrite !field_prefix by lia.
  destruct (negb _ || negb _); [done|].
  destruct (Z.ltb_spec DEVMGR_PROTOCOL_MAX_PAYLOAD (field q 10 2)); [done|].
  destruct (Z.ltb_spec (len q) (16 + field q 10 2)); [done|]. zreduce.
  pose proof (field_range q 10 2 Hq ltac:(lia)). by rewrite take_app_le by lia.
Qed.

Lemma scan_head_encode w r :
  wire_ok w → scan_head (encode_wire w ++ r) = Deliver w (len (encode_wire w)).
Proof.
  intros Hw. pose proof Hw as (_ & _ & _ & _ & Hn).
  pose proof (length_encode_wire w) as Hl.
  destruct (encode_wire_fields w Hw) as (E0 & E2 & _ & _ & E5 & _ & E10 & _ & _).
  rewrite scan_head_app.
  - unfold scan_head. rewrite E0, E2, E5, E10. zreduce.
    rewrite <- Hl, Nat2Z.id, firstn_all, decode_encode_wire by done. done.
  - by apply encode_wire_Forall.
  - unfold scan_head. rewrite E0, E2, E5, E10. zreduce.
    by rewrite <- Hl, Nat2Z.id, firstn_all, decode_encode_wire by done.
Qed.

(** A byte that does not start the magic is skipped. *)
(** Two bytes that are not the magic number. *)
Lemma scan_head_garbage b c q :
  is_u8 b → is_u8 c → ¬ (b = 0x44 ∧ c = 0x4D) → scan_head (b :: c :: q) = Skip SkipGarbage.
Proof.
  intros Hb Hc Hne. unfold scan_head. rewrite !length_cons. zreduce.
  assert (field (b :: c :: q) 0 2 = b + 256 * c) as ->.
  { unfold field. change (slice (b :: c :: q) 0 2) with [b; c]. rewrite !le_value_cons, le_value_nil by done. lia. }
  unfold DEVMGR_PROTOCOL_MAGIC, is_u8 in *. by rewrite (proj2 (Z.eqb_neq _ _)) by lia.
Qed.

(** ** Facts about the scanner *)

Section Scanner_facts.
Context {S : Type} (handler : wire_frame → S → Z * S).

Lemma drain_upto_enough n q c :
  (length q < n)%nat → Forall is_u8 q → drain_upto handler n q c = drain handler q c.
Proof.
  revert q c. assert (∀ m n q c, (length q < m)%nat → (length q < n)%nat → Forall is_u8 q →
    drain_upto handler n q c = drain_upto handler m q c) as H.
  2:{ intros. apply H; [lia|lia|done]. }
  induction m as [|m IH]; intros k q c Hm Hk Hq; [lia|]. destruct k as [|k]; [lia|]. simpl.
  destruct (scan_head q) as [|r|w l] eqn:E; [done| |].
  - pose proof (scan_head_Skip _ _ E).
    rewrite (IH k); [done|rewrite length_drop; lia..|by apply Forall_drop].
  - apply scan_head_Deliver in E as (-> & Hw & r & ->); [|done].
    destruct (handler w c) as [res c']. case_match; [|done].
    pose proof (length_encode_wire w). rewrite length_app in *.
    rewrite Nat2Z.id, drop_app_length. apply Forall_app in Hq as [_ Hr].
    rewrite (IH k); [done|lia..|done].
Qed.

(** The defining equation, without fuel. *)
Lemma drain_unfold q c :
  Forall is_u8 q →
  drain handler q c =
    match scan_head q with
    | Wait => (DEVMGR_OK, [], q, c)
    | Skip r =>
        let '(res, es, q', c') := drain handler (drop 1 q) c in
        (res, Skipped r :: es, q', c')
    | Deliver w n =>
        let '(res, c) := handler w c in
        if res =? DEVMGR_OK then
          let '(res, es, q', c') := drain handler (drop (Z.to_nat n) q) c in
          (res, Delivered w :: es, q', c')
        else (res, [Delivered w], drop (Z.to_nat n) q, c)
    end.
Proof.
  intros Hq. unfold drain at 1. simpl.
  destruct (scan_head q) as [|r|w l] eqn:E; [done| |].
  - pose proof (scan_head_Skip _ _ E).
    rewrite drain_upto_enough; [done|rewrite length_drop; lia|by apply Forall_drop].
  - apply scan_head_Deliver in E as (-> & Hw & r & ->); [|done].
    pose proof (length_encode_wire w). rewrite Nat2Z.id, drop_app_length, length_app.
    apply Forall_app in Hq as [_ Hr].
    destruct (handler w c) as [res c']. case_match; [|done].
    rewrite drain_upto_enough; [done|lia|done].
Qed.

(** Induction on the queued bytes, following the scanner. *)
Lemma queue_ind (P : list Z → Prop) :
  (∀ q, Forall is_u8 q → (∀ q', (length q' < length q)%nat → Forall is_u8 q' → P q') → P q) →
  ∀ q, Forall is_u8 q → P q.
Proof.
  intros H q. remember (length q) as n eqn:En. revert q En.
  induction n as [n IH] using lt_wf_ind. intros q -> Hq. apply H; [done|].
  intros q' ??. by apply (IH (length q')).
Qed.

(** The bytes left are a suffix of the queue, and wait for more when the
    callback did not fail. *)
Lemma drain_rest q c res es q' c' :
  Forall is_u8 q → drain handler q c = (res, es, q', c') →
  (∃ p, q = p ++ q') ∧ (res = DEVMGR_OK → scan_head q' = Wait).
Proof.
  intros Hq. revert c es c'. pattern q. apply queue_ind; [|done]. clear q Hq.
  intros q Hq IH c es c'. rewrite drain_unfold by done.
  destruct (scan_head q) as [|r|w n] eqn:E.
  - intros [= <- <- <- <-]. split; [by exists []|done].
  - pose proof (scan_head_Skip _ _ E). destruct (drain handler (drop 1 q) c) as [[[]]] eqn:D.
    intros [= <- <- <- <-]. apply IH in D as [[p Hp] ?]; [|rewrite length_drop; lia
      |by apply Forall_drop..].
    split; [|done]. exists (take 1 q ++ p). by rewrite <- (assoc_L (++)), <- Hp, take_drop.
  - pose proof E as (-> & Hw & r & ->)%scan_head_Deliver; [|done].
    rewrite Nat2Z.id, drop_app_length. destruct (handler w c) as [res1 c1].
    apply Forall_app in Hq as [_ Hr]. pose proof (length_encode_wire w).
    destruct (Z.eqb_spec res1 DEVMGR_OK) as [->|].
    + destruct (drain handler r c1) as [[[]]] eqn:D. intros [= <- <- <- <-].
      apply IH in D as [[p ->] ?]; [|rewrite length_app; lia|done..].
      split; [|done]. exists (encode_wire w ++ p). by rewrite <- (assoc_L (++)).
    + intros [= <- <- <- <-]. split; [by exists (encode_wire w)|done].
Qed.

Lemma drain_Wait q c : Forall is_u8 q → scan_head q = Wait → drain handler q c = (DEVMGR_OK, [], q, c).
Proof. intros Hq E. rewrite drain_unfold by done. by rewrite E. Qed.

(** Scanning a queue in two pieces. *)
Lemma drain_app q r c :
  Forall is_u8 q → Forall is_u8 r →
  drain handler (q ++ r) c =
    let '(res, es, q', c') := drain handler q c in
    if res =? DEVMGR_OK then
      let '(res2, es2, q2, c2) := drain handler (q' ++ r) c' in (res2, es ++ es2, q2, c2)
    else (res, es, q' ++ r, c').
Proof.
  intros Hq Hr. revert c. pattern q. apply queue_ind; [|done]. clear q Hq.
  intros q Hq IH c.
  rewrite (drain_unfold q) by done.
  destruct (scan_head q) as [|s|w n] eqn:E.
  - simpl. by destruct (drain handler (q ++ r) c) as [[[]]].
  - pose proof (scan_head_Skip _ _ E). rewrite drain_unfold by by apply Forall_app.
    rewrite scan_head_app, E by (done || congruence).
    rewrite drop_app_le, IH by (rewrite ?length_drop; try lia; by apply Forall_drop).
    destruct (drain handler (drop 1 q) c) as [[[res es] q'] c'].
    destruct (res =? DEVMGR_OK); [|done]. by destruct (drain handler (q' ++ r) c') as [[[]]].
  - rewrite drain_unfold by by apply Forall_app. rewrite scan_head_app, E by (done || congruence).
    pose proof E as (-> & Hw & r' & ->)%scan_head_Deliver; [|done].
    rewrite <- (assoc_L (++)), Nat2Z.id, !drop_app_length.
    destruct (handler w c) as [res c']. apply Forall_app in Hq as [_ Hr'].
    pose proof (length_encode_wire w).
    destruct (Z.eqb_spec res DEVMGR_OK) as [->|].
    + rewrite IH by (rewrite ?length_app; (lia || done)).
      destruct (drain handler r' c') as [[[res2 es2] q2] c2].
      destruct (res2 =? DEVMGR_OK); [|done]. by destruct (drain handler (q2 ++ r) c2) as [[[]]].
    + by rewrite (proj2 (Z.eqb_neq _ _)).
Qed.
End Scanner_facts.

(** ** The C functions refine the scanner *)

(** The counters are 64 bits wide. *)
Definition stats_ok (s : devmgr_parser_stats) : Prop :=
  Forall is_u64 [bytes_received s; frames_decoded s; crc_errors s; length_errors s;
                 discarded_bytes s; overflow_bytes s].

Definition parser_wf (p : devmgr_parser) : Prop :=
  ring_wf (parser_input p) ∧ ring_capacity (parser_input p) = DEVMGR_PARSER_CAPACITY ∧
  stats_ok (parser_stats p).

Definition queued (p : devmgr_parser) : list Z := contents (parser_input p).

(** The state between calls: the ring is not full. *)
Definition parser_ready (p : devmgr_parser) : Prop :=
  parser_wf p ∧ len (queued p) < DEVMGR_PARSER_CAPACITY.

Lemma queued_capacity p : parser_wf p → len (queued p) ≤ DEVMGR_PARSER_CAPACITY.
Proof.
  intros (Hwf & <- & _). unfold queued. rewrite length_contents by done.
  destruct Hwf as (_ & _ & _ & ? & _). lia.
Qed.

Definition locals_ok (l : drain_locals) : Prop :=
  len (l_header l) = 12 ∧ Forall is_u8 (l_header l) ∧
  len (l_encoded l) = DEVMGR_PROTOCOL_MAX_FRAME ∧ Forall is_u8 (l_encoded l) ∧
  payload_array_ok (l_frame l).

Definition record_event (s : devmgr_parser_stats) (e : event) : devmgr_parser_stats :=
  match e with
  | Skipped SkipGarbage => count_discarded s
  | Skipped SkipLength => count_discarded (count_length_error s)
  | Skipped SkipCrc => count_discarded (count_crc_error s)
  | Delivered _ => count_frame s
  end.

Definition count_emitted (n : Z) (e : event) : Z :=
  match e with Skipped _ => n | Delivered _ => u64 (n + 1) end.

Lemma record_event_ok s e : stats_ok s → stats_ok (record_event s e).
Proof.
  unfold stats_ok. rewrite !Forall_cons. intros (? & ? & ? & ? & ? & ? & ?).
  destruct e as [[]|]; simpl; split_and!; auto with devmgr.
Qed.

Lemma parser_discard_spec p n :
  parser_wf p → 0 ≤ n →
  ∃ p', parser_discard p n = Some p' ∧ queued p' = drop (Z.to_nat n) (queued p) ∧
        parser_stats p' = parser_stats p ∧ parser_wf p'.
Proof.
  intros (Hwf & Hcap & Hst) Hn. unfold parser_discard.
  destruct (ring_discard_spec (parser_input p) n Hwf Hn) as (r & -> & Hr & Hwf' & Hcap').
  run_stmt. eexists. split; [done|]. unfold queued, parser_wf. simpl in *.
  by rewrite Hr, Hcap'.
Qed.

Lemma parser_wf_event p e :
  parser_wf p → parser_wf (p <| parser_stats := record_event p.(parser_stats) e |>).
Proof. intros (? & ? & ?). split_and!; [done..|]. by apply record_event_ok. Qed.

(** A peek of [n] queued bytes into a long enough array. *)
Lemma peek_queued p dst n :
  parser_wf p → Forall is_u8 dst → 0 ≤ n ≤ len (queued p) → n ≤ len dst →
  ∃ a, devmgr_ring_peek (parser_input p) 0 dst n = Some (n, a) ∧
    len a = len dst ∧ Forall is_u8 a ∧
    take (Z.to_nat n) a = take (Z.to_nat n) (queued p) ∧
    (∀ off k, 0 ≤ off → 0 ≤ k → off + k ≤ n → field a off k = field (queued p) off k).
Proof.
  intros [Hwf _] Hd ? ?. pose proof (contents_Forall _ Hwf) as Hq. unfold queued in *.
  assert (peek_count (contents (parser_input p)) 0 n = n) as Hc by (unfold peek_count; lia).
  rewrite ring_peek_spec; rewrite ?Hc; try done; [|lia..].
  unfold Queue.peek. eexists. split; [done|]. split_and!.
  - rewrite length_app, length_slice, length_drop; lia.
  - apply Forall_app; split; [by apply slice_Forall|by apply Forall_drop].
  - rewrite slice_0, take_app_le by (rewrite length_take; lia). by rewrite take_take, Nat.min_id.
  - intros. rewrite field_prefix by (rewrite ?len_slice; lia).
    unfold field. by rewrite slice_slice by lia.
Qed.

Lemma Wait_room q : scan_head q = Wait → len q < DEVMGR_PARSER_CAPACITY.
Proof.
  intros H%scan_head_Wait. unfold DEVMGR_PARSER_CAPACITY, DEVMGR_PROTOCOL_MAX_FRAME in *. lia.
Qed.

Section Refinement.
Context {S : Type} (callback : devmgr_frame → S → option (Z * S)).

(** One iteration of the loop does what the head of the queue asks for. *)
Lemma drain_iteration fuel p l c n :
  parser_wf p → locals_ok l →
  ∃ l', locals_ok l' ∧
    drain_loop callback (Datatypes.S fuel) p l c n =
      match scan_head (queued p) with
      | Wait => Some (DEVMGR_OK, p, c, n)
      | Skip r =>
          p' ← parser_discard p 1;
          drain_loop callback fuel
            (p' <| parser_stats := record_event p'.(parser_stats) (Skipped r) |>) l' c n
      | Deliver w k =>
          p' ← parser_discard p k;
          let p' := p' <| parser_stats := record_event p'.(parser_stats) (Delivered w) |> in
          '(result, c') ← callback (fill (l_frame l) w) c;
          if negb (result =? DEVMGR_OK) then Some (result, p', c', u64 (n + 1))
          else drain_loop callback fuel p' l' c' (u64 (n + 1))
      end.
Proof.
  intros Hp Hl. pose proof Hp as (Hwf & Hcap & _). pose proof Hl as (Hh & Hhb & He & Heb & Hf & Hfb).
  pose proof (contents_Forall _ Hwf) as Hq. fold (queued p) in Hq.
  assert (devmgr_ring_size (parser_input p) = len (queued p)) as Hsz
    by (unfold queued; by rewrite length_contents).
  cbn [drain_loop]. rewrite !Hsz. unfold scan_head.
  unfold DEVMGR_PROTOCOL_MAX_FRAME, DEVMGR_PROTOCOL_HEADER_SIZE, DEVMGR_PROTOCOL_CRC_SIZE,
    DEVMGR_PROTOCOL_MAX_PAYLOAD, DEVMGR_PROTOCOL_VERSION in *.
  destruct (Z.ltb_spec (len (queued p)) 2); [by exists l|].
  destruct (peek_queued p (l_header l) 2) as (h1 & -> & Hl1 & Hb1 & _ & F1); [done|done|lia..|].
  run_stmt. rewrite get_le16_field by (done || lia). run_stmt. rewrite F1 by lia.
  assert (∀ h, len h = 12 → Forall is_u8 h → locals_ok (l <| l_header := h |>)) as Hheader
    by (intros; split_and!; done).
  destruct (negb _); [exists (l <| l_header := h1 |>); split; [apply Hheader; [lia|done]|done]|].
  destruct (Z.ltb_spec (len (queued p)) 12); [by exists l|].
  destruct (peek_queued p h1 12) as (h & -> & Hl2 & Hb2 & _ & F); [done|done|lia..|].
  run_stmt. rewrite !load_field by (done || lia). do 2 run_stmt. rewrite !F by lia.
  pose proof (Hheader h ltac:(lia) Hb2).
  destruct (negb _ || negb _); [by eexists|].
  rewrite get_le16_field by (done || lia). run_stmt. rewrite F by lia.
  destruct (Z.ltb_spec 4096 (field (queued p) 10 2)); [by eexists|].
  pose proof (field_range _ 10 2 Hq ltac:(lia)). set (k := field (queued p) 10 2) in *.
  replace (12 + k + 4) with (16 + k) by lia.
  destruct (Z.ltb_spec (len (queued p)) (16 + k)); [by exists l|].
  destruct (peek_queued p (l_encoded l) (16 + k)) as (e & -> & Hle & Hbe & Te & _);
    [done|done|lia..|]. run_stmt.
  pose proof (frame_decode_spec e (16 + k) (l_frame l) Hbe ltac:(lia) Hf) as Hdec.
  rewrite Te in Hdec. destruct (decode_wire _) as [status w] eqn:Ew.
  rewrite Hdec. run_stmt.
  exists (mk_locals h e (if status =? DEVMGR_OK then fill (l_frame l) w else l_frame l)).
  split.
  - split_and!; simpl; [lia|done|by rewrite Hle|done|].
    destruct (Z.eqb_spec status DEVMGR_OK) as [->|]; [|done].
    apply decode_wire_inv in Ew as [_ Hw]; [|by apply Forall_take].
    by apply frame_ok_array, fill_ok.
  - destruct (Z.eqb_spec status DEVMGR_ERROR_CRC) as [->|]; [done|].
    by destruct (Z.eqb_spec status DEVMGR_OK) as [->|].
Qed.

(** What a parser's client promises of its callback: on a well-formed frame and
    an object that satisfies [Inv], it returns, does what [handler] says and
    keeps [Inv]. *)
Class Callback (handler : wire_frame → S → Z * S) (Inv : S → Prop) := callback_spec :
  ∀ f c, frame_ok f → Inv c →
    callback f c = Some (handler (view f) c) ∧ Inv (snd (handler (view f) c)).

Context (handler : wire_frame → S → Z * S) (Inv : S → Prop) {Hcb : Callback handler Inv}.

(** The outcome of a call that scanned the bytes [q] from the statistics [s]. *)
Definition scanned (q : list Z) (s : devmgr_parser_stats) (c : S) (n : Z)
    (r : option (Z * devmgr_parser * S * Z)) : Prop :=
  let '(res, es, q', c') := drain handler q c in
  ∃ p', r = Some (res, p', c', foldl count_emitted n es) ∧ queued p' = q' ∧
    parser_stats p' = foldl record_event s es ∧ parser_ready p' ∧ Inv c'.

Lemma queued_Forall p : parser_wf p → Forall is_u8 (queued p).
Proof. intros [? _]. by apply contents_Forall. Qed.

Lemma drain_loop_spec fuel p l c n :
  parser_wf p → locals_ok l → Inv c → (length (queued p) < fuel)%nat →
  scanned (queued p) (parser_stats p) c n (drain_loop callback fuel p l c n).
Proof.
  revert p l c n. induction fuel as [|fuel IH]; intros p l c n Hp Hl Hc Hfuel; [lia|].
  destruct (drain_iteration fuel p l c n Hp Hl) as (l' & Hl' & ->).
  pose proof (queued_Forall p Hp) as Hq. unfold scanned. rewrite drain_unfold by done.
  destruct (scan_head (queued p)) as [|r|w k] eqn:E.
  - exists p. split_and!; try done. by split; [|apply Wait_room].
  - destruct (parser_discard_spec p 1 Hp ltac:(lia)) as (p1 & -> & Hq1 & <- & Hp1). run_stmt.
    pose proof (scan_head_Skip _ _ E).
    set (p2 := p1 <| parser_stats := _ |>). pose proof (parser_wf_event p1 (Skipped r) Hp1).
    specialize (IH p2 l' c n ltac:(done) Hl' Hc). unfold scanned in IH.
    change (queued p2) with (queued p1) in IH. rewrite Hq1 in IH.
    change (Z.to_nat 1) with 1%nat in IH.
    destruct (drain handler (drop 1 (queued p)) c) as [[[res es] q'] c'].
    apply IH. rewrite length_drop. lia.
  - apply scan_head_Deliver in E as (-> & Hw & r & Er); [|done]. pose proof (length_encode_wire w).
    destruct (parser_discard_spec p (len (encode_wire w)) Hp ltac:(lia))
      as (p1 & -> & Hq1 & <- & Hp1). run_stmt. cbv zeta.
    destruct Hl as (_ & _ & _ & _ & Hl).
    destruct (callback_spec (fill (l_frame l) w) c (fill_ok _ _ Hw Hl) Hc) as [-> Hc1].
    rewrite view_fill in *. destruct (handler w c) as [res1 c1]. run_stmt.
    rewrite Er, Nat2Z.id, drop_app_length in *.
    set (p2 := p1 <| parser_stats := _ |>). pose proof (parser_wf_event p1 (Delivered w) Hp1).
    destruct (Z.eqb_spec res1 DEVMGR_OK) as [->|];
      [|exists p2; split_and!; try done; split; [done|]; change (queued p2) with (queued p1);
        rewrite Hq1; pose proof (queued_capacity p Hp) as Hcap; rewrite Er, length_app in Hcap; lia].
    specialize (IH p2 l' c1 (u64 (n + 1)) ltac:(done) Hl' Hc1). unfold scanned in IH.
    change (queued p2) with (queued p1) in IH. rewrite Hq1 in IH.
    destruct (drain handler r c1) as [[[res es] q'] c'].
    apply IH. rewrite length_app in Hfuel. lia.
Qed.

Lemma parser_drain_spec p l c n :
  parser_wf p → locals_ok l → Inv c →
  scanned (queued p) (parser_stats p) c n (parser_drain callback p l c n).
Proof.
  intros Hp Hl Hc. apply drain_loop_spec; [done..|]. destruct Hp as [Hwf _].
  pose proof (length_contents _ Hwf). unfold queued. lia.
Qed.

(** The statistics after [n] more bytes were queued. *)
Definition receive (s : devmgr_parser_stats) (n : Z) : devmgr_parser_stats :=
  s <| bytes_received := u64 (s.(bytes_received) + n) |>.

Lemma receive_receive s m n : receive (receive s m) n = receive s (m + n).
Proof. unfold receive. simpl. unfold u64. f_equal. by rewrite Zplus_mod_idemp_l, Z.add_assoc. Qed.

Lemma receive_events s n es :
  receive (foldl record_event s es) n = foldl record_event (receive s n) es.
Proof. revert s. induction es as [|[[]|] es IH]; intros s; simpl; by rewrite ?IH. Qed.

(** The outcome of a call that queued the first [k] of [bytes], all of them
    unless the callback failed, and scanned what was queued. *)
Definition fed (p : devmgr_parser) (bytes : list Z) (c : S) (n : Z)
    (r : option (Z * devmgr_parser * S * Z)) : Prop :=
  ∃ k, (k ≤ length bytes)%nat ∧
    ((drain handler (queued p ++ take k bytes) c).1.1.1 = DEVMGR_OK → k = length bytes) ∧
    scanned (queued p ++ take k bytes) (receive (parser_stats p) (Z.of_nat k)) c n r.

Lemma receive_ok s n : stats_ok s → stats_ok (receive s n).
Proof. intros [_ H]%Forall_cons. constructor; [apply u64_range|exact H]. Qed.

Lemma receive_0 s : stats_ok s → receive s 0 = s.
Proof.
  intros [Hb _]%Forall_cons. unfold receive. destruct s. simpl in *. by rewrite Z.add_0_r, u64_id.
Qed.

Lemma fed_nothing p c n r :
  parser_wf p →
  scanned (queued p) (parser_stats p) c n r → fed p [] c n r.
Proof.
  intros (_ & _ & Hs) H. exists 0%nat. simpl. split_and!; [lia|done|].
  by rewrite app_nil_r, receive_0.
Qed.

(** Queueing [d1], scanning it with success and then feeding [d2]. *)
Lemma fed_app p p1 d1 d2 c es c1 n r :
  parser_wf p → Forall is_u8 d1 → Forall is_u8 d2 →
  drain handler (queued p ++ d1) c = (DEVMGR_OK, es, queued p1, c1) →
  parser_stats p1 = foldl record_event (receive (parser_stats p) (len d1)) es →
  fed p1 d2 c1 (foldl count_emitted n es) r → fed p (d1 ++ d2) c n r.
Proof.
  intros Hp Hd1 Hd2 E Hs (k & Hk & Hok & Hr). exists (length d1 + k)%nat.
  rewrite length_app, take_app_ge, Nat.add_comm, Nat.add_sub, (assoc_L (++)) by lia.
  unfold scanned in *. rewrite drain_app, E.
  2: apply Forall_app; split; [by apply queued_Forall|done]. 2: by apply Forall_take.
  cbn [Z.eqb DEVMGR_OK]. split; [lia|].
  destruct (drain handler (queued p1 ++ take k d2) c1) as [[[res2 es2] q2] c2].
  split; [simpl in *; intros ?; rewrite Hok by done; lia|].
  rewrite !foldl_app. rewrite Hs, receive_events, receive_receive in Hr.
  by rewrite Nat.add_comm, Nat2Z.inj_add.
Qed.

(** One write of the feed loop. *)
Lemma parser_write_spec p bytes n :
  parser_wf p → Forall is_u8 bytes → 0 ≤ n ≤ len bytes →
  let count := Z.min n (DEVMGR_PARSER_CAPACITY - len (queued p)) in
  ∃ ring, devmgr_ring_write (parser_input p) (Some bytes) n = Some (count, ring) ∧
    let p' := mk_parser ring (receive (parser_stats p) count) in
    queued p' = queued p ++ take (Z.to_nat count) bytes ∧ parser_wf p'.
Proof.
  intros (Hwf & Hcap & Hst) Hb Hn count.
  destruct (ring_write_spec (parser_input p) bytes n Hwf Hb Hn) as (ring & -> & Hq & Hwf' & Hcap').
  unfold Queue.write in *. rewrite Hcap in *. exists ring. split; [done|].
  split; [done|]. split_and!; [done..|]. by apply receive_ok.
Qed.

Lemma feed_loop_spec fuel p l bytes length offset c n :
  parser_wf p → locals_ok l → Inv c → Forall is_u8 bytes →
  0 ≤ offset ≤ length → length ≤ len bytes → length - offset < Z.of_nat fuel →
  offset = length ∨ len (queued p) < DEVMGR_PARSER_CAPACITY →
  fed p (slice bytes offset (length - offset)) c n
      (feed_loop callback fuel p l bytes length offset c n).
Proof.
  revert p offset c n. induction fuel as [|fuel IH]; intros p offset c n Hp Hl Hc Hb Ho Hlen Hf Hroom;
    [lia|]. cbn [feed_loop].
  destruct (Z.ltb_spec offset length) as [Hlt|]; cbn [negb].
  2:{ replace (length - offset) with 0 by lia. rewrite slice_nil.
      apply fed_nothing; [done|]. by apply parser_drain_spec. }
  destruct (parser_write_spec p (drop (Z.to_nat offset) bytes) (length - offset) Hp)
    as (ring & -> & Hq & Hp1); [by apply Forall_drop|rewrite length_drop; lia|].
  run_stmt. cbv zeta. fold (receive (parser_stats p)).
  set (count := Z.min _ _) in *. assert (0 < count ≤ length - offset) by lia.
  change (mk_parser ring _) with (mk_parser ring (receive (parser_stats p) count)).
  set (p1 := mk_parser ring _) in *.
  change (take _ (drop _ bytes)) with (slice bytes offset count) in Hq.
  replace (length - offset) with (count + (length - (offset + count))) by lia.
  rewrite slice_split by lia. set (d1 := slice bytes offset count) in *.
  assert (len d1 = count) as Hd1 by (apply len_slice; lia).
  pose proof (parser_drain_spec p1 l c n Hp1 Hl Hc) as Hdrain. unfold scanned in Hdrain.
  rewrite Hq in Hdrain. destruct (drain handler (queued p ++ d1) c) as [[[res es] q'] c1] eqn:E.
  destruct Hdrain as (p2 & -> & <- & Hs2 & [Hp2 Hroom2] & Hc1). run_stmt.
  assert (Forall is_u8 d1) by by apply slice_Forall.
  destruct (Z.eqb_spec res DEVMGR_OK) as [->|Hres]; cbn [negb].
  - zreduce. eapply fed_app; try done; [by apply slice_Forall|by rewrite Hd1|].
    apply IH; try done; [lia..|]. by right.
  - exists (Datatypes.length d1). rewrite take_app_length, length_app. unfold scanned.
    rewrite E. split; [lia|]. split; [done|]. exists p2. by rewrite Hd1.
Qed.

(** A whole call, on a parser whose ring is not full. *)
Lemma parser_feed_spec p l data length c n :
  parser_wf p → locals_ok l → Inv c → Forall is_u8 data → 0 ≤ length ≤ len data →
  length = 0 ∨ len (queued p) < DEVMGR_PARSER_CAPACITY →
  fed p (take (Z.to_nat length) data) c 0
      (devmgr_parser_feed callback p l (Some data) length c n).
Proof.
  intros Hp Hl Hc Hd Hlen Hroom. rewrite <- slice_0. rewrite <- (Z.sub_0_r length) at 1.
  apply feed_loop_spec; try done; try lia.
Qed.

Lemma record_events_overflow s es :
  overflow_bytes (foldl record_event s es) = overflow_bytes s.
Proof. revert s. induction es as [|[[]|] es IH]; intros s; simpl; by rewrite ?IH. Qed.

(** The parser stays ready whatever the bytes are and whatever the callback
    answers, so the ring never refuses a byte. *)
Lemma parser_feed_ready p l data length c n :
  parser_ready p → locals_ok l → Inv c → Forall is_u8 data → 0 ≤ length ≤ len data →
  ∃ k res es q' c' p',
    (k ≤ Z.to_nat length)%nat ∧ (res = DEVMGR_OK → k = Z.to_nat length) ∧
    drain handler (queued p ++ take k data) c = (res, es, q', c') ∧
    devmgr_parser_feed callback p l (Some data) length c n =
      Some (res, p', c', foldl count_emitted 0 es) ∧
    queued p' = q' ∧
    parser_stats p' = foldl record_event (receive (parser_stats p) (Z.of_nat k)) es ∧
    overflow_bytes (parser_stats p') = overflow_bytes (parser_stats p) ∧
    parser_ready p' ∧ Inv c'.
Proof.
  intros [Hp Hroom] Hl Hc Hd Hlen.
  destruct (parser_feed_spec p l data length c n) as (k & Hk & Hok & Hr); [done..|by right|].
  rewrite take_take in Hok, Hr. rewrite length_take in Hk, Hok.
  rewrite Nat.min_l in Hok, Hr by lia. unfold scanned in Hr.
  destruct (drain handler (queued p ++ take k data) c) as [[[res es] q'] c'] eqn:E.
  destruct Hr as (p' & -> & Hq & Hs & Hp' & Hc'). exists k, res, es, q', c', p'.
  split_and!; try done; [lia|intros ->; rewrite Hok; [lia|done]|by rewrite Hs, record_events_overflow].
Qed.

End Refinement.

(** ** Callbacks that look at the whole frame

    A client that only needs an invariant of its object: the callback may use
    all of the frame and answer as it likes. *)

Section Safety.
Context {S : Type} (callback : devmgr_frame → S → option (Z * S)) (Inv : S → Prop).
Context (Hcb : ∀ f c, frame_ok f → Inv c → ∃ r c', callback f c = Some (r, c') ∧ Inv c').

Definition safely (r : option (Z * devmgr_parser * S * Z)) : Prop :=
  ∃ res p' c' n', r = Some (res, p', c', n') ∧ parser_ready p' ∧ Inv c'.

Lemma drain_loop_safe fuel p l c n :
  parser_wf p → locals_ok l → Inv c → (length (queued p) < fuel)%nat →
  safely (drain_loop callback fuel p l c n).
Proof.
  revert p l c n. induction fuel as [|fuel IH]; intros p l c n Hp Hl Hc Hfuel; [lia|].
  destruct (drain_iteration callback fuel p l c n Hp Hl) as (l' & Hl' & ->).
  pose proof (queued_Forall p Hp) as Hq. pose proof (queued_capacity p Hp) as Hcap.
  destruct (scan_head (queued p)) as [|r|w k] eqn:E.
  - do 4 eexists. split; [done|]. split; [|done]. by split; [|apply Wait_room].
  - destruct (parser_discard_spec p 1 Hp ltac:(lia)) as (p1 & -> & Hq1 & _ & Hp1). run_stmt.
    pose proof (scan_head_Skip _ _ E). pose proof (parser_wf_event p1 (Skipped r) Hp1).
    apply IH; [done..|]. change (queued (_ <| parser_stats := _ |>)) with (queued p1).
    rewrite Hq1, length_drop. lia.
  - apply scan_head_Deliver in E as (-> & Hw & r & Er); [|done]. pose proof (length_encode_wire w).
    destruct (parser_discard_spec p (len (encode_wire w)) Hp ltac:(lia)) as (p1 & -> & Hq1 & _ & Hp1).
    run_stmt. cbv zeta. destruct Hl as (_ & _ & _ & _ & Hl).
    destruct (Hcb (fill (l_frame l) w) c (fill_ok _ _ Hw Hl) Hc) as (res & c1 & -> & Hc1). run_stmt.
    pose proof (parser_wf_event p1 (Delivered w) Hp1) as Hp2.
    rewrite Er, Nat2Z.id, drop_app_length in Hq1. rewrite Er, length_app in Hcap, Hfuel.
    destruct (negb (res =? DEVMGR_OK)).
    + do 4 eexists. split; [done|]. split; [|done]. split; [done|].
      change (queued (_ <| parser_stats := _ |>)) with (queued p1). rewrite Hq1. lia.
    + apply IH; [done..|]. change (queued (_ <| parser_stats := _ |>)) with (queued p1).
      rewrite Hq1. lia.
Qed.

Lemma parser_drain_safe p l c n :
  parser_wf p → locals_ok l → Inv c → safely (parser_drain callback p l c n).
Proof.
  intros Hp Hl Hc. apply drain_loop_safe; [done..|]. destruct Hp as [Hwf _].
  pose proof (length_contents _ Hwf). unfold queued. lia.
Qed.

Lemma feed_loop_safe fuel p l bytes length offset c n :
  parser_wf p → locals_ok l → Inv c → Forall is_u8 bytes →
  0 ≤ offset ≤ length → length ≤ len bytes → length - offset < Z.of_nat fuel →
  offset = length ∨ len (queued p) < DEVMGR_PARSER_CAPACITY →
  safely (feed_loop callback fuel p l bytes length offset c n).
Proof.
  revert p offset c n. induction fuel as [|fuel IH]; intros p offset c n Hp Hl Hc Hb Ho Hlen Hf Hroom;
    [lia|]. cbn [feed_loop].
  destruct (Z.ltb_spec offset length) as [Hlt|]; cbn [negb]; [|by apply parser_drain_safe].
  destruct (parser_write_spec p (drop (Z.to_nat offset) bytes) (length - offset) Hp)
    as (ring & -> & _ & Hp1); [by apply Forall_drop|rewrite length_drop; lia|].
  run_stmt. cbv zeta. set (count := Z.min _ _) in *. assert (0 < count ≤ length - offset) by lia.
  change (mk_parser ring _) with (mk_parser ring (receive (parser_stats p) count)).
  destruct (parser_drain_safe _ l c n Hp1 Hl Hc) as (res & p2 & c1 & n1 & -> & [Hp2 Hr2] & Hc1).
  run_stmt. destruct (negb (res =? DEVMGR_OK)); [by do 4 eexists|].
  rewrite (proj2 (Z.eqb_neq count 0)) by lia.
  apply IH; try done; [lia..|]. by right.
Qed.

Lemma parser_feed_safe p l data length c n :
  parser_ready p → locals_ok l → Inv c → Forall is_u8 data → 0 ≤ length ≤ len data →
  safely (devmgr_parser_feed callback p l (Some data) length c n).
Proof. intros [Hp Hr] Hl Hc Hd Hn. apply feed_loop_safe; try done; try lia. Qed.

End Safety.

(** ** What the scanner consumes *)

(** The bytes an event stands for: one byte skipped, or a whole frame. *)
Inductive tiling : list event → list Z → Prop :=
  | tiling_nil : tiling [] []
  | tiling_skip r b es p : tiling es p → tiling (Skipped r :: es) (b :: p)
  | tiling_frame w es p :
      wire_ok w → tiling es p → tiling (Delivered w :: es) (encode_wire w ++ p).

#[export] Hint Constructors tiling : devmgr.

Lemma drain_tiling {S} (handler : wire_frame → S → Z * S) q c res es q' c' :
  Forall is_u8 q → drain handler q c = (res, es, q', c') →
  ∃ p, q = p ++ q' ∧ tiling es p.
Proof.
  intros Hq. revert c es c'. pattern q. apply queue_ind; [|done]. clear q Hq.
  intros q Hq IH c es c'. rewrite drain_unfold by done.
  destruct (scan_head q) as [|r|w n] eqn:E.
  - intros [= <- <- <- <-]. exists []. auto with devmgr.
  - pose proof (scan_head_Skip _ _ E). destruct (drain handler (drop 1 q) c) as [[[]]] eqn:D.
    intros [= <- <- <- <-]. apply IH in D as (p & Hp & ?); [|rewrite length_drop; lia
      |by apply Forall_drop..].
    destruct q as [|b q]; [done|]. simpl in Hp. rewrite drop_0 in Hp. subst q.
    exists (b :: p). auto with devmgr.
  - apply scan_head_Deliver in E as (-> & Hw & r & ->); [|done].
    rewrite Nat2Z.id, drop_app_length. destruct (handler w c) as [res1 c1].
    apply Forall_app in Hq as [_ Hr]. pose proof (length_encode_wire w).
    destruct (Z.eqb_spec res1 DEVMGR_OK) as [->|].
    + destruct (drain handler r c1) as [[[]]] eqn:D. intros [= <- <- <- <-].
      apply IH in D as (p & -> & ?); [|rewrite length_app; lia|done..].
      exists (encode_wire w ++ p). rewrite (assoc_L (++)). auto with devmgr.
    + intros [= <- <- <- <-]. exists (encode_wire w). split; [done|].
      rewrite <- (app_nil_r (encode_wire w)). auto with devmgr.
Qed.

(** The statistics are tallies of the events. *)
Fixpoint tally (f : event → bool) (es : list event) : Z :=
  match es with
  | [] => 0
  | e :: es => (if f e then 1 else 0) + tally f es
  end.

Definition is_frame (e : event) : bool := match e with Delivered _ => true | _ => false end.
Definition is_skip (e : event) : bool := negb (is_frame e).
Definition is_crc_error (e : event) : bool :=
  match e with Skipped SkipCrc => true | _ => false end.
Definition is_length_error (e : event) : bool :=
  match e with Skipped SkipLength => true | _ => false end.

Definition tallied (s : devmgr_parser_stats) (es : list event) : devmgr_parser_stats :=
  mk_parser_stats (bytes_received s) (u64 (frames_decoded s + tally is_frame es))
    (u64 (crc_errors s + tally is_crc_error es)) (u64 (length_errors s + tally is_length_error es))
    (u64 (discarded_bytes s + tally is_skip es)) (overflow_bytes s).

Lemma u64_step x y : u64 (u64 (x + 1) + y) = u64 (x + (1 + y)).
Proof. unfold u64. rewrite Zplus_mod_idemp_l. f_equal. lia. Qed.

Lemma record_events_tallied s es : stats_ok s → foldl record_event s es = tallied s es.
Proof.
  revert s. induction es as [|e es IH]; intros s Hs.
  - unfold stats_ok in Hs. rewrite !Forall_cons in Hs. destruct Hs as (?&?&?&?&?&?&_).
    unfold tallied. simpl. rewrite !Z.add_0_r, !u64_id by done. by destruct s.
  - simpl. rewrite IH by by apply record_event_ok. unfold tallied.
    destruct e as [[]|]; simpl; rewrite ?u64_step; done.
Qed.

Lemma tally_app f es1 es2 : tally f (es1 ++ es2) = tally f es1 + tally f es2.
Proof. induction es1; simpl; lia. Qed.

(** ** Feeding a stream piece by piece *)

Section Stream.
Context {S : Type} (callback : devmgr_frame → S → option (Z * S)).

(** The callers' loops: one call per piece read, up to the first failure. *)
Fixpoint feed_all (parser : devmgr_parser) (l : drain_locals) (pieces : list (list Z))
    (context : S) : option (Z * devmgr_parser * S) :=
  match pieces with
  | [] => Some (DEVMGR_OK, parser, context)
  | d :: pieces =>
      '(result, parser, context, _) ←
        devmgr_parser_feed callback parser l (Some d) (len d) context 0;
      if negb (result =? DEVMGR_OK) then Some (result, parser, context)
      else feed_all parser l pieces context
  end.

Context (handler : wire_frame → S → Z * S) (Inv : S → Prop) {Hcb : Callback callback handler Inv}.
Hypothesis handler_ok : ∀ w c, (handler w c).1 = DEVMGR_OK.

Lemma drain_ok q c : Forall is_u8 q → (drain handler q c).1.1.1 = DEVMGR_OK.
Proof.
  intros Hq. revert c. pattern q. apply queue_ind; [|done]. clear q Hq.
  intros q Hq IH c. rewrite drain_unfold by done.
  destruct (scan_head q) as [|r|w n] eqn:E; [done| |].
  - pose proof (scan_head_Skip _ _ E).
    specialize (IH (drop 1 q) ltac:(rewrite length_drop; lia) (Forall_drop _ 1 _ Hq) c).
    by destruct (drain handler (drop 1 q) c) as [[[]]].
  - apply scan_head_Deliver in E as (-> & Hw & r & ->); [|done].
    rewrite Nat2Z.id, drop_app_length. pose proof (handler_ok w c) as Hok.
    destruct (handler w c) as [res c1]. simpl in Hok. subst res. simpl.
    apply Forall_app in Hq as [_ Hr]. pose proof (length_encode_wire w).
    specialize (IH r ltac:(rewrite length_app; lia) Hr c1). by destruct (drain handler r c1) as [[[]]].
Qed.

(** The parser has cut off every frame it can. *)
Definition parser_idle (p : devmgr_parser) : Prop :=
  parser_wf p ∧ scan_head (queued p) = Wait.

Lemma parser_idle_ready p : parser_idle p → parser_ready p.
Proof. intros [??]. split; [done|by apply Wait_room]. Qed.

Lemma feed_all_spec p l pieces c :
  parser_idle p → locals_ok l → Inv c → Forall (Forall is_u8) pieces →
  ∃ p' es c',
    feed_all p l pieces c = Some (DEVMGR_OK, p', c') ∧
    drain handler (queued p ++ concat pieces) c = (DEVMGR_OK, es, queued p', c') ∧
    parser_stats p' = foldl record_event (receive (parser_stats p) (len (concat pieces))) es ∧
    parser_idle p' ∧ Inv c'.
Proof.
  intros Hp Hl Hc Hd. revert p c Hp Hc.
  induction Hd as [|d ds Hd Hds IH]; intros p c Hp Hc.
  { exists p, [], c. simpl. rewrite app_nil_r. destruct Hp as [Hwf Hw].
    rewrite drain_Wait by (done || by apply queued_Forall).
    split_and!; try done. by rewrite receive_0 by apply Hwf. }
  destruct (parser_feed_ready callback handler Inv p l d (len d) c 0)
    as (k & res & es & q' & c1 & p1 & _ & Hk & E & Hfeed & Hq & Hs & _ & [Hp1 _] & Hc1);
    [by apply parser_idle_ready|done..|lia|].
  pose proof (queued_Forall p (proj1 Hp)) as Hqp.
  assert (res = DEVMGR_OK) as ->.
  { pose proof (drain_ok (queued p ++ take k d) c) as H. rewrite E in H. apply H.
    apply Forall_app; split; [done|by apply Forall_take]. }
  rewrite Nat2Z.id in Hk. specialize (Hk eq_refl). subst k. rewrite firstn_all in E.
  assert (Forall is_u8 (queued p ++ d)) as Hpd by (apply Forall_app; by split).
  pose proof (drain_rest handler _ _ _ _ _ _ Hpd E) as [_ Hw].
  destruct (IH p1 c1) as (p' & es2 & c' & Hall & E2 & Hs2 & Hp' & Hc'); [split|done|];
    rewrite ?Hq; auto.
  exists p', (es ++ es2), c'. cbn [feed_all concat]. rewrite Hfeed. split; [done|].
  rewrite (assoc_L (++)), drain_app, E by (done || by apply Forall_concat). simpl.
  rewrite <- Hq, E2. split; [done|]. split; [|done].
  rewrite foldl_app, Hs2, Hs, receive_events, receive_receive, length_app, Nat2Z.inj_add. done.
Qed.

End Stream.

Lemma parser_init_idle :
  ∃ p, devmgr_parser_init = (DEVMGR_OK, p) ∧ parser_idle p ∧ queued p = [] ∧
       parser_stats p = zero_stats.
Proof.
  unfold devmgr_parser_init.
  destruct (ring_init_spec (mk_ring [] 0 0 0) (zeros DEVMGR_PARSER_CAPACITY) DEVMGR_PARSER_CAPACITY)
    as (r & -> & Hwf & Hc & Hcap); [apply zeros_Forall|by apply len_zeros|done|].
  eexists. split; [done|]. unfold parser_idle, parser_wf, queued. simpl. rewrite Hc.
  split_and!; try done. by repeat constructor.
Qed.

(** ** A stream of frames with garbage between them *)

Definition segment : Type := list Z * wire_frame.

(** The two bytes of the magic number, 44 4D, do not follow each other. *)
Fixpoint no_magic (g : list Z) : Prop :=
  match g with
  | b :: (c :: _) as g' => ¬ (b = 0x44 ∧ c = 0x4D) ∧ no_magic g'
  | _ => True
  end.

(** Nowhere in the garbage does a frame seem to start. *)
Definition segment_ok (s : segment) : Prop :=
  Forall is_u8 s.1 ∧ no_magic s.1 ∧ wire_ok s.2.

Definition stream (segs : list segment) : list Z :=
  concat (map (λ s, s.1 ++ encode_wire s.2) segs).

Definition garbage (segs : list segment) : Z := len (concat (map fst segs)).

Definition stream_events (segs : list segment) : list event :=
  concat (map (λ s, replicate (length s.1) (Skipped SkipGarbage) ++ [Delivered s.2]) segs).

(** The callback that keeps every frame it is given. *)
Definition record_frame (f : devmgr_frame) (c : list wire_frame) : option (Z * list wire_frame) :=
  Some (DEVMGR_OK, c ++ [view f]).

Definition record_wire (w : wire_frame) (c : list wire_frame) : Z * list wire_frame :=
  (DEVMGR_OK, c ++ [w]).

#[export] Instance record_frame_Callback : Callback record_frame record_wire (λ _, True).
Proof. by intros f c. Qed.

Lemma drain_garbage {S} (handler : wire_frame → S → Z * S) g q c :
  Forall is_u8 g → no_magic g → Forall is_u8 (0x44 :: q) →
  drain handler (g ++ 0x44 :: q) c =
    let '(res, es, q', c') := drain handler (0x44 :: q) c in
    (res, replicate (length g) (Skipped SkipGarbage) ++ es, q', c').
Proof.
  intros Hg Hm Hq. induction Hg as [|b g Hb Hg IH]; simpl.
  { by destruct (drain handler (0x44 :: q) c) as [[[]]]. }
  assert (Forall is_u8 (g ++ 0x44 :: q)) as Hgq by by apply Forall_app.
  rewrite drain_unfold by by constructor.
  assert (scan_head (b :: g ++ 0x44 :: q) = Skip SkipGarbage) as ->.
  { destruct g as [|d g]; cbn [app].
    - apply scan_head_garbage; [done|done|]. by intros [_ ?].
    - apply Forall_cons in Hgq as [Hd _]. apply scan_head_garbage; [done|done|apply Hm]. }
  simpl. rewrite drop_0, IH by (by destruct g as [|d g]; [|apply Hm]).
  by destruct (drain handler (0x44 :: q) c) as [[[]]].
Qed.

Lemma stream_Forall segs : Forall segment_ok segs → Forall is_u8 (stream segs).
Proof.
  intros H. unfold stream. apply Forall_concat, Forall_map. eapply Forall_impl; [done|].
  intros [g w] (Hg & _ & Hw). apply Forall_app; split; [done|by apply encode_wire_Forall].
Qed.

(** A frame starts with the magic number. *)
Lemma encode_wire_magic w : ∃ q, encode_wire w = 0x44 :: q.
Proof. unfold encode_wire, encode_body. cbn. eauto. Qed.

Lemma drain_stream segs c :
  Forall segment_ok segs →
  drain record_wire (stream segs) c = (DEVMGR_OK, stream_events segs, [], c ++ map snd segs).
Proof.
  intros H. revert c. induction H as [|[g w] segs (Hg & Hm & Hw) Hsegs IH]; intros c.
  { by rewrite drain_Wait, app_nil_r by done. }
  change (stream _) with ((g ++ encode_wire w) ++ stream segs). rewrite <- (assoc_L (++)).
  assert (Forall is_u8 (encode_wire w ++ stream segs)) as Hall.
  { apply Forall_app; split; [by apply encode_wire_Forall|by apply stream_Forall]. }
  destruct (encode_wire_magic w) as [q Eq].
  assert (encode_wire w ++ stream segs = 0x44 :: (q ++ stream segs)) as E by by rewrite Eq.
  rewrite E in Hall. cbn [fst snd]. rewrite E, drain_garbage, <- E by done. rewrite <- E in Hall.
  rewrite drain_unfold, scan_head_encode by done.
  rewrite Nat2Z.id, drop_app_length. unfold record_wire at 1. cbn [Z.eqb DEVMGR_OK].
  rewrite IH. unfold stream_events. cbn [map concat fst snd]. by rewrite <- !(assoc_L (++)).
Qed.

Lemma tally_garbage f g :
  tally f (replicate g (Skipped SkipGarbage)) = if f (Skipped SkipGarbage) then Z.of_nat g else 0.
Proof. induction g as [|g IH]; simpl; [by case_match|]. rewrite IH. case_match; lia. Qed.

Lemma stream_tallies segs :
  tally is_frame (stream_events segs) = len segs ∧
  tally is_skip (stream_events segs) = garbage segs ∧
  tally is_crc_error (stream_events segs) = 0 ∧ tally is_length_error (stream_events segs) = 0.
Proof.
  unfold garbage. induction segs as [|[g w] segs (IH1 & IH2 & IH3 & IH4)]; [done|].
  unfold stream_events in *. cbn [map concat fst snd].
  rewrite !tally_app, !tally_garbage, IH1, IH2, IH3, IH4, length_app.
  cbn -[Z.of_nat Z.add]. lia.
Qed.

(** ** Properties *)

(** C6: one call of devmgr_parser_feed, for any bytes and any callback that
    implements some handler.  On a parser whose ring is not full the call
    makes no invalid access, returns, and what it did is what the scanner does
    on the queued bytes followed by the first [k] new ones, all of them unless
    the callback failed: status, callback state, number of frames, statistics
    and remaining bytes agree.  The events tile the consumed bytes (each is one
    skipped byte or a whole well-formed frame), so no byte is delivered twice
    or lost.  The ring is again not full, so no byte is ever refused. *)
Theorem parser_feed_refines_scanner {S} (callback : devmgr_frame → S → option (Z * S))
    (handler : wire_frame → S → Z * S) (Inv : S → Prop) p l data length c n :
  Callback callback handler Inv →
  parser_ready p → locals_ok l → Inv c → Forall is_u8 data → 0 ≤ length ≤ len data →
  ∃ k res es c' p' consumed,
    (k ≤ Z.to_nat length)%nat ∧ (res = DEVMGR_OK → k = Z.to_nat length) ∧
    drain handler (queued p ++ take k data) c = (res, es, queued p', c') ∧
    devmgr_parser_feed callback p l (Some data) length c n =
      Some (res, p', c', foldl count_emitted 0 es) ∧
    parser_stats p' = tallied (receive (parser_stats p) (Z.of_nat k)) es ∧
    queued p ++ take k data = consumed ++ queued p' ∧ tiling es consumed ∧
    parser_ready p' ∧ Inv c'.
Proof.
  intros Hcb Hp Hl Hc Hd Hlen.
  destruct (parser_feed_ready callback handler Inv p l data length c n Hp Hl Hc Hd Hlen)
    as (k & res & es & q' & c' & p' & Hk & Hok & E & Hf & <- & Hs & _ & Hp' & Hc').
  assert (Forall is_u8 (queued p ++ take k data)) as Hq.
  { apply Forall_app; split; [apply queued_Forall, Hp|by apply Forall_take]. }
  destruct (drain_tiling handler _ _ _ _ _ _ Hq E) as (consumed & Hcons & Htile).
  exists k, res, es, c', p', consumed. rewrite <- record_events_tallied; [done|].
  destruct Hp as [(_ & _ & Hst) _]. by apply receive_ok.
Qed.

(** C13: the parser does not depend on how the stream is cut, as long as the
    callback accepts every frame: two ways of cutting the same bytes into calls
    of devmgr_parser_feed, on a parser that has looked at all its queued bytes
    (as it has after devmgr_parser_init and after every such call), end with the
    same queued bytes, statistics and callback state, again in such a parser.
    (A callback that fails ends its call of devmgr_parser_feed, and the rest of
    that piece is dropped, wherever it was cut.) *)
Theorem parser_fragmentation {S} (callback : devmgr_frame → S → option (Z * S))
    (handler : wire_frame → S → Z * S) (Inv : S → Prop) p l c pieces1 pieces2 :
  Callback callback handler Inv → (∀ w c, (handler w c).1 = DEVMGR_OK) →
  parser_idle p → locals_ok l → Inv c →
  Forall (Forall is_u8) pieces1 → Forall (Forall is_u8) pieces2 →
  concat pieces1 = concat pieces2 →
  ∃ p1 p2 c',
    feed_all callback p l pieces1 c = Some (DEVMGR_OK, p1, c') ∧
    feed_all callback p l pieces2 c = Some (DEVMGR_OK, p2, c') ∧
    queued p1 = queued p2 ∧ parser_stats p1 = parser_stats p2 ∧
    parser_idle p1 ∧ parser_idle p2.
Proof.
  intros Hcb Hok Hp Hl Hc H1 H2 Heq.
  destruct (feed_all_spec callback handler Inv Hok p l pieces1 c Hp Hl Hc H1)
    as (p1 & es1 & c1 & F1 & E1 & S1 & ? & _).
  destruct (feed_all_spec callback handler Inv Hok p l pieces2 c Hp Hl Hc H2)
    as (p2 & es2 & c2 & F2 & E2 & S2 & ? & _).
  rewrite Heq, E2 in E1. injection E1 as -> Hq ->. exists p1, p2, c1. by rewrite S1, S2, Heq.
Qed.

(** C12: every frame sent over a noisy line is delivered: from a fresh parser,
    a stream of encoded frames, each preceded by any bytes in which the magic
    number 44 4D does not occur, cut into pieces in any way, delivers exactly
    the frames, in order; nothing stays queued, exactly the other bytes count as
    discarded and no CRC or length error is counted.  (Noise that holds the magic
    number may look like a header and take the bytes that follow with it.) *)
Theorem parser_delivers_stream segs pieces l :
  Forall segment_ok segs → concat pieces = stream segs → locals_ok l →
  ∃ p0 p',
    devmgr_parser_init = (DEVMGR_OK, p0) ∧
    feed_all record_frame p0 l pieces [] = Some (DEVMGR_OK, p', map snd segs) ∧
    queued p' = [] ∧
    devmgr_parser_get_stats p' =
      mk_parser_stats (u64 (len (stream segs))) (u64 (len segs)) 0 0 (u64 (garbage segs)) 0.
Proof.
  intros Hsegs Hpieces Hl. destruct parser_init_idle as (p0 & E0 & Hp0 & Hq0 & Hs0).
  assert (Forall (Forall is_u8) pieces) as Hb.
  { apply Forall_concat. rewrite Hpieces. by apply stream_Forall. }
  destruct (feed_all_spec record_frame record_wire (λ _, True) ltac:(done) p0 l pieces [] Hp0 Hl
    ltac:(done) Hb) as (p' & es & c' & F & E & Hs & _).
  rewrite Hq0, Hpieces, app_nil_l, drain_stream in E by done. injection E as <- Hq <-.
  exists p0, p'. split_and!; [done..|]. unfold devmgr_parser_get_stats. rewrite Hs, Hpieces.
  destruct (stream_tallies segs) as (T1 & T2 & T3 & T4).
  rewrite record_events_tallied, Hs0 by (rewrite Hs0; apply receive_ok; by repeat constructor).
  unfold tallied. by rewrite T1, T2, T3, T4.
Qed.

(** *** Instances *)

Definition fresh_locals : drain_locals :=
  mk_locals (zeros 12) (zeros DEVMGR_PROTOCOL_MAX_FRAME) zero_frame.

Lemma fresh_locals_ok : locals_ok fresh_locals.
Proof.
  split_and!; try apply zeros_Forall; try (apply len_zeros; by vm_compute).
  apply frame_ok_array, zero_frame_ok.
Qed.

Definition fresh_parser : devmgr_parser := devmgr_parser_init.2.

Lemma fresh_parser_idle : parser_idle fresh_parser.
Proof. destruct parser_init_idle as (p & E & Hp & _). unfold fresh_parser. by rewrite E. Qed.

Definition noisy_segment : segment := ([0x4D; 0x44; 0x00; 0x44], view sample_frame).

Lemma noisy_segment_ok : segment_ok noisy_segment.
Proof.
  split; [by repeat constructor|]. split; [by vm_compute; intuition congruence|]. apply view_ok, sample_frame_ok.
Qed.

Lemma parser_feed_refines_scanner_witness :
  ∃ k res es c' p' consumed,
    (k ≤ Z.to_nat 20)%nat ∧ (res = DEVMGR_OK → k = Z.to_nat 20) ∧
    drain record_wire (queued fresh_parser ++ take k sample_wire) [] = (res, es, queued p', c') ∧
    devmgr_parser_feed record_frame fresh_parser fresh_locals (Some sample_wire) 20 [] 0 =
      Some (res, p', c', foldl count_emitted 0 es) ∧
    parser_stats p' = tallied (receive (parser_stats fresh_parser) (Z.of_nat k)) es ∧
    queued fresh_parser ++ take k sample_wire = consumed ++ queued p' ∧ tiling es consumed ∧
    parser_ready p' ∧ True.
Proof.
  refine (parser_feed_refines_scanner record_frame record_wire (λ _, True) fresh_parser
    fresh_locals sample_wire 20 [] 0 _ (parser_idle_ready _ fresh_parser_idle) fresh_locals_ok _
    sample_wire_Forall _); [exact I|by vm_compute].
Defined.

Lemma parser_fragmentation_witness :
  ∃ p1 p2 c',
    feed_all record_frame fresh_parser fresh_locals [sample_wire] [] = Some (DEVMGR_OK, p1, c') ∧
    feed_all record_frame fresh_parser fresh_locals
      [take 5 sample_wire; []; drop 5 sample_wire] [] = Some (DEVMGR_OK, p2, c') ∧
    queued p1 = queued p2 ∧ parser_stats p1 = parser_stats p2 ∧
    parser_idle p1 ∧ parser_idle p2.
Proof.
  refine (parser_fragmentation record_frame record_wire (λ _, True) fresh_parser fresh_locals []
    _ _ _ _ fresh_parser_idle fresh_locals_ok I _ _ _).
  - done.
  - apply Forall_singleton, sample_wire_Forall.
  - apply Forall_cons; split; [apply Forall_take, sample_wire_Forall|].
    apply Forall_cons; split; [done|]. apply Forall_singleton, Forall_drop, sample_wire_Forall.
  - by vm_compute.
Defined.

Lemma parser_delivers_stream_witness :
  ∃ p0 p',
    devmgr_parser_init = (DEVMGR_OK, p0) ∧
    feed_all record_frame p0 fresh_locals [[0x4D; 0x44]; [0x00; 0x44] ++ sample_wire] [] =
      Some (DEVMGR_OK, p', [view sample_frame]) ∧
    queued p' = [] ∧
    devmgr_parser_get_stats p' =
      mk_parser_stats (u64 (len (stream [noisy_segment]))) (u64 1) 0 0
                      (u64 (garbage [noisy_segment])) 0.
Proof.
  refine (parser_delivers_stream [noisy_segment] _ fresh_locals _ _ fresh_locals_ok).
  - constructor; [apply noisy_segment_ok|done].
  - by vm_compute.
Defined.
