(* ===== verification/Session.v ===== *)
(** * Device session: include/devmgr/session.h and src/device/session.c

    The connection state machine and the single outstanding request with its
    sequence number, deadline and retries.  The theorems show that the state
    machine follows the documented diagram, that a request is completed only by
    its own response, and that every request ends. *)

From S2P Require Import Prelude Crc32 Frame.

(** ** The code *)

Inductive devmgr_device_state :=
  | DEVMGR_DEVICE_DISCONNECTED
  | DEVMGR_DEVICE_CONNECTING
  | DEVMGR_DEVICE_HANDSHAKING
  | DEVMGR_DEVICE_READY
  | DEVMGR_DEVICE_STREAMING
  | DEVMGR_DEVICE_UPGRADING
  | DEVMGR_DEVICE_REBOOTING.

#[export] Instance device_state_eq_dec : EqDecision devmgr_device_state.
Proof. solve_decision. Defined.

Inductive devmgr_session_event :=
  | DEVMGR_SESSION_CONNECT
  | DEVMGR_SESSION_TRANSPORT_CONNECTED
  | DEVMGR_SESSION_HANDSHAKE_OK
  | DEVMGR_SESSION_START_STREAM
  | DEVMGR_SESSION_STOP_STREAM
  | DEVMGR_SESSION_START_UPGRADE
  | DEVMGR_SESSION_UPGRADE_DONE
  | DEVMGR_SESSION_REBOOT
  | DEVMGR_SESSION_TRANSPORT_LOST
  | DEVMGR_SESSION_FAIL.

#[export] Instance session_event_eq_dec : EqDecision devmgr_session_event.
Proof. solve_decision. Defined.

Record devmgr_retry_policy := mk_policy {
  timeout_ms : Z;
  retry_interval_ms : Z;
  max_retries : Z;
}.

Record devmgr_session_stats := mk_session_stats {
  requests : Z;
  responses : Z;
  retries : Z;
  timeouts : Z;
  sequence_mismatches : Z;
  duplicate_responses : Z;
  unexpected_responses : Z;
}.

#[export] Instance eta_session_stats : Eta devmgr_session_stats := λ s,
  mk_session_stats (requests s) (responses s) (retries s) (timeouts s) (sequence_mismatches s)
                   (duplicate_responses s) (unexpected_responses s).

Record devmgr_pending_request := mk_pending {
  pending_frame : devmgr_frame;
  pending_policy : devmgr_retry_policy;
  deadline_ns : Z;
  retries_done : Z;
  pending_active : bool;
}.

#[export] Instance eta_pending : Eta devmgr_pending_request := λ p,
  mk_pending (pending_frame p) (pending_policy p) (deadline_ns p) (retries_done p)
             (pending_active p).

Record devmgr_session := mk_session {
  session_state : devmgr_device_state;
  next_sequence : Z;
  last_completed_sequence : Z;
  session_pending : devmgr_pending_request;
  session_stats : devmgr_session_stats;
}.

#[export] Instance eta_session : Eta devmgr_session := λ s,
  mk_session (session_state s) (next_sequence s) (last_completed_sequence s) (session_pending s)
             (session_stats s).

Definition milliseconds_to_ns (milliseconds : Z) : Z := u64 (milliseconds * 1000000).

Definition saturating_add (left right : Z) : Z :=
  if u64 (UINT64_MAX - left) <? right then UINT64_MAX else u64 (left + right).

Definition devmgr_session_init : devmgr_session :=
  mk_session DEVMGR_DEVICE_DISCONNECTED 1 0
             (mk_pending zero_frame (mk_policy 0 0 0) 0 0 false)
             (mk_session_stats 0 0 0 0 0 0 0).

Definition devmgr_session_cancel_request (session : devmgr_session) : devmgr_session :=
  session <| session_pending := session.(session_pending) <| pending_active := false |> |>.

Definition devmgr_session_transition (session : devmgr_session) (event : devmgr_session_event)
    : Z * devmgr_session :=
  if bool_decide (event = DEVMGR_SESSION_TRANSPORT_LOST) ||
     bool_decide (event = DEVMGR_SESSION_FAIL) then
    (DEVMGR_OK,
     devmgr_session_cancel_request (session <| session_state := DEVMGR_DEVICE_DISCONNECTED |>))
  else
  let goto next := (DEVMGR_OK, session <| session_state := next |>) in
  let refuse := (DEVMGR_ERROR_STATE, session) in
  match session.(session_state) with
  | DEVMGR_DEVICE_DISCONNECTED =>
      if bool_decide (event = DEVMGR_SESSION_CONNECT) then goto DEVMGR_DEVICE_CONNECTING
      else refuse
  | DEVMGR_DEVICE_CONNECTING =>
      if bool_decide (event = DEVMGR_SESSION_TRANSPORT_CONNECTED)
      then goto DEVMGR_DEVICE_HANDSHAKING else refuse
  | DEVMGR_DEVICE_HANDSHAKING =>
      if bool_decide (event = DEVMGR_SESSION_HANDSHAKE_OK) then goto DEVMGR_DEVICE_READY
      else refuse
  | DEVMGR_DEVICE_READY =>
      if bool_decide (event = DEVMGR_SESSION_START_STREAM) then goto DEVMGR_DEVICE_STREAMING
      else if bool_decide (event = DEVMGR_SESSION_START_UPGRADE)
      then goto DEVMGR_DEVICE_UPGRADING
      else if bool_decide (event = DEVMGR_SESSION_REBOOT) then goto DEVMGR_DEVICE_REBOOTING
      else refuse
  | DEVMGR_DEVICE_STREAMING =>
      if bool_decide (event = DEVMGR_SESSION_STOP_STREAM) then goto DEVMGR_DEVICE_READY
      else if bool_decide (event = DEVMGR_SESSION_REBOOT) then goto DEVMGR_DEVICE_REBOOTING
      else refuse
  | DEVMGR_DEVICE_UPGRADING =>
      if bool_decide (event = DEVMGR_SESSION_UPGRADE_DONE) then goto DEVMGR_DEVICE_READY
      else if bool_decide (event = DEVMGR_SESSION_REBOOT) then goto DEVMGR_DEVICE_REBOOTING
      else refuse
  | DEVMGR_DEVICE_REBOOTING =>
      if bool_decide (event = DEVMGR_SESSION_TRANSPORT_CONNECTED)
      then goto DEVMGR_DEVICE_HANDSHAKING else refuse
  end.

Definition devmgr_device_state_string (state : devmgr_device_state) : string :=
  match state with
  | DEVMGR_DEVICE_DISCONNECTED => "DISCONNECTED"%string
  | DEVMGR_DEVICE_CONNECTING => "CONNECTING"%string
  | DEVMGR_DEVICE_HANDSHAKING => "HANDSHAKING"%string
  | DEVMGR_DEVICE_READY => "READY"%string
  | DEVMGR_DEVICE_STREAMING => "STREAMING"%string
  | DEVMGR_DEVICE_UPGRADING => "UPGRADING"%string
  | DEVMGR_DEVICE_REBOOTING => "REBOOTING"%string
  end.

(** The status, the session and [*request], which is left alone on an error. *)
Definition devmgr_session_begin_request (session : devmgr_session) (type flags : Z)
    (payload : option (list Z)) (payload_length : Z) (policy : devmgr_retry_policy)
    (now_ns : Z) (request : devmgr_frame) : option (Z * devmgr_session * devmgr_frame) :=
  if (match payload with None => negb (payload_length =? 0) | Some _ => false end) ||
     (DEVMGR_PROTOCOL_MAX_PAYLOAD <? payload_length) || (policy.(timeout_ms) =? 0) then
    Some (DEVMGR_ERROR_INVALID, session, request)
  else if session.(session_pending).(pending_active) then
    Some (DEVMGR_ERROR_BUSY, session, request)
  else
  let request := zero_frame <| frame_type := type |> <| frame_flags := flags |>
                            <| frame_sequence := session.(next_sequence) |> in
  let next := u32 (session.(next_sequence) + 1) in
  let next := if next =? 0 then 1 else next in
  let request := request <| frame_payload_length := payload_length |> in
  bytes ← (if negb (payload_length =? 0) then
             src ← payload; memcpy request.(frame_payload) 0 src 0 payload_length
           else Some request.(frame_payload));
  let request := request <| frame_payload := bytes |> in
  let pending := mk_pending request policy
                   (saturating_add now_ns (milliseconds_to_ns policy.(timeout_ms))) 0 true in
  let stats := session.(session_stats) in
  Some (DEVMGR_OK,
        session <| next_sequence := next |> <| session_pending := pending |>
                <| session_stats := stats <| requests := u64 (stats.(requests) + 1) |> |>,
        request).

Definition is_reply_type (type : Z) : bool :=
  negb (negb (type =? DEVMGR_MSG_ACK) && negb (type =? DEVMGR_MSG_NACK) &&
        negb (type =? DEVMGR_MSG_ERROR)).

Definition devmgr_session_accept_response (session : devmgr_session) (response : devmgr_frame)
    : Z * devmgr_session :=
  let pending := session.(session_pending) in
  let stats := session.(session_stats) in
  let mismatch := session <| session_stats :=
    stats <| sequence_mismatches := u64 (stats.(sequence_mismatches) + 1) |> |> in
  let duplicate := session <| session_stats :=
    stats <| duplicate_responses := u64 (stats.(duplicate_responses) + 1) |> |> in
  let unexpected := session <| session_stats :=
    stats <| unexpected_responses := u64 (stats.(unexpected_responses) + 1) |> |> in
  if negb pending.(pending_active) then
    (DEVMGR_ERROR_NOT_FOUND,
     if response.(frame_sequence) =? session.(last_completed_sequence) then duplicate
     else unexpected)
  else if negb (response.(frame_sequence) =? pending.(pending_frame).(frame_sequence)) then
    (DEVMGR_ERROR_PROTOCOL, mismatch)
  else if (Z.land response.(frame_flags) DEVMGR_FRAME_RESPONSE =? 0) &&
          negb (is_reply_type response.(frame_type)) then
    (DEVMGR_ERROR_PROTOCOL, unexpected)
  else if negb (response.(frame_type) =? pending.(pending_frame).(frame_type)) &&
          negb (is_reply_type response.(frame_type)) then
    (DEVMGR_ERROR_PROTOCOL, unexpected)
  else
    (DEVMGR_OK,
     session <| last_completed_sequence := response.(frame_sequence) |>
             <| session_pending := pending <| pending_active := false |> |>
             <| session_stats := stats <| responses := u64 (stats.(responses) + 1) |> |>).

Section Tick.
Context {C : Type}.

(** devmgr_retransmit_callback, with the object behind [context]. *)
Variable retransmit : devmgr_frame → C → option (Z * C).

Definition devmgr_session_tick (session : devmgr_session) (now_ns : Z) (context : C)
    : option (Z * devmgr_session * C) :=
  let pending := session.(session_pending) in
  let stats := session.(session_stats) in
  if negb pending.(pending_active) || (now_ns <? pending.(deadline_ns)) then
    Some (DEVMGR_OK, session, context)
  else if pending.(pending_policy).(max_retries) <=? pending.(retries_done) then
    Some (DEVMGR_ERROR_TIMEOUT,
          session <| session_pending := pending <| pending_active := false |> |>
                  <| session_stats := stats <| timeouts := u64 (stats.(timeouts) + 1) |> |>,
          context)
  else
  let frame := pending.(pending_frame) in
  let frame := frame <| frame_flags := Z.lor frame.(frame_flags) DEVMGR_FRAME_RETRY |> in
  let pending := pending <| pending_frame := frame |> in
  '(result, context) ← retransmit frame context;
  if negb (result =? DEVMGR_OK) then
    Some (result, session <| session_pending := pending |>, context)
  else
  let interval := milliseconds_to_ns
    (if pending.(pending_policy).(retry_interval_ms) =? 0
     then pending.(pending_policy).(timeout_ms)
     else pending.(pending_policy).(retry_interval_ms)) in
  let pending := pending <| retries_done := u8 (pending.(retries_done) + 1) |>
                         <| deadline_ns := saturating_add now_ns interval |> in
  Some (DEVMGR_OK,
        session <| session_pending := pending |>
                <| session_stats := stats <| retries := u64 (stats.(retries) + 1) |> |>,
        context).

End Tick.

(** ** Invariant *)

Definition policy_ok (p : devmgr_retry_policy) : Prop :=
  is_u32 (timeout_ms p) ∧ is_u32 (retry_interval_ms p) ∧ is_u8 (max_retries p).

(** Field ranges, and: the next sequence is never zero, and the pending request
    has a nonzero sequence and has not been retried more often than allowed. *)
Definition pending_ok (p : devmgr_pending_request) : Prop :=
  frame_ok (pending_frame p) ∧ policy_ok (pending_policy p) ∧ is_u64 (deadline_ns p) ∧
  is_u8 (retries_done p) ∧
  (pending_active p = true →
    frame_sequence (pending_frame p) ≠ 0 ∧ retries_done p ≤ max_retries (pending_policy p)).

Definition session_ok (s : devmgr_session) : Prop :=
  is_u32 (next_sequence s) ∧ next_sequence s ≠ 0 ∧ pending_ok (session_pending s).

(** One call, with everything it is given: the answer of the transport to a
    retransmission is the tick's [status]. *)
Inductive session_op :=
  | OpBegin (type flags : Z) (payload : list Z) (policy : devmgr_retry_policy) (now_ns : Z)
  | OpResponse (response : devmgr_frame)
  | OpTick (now_ns status : Z)
  | OpCancel
  | OpEvent (event : devmgr_session_event).

Definition op_ok (o : session_op) : Prop :=
  match o with
  | OpBegin type flags payload policy now_ns =>
      is_u8 type ∧ is_u8 flags ∧ Forall is_u8 payload ∧ is_u16 (len payload) ∧
      policy_ok policy ∧ is_u64 now_ns
  | OpTick now_ns _ => is_u64 now_ns
  | _ => True
  end.

(** Frames handed to the transport: a fresh request or a repetition. *)
Inductive sent := Fresh (f : devmgr_frame) | Repeat (f : devmgr_frame).

Definition log_retransmit (status : Z) (f : devmgr_frame) (c : list sent) : option (Z * list sent) :=
  Some (status, if status =? DEVMGR_OK then c ++ [Repeat f] else c).

Definition session_step (o : session_op) (s : devmgr_session) : option (Z * devmgr_session * list sent) :=
  match o with
  | OpBegin type flags payload policy now_ns =>
      '(result, s, f) ← devmgr_session_begin_request s type flags (Some payload) (len payload)
                          policy now_ns zero_frame;
      Some (result, s, if result =? DEVMGR_OK then [Fresh f] else [])
  | OpResponse f => let '(result, s) := devmgr_session_accept_response s f in Some (result, s, [])
  | OpTick now_ns status => devmgr_session_tick (log_retransmit status) s now_ns []
  | OpCancel => Some (DEVMGR_OK, devmgr_session_cancel_request s, [])
  | OpEvent e => let '(result, s) := devmgr_session_transition s e in Some (result, s, [])
  end.

Fixpoint session_run (os : list session_op) (s : devmgr_session)
    : option (list Z * devmgr_session * list sent) :=
  match os with
  | [] => Some ([], s, [])
  | o :: os =>
      '(result, s, fs) ← session_step o s;
      '(results, s, fs') ← session_run os s;
      Some (result :: results, s, fs ++ fs')
  end.

Lemma saturating_add_min a b :
  is_u64 a → is_u64 b → saturating_add a b = Z.min UINT64_MAX (a + b).
Proof.
  intros. unfold saturating_add, UINT64_MAX, is_u64 in *.
  rewrite (u64_id (_ - a)) by (unfold is_u64; lia).
  destruct (Z.ltb_spec (18446744073709551615 - a) b); [lia|].
  rewrite u64_id by (unfold is_u64; lia). lia.
Qed.

Lemma saturating_add_u64 a b : is_u64 a → is_u64 b → is_u64 (saturating_add a b).
Proof. intros. rewrite saturating_add_min by done. unfold is_u64, UINT64_MAX in *. lia. Qed.

Lemma milliseconds_to_ns_u64 m : is_u64 (milliseconds_to_ns m).
Proof. apply u64_range. Qed.

#[export] Hint Resolve saturating_add_u64 milliseconds_to_ns_u64 : devmgr.

Lemma milliseconds_to_ns_exact m : is_u32 m → milliseconds_to_ns m = m * 1000000.
Proof. intros. unfold milliseconds_to_ns, is_u32 in *. apply u64_id. unfold is_u64. lia. Qed.

Definition succ_sequence (n : Z) : Z := if u32 (n + 1) =? 0 then 1 else u32 (n + 1).

Lemma succ_sequence_ok n : is_u32 (succ_sequence n) ∧ succ_sequence n ≠ 0.
Proof.
  unfold succ_sequence. pose proof (u32_range (n + 1)).
  by destruct (Z.eqb_spec (u32 (n + 1)) 0).
Qed.

(** The session after a request was accepted. *)
Definition begun (s : devmgr_session) (f : devmgr_frame) (policy : devmgr_retry_policy)
    (now_ns : Z) : devmgr_session :=
  mk_session (session_state s) (succ_sequence (next_sequence s)) (last_completed_sequence s)
    (mk_pending f policy (saturating_add now_ns (milliseconds_to_ns (timeout_ms policy))) 0 true)
    ((session_stats s) <| requests := u64 (requests (session_stats s) + 1) |>).

Lemma begin_request_spec s type flags src n policy now_ns f :
  Forall is_u8 src → 0 ≤ n ≤ len src →
  devmgr_session_begin_request s type flags (Some src) n policy now_ns f =
    Some (if (DEVMGR_PROTOCOL_MAX_PAYLOAD <? n) || (timeout_ms policy =? 0)
          then (DEVMGR_ERROR_INVALID, s, f)
          else if pending_active (session_pending s) then (DEVMGR_ERROR_BUSY, s, f)
          else let request := request_frame type flags (next_sequence s) (take (Z.to_nat n) src) in
               (DEVMGR_OK, begun s request policy now_ns, request)).
Proof.
  intros Hsrc Hn. unfold devmgr_session_begin_request. cbn [orb].
  unfold DEVMGR_PROTOCOL_MAX_PAYLOAD. destruct (Z.ltb_spec 4096 n); [done|]. cbn [orb].
  destruct (timeout_ms policy =? 0); [done|]. destruct (pending_active _); [done|].
  assert (request_frame type flags (next_sequence s) (take (Z.to_nat n) src) =
          mk_frame type flags (next_sequence s) n (take (Z.to_nat n) src ++ zeros (4096 - n))) as ->.
  { unfold request_frame. rewrite length_take.
    replace (Z.of_nat (Z.to_nat n `min` length src)) with n by lia. done. }
  destruct (Z.eqb_spec n 0) as [->|]; cbn [negb].
  - run_stmt. rewrite take_0. by destruct s.
  - run_stmt. change (memcpy _ 0 src 0 n) with (memcpy (zeros 4096) 0 src 0 n).
    rewrite memcpy_ok, splice_zeros by (rewrite ?len_zeros; lia). by destruct s.
Qed.

(** The pending request with its retry flag set, and after a repetition at
    [now_ns]. *)
Definition retry_frame (f : devmgr_frame) : devmgr_frame :=
  f <| frame_flags := Z.lor f.(frame_flags) DEVMGR_FRAME_RETRY |>.

Definition retry_interval (policy : devmgr_retry_policy) : Z :=
  milliseconds_to_ns (if retry_interval_ms policy =? 0 then timeout_ms policy
                      else retry_interval_ms policy).

Definition repeated (p : devmgr_pending_request) (now_ns : Z) : devmgr_pending_request :=
  mk_pending (retry_frame (pending_frame p)) (pending_policy p)
             (saturating_add now_ns (retry_interval (pending_policy p)))
             (u8 (retries_done p + 1)) (pending_active p).

Lemma lor_u8 a b : is_u8 a → is_u8 b → is_u8 (Z.lor a b).
Proof.
  intros Ha Hb. unfold is_u8 in *. split; [apply Z.lor_nonneg; lia|].
  destruct (decide (Z.lor a b = 0)) as [->|]; [lia|].
  apply (Z.log2_lt_pow2 _ 8); [pose proof (proj2 (Z.lor_nonneg a b)); lia|].
  rewrite Z.log2_lor by lia. apply Z.max_lub_lt.
  all: match goal with |- Z.log2 ?x < 8 => destruct (decide (x = 0)) as [->|]; [done|] end.
  all: apply Z.log2_lt_pow2; lia.
Qed.

Lemma retry_frame_ok f : frame_ok f → frame_ok (retry_frame f).
Proof.
  intros (? & ? & ? & ? & ? & ?). unfold frame_ok. simpl. split_and!; try lia; try done;
    by apply lor_u8.
Qed.

Lemma pending_ok_stop p : pending_ok p → pending_ok (p <| pending_active := false |>).
Proof. intros (? & ? & ? & ? & ?). by split_and!. Qed.

Lemma repeated_ok p now_ns :
  pending_ok p → is_u64 now_ns → retries_done p < max_retries (pending_policy p) →
  pending_ok (repeated p now_ns).
Proof.
  intros (? & Hp & ? & ? & Ha) ? ?. pose proof Hp as (? & ? & ?). unfold is_u8 in *.
  assert (u8 (retries_done p + 1) = retries_done p + 1) as Hr by (apply u8_id; unfold is_u8; lia).
  unfold pending_ok. cbn [repeated pending_frame pending_policy deadline_ns retries_done
    pending_active retry_frame frame_sequence]. rewrite Hr.
  split_and!; auto with devmgr; [by apply retry_frame_ok| |unfold is_u8; lia|].
  { apply saturating_add_u64; [done|apply milliseconds_to_ns_u64]. }
  intros Ht. destruct (Ha Ht). split; [done|lia].
Qed.

(** Every call returns and keeps the invariant. *)
Lemma session_step_ok o s :
  session_ok s → op_ok o → ∃ res s' fs, session_step o s = Some (res, s', fs) ∧ session_ok s'.
Proof.
  intros Hs Ho. pose proof Hs as (Hn & Hnz & Hp). destruct o as [type flags payload policy now|f|now status| |e]; simpl.
  - destruct Ho as (? & ? & ? & ? & Hpol & ?). rewrite begin_request_spec by (done || lia). run_stmt.
    destruct (_ || _) eqn:E; [by do 3 eexists|]. destruct (pending_active _); [by do 3 eexists|].
    apply orb_false_iff in E as [E%Z.ltb_ge _]. do 3 eexists. split; [done|].
    rewrite firstn_all2 by lia. pose proof (succ_sequence_ok (next_sequence s)) as [??].
    split; [done|]. split; [done|]. split; [by apply request_frame_ok|].
    split; [done|]. split; [by apply saturating_add_u64, milliseconds_to_ns_u64|]. split; [done|].
    intros _. split; [done|]. by apply Hpol.
  - unfold devmgr_session_accept_response. repeat case_match; simplify_eq;
      (do 3 eexists; split; [done|]; split_and!; try done; by apply pending_ok_stop).
  - unfold devmgr_session_tick. destruct (_ || _); [by do 3 eexists|].
    destruct (Z.leb_spec (max_retries (pending_policy (session_pending s)))
                         (retries_done (session_pending s))).
    { do 3 eexists. split; [done|]. split_and!; try done. by apply pending_ok_stop. }
    simpl. destruct (negb _); do 3 eexists; (split; [done|]); split_and!; try done.
    + destruct Hp as (? & ? & ? & ? & ?). split_and!; try done. by apply retry_frame_ok.
    + by apply (repeated_ok (session_pending s) now).
  - do 3 eexists. split; [done|]. split_and!; try done. by apply pending_ok_stop.
  - unfold devmgr_session_transition. destruct (_ || _).
    { do 3 eexists. split; [done|]. split_and!; try done. by apply pending_ok_stop. }
    repeat case_match; simplify_eq; by do 3 eexists.
Qed.

Lemma session_run_ok os s :
  session_ok s → Forall op_ok os →
  ∃ rs s' fs, session_run os s = Some (rs, s', fs) ∧ session_ok s'.
Proof.
  intros Hs Hos. revert s Hs. induction Hos as [|o os Ho Hos IH]; intros s Hs; simpl.
  { by do 3 eexists. }
  destruct (session_step_ok o s Hs Ho) as (r & s1 & fs & -> & Hs1). run_stmt.
  destruct (IH s1 Hs1) as (rs & s2 & fs2 & -> & Hs2). run_stmt. by do 3 eexists.
Qed.

(** Rule induction over a run of calls. *)
Lemma session_run_ind (P : devmgr_session → list session_op → devmgr_session → list sent → Prop) :
  (∀ s, P s [] s []) →
  (∀ o os s r s1 fs s2 fs2,
     session_ok s → op_ok o → session_ok s1 → session_step o s = Some (r, s1, fs) →
     P s1 os s2 fs2 → P s (o :: os) s2 (fs ++ fs2)) →
  ∀ os s rs s' fs, session_ok s → Forall op_ok os → session_run os s = Some (rs, s', fs) →
    P s os s' fs.
Proof.
  intros Hnil Hcons os s rs s' fs Hs Hos. revert s rs s' fs Hs.
  induction Hos as [|o os Ho Hos IH]; intros s rs s' fs Hs Hrun; simpl in Hrun; [by simplify_eq|].
  destruct (session_step_ok o s Hs Ho) as (r & s1 & fs1 & E & Hs1). rewrite E in Hrun.
  rewrite bind_ok in Hrun. destruct (session_run os s1) as [[[rs2 s2] fs2]|] eqn:E2; [|done].
  simpl in Hrun. simplify_eq. eauto.
Qed.

(** ** The state diagram *)

(** docs/state-machines.md, "Device Session"; a failure is also accepted when
    already disconnected. *)
Inductive diagram : devmgr_device_state → devmgr_session_event → devmgr_device_state → Prop :=
  | d_connect : diagram DEVMGR_DEVICE_DISCONNECTED DEVMGR_SESSION_CONNECT DEVMGR_DEVICE_CONNECTING
  | d_transport : diagram DEVMGR_DEVICE_CONNECTING DEVMGR_SESSION_TRANSPORT_CONNECTED
                          DEVMGR_DEVICE_HANDSHAKING
  | d_handshake : diagram DEVMGR_DEVICE_HANDSHAKING DEVMGR_SESSION_HANDSHAKE_OK DEVMGR_DEVICE_READY
  | d_start : diagram DEVMGR_DEVICE_READY DEVMGR_SESSION_START_STREAM DEVMGR_DEVICE_STREAMING
  | d_stop : diagram DEVMGR_DEVICE_STREAMING DEVMGR_SESSION_STOP_STREAM DEVMGR_DEVICE_READY
  | d_upgrade : diagram DEVMGR_DEVICE_READY DEVMGR_SESSION_START_UPGRADE DEVMGR_DEVICE_UPGRADING
  | d_upgraded : diagram DEVMGR_DEVICE_UPGRADING DEVMGR_SESSION_UPGRADE_DONE DEVMGR_DEVICE_READY
  | d_reboot s : s ∈ [DEVMGR_DEVICE_READY; DEVMGR_DEVICE_STREAMING; DEVMGR_DEVICE_UPGRADING] →
                 diagram s DEVMGR_SESSION_REBOOT DEVMGR_DEVICE_REBOOTING
  | d_reconnect : diagram DEVMGR_DEVICE_REBOOTING DEVMGR_SESSION_TRANSPORT_CONNECTED
                          DEVMGR_DEVICE_HANDSHAKING
  | d_failure s e : e ∈ [DEVMGR_SESSION_TRANSPORT_LOST; DEVMGR_SESSION_FAIL] →
                    diagram s e DEVMGR_DEVICE_DISCONNECTED.

#[export] Hint Constructors diagram : devmgr.

Definition run_events (s : devmgr_session) (es : list devmgr_session_event) : devmgr_session :=
  foldl (λ s e, (devmgr_session_transition s e).2) s es.

Definition is_failure (e : devmgr_session_event) : bool :=
  bool_decide (e = DEVMGR_SESSION_TRANSPORT_LOST) || bool_decide (e = DEVMGR_SESSION_FAIL).

(** The handshake was accepted and the transport was not lost since. *)
Definition handshaken (es : list devmgr_session_event) : Prop :=
  ∃ pre post, es = pre ++ DEVMGR_SESSION_HANDSHAKE_OK :: post ∧
    session_state (run_events devmgr_session_init pre) = DEVMGR_DEVICE_HANDSHAKING ∧
    Forall (λ e, is_failure e = false) post.

Lemma handshaken_snoc es e : handshaken es → is_failure e = false → handshaken (es ++ [e]).
Proof.
  intros (pre & post & -> & ? & ?) ?. exists pre, (post ++ [e]).
  rewrite <- (assoc_L (++)). split_and!; [done..|]. apply Forall_app; split; [done|by constructor].
Qed.

(** States in which the daemon uses the device. *)
Definition operational (s : devmgr_device_state) : bool :=
  match s with
  | DEVMGR_DEVICE_READY | DEVMGR_DEVICE_STREAMING | DEVMGR_DEVICE_UPGRADING
  | DEVMGR_DEVICE_REBOOTING => true
  | _ => false
  end.

(** ** Sequence numbers *)

Definition fresh_sequences (fs : list sent) : list Z :=
  omap (λ f, match f with Fresh f => Some (frame_sequence f) | Repeat _ => None end) fs.

Lemma fresh_app fs1 fs2 : fresh_sequences (fs1 ++ fs2) = fresh_sequences fs1 ++ fresh_sequences fs2.
Proof. apply omap_app. Qed.

(** The sequence [k] requests later: 1, 2, ..., 2^32 - 1, 1, ... *)
Definition nth_sequence (n : Z) (k : nat) : Z := (n - 1 + Z.of_nat k) mod 4294967295 + 1.

Lemma succ_sequence_nth n : is_u32 n → n ≠ 0 → succ_sequence n = nth_sequence n 1.
Proof.
  unfold succ_sequence, nth_sequence, u32, is_u32. intros.
  destruct (decide (n = 4294967295)) as [->|]; [done|].
  rewrite !(Z.mod_small (n + 1)), (Z.mod_small (n - 1 + _)) by lia. rewrite (proj2 (Z.eqb_neq _ _)); lia.
Qed.

Lemma nth_sequence_0 n : is_u32 n → n ≠ 0 → nth_sequence n 0 = n.
Proof. unfold nth_sequence, is_u32. intros. rewrite Z.mod_small; lia. Qed.

Lemma nth_sequence_succ n k :
  is_u32 n → n ≠ 0 → nth_sequence (succ_sequence n) k = nth_sequence n (S k).
Proof.
  intros. rewrite succ_sequence_nth by done. unfold nth_sequence.
  replace ((n - 1 + Z.of_nat 1) mod 4294967295 + 1 - 1 + Z.of_nat k)
    with ((n - 1 + Z.of_nat 1) mod 4294967295 + Z.of_nat k) by lia.
  rewrite Zplus_mod_idemp_l. do 2 f_equal. lia.
Qed.

Lemma nth_sequence_inj n i j :
  (i < j)%nat → Z.of_nat j - Z.of_nat i < 4294967295 → nth_sequence n i ≠ nth_sequence n j.
Proof. unfold nth_sequence. intros ?? E. mlia. Qed.

Lemma step_sequences o s r s' fs :
  session_ok s → op_ok o → session_step o s = Some (r, s', fs) →
  (fresh_sequences fs = [] ∧ next_sequence s' = next_sequence s ∧
   frame_sequence (pending_frame (session_pending s')) =
     frame_sequence (pending_frame (session_pending s))) ∨
  (fresh_sequences fs = [next_sequence s] ∧
   next_sequence s' = succ_sequence (next_sequence s) ∧
   frame_sequence (pending_frame (session_pending s')) = next_sequence s).
Proof.
  intros Hs Ho. destruct o as [type flags payload policy now|f|now status| |e]; simpl.
  - destruct Ho as (? & ? & ? & ? & Hpol & ?). rewrite begin_request_spec by (done || lia). run_stmt.
    destruct (_ || _); [intros; simplify_eq; by left|].
    cbv zeta. destruct (pending_active _); intros; simplify_eq; [by left|by right].
  - unfold devmgr_session_accept_response. intros. left. by repeat case_match; simplify_eq.
  - unfold devmgr_session_tick. intros H. left. destruct (_ || _); [by simplify_eq|].
    destruct (_ <=? _); [by simplify_eq|]. simpl in H.
    by destruct (status =? DEVMGR_OK); simpl in H; simplify_eq.
  - intros; simplify_eq; by left.
  - unfold devmgr_session_transition. intros. left. by repeat case_match; simplify_eq.
Qed.

(** The requests of a run carry consecutive sequences, and the pending frame
    is that of the last one. *)
Lemma run_sequences os s rs s' fs :
  session_ok s → Forall op_ok os → session_run os s = Some (rs, s', fs) →
  let seqs := fresh_sequences fs in
  seqs = map (nth_sequence (next_sequence s)) (seq 0 (length seqs)) ∧
  frame_sequence (pending_frame (session_pending s')) =
    default (frame_sequence (pending_frame (session_pending s))) (last seqs).
Proof.
  revert os s rs s' fs. refine (session_run_ind _ _ _); [done|].
  intros o os s r s1 fs s2 fs2 Hs Ho Hs1 Hstep [IH1 IH2]. rewrite fresh_app.
  destruct Hs as (Hn & Hnz & Hp).
  destruct (step_sequences o s r s1 fs ltac:(done) Ho Hstep) as [(-> & Hnext & Hseq)|(-> & Hnext & Hseq)];
    rewrite Hnext, Hseq in *; [done|]. split.
  - cbn [app length seq map]. rewrite nth_sequence_0 by done. f_equal.
    rewrite IH1 at 1. rewrite <- seq_shift, map_map. apply map_ext. intros k.
    by apply nth_sequence_succ.
  - rewrite IH2. by destruct (fresh_sequences fs2) using rev_ind; rewrite ?last_app, ?last_snoc.
Qed.

(** ** One request *)

Definition not_begin (o : session_op) : Prop := match o with OpBegin _ _ _ _ _ => False | _ => True end.

Lemma retry_frame_idem f : retry_frame (retry_frame f) = retry_frame f.
Proof.
  unfold retry_frame. simpl. f_equal. by rewrite <- Z.lor_assoc, Z.lor_diag.
Qed.

(** Retries left to the pending request. *)
Definition retries_left (s : devmgr_session) : Z :=
  if pending_active (session_pending s)
  then max_retries (pending_policy (session_pending s)) - retries_done (session_pending s) else 0.

Lemma retries_left_nonneg s : session_ok s → 0 ≤ retries_left s.
Proof.
  intros (_ & _ & _ & _ & _ & _ & Ha). unfold retries_left.
  destruct (pending_active _); [|lia]. destruct Ha; [done|lia].
Qed.

Lemma step_repeats o s r s' fs :
  session_ok s → op_ok o → not_begin o → session_step o s = Some (r, s', fs) →
  Forall (eq (Repeat (retry_frame (pending_frame (session_pending s))))) fs ∧
  retries_left s' + len fs ≤ retries_left s ∧
  retry_frame (pending_frame (session_pending s')) = retry_frame (pending_frame (session_pending s)).
Proof.
  intros Hs Ho Hnb. pose proof (retries_left_nonneg s Hs) as H0.
  destruct Hs as (_ & _ & _ & (_ & _ & Hm) & _ & Hr & _). unfold retries_left in *.
  destruct o as [type flags payload policy now|f|now status| |e]; [done|..]; simpl.
  - unfold devmgr_session_accept_response. intros.
    repeat case_match; simplify_eq; split_and!; simpl in *; try done;
      repeat case_match; first [lia | congruence].
  - unfold devmgr_session_tick. intros H. destruct (_ || _) eqn:E.
    { simplify_eq. simpl. split_and!; try done. lia. }
    apply orb_false_iff in E as [Ha%negb_false_iff _]. rewrite Ha in *.
    destruct (Z.leb_spec (max_retries (pending_policy (session_pending s)))
                         (retries_done (session_pending s))).
    { simplify_eq. simpl. split_and!; try done; lia. }
    simpl in H. destruct (status =? DEVMGR_OK); simpl in H; simplify_eq; simpl; rewrite Ha.
    + unfold is_u8 in *. rewrite u8_id by (unfold is_u8; lia). split_and!; [by constructor|lia|].
      apply retry_frame_idem.
    + split_and!; [done|lia|]. apply retry_frame_idem.
  - intros; simplify_eq; simpl. split_and!; try done; lia.
  - unfold devmgr_session_transition. intros.
    repeat case_match; simplify_eq; split_and!; simpl in *; try done;
      repeat case_match; first [lia | congruence].
Qed.

Lemma run_repeats os s rs s' fs :
  session_ok s → Forall op_ok os → session_run os s = Some (rs, s', fs) →
  Forall not_begin os →
  Forall (eq (Repeat (retry_frame (pending_frame (session_pending s))))) fs ∧
  retries_left s' + len fs ≤ retries_left s.
Proof.
  revert os s rs s' fs. refine (session_run_ind _ _ _); [intros; split; [done|simpl; lia]|].
  intros o os s r s1 fs s2 fs2 Hs Ho Hs1 Hstep IH [Hnb Hnbs]%Forall_cons.
  destruct (step_repeats o s r s1 fs Hs Ho Hnb Hstep) as (H1 & H2 & H3).
  destruct (IH Hnbs) as [H4 H5]. rewrite H3 in H4. rewrite length_app. split; [|lia].
  by apply Forall_app.
Qed.

(** Ticks, each with what the transport says to a repetition: they come at or
    after the deadline, which an accepted repetition moves by [gap]. *)
Fixpoint due (gap d : Z) (ticks : list (Z * Z)) : Prop :=
  match ticks with
  | [] => True
  | (t, status) :: ticks =>
      d ≤ t ∧ is_u64 t ∧ due gap (if status =? DEVMGR_OK then t + gap else d) ticks
  end.

Lemma due_weaken gap d d' ticks : d' ≤ d → due gap d ticks → due gap d' ticks.
Proof.
  revert d d'. induction ticks as [|[t status] ticks IH]; intros d d' Hd; cbn [due]; [done|].
  intros (? & ? & H). split_and!; [lia|done|]. destruct (status =? DEVMGR_OK); [done|by eapply IH].
Qed.

Definition tick (t : Z * Z) : session_op := OpTick t.1 t.2.

(** What the ticks report with [k] repetitions left: the transport's word, then
    one timeout, then nothing. *)
Fixpoint verdicts (k : nat) (statuses : list Z) : list Z :=
  match statuses, k with
  | [], _ => []
  | _ :: statuses, O => DEVMGR_ERROR_TIMEOUT :: replicate (length statuses) DEVMGR_OK
  | status :: statuses, S k' =>
      status :: verdicts (if status =? DEVMGR_OK then k' else k) statuses
  end.

(** How many repetitions the transport accepts. *)
Definition accepted (statuses : list Z) : nat := length (filter (λ st, st = DEVMGR_OK) statuses).

(** A tick follows when none is left. *)
Definition expired (k : nat) (statuses : list Z) : bool :=
  match statuses with [] => false | _ => (k <=? accepted (removelast statuses))%nat end.

Lemma late_tick s now status :
  session_ok s → pending_active (session_pending s) = true →
  deadline_ns (session_pending s) ≤ now →
  session_step (OpTick now status) s =
    let p := session_pending s in let st := session_stats s in
    if max_retries (pending_policy p) <=? retries_done p
    then Some (DEVMGR_ERROR_TIMEOUT,
               s <| session_pending := p <| pending_active := false |> |>
                 <| session_stats := st <| timeouts := u64 (timeouts st + 1) |> |>, [])
    else if status =? DEVMGR_OK
    then Some (DEVMGR_OK,
               s <| session_pending := repeated p now |>
                 <| session_stats := st <| retries := u64 (retries st + 1) |> |>,
               [Repeat (retry_frame (pending_frame p))])
    else Some (status, s <| session_pending := p <| pending_frame := retry_frame (pending_frame p) |> |>, []).
Proof.
  intros Hs Ha Hd. unfold session_step, devmgr_session_tick. rewrite Ha. cbn [negb orb]. zreduce.
  destruct (_ <=? _); [done|]. unfold log_retransmit. run_stmt. by destruct (status =? DEVMGR_OK).
Qed.

Lemma idle_ticks s ticks :
  pending_active (session_pending s) = false →
  session_run (map tick ticks) s = Some (replicate (length ticks) DEVMGR_OK, s, []).
Proof.
  intros Ha. induction ticks as [|t ticks IH]; [done|]. cbn [map session_run length replicate].
  change (tick t) with (OpTick t.1 t.2). unfold session_step, devmgr_session_tick. rewrite Ha.
  cbn [negb orb mbind option_bind]. by rewrite IH.
Qed.

Lemma retry_interval_exact p :
  policy_ok p →
  retry_interval p =
    1000000 * (if retry_interval_ms p =? 0 then timeout_ms p else retry_interval_ms p).
Proof.
  intros (? & ? & _). unfold retry_interval. rewrite milliseconds_to_ns_exact by (by case_match). lia.
Qed.

Lemma expired_cons k st statuses :
  expired (S k) (st :: statuses) = expired (if st =? DEVMGR_OK then k else S k) statuses.
Proof.
  destruct statuses as [|st' statuses]; [done|]. cbn [expired].
  change (removelast (st :: st' :: statuses)) with (st :: removelast (st' :: statuses)).
  unfold accepted. rewrite filter_cons.
  destruct (Z.eqb_spec st DEVMGR_OK) as [->|]; [by rewrite decide_True|by rewrite decide_False].
Qed.

Lemma min_accepted k st statuses :
  (S k `min` accepted (st :: statuses))%nat =
    if st =? DEVMGR_OK then S (k `min` accepted statuses) else (S k `min` accepted statuses)%nat.
Proof.
  unfold accepted. rewrite filter_cons.
  destruct (Z.eqb_spec st DEVMGR_OK) as [->|]; [by rewrite decide_True|by rewrite decide_False].
Qed.

Lemma expiry s k ticks :
  session_ok s → pending_active (session_pending s) = true → retries_left s = Z.of_nat k →
  due (retry_interval (pending_policy (session_pending s))) (deadline_ns (session_pending s)) ticks →
  ∃ s', session_run (map tick ticks) s =
      Some (verdicts k (map snd ticks), s',
            replicate (k `min` accepted (map snd ticks)) (Repeat (retry_frame (pending_frame (session_pending s))))) ∧
    pending_active (session_pending s') = negb (expired k (map snd ticks)) ∧
    session_state s' = session_state s.
Proof.
  revert s k. induction ticks as [|[t status] ticks IH]; intros s k Hs Ha Hk Hdue.
  { exists s. cbn. rewrite Nat.min_0_r. by rewrite Ha. }
  destruct Hdue as (Hd & Ht & Hdue). cbn [map session_run snd]. change (tick (t, status)) with (OpTick t status).
  rewrite late_tick by done. cbv zeta. unfold retries_left in Hk. rewrite Ha in Hk.
  destruct Hs as (Hn & Hnz & Hp). pose proof Hp as (Hf & Hpol & Hdl & Hr & Hact). unfold is_u8 in Hr.
  destruct k as [|k]; zreduce.
  { run_stmt. cbv iota. rewrite idle_ticks by done. run_stmt. eexists.
    cbn [verdicts Nat.min replicate]. rewrite length_map. by destruct (map snd ticks). }
  cbn [verdicts]. rewrite expired_cons, min_accepted.
  destruct (Z.eqb_spec status DEVMGR_OK) as [->|Hst]; run_stmt; cbv iota.
  - set (s1 := s <| session_pending := _ |> <| session_stats := _ |>).
    assert (session_ok s1) as Hs1 by (split_and!; try done; apply repeated_ok; [done..|lia]).
    destruct (IH s1 k) as (s' & -> & Hi & Hstate); try done.
    + unfold retries_left, s1. simpl. rewrite Ha. destruct Hpol as (_ & _ & ?). unfold is_u8 in *.
      rewrite u8_id by (unfold is_u8; lia). lia.
    + unfold s1. simpl. eapply due_weaken; [|done].
      rewrite saturating_add_min by (done || apply milliseconds_to_ns_u64). lia.
    + run_stmt. eexists. split_and!; try done. unfold s1. simpl. by rewrite retry_frame_idem.
  - set (s1 := s <| session_pending := _ |>).
    assert (session_ok s1) as Hs1 by (split_and!; try done; split; [by apply retry_frame_ok|done]).
    destruct (IH s1 (S k)) as (s' & -> & Hi & Hstate); try done.
    + unfold retries_left, s1. simpl. rewrite Ha. lia.
    + run_stmt. eexists. split_and!; try done. unfold s1. simpl. by rewrite retry_frame_idem.
Qed.

(** ** Accounting *)

(** A request is given up: cancelled, or its session failed. *)
Definition aborts (o : session_op) (s : devmgr_session) : bool :=
  pending_active (session_pending s) &&
  match o with OpCancel => true | OpEvent e => is_failure e | _ => false end.

(** How many requests a run gives up. *)
Fixpoint aborted (os : list session_op) (s : devmgr_session) : Z :=
  match os with
  | [] => 0
  | o :: os =>
      Z.b2z (aborts o s) +
      match session_step o s with Some (_, s', _) => aborted os s' | None => 0 end
  end.

(** [a] requests have been given up. *)
Definition balanced (a : Z) (s : devmgr_session) : Prop :=
  let st := session_stats s in
  requests st = u64 (responses st + timeouts st + a + Z.b2z (pending_active (session_pending s))).

Lemma u64_add_l x y : u64 (u64 x + y) = u64 (x + y).
Proof. apply Zplus_mod_idemp_l. Qed.

Lemma u64_add_r x y : u64 (x + u64 y) = u64 (x + y).
Proof. apply Zplus_mod_idemp_r. Qed.

Lemma step_balanced a o s r s' fs :
  op_ok o → session_step o s = Some (r, s', fs) → balanced a s → balanced (a + Z.b2z (aborts o s)) s'.
Proof.
  intros Ho. unfold balanced, aborts.
  destruct o as [type flags payload policy now|f|now status| |e]; simpl; rewrite ?andb_false_r, ?andb_true_r; simpl;
    rewrite ?Z.add_0_r; intros H Hb.
  - destruct Ho as (? & ? & ? & ? & Hpol & ?). rewrite begin_request_spec in H by (done || lia).
    rewrite bind_ok in H. destruct (_ || _); [by simplify_eq|].
    cbv zeta in H. destruct (pending_active (session_pending s)) eqn:Ha; simplify_eq; simpl in *.
    { by rewrite Ha. }
    rewrite Hb, u64_add_l. f_equal. lia.
  - unfold devmgr_session_accept_response in H.
    destruct (pending_active _) eqn:Ha; [|simpl in H; case_match; simplify_eq; simpl; by rewrite Ha].
    repeat case_match; simplify_eq; simpl in *; rewrite ?Ha; try done.
    rewrite Hb, <- !Z.add_assoc, u64_add_l. f_equal. lia.
  - unfold devmgr_session_tick in H. destruct (_ || _) eqn:E; [by simplify_eq|].
    apply orb_false_iff in E as [Ha%negb_false_iff _].
    destruct (_ <=? _); simpl in H; [|destruct (status =? DEVMGR_OK); by simpl in H; simplify_eq].
    simplify_eq. simpl. rewrite Hb, Ha. replace (responses (session_stats s) + u64 (timeouts (session_stats s) + 1) + a + 0)
      with (responses (session_stats s) + a + u64 (timeouts (session_stats s) + 1)) by lia.
    rewrite u64_add_r. simpl. f_equal. lia.
  - simplify_eq. simpl. rewrite Hb. f_equal. lia.
  - unfold devmgr_session_transition in H. unfold is_failure in *.
    destruct (_ || _) eqn:Hfail; cbn in H |- *; rewrite ?andb_false_r, ?andb_true_r; simpl; rewrite ?Z.add_0_r.
    + simplify_eq. simpl. rewrite Hb. f_equal. lia.
    + by repeat case_match; simplify_eq.
Qed.

Lemma run_balanced os s rs s' fs :
  session_ok s → Forall op_ok os → session_run os s = Some (rs, s', fs) →
  ∀ a, balanced a s → balanced (a + aborted os s) s'.
Proof.
  revert os s rs s' fs. refine (session_run_ind _ _ _).
  { intros s a Hb. cbn. by rewrite Z.add_0_r. }
  intros o os s r s1 fs s2 fs2 Hs Ho Hs1 Hstep IH a Hb. cbn [aborted]. rewrite Hstep, Z.add_assoc.
  eapply IH, step_balanced; done.
Qed.

Lemma session_init_ok : session_ok devmgr_session_init.
Proof. split_and!; try done. split_and!; try done. apply zero_frame_ok. Qed.

(** ** Properties *)

(** [devmgr_session_transition] is the documented state diagram: it returns
    DEVMGR_OK exactly on an edge, moves to the edge's target and changes
    nothing else, except that a failure cancels the pending request; on
    anything else it returns DEVMGR_ERROR_STATE and changes nothing. *)
Theorem session_transition_diagram s e :
  let '(result, s') := devmgr_session_transition s e in
  (result = DEVMGR_OK ∧ diagram (session_state s) e (session_state s') ∧
   s' = (if is_failure e then devmgr_session_cancel_request else id)
          (s <| session_state := session_state s' |>)) ∨
  (result = DEVMGR_ERROR_STATE ∧ s' = s ∧ ∀ t, ¬ diagram (session_state s) e t).
Proof.
  unfold devmgr_session_transition, is_failure. destruct s as [st n l p stats]. simpl.
  destruct e, st; simpl;
    solve [ left; split_and!; [done| |done]; auto with devmgr; constructor; set_solver
          | right; split_and!; [done..|]; intros t H; inversion H; set_solver ].
Qed.

(** C25: the device is used only after a handshake: whatever events arrive,
    the session is READY, STREAMING, UPGRADING or REBOOTING only if it accepted
    a handshake since it last lost the transport. *)
Theorem session_handshake_first es :
  operational (session_state (run_events devmgr_session_init es)) = true → handshaken es.
Proof.
  induction es as [|e es IH] using rev_ind; [done|].
  unfold run_events. rewrite foldl_app. fold (run_events devmgr_session_init es). simpl.
  destruct (is_failure e) eqn:Hf; unfold devmgr_session_transition; fold (is_failure e); rewrite Hf;
    [done|].
  destruct (decide (e = DEVMGR_SESSION_HANDSHAKE_OK ∧
    session_state (run_events devmgr_session_init es) = DEVMGR_DEVICE_HANDSHAKING)) as [[-> Hst]|Hne].
  { intros _. by exists es, []. }
  intros Hop. apply handshaken_snoc; [|done]. apply IH.
  destruct (session_state (run_events devmgr_session_init es)) eqn:Hst; try done;
    rewrite ?bool_decide_false in Hop by naive_solver; simpl in Hop; try done;
    repeat case_match; simplify_eq; simpl in *; rewrite ?Hst in *; naive_solver.
Qed.

(** A frame that answers the pending request. *)
Definition answers (s : devmgr_session) (f : devmgr_frame) : Prop :=
  let p := session_pending s in
  pending_active p = true ∧ frame_sequence f = frame_sequence (pending_frame p) ∧
  (frame_type f ∈ [DEVMGR_MSG_ACK; DEVMGR_MSG_NACK; DEVMGR_MSG_ERROR] ∨
   frame_type f = frame_type (pending_frame p) ∧ Z.land (frame_flags f) DEVMGR_FRAME_RESPONSE ≠ 0).

Lemma is_reply_type_spec t :
  is_reply_type t = true ↔ t ∈ [DEVMGR_MSG_ACK; DEVMGR_MSG_NACK; DEVMGR_MSG_ERROR].
Proof.
  unfold is_reply_type. rewrite !elem_of_cons, negb_true_iff, !andb_false_iff, !negb_false_iff,
    !Z.eqb_eq. set_solver.
Qed.

(** A response completes the pending request exactly when it answers it;
    anything else is refused, counted once, and leaves the state, the pending
    request and the sequences as they were. *)
Theorem session_response_completes s f :
  let '(result, s') := devmgr_session_accept_response s f in
  (result = DEVMGR_OK ↔ answers s f) ∧
  (result = DEVMGR_OK →
     session_pending s' = (session_pending s) <| pending_active := false |> ∧
     last_completed_sequence s' = frame_sequence f ∧
     responses (session_stats s') = u64 (responses (session_stats s) + 1)) ∧
  (result ≠ DEVMGR_OK → ∃ st, s' = s <| session_stats := st |> ∧
     responses st = responses (session_stats s)) ∧
  session_state s' = session_state s ∧ next_sequence s' = next_sequence s.
Proof.
  pose proof (is_reply_type_spec (frame_type f)) as Hreply.
  unfold devmgr_session_accept_response, answers.
  destruct (pending_active _); simpl.
  2:{ split_and!; try done; [naive_solver|intros _; case_match; by eexists|by case_match..]. }
  destruct (Z.eqb_spec (frame_sequence f) (frame_sequence (pending_frame (session_pending s))));
    simpl.
  2:{ split_and!; try done; [naive_solver|by eexists]. }
  destruct (Z.eqb_spec (Z.land (frame_flags f) DEVMGR_FRAME_RESPONSE) 0),
    (Z.eqb_spec (frame_type f) (frame_type (pending_frame (session_pending s)))),
    (is_reply_type (frame_type f)); simpl;
    split_and!; try done; first [naive_solver | by eexists].
Qed.

(** C26: stale responses are harmless.  In a run of at most 2^32 - 1 requests
    all sequences are nonzero and different, and a response that carries the
    sequence of an earlier request of the run never completes a later one. *)
Theorem session_stale_response os s rs s' fs older newest f :
  session_ok s → Forall op_ok os → session_run os s = Some (rs, s', fs) →
  fresh_sequences fs = older ++ [newest] → len older < 4294967295 →
  NoDup (older ++ [newest]) ∧ 0 ∉ older ++ [newest] ∧
  (frame_sequence f ∈ older →
   let '(result, s'') := devmgr_session_accept_response s' f in
   result ≠ DEVMGR_OK ∧ session_pending s'' = session_pending s').
Proof.
  intros Hs Hos Hrun Hfs Hlen.
  destruct (run_sequences os s rs s' fs Hs Hos Hrun) as [Hseq Hlast]. rewrite Hfs in *.
  assert (NoDup (older ++ [newest])) as Hnd.
  { rewrite Hseq. apply NoDup_fmap_2_strong; [|apply NoDup_seq].
    intros i j Hi Hj E. rewrite length_app, elem_of_seq in Hi, Hj. simpl in Hi, Hj.
    destruct (decide (i < j)%nat); [by apply nth_sequence_inj in E; [|lia..]|].
    destruct (decide (j < i)%nat); [by symmetry in E; apply nth_sequence_inj in E; [|lia..]|lia]. }
  split; [done|]. split.
  { rewrite Hseq. intros (k & E & _)%list_elem_of_fmap. unfold nth_sequence in E. mlia. }
  intros Hin. rewrite last_snoc in Hlast. simpl in Hlast.
  assert (frame_sequence f ≠ frame_sequence (pending_frame (session_pending s'))) as Hne.
  { rewrite Hlast. intros E. apply NoDup_app in Hnd as (_ & Hd & _). apply (Hd _ Hin). set_solver. }
  unfold devmgr_session_accept_response. apply Z.eqb_neq in Hne. rewrite Hne.
  destruct (pending_active _); simpl; [done|]. by case_match.
Qed.

(** C27: repetitions are bounded and faithful: whatever happens between two
    requests, the frames handed to the transport are the pending frame with the
    retry flag, at most as many as the policy has left. *)
Theorem session_retries_bounded os s rs s' fs :
  session_ok s → Forall op_ok os → Forall not_begin os → session_run os s = Some (rs, s', fs) →
  Forall (eq (Repeat (retry_frame (pending_frame (session_pending s))))) fs ∧
  len fs ≤ retries_left s ≤ 255.
Proof.
  intros Hs Hos Hnb Hrun. destruct (run_repeats os s rs s' fs Hs Hos Hrun Hnb) as [H1 H2].
  destruct (session_run_ok os s Hs Hos) as (? & ? & ? & E & Hs').
  rewrite E in Hrun. simplify_eq. pose proof (retries_left_nonneg _ Hs').
  split; [done|]. split; [lia|]. unfold retries_left.
  destruct Hs as (_ & _ & _ & (_ & _ & Hm) & _ & Hr & _). unfold is_u8 in *.
  destruct (pending_active _); lia.
Qed.


(** C29: no request is lost or counted twice: after any run of calls from a fresh
    session the requests counted are the responses, plus the timeouts, plus the
    requests that were given up while they were pending (a cancellation, the
    loss of the transport or a failure), plus the pending one. *)
Theorem session_accounting os :
  Forall op_ok os →
  ∃ rs s fs, session_run os devmgr_session_init = Some (rs, s, fs) ∧ session_ok s ∧
    requests (session_stats s) =
      u64 (responses (session_stats s) + timeouts (session_stats s) + aborted os devmgr_session_init +
           Z.b2z (pending_active (session_pending s))).
Proof.
  intros Hos. destruct (session_run_ok os _ session_init_ok Hos) as (rs & s & fs & E & Hs).
  exists rs, s, fs. split_and!; [done..|].
  apply (run_balanced os devmgr_session_init rs s fs session_init_ok Hos E 0). done.
Qed.

(** *** Instances *)

Definition sample_policy : devmgr_retry_policy := mk_policy 1000 500 2.

Definition sample_request : session_op :=
  OpBegin DEVMGR_MSG_PING DEVMGR_FRAME_ACK_REQUIRED [1; 2] sample_policy 5.

Lemma sample_request_ok : op_ok sample_request.
Proof. split_and!; try done. by repeat constructor. Qed.

Definition waiting_session : devmgr_session :=
  begun devmgr_session_init
    (request_frame DEVMGR_MSG_PING DEVMGR_FRAME_ACK_REQUIRED 1 [1; 2]) sample_policy 5.

Lemma waiting_session_ok : session_ok waiting_session.
Proof.
  split_and!; try done. split_and!; try done. apply request_frame_ok; try done. by repeat constructor.
Qed.

Lemma session_handshake_first_witness :
  handshaken [DEVMGR_SESSION_CONNECT; DEVMGR_SESSION_TRANSPORT_CONNECTED;
              DEVMGR_SESSION_HANDSHAKE_OK; DEVMGR_SESSION_START_UPGRADE].
Proof. apply session_handshake_first. reflexivity. Defined.

Lemma sample_run :
  ∃ rs s' fs, session_run [sample_request; OpCancel; sample_request] devmgr_session_init =
    Some (rs, s', fs) ∧ fresh_sequences fs = [1] ++ [2].
Proof. do 3 eexists. by split. Qed.

Lemma session_stale_response_witness :
  ∃ s', NoDup ([1] ++ [2]) ∧ 0 ∉ [1] ++ [2] ∧
  (frame_sequence (mk_frame DEVMGR_MSG_ACK 1 1 0 []) ∈ [1] →
   let '(result, s'') := devmgr_session_accept_response s' (mk_frame DEVMGR_MSG_ACK 1 1 0 []) in
   result ≠ DEVMGR_OK ∧ session_pending s'' = session_pending s').
Proof.
  destruct sample_run as (rs & s' & fs & E & Hfs). exists s'.
  refine (session_stale_response [sample_request; OpCancel; sample_request] devmgr_session_init
    rs s' fs [1] 2 _ session_init_ok _ E Hfs _); [|done].
  repeat (apply Forall_cons; split; [try apply sample_request_ok; try done|]). done.
Defined.

Lemma session_retries_bounded_witness :
  Forall (eq (Repeat (retry_frame (pending_frame (session_pending waiting_session)))))
    [Repeat (retry_frame (pending_frame (session_pending waiting_session)))] ∧
  len [Repeat (retry_frame (pending_frame (session_pending waiting_session)))]
    ≤ retries_left waiting_session ≤ 255.
Proof.
  eapply (session_retries_bounded [OpTick 1000000005 DEVMGR_OK; OpCancel] waiting_session).
  - apply waiting_session_ok.
  - by repeat constructor.
  - by repeat constructor.
  - vm_compute. reflexivity.
Defined.


Lemma session_accounting_witness :
  ∃ rs s fs, session_run [sample_request; OpCancel; sample_request; OpTick 1000000005 DEVMGR_OK] devmgr_session_init =
      Some (rs, s, fs) ∧ session_ok s ∧
    requests (session_stats s) =
      u64 (responses (session_stats s) + timeouts (session_stats s) +
           aborted [sample_request; OpCancel; sample_request; OpTick 1000000005 DEVMGR_OK] devmgr_session_init +
           Z.b2z (pending_active (session_pending s))).
Proof. apply session_accounting. repeat constructor; try done; apply sample_request_ok. Defined.
