(* ===== verification/Ipc.v ===== *)
(** * Local control protocol: include/devmgr/ipc.h and src/ipc/codec.c

    Messages between devctl and the daemon.  The encoders and decoders are
    proved inverse to each other, and the decoders accept nothing else. *)

From S2P Require Import Prelude Crc32 Frame.

(** ** The code *)

Definition DEVMGR_IPC_MAGIC : Z := 0x5049.
Definition DEVMGR_IPC_VERSION : Z := 1.
Definition DEVMGR_IPC_REQUEST_HEADER_SIZE : Z := 8.
Definition DEVMGR_IPC_RESPONSE_HEADER_SIZE : Z := 12.
Definition DEVMGR_IPC_MAX_PAYLOAD : Z := 4096.
Definition DEVMGR_IPC_GET_TELEMETRY : Z := 0xF0.
Definition DEVMGR_IPC_UPGRADE : Z := 0xF1.
Definition DEVMGR_IPC_UPGRADE_STATUS : Z := 0xF2.

Record devmgr_ipc_request := mk_ipc_request {
  request_command : Z;
  request_payload_length : Z;
  request_payload : list Z;
}.

Record devmgr_ipc_response := mk_ipc_response {
  response_command : Z;
  response_status : Z;
  response_payload_length : Z;
  response_payload : list Z;
}.

Definition validate_header (data : list Z) (length header_size : Z) : option Z :=
  if length <? header_size then Some DEVMGR_ERROR_INVALID
  else
  magic ← devmgr_get_le16 data 0;
  version ← load data 2;
  if negb (magic =? DEVMGR_IPC_MAGIC) || negb (version =? DEVMGR_IPC_VERSION) then
    Some DEVMGR_ERROR_PROTOCOL
  else Some DEVMGR_OK.

(** The results are the status, the output array and [*encoded_length]. *)
Definition devmgr_ipc_encode_request (request : devmgr_ipc_request) (output : list Z)
    (capacity encoded_length : Z) : option (Z * list Z * Z) :=
  if DEVMGR_IPC_MAX_PAYLOAD <? request.(request_payload_length) then
    Some (DEVMGR_ERROR_INVALID, output, encoded_length)
  else
  let total := DEVMGR_IPC_REQUEST_HEADER_SIZE + request.(request_payload_length) in
  if capacity <? total then Some (DEVMGR_ERROR_OVERFLOW, output, encoded_length)
  else
  output ← devmgr_put_le16 output 0 DEVMGR_IPC_MAGIC;
  output ← store output 2 DEVMGR_IPC_VERSION;
  output ← store output 3 request.(request_command);
  output ← devmgr_put_le32 output 4 request.(request_payload_length);
  output ← memcpy output DEVMGR_IPC_REQUEST_HEADER_SIZE request.(request_payload) 0
                  request.(request_payload_length);
  Some (DEVMGR_OK, output, total).

Definition devmgr_ipc_decode_request (data : list Z) (length : Z) (request : devmgr_ipc_request)
    : option (Z * devmgr_ipc_request) :=
  result ← validate_header data length DEVMGR_IPC_REQUEST_HEADER_SIZE;
  if negb (result =? DEVMGR_OK) then Some (result, request)
  else
  payload_length ← devmgr_get_le32 data 4;
  if DEVMGR_IPC_MAX_PAYLOAD <? payload_length then Some (DEVMGR_ERROR_LIMIT, request)
  else if negb (length =? DEVMGR_IPC_REQUEST_HEADER_SIZE + payload_length) then
    Some (DEVMGR_ERROR_INVALID, request)
  else
  command ← load data 3;
  payload ← memcpy request.(request_payload) 0 data DEVMGR_IPC_REQUEST_HEADER_SIZE payload_length;
  Some (DEVMGR_OK, mk_ipc_request command payload_length payload).

Definition devmgr_ipc_encode_response (response : devmgr_ipc_response) (output : list Z)
    (capacity encoded_length : Z) : option (Z * list Z * Z) :=
  if DEVMGR_IPC_MAX_PAYLOAD <? response.(response_payload_length) then
    Some (DEVMGR_ERROR_INVALID, output, encoded_length)
  else
  let total := DEVMGR_IPC_RESPONSE_HEADER_SIZE + response.(response_payload_length) in
  if capacity <? total then Some (DEVMGR_ERROR_OVERFLOW, output, encoded_length)
  else
  output ← devmgr_put_le16 output 0 DEVMGR_IPC_MAGIC;
  output ← store output 2 DEVMGR_IPC_VERSION;
  output ← store output 3 response.(response_command);
  output ← devmgr_put_le32 output 4 (u32 response.(response_status));
  output ← devmgr_put_le32 output 8 response.(response_payload_length);
  output ← memcpy output DEVMGR_IPC_RESPONSE_HEADER_SIZE response.(response_payload) 0
                  response.(response_payload_length);
  Some (DEVMGR_OK, output, total).

Definition devmgr_ipc_decode_response (data : list Z) (length : Z)
    (response : devmgr_ipc_response) : option (Z * devmgr_ipc_response) :=
  result ← validate_header data length DEVMGR_IPC_RESPONSE_HEADER_SIZE;
  if negb (result =? DEVMGR_OK) then Some (result, response)
  else
  payload_length ← devmgr_get_le32 data 8;
  if DEVMGR_IPC_MAX_PAYLOAD <? payload_length then Some (DEVMGR_ERROR_LIMIT, response)
  else if negb (length =? DEVMGR_IPC_RESPONSE_HEADER_SIZE + payload_length) then
    Some (DEVMGR_ERROR_INVALID, response)
  else
  command ← load data 3;
  status ← devmgr_get_le32 data 4;
  payload ← memcpy response.(response_payload) 0 data DEVMGR_IPC_RESPONSE_HEADER_SIZE
                   payload_length;
  Some (DEVMGR_OK, mk_ipc_response command (i32 status) payload_length payload).

(** ** Messages *)

(** What a request and a response say. *)
Definition ipc_message (command : Z) (words : list Z) (payload : list Z) : list Z :=
  le_bytes 2 DEVMGR_IPC_MAGIC ++ [DEVMGR_IPC_VERSION; command] ++
  concat (map (le_bytes 4) (words ++ [len payload])) ++ payload.

Definition request_ok (r : devmgr_ipc_request) : Prop :=
  is_u8 (request_command r) ∧
  0 ≤ request_payload_length r ≤ DEVMGR_IPC_MAX_PAYLOAD ∧
  len (request_payload r) = DEVMGR_IPC_MAX_PAYLOAD ∧ Forall is_u8 (request_payload r).

Definition response_ok (r : devmgr_ipc_response) : Prop :=
  is_u8 (response_command r) ∧ -2147483648 ≤ response_status r < 2147483648 ∧
  0 ≤ response_payload_length r ≤ DEVMGR_IPC_MAX_PAYLOAD ∧
  len (response_payload r) = DEVMGR_IPC_MAX_PAYLOAD ∧ Forall is_u8 (response_payload r).

Definition request_bytes (r : devmgr_ipc_request) : list Z :=
  slice (request_payload r) 0 (request_payload_length r).

Definition response_bytes (r : devmgr_ipc_response) : list Z :=
  slice (response_payload r) 0 (response_payload_length r).

Definition encoded_request (r : devmgr_ipc_request) : list Z :=
  ipc_message (request_command r) [] (request_bytes r).

Definition encoded_response (r : devmgr_ipc_response) : list Z :=
  ipc_message (response_command r) [u32 (response_status r)] (response_bytes r).

(** Requests and responses that say the same thing. *)
#[export] Instance ipc_request_equiv : Equiv devmgr_ipc_request := λ r s,
  request_command r = request_command s ∧ request_bytes r = request_bytes s.

#[export] Instance ipc_response_equiv : Equiv devmgr_ipc_response := λ r s,
  response_command r = response_command s ∧ response_status r = response_status s ∧
  response_bytes r = response_bytes s.

(** A payload array of the largest size that starts with [bytes]. *)
Definition overwrite (a bytes : list Z) : list Z := bytes ++ drop (length bytes) a.

Lemma length_ipc_message c words p :
  len (ipc_message c words p) = 8 + 4 * len words + len p.
Proof.
  unfold ipc_message. rewrite !length_app, length_le_bytes. simpl.
  assert (∀ ws, length (concat (map (le_bytes 4) ws)) = 4 * length ws)%nat as ->.
  { induction ws as [|w ws IH]; [done|]. cbn [map concat length].
    rewrite length_app, length_le_bytes, IH. lia. }
  rewrite length_app. simpl. lia.
Qed.

Lemma request_bytes_facts r :
  request_ok r → len (request_bytes r) = request_payload_length r ∧ Forall is_u8 (request_bytes r).
Proof.
  intros (? & ? & ? & ?). unfold request_bytes, DEVMGR_IPC_MAX_PAYLOAD in *.
  split; [apply len_slice; lia|by apply slice_Forall].
Qed.

Lemma response_bytes_facts r :
  response_ok r →
  len (response_bytes r) = response_payload_length r ∧ Forall is_u8 (response_bytes r).
Proof.
  intros (? & ? & ? & ? & ?). unfold response_bytes, DEVMGR_IPC_MAX_PAYLOAD in *.
  split; [apply len_slice; lia|by apply slice_Forall].
Qed.

(** ** The encoders produce the messages *)

Lemma ipc_encode_request_spec r output capacity n0 :
  request_ok r → 8 + request_payload_length r ≤ capacity ≤ len output →
  devmgr_ipc_encode_request r output capacity n0 =
    Some (DEVMGR_OK, overwrite output (encoded_request r), len (encoded_request r)).
Proof.
  intros Hr Hcap. destruct (request_bytes_facts r Hr) as [Hlen Hb].
  pose proof Hr as (Hc & Hn & Hl & _).
  pose proof (length_ipc_message (request_command r) [] (request_bytes r)) as Hm.
  fold (encoded_request r) in Hm. rewrite Hlen in Hm.
  unfold devmgr_ipc_encode_request, DEVMGR_IPC_MAX_PAYLOAD, DEVMGR_IPC_REQUEST_HEADER_SIZE in *.
  zreduce. change output with ([] ++ output) at 1.
  rewrite put_le16_app by (done || len_solve). run_stmt.
  do 2 (rewrite store_app by len_solve; run_stmt).
  rewrite put_le32_app by (unfold is_u32; len_solve). run_stmt.
  unfold memcpy. rewrite mem_read_ok by lia. run_stmt. fold (request_bytes r).
  rewrite mem_write_app by len_solve. run_stmt.
  do 2 f_equal; [|rewrite Hm; simpl; lia]. f_equal. unfold overwrite. rewrite !drop_drop.
  match goal with |- ?p ++ _ = _ => assert (p = encoded_request r) as -> end.
  { unfold encoded_request, ipc_message. cbn [app map concat]. rewrite Hlen, app_nil_r.
    by rewrite <- !(assoc_L (++)). }
  done.
Qed.

Lemma ipc_encode_response_spec r output capacity n0 :
  response_ok r → 12 + response_payload_length r ≤ capacity ≤ len output →
  devmgr_ipc_encode_response r output capacity n0 =
    Some (DEVMGR_OK, overwrite output (encoded_response r), len (encoded_response r)).
Proof.
  intros Hr Hcap. destruct (response_bytes_facts r Hr) as [Hlen Hb].
  pose proof Hr as (Hc & Hst & Hn & Hl & _).
  pose proof (length_ipc_message (response_command r) [u32 (response_status r)]
                (response_bytes r)) as Hm.
  fold (encoded_response r) in Hm. rewrite Hlen in Hm.
  unfold devmgr_ipc_encode_response, DEVMGR_IPC_MAX_PAYLOAD, DEVMGR_IPC_RESPONSE_HEADER_SIZE in *.
  zreduce. change output with ([] ++ output) at 1.
  rewrite put_le16_app by (done || len_solve). run_stmt.
  do 2 (rewrite store_app by len_solve; run_stmt).
  rewrite put_le32_app by (apply u32_range || len_solve). run_stmt.
  rewrite put_le32_app by (unfold is_u32; len_solve). run_stmt.
  unfold memcpy. rewrite mem_read_ok by lia. run_stmt. fold (response_bytes r).
  rewrite mem_write_app by len_solve. run_stmt.
  do 2 f_equal; [|rewrite Hm; simpl; lia]. f_equal. unfold overwrite. rewrite !drop_drop.
  match goal with |- ?p ++ _ = _ => assert (p = encoded_response r) as -> end.
  { unfold encoded_response, ipc_message. cbn [app map concat]. rewrite Hlen, app_nil_r.
    by rewrite <- !(assoc_L (++)). }
  done.
Qed.

(** ** What the decoders accept *)

(** The status for a message [w] with a header of [h] bytes. *)
Definition ipc_verdict (w : list Z) (h : Z) : Z :=
  if len w <? h then DEVMGR_ERROR_INVALID
  else if negb (field w 0 2 =? DEVMGR_IPC_MAGIC) || negb (field w 2 1 =? DEVMGR_IPC_VERSION)
  then DEVMGR_ERROR_PROTOCOL
  else if DEVMGR_IPC_MAX_PAYLOAD <? field w (h - 4) 4 then DEVMGR_ERROR_LIMIT
  else if negb (len w =? h + field w (h - 4) 4) then DEVMGR_ERROR_INVALID
  else DEVMGR_OK.

Lemma validate_header_spec w rest h :
  Forall is_u8 w → Forall is_u8 rest → 8 ≤ h →
  validate_header (w ++ rest) (len w) h =
    Some (if len w <? h then DEVMGR_ERROR_INVALID
          else if negb (field w 0 2 =? DEVMGR_IPC_MAGIC) || negb (field w 2 1 =? DEVMGR_IPC_VERSION)
          then DEVMGR_ERROR_PROTOCOL else DEVMGR_OK).
Proof.
  intros Hw Hrest Hh. unfold validate_header. destruct (Z.ltb_spec (len w) h); [done|].
  assert (Forall is_u8 (w ++ rest)) by (by apply Forall_app).
  rewrite get_le16_field, load_field by (done || len_solve). do 2 run_stmt.
  rewrite !field_prefix by lia. by destruct (_ || _).
Qed.

Lemma ipc_decode_request_spec data length r :
  Forall is_u8 data → 0 ≤ length ≤ len data → len (request_payload r) = DEVMGR_IPC_MAX_PAYLOAD →
  let w := take (Z.to_nat length) data in
  let status := ipc_verdict w 8 in
  devmgr_ipc_decode_request data length r =
    Some (status, if status =? DEVMGR_OK
                  then mk_ipc_request (field w 3 1) (len w - 8)
                         (overwrite (request_payload r) (slice w 8 (len w - 8)))
                  else r).
Proof.
  intros Hd Hlen Hpay. destruct (take_drop_at data length) as (w & rest & -> & -> & _); [lia|].
  rewrite Nat2Z.id, take_app_length. cbv zeta. pose proof Hd as [Hw Hr]%Forall_app.
  unfold devmgr_ipc_decode_request, ipc_verdict, DEVMGR_IPC_MAX_PAYLOAD,
    DEVMGR_IPC_REQUEST_HEADER_SIZE in *. rewrite validate_header_spec by (done || lia). run_stmt.
  destruct (Z.ltb_spec (len w) 8); [done|]. destruct (negb _ || negb _); [done|]. cbn [negb Z.eqb DEVMGR_OK].
  rewrite get_le32_field by (done || len_solve). run_stmt. rewrite field_prefix by lia.
  change (8 - 4) with 4. pose proof (field_range w 4 4 Hw ltac:(lia)).
  destruct (Z.ltb_spec 4096 (field w 4 4)); [done|].
  destruct (Z.eqb_spec (len w) (8 + field w 4 4)) as [E|]; [|done]. cbn [negb Z.eqb DEVMGR_OK].
  rewrite load_field by (done || len_solve). run_stmt. rewrite field_prefix by lia.
  rewrite memcpy_ok by len_solve. run_stmt. rewrite slice_app_l by lia.
  replace (len w - 8) with (field w 4 4) by lia. done.
Qed.

Lemma ipc_decode_response_spec data length r :
  Forall is_u8 data → 0 ≤ length ≤ len data → len (response_payload r) = DEVMGR_IPC_MAX_PAYLOAD →
  let w := take (Z.to_nat length) data in
  let status := ipc_verdict w 12 in
  devmgr_ipc_decode_response data length r =
    Some (status, if status =? DEVMGR_OK
                  then mk_ipc_response (field w 3 1) (i32 (field w 4 4)) (len w - 12)
                         (overwrite (response_payload r) (slice w 12 (len w - 12)))
                  else r).
Proof.
  intros Hd Hlen Hpay. destruct (take_drop_at data length) as (w & rest & -> & -> & _); [lia|].
  rewrite Nat2Z.id, take_app_length. cbv zeta. pose proof Hd as [Hw Hr]%Forall_app.
  unfold devmgr_ipc_decode_response, ipc_verdict, DEVMGR_IPC_MAX_PAYLOAD,
    DEVMGR_IPC_RESPONSE_HEADER_SIZE in *. rewrite validate_header_spec by (done || lia). run_stmt.
  destruct (Z.ltb_spec (len w) 12); [done|]. destruct (negb _ || negb _); [done|]. cbn [negb Z.eqb DEVMGR_OK].
  rewrite (get_le32_field _ 8) by (done || len_solve). run_stmt. rewrite field_prefix by lia.
  change (12 - 4) with 8. pose proof (field_range w 8 4 Hw ltac:(lia)).
  destruct (Z.ltb_spec 4096 (field w 8 4)); [done|].
  destruct (Z.eqb_spec (len w) (12 + field w 8 4)) as [E|]; [|done]. cbn [negb Z.eqb DEVMGR_OK].
  rewrite load_field by (done || len_solve). run_stmt.
  rewrite get_le32_field by (done || len_solve). run_stmt. rewrite !field_prefix by lia.
  rewrite memcpy_ok by len_solve. run_stmt. rewrite slice_app_l by lia.
  replace (len w - 12) with (field w 8 4) by lia. done.
Qed.

(** ** Messages and their fields *)

(** The [k]-th field of a concatenation of fields. *)
Ltac field_at k tac := eapply (field_concat _ k%nat); [reflexivity|done|done|tac].

Lemma request_fields c p :
  is_u8 c → is_u32 (len p) → let w := ipc_message c [] p in
  field w 0 2 = DEVMGR_IPC_MAGIC ∧ field w 2 1 = DEVMGR_IPC_VERSION ∧ field w 3 1 = c ∧
  field w 4 4 = len p ∧ slice w 8 (len p) = p.
Proof.
  intros Hc Hn w. unfold is_u32 in Hn.
  assert (w = concat [le_bytes 2 DEVMGR_IPC_MAGIC; [DEVMGR_IPC_VERSION]; [c];
                      le_bytes 4 (len p); p]) as ->.
  { unfold w, ipc_message. cbn [map concat app]. rewrite !app_nil_r. by rewrite <- ?(assoc_L (++)). }
  split_and!.
  - field_at 0%nat ltac:(done).
  - field_at 1%nat ltac:(done).
  - field_at 2%nat ltac:(by apply le_value_byte).
  - field_at 3%nat ltac:(by apply le_value_bytes).
  - by apply (slice_concat _ 4).
Qed.

Lemma response_fields c st p :
  is_u8 c → is_u32 st → is_u32 (len p) → let w := ipc_message c [st] p in
  field w 0 2 = DEVMGR_IPC_MAGIC ∧ field w 2 1 = DEVMGR_IPC_VERSION ∧ field w 3 1 = c ∧
  field w 4 4 = st ∧ field w 8 4 = len p ∧ slice w 12 (len p) = p.
Proof.
  intros Hc Hst Hn w. unfold is_u32 in Hn.
  assert (w = concat [le_bytes 2 DEVMGR_IPC_MAGIC; [DEVMGR_IPC_VERSION]; [c];
                      le_bytes 4 st; le_bytes 4 (len p); p]) as ->.
  { unfold w, ipc_message. cbn [map concat app]. rewrite !app_nil_r. by rewrite <- ?(assoc_L (++)). }
  split_and!.
  - field_at 0%nat ltac:(done).
  - field_at 1%nat ltac:(done).
  - field_at 2%nat ltac:(by apply le_value_byte).
  - field_at 3%nat ltac:(by apply le_value_bytes).
  - field_at 4%nat ltac:(by apply le_value_bytes).
  - by apply (slice_concat _ 5).
Qed.

(** An accepted message is the concatenation of its fields. *)
Lemma ipc_verdict_OK w h :
  ipc_verdict w h = DEVMGR_OK →
  h ≤ len w ∧ field w 0 2 = DEVMGR_IPC_MAGIC ∧ field w 2 1 = DEVMGR_IPC_VERSION ∧
  field w (h - 4) 4 = len w - h ∧ len w - h ≤ DEVMGR_IPC_MAX_PAYLOAD.
Proof.
  unfold ipc_verdict. destruct (Z.ltb_spec (len w) h); [done|].
  destruct (Z.eqb_spec (field w 0 2) DEVMGR_IPC_MAGIC); [|done].
  destruct (Z.eqb_spec (field w 2 1) DEVMGR_IPC_VERSION); [|done]. cbn [negb orb].
  destruct (Z.ltb_spec DEVMGR_IPC_MAX_PAYLOAD (field w (h - 4) 4)); [done|].
  destruct (Z.eqb_spec (len w) (h + field w (h - 4) 4)); [|done]. intros _. split_and!; try done; lia.
Qed.

Lemma accepted_request w :
  Forall is_u8 w → ipc_verdict w 8 = DEVMGR_OK →
  w = ipc_message (field w 3 1) [] (slice w 8 (len w - 8)).
Proof.
  intros Hw (Hl & E0 & E2 & E4 & _)%ipc_verdict_OK. unfold ipc_message. cbn [map concat app].
  rewrite len_slice by lia. change (8 - 4) with 4 in E4.
  rewrite <- E0, <- E2, <- E4, app_nil_r. rewrite le16_field, le32_field by (done || lia).
  change (?a :: ?b :: ?l) with ([a] ++ [b] ++ l). rewrite !byte_field by (done || lia).
  rewrite E4, <- !slice_split by lia. rewrite <- (slice_all w) at 1. f_equal. lia.
Qed.

Lemma accepted_response w :
  Forall is_u8 w → ipc_verdict w 12 = DEVMGR_OK →
  w = ipc_message (field w 3 1) [field w 4 4] (slice w 12 (len w - 12)).
Proof.
  intros Hw (Hl & E0 & E2 & E8 & _)%ipc_verdict_OK. unfold ipc_message. cbn [map concat app].
  rewrite len_slice by lia. change (12 - 4) with 8 in E8.
  rewrite <- E0, <- E2, <- E8, app_nil_r. rewrite le16_field, !le32_field by (done || lia).
  change (?a :: ?b :: ?l) with ([a] ++ [b] ++ l). rewrite !byte_field by (done || lia).
  rewrite E8, <- !(assoc_L (++)), <- !slice_split by lia. rewrite <- (slice_all w) at 1. f_equal. lia.
Qed.

Lemma overwrite_facts a p :
  len a = DEVMGR_IPC_MAX_PAYLOAD → Forall is_u8 a → Forall is_u8 p → len p ≤ DEVMGR_IPC_MAX_PAYLOAD →
  len (overwrite a p) = DEVMGR_IPC_MAX_PAYLOAD ∧ Forall is_u8 (overwrite a p) ∧
  slice (overwrite a p) 0 (len p) = p.
Proof.
  intros. unfold overwrite. split_and!.
  - rewrite length_app, length_drop. lia.
  - apply Forall_app; split; [done|by apply Forall_drop].
  - by apply slice_prefix.
Qed.

Lemma request_verdict c p :
  is_u8 c → len p ≤ DEVMGR_IPC_MAX_PAYLOAD → ipc_verdict (ipc_message c [] p) 8 = DEVMGR_OK.
Proof.
  intros Hc Hp. unfold ipc_verdict, DEVMGR_IPC_MAX_PAYLOAD in *. rewrite length_ipc_message.
  change (8 - 4) with 4.
  destruct (request_fields c p) as (-> & -> & _ & -> & _); [done|unfold is_u32; lia|].
  change (len []) with 0. by zreduce.
Qed.

Lemma response_verdict c st p :
  is_u8 c → is_u32 st → len p ≤ DEVMGR_IPC_MAX_PAYLOAD →
  ipc_verdict (ipc_message c [st] p) 12 = DEVMGR_OK.
Proof.
  intros Hc Hst Hp. unfold ipc_verdict, DEVMGR_IPC_MAX_PAYLOAD in *. rewrite length_ipc_message.
  change (12 - 4) with 8.
  destruct (response_fields c st p) as (-> & -> & _ & _ & -> & _); [done|done|unfold is_u32; lia|].
  change (len [st]) with 1. by zreduce.
Qed.

Lemma ipc_message_Forall c words p :
  is_u8 c → Forall is_u8 p → Forall is_u8 (ipc_message c words p).
Proof.
  intros. unfold ipc_message. rewrite !Forall_app.
  rewrite !Forall_cons. split_and!; [apply le_bytes_Forall|done..| |done].
  apply Forall_concat, Forall_map, Forall_forall. intros. apply le_bytes_Forall.
Qed.

(** The first bytes of a buffer that a message was written to. *)
Lemma take_overwrite a p : take (Z.to_nat (len p)) (overwrite a p) = p.
Proof. unfold overwrite. by rewrite Nat2Z.id, take_app_length. Qed.

Lemma overwrite_range a p : 0 ≤ len p ≤ len (overwrite a p).
Proof. unfold overwrite. rewrite length_app. lia. Qed.

Lemma overwrite_Forall a p : Forall is_u8 a → Forall is_u8 p → Forall is_u8 (overwrite a p).
Proof. intros. apply Forall_app; split; [done|by apply Forall_drop]. Qed.

(** A request that is accepted. *)
Lemma accepted_request_ok w r0 :
  Forall is_u8 w → ipc_verdict w 8 = DEVMGR_OK →
  len (request_payload r0) = DEVMGR_IPC_MAX_PAYLOAD → Forall is_u8 (request_payload r0) →
  let r := mk_ipc_request (field w 3 1) (len w - 8)
             (overwrite (request_payload r0) (slice w 8 (len w - 8))) in
  request_ok r ∧ w = encoded_request r.
Proof.
  intros Hw Hv Hl0 Hb0. pose proof (accepted_request w Hw Hv) as Ew.
  destruct (ipc_verdict_OK w 8 Hv) as (Hl & _ & _ & _ & Hm).
  assert (len (slice w 8 (len w - 8)) = len w - 8) as Hs by (apply len_slice; lia).
  destruct (overwrite_facts (request_payload r0) (slice w 8 (len w - 8))) as (H1 & H2 & H3);
    [done|done|by apply slice_Forall|lia|]. rewrite Hs in H3. split.
  - split; [apply (field_range w 3 1 Hw); lia|]. simpl. split_and!; [lia|lia|done|done].
  - unfold encoded_request, request_bytes. simpl. by rewrite H3.
Qed.

Lemma accepted_response_ok w r0 :
  Forall is_u8 w → ipc_verdict w 12 = DEVMGR_OK →
  len (response_payload r0) = DEVMGR_IPC_MAX_PAYLOAD → Forall is_u8 (response_payload r0) →
  let r := mk_ipc_response (field w 3 1) (i32 (field w 4 4)) (len w - 12)
             (overwrite (response_payload r0) (slice w 12 (len w - 12))) in
  response_ok r ∧ w = encoded_response r.
Proof.
  intros Hw Hv Hl0 Hb0. pose proof (accepted_response w Hw Hv) as Ew.
  destruct (ipc_verdict_OK w 12 Hv) as (Hl & _ & _ & _ & Hm).
  assert (len (slice w 12 (len w - 12)) = len w - 12) as Hs by (apply len_slice; lia).
  destruct (overwrite_facts (response_payload r0) (slice w 12 (len w - 12))) as (H1 & H2 & H3);
    [done|done|by apply slice_Forall|lia|]. rewrite Hs in H3.
  pose proof (field_range w 4 4 Hw ltac:(lia)) as Hf. split.
  - split; [apply (field_range w 3 1 Hw); lia|]. simpl.
    split; [apply i32_range|]. split_and!; [lia|lia|done|done].
  - unfold encoded_response, response_bytes. simpl. by rewrite H3, u32_i32 by done.
Qed.

(** ** Properties *)

(** C33: the request codec: encoding into a buffer of the largest size and
    decoding gives back the command and the payload, and the decoder accepts
    nothing but encodings: a buffer it accepts is the encoding of the request
    it returns, any other buffer leaves the request alone. *)
Theorem ipc_request_codec r0 :
  request_ok r0 →
  (∀ r output, request_ok r → Forall is_u8 output → len output = 4104 →
     ∃ output' n r', devmgr_ipc_encode_request r output 4104 0 = Some (DEVMGR_OK, output', n) ∧
       devmgr_ipc_decode_request output' n r0 = Some (DEVMGR_OK, r') ∧ r' ≡ r) ∧
  (∀ data length, Forall is_u8 data → 0 ≤ length ≤ len data →
     ∃ status r', devmgr_ipc_decode_request data length r0 = Some (status, r') ∧
       if status =? DEVMGR_OK
       then request_ok r' ∧ take (Z.to_nat length) data = encoded_request r'
       else r' = r0).
Proof.
  intros (_ & _ & Hl0 & Hb0). split.
  - intros r output Hr Hob Hout. pose proof Hr as (Hc & Hn & _).
    destruct (request_bytes_facts r Hr) as [Hlen Hb]. rewrite <- Hlen in Hn.
    rewrite ipc_encode_request_spec by (unfold DEVMGR_IPC_MAX_PAYLOAD in *; done || lia).
    do 3 eexists. split; [done|]. rewrite ipc_decode_request_spec;
      [|by apply overwrite_Forall; [|apply ipc_message_Forall]|apply overwrite_range|done].
    rewrite take_overwrite. unfold encoded_request. rewrite request_verdict by (done || lia).
    split; [done|]. rewrite length_ipc_message. change (len []) with 0.
    destruct (request_fields (request_command r) (request_bytes r)) as (_ & _ & E3 & _ & E8);
      [done|unfold is_u32, DEVMGR_IPC_MAX_PAYLOAD in *; lia|].
    replace (8 + 4 * 0 + len (request_bytes r) - 8) with (len (request_bytes r)) by lia.
    rewrite E3, E8. split; [done|]. apply overwrite_facts; [done..|lia].
  - intros data length Hd Hlen. rewrite ipc_decode_request_spec by done. cbv zeta.
    set (w := take (Z.to_nat length) data). assert (Forall is_u8 w) as Hw by by apply Forall_take.
    do 2 eexists. split; [done|]. destruct (Z.eqb_spec (ipc_verdict w 8) DEVMGR_OK) as [Hv|]; [|done].
    by apply accepted_request_ok.
Qed.

(** C34: the response codec, likewise; the status is a signed 32-bit number. *)
Theorem ipc_response_codec r0 :
  response_ok r0 →
  (∀ r output, response_ok r → Forall is_u8 output → len output = 4108 →
     ∃ output' n r', devmgr_ipc_encode_response r output 4108 0 = Some (DEVMGR_OK, output', n) ∧
       devmgr_ipc_decode_response output' n r0 = Some (DEVMGR_OK, r') ∧ r' ≡ r) ∧
  (∀ data length, Forall is_u8 data → 0 ≤ length ≤ len data →
     ∃ status r', devmgr_ipc_decode_response data length r0 = Some (status, r') ∧
       if status =? DEVMGR_OK
       then response_ok r' ∧ take (Z.to_nat length) data = encoded_response r'
       else r' = r0).
Proof.
  intros (_ & _ & _ & Hl0 & Hb0). split.
  - intros r output Hr Hob Hout. pose proof Hr as (Hc & Hst & Hn & _).
    destruct (response_bytes_facts r Hr) as [Hlen Hb]. rewrite <- Hlen in Hn.
    pose proof (u32_range (response_status r)) as Hu.
    rewrite ipc_encode_response_spec by (unfold DEVMGR_IPC_MAX_PAYLOAD in *; done || lia).
    do 3 eexists. split; [done|]. rewrite ipc_decode_response_spec;
      [|by apply overwrite_Forall; [|apply ipc_message_Forall]|apply overwrite_range|done].
    rewrite take_overwrite. unfold encoded_response. rewrite response_verdict by (done || lia).
    split; [done|]. rewrite length_ipc_message. change (len [_]) with 1.
    destruct (response_fields (response_command r) (u32 (response_status r)) (response_bytes r))
      as (_ & _ & E3 & E4 & _ & E12); [done..|unfold is_u32, DEVMGR_IPC_MAX_PAYLOAD in *; lia|].
    replace (8 + 4 * 1 + len (response_bytes r) - 12) with (len (response_bytes r)) by lia.
    rewrite E3, E4, E12. split; [done|]. split; [by apply i32_u32|]. apply overwrite_facts; [done..|lia].
  - intros data length Hd Hlen. rewrite ipc_decode_response_spec by done. cbv zeta.
    set (w := take (Z.to_nat length) data). assert (Forall is_u8 w) as Hw by by apply Forall_take.
    do 2 eexists. split; [done|]. destruct (Z.eqb_spec (ipc_verdict w 12) DEVMGR_OK) as [Hv|]; [|done].
    by apply accepted_response_ok.
Qed.

(** *** Instances *)

Definition blank_request : devmgr_ipc_request :=
  mk_ipc_request 0 0 (zeros DEVMGR_IPC_MAX_PAYLOAD).
Definition blank_response : devmgr_ipc_response :=
  mk_ipc_response 0 0 0 (zeros DEVMGR_IPC_MAX_PAYLOAD).

Lemma blank_request_ok : request_ok blank_request.
Proof. split_and!; try done. apply zeros_Forall. Qed.

Lemma blank_response_ok : response_ok blank_response.
Proof. split_and!; try done. apply zeros_Forall. Qed.

Lemma ipc_request_codec_witness :
  ∃ output' n r',
    devmgr_ipc_encode_request (mk_ipc_request 1 2 (zeros 4096)) (zeros 4104) 4104 0 =
      Some (DEVMGR_OK, output', n) ∧
    devmgr_ipc_decode_request output' n blank_request = Some (DEVMGR_OK, r') ∧
    r' ≡ mk_ipc_request 1 2 (zeros 4096).
Proof.
  apply (ipc_request_codec blank_request blank_request_ok);
    [split_and!; try done; apply zeros_Forall|apply zeros_Forall|done].
Defined.

Lemma ipc_response_codec_witness :
  ∃ output' n r',
    devmgr_ipc_encode_response (mk_ipc_response 1 (-7) 2 (zeros 4096)) (zeros 4108) 4108 0 =
      Some (DEVMGR_OK, output', n) ∧
    devmgr_ipc_decode_response output' n blank_response = Some (DEVMGR_OK, r') ∧
    r' ≡ mk_ipc_response 1 (-7) 2 (zeros 4096).
Proof.
  apply (ipc_response_codec blank_response blank_response_ok);
    [split_and!; try done; apply zeros_Forall|apply zeros_Forall|done].
Defined.
