(* ===== verification/Upgrade.v ===== *)
(** * Firmware upgrade: include/devmgr/upgrade.h and src/upgrade/upgrade.c

    The host's upgrade state machine: it builds the next request and advances
    on the device's answer.  The theorems show that it stays within the image
    for any answers, sends exactly the image, ends, and completes only on the
    device's confirmation of every step. *)

From S2P Require Import Prelude Crc32 Frame.

(** ** The code *)

Definition DEVMGR_UPGRADE_VERSION_MAX : Z := 31.
Definition DEVMGR_UPGRADE_DEFAULT_CHUNK : Z := 1024.

Inductive devmgr_upgrade_state :=
  | DEVMGR_UPGRADE_IDLE
  | DEVMGR_UPGRADE_VALIDATING
  | DEVMGR_UPGRADE_ENTER_BOOTLOADER
  | DEVMGR_UPGRADE_BEGIN
  | DEVMGR_UPGRADE_TRANSFER
  | DEVMGR_UPGRADE_RECOVER
  | DEVMGR_UPGRADE_END
  | DEVMGR_UPGRADE_VERIFY
  | DEVMGR_UPGRADE_ACTIVATE
  | DEVMGR_UPGRADE_REBOOT
  | DEVMGR_UPGRADE_COMPLETE
  | DEVMGR_UPGRADE_ERROR.

#[export] Instance upgrade_state_eq_dec : EqDecision devmgr_upgrade_state.
Proof. solve_decision. Defined.

(** [image_data] is the mapped file, or None for a null pointer. *)
Record devmgr_upgrade := mk_upgrade {
  upgrade_state : devmgr_upgrade_state;
  image_data : option (list Z);
  image_size : Z;
  image_crc : Z;
  upgrade_version : list Z;
  session_id : Z;
  offset : Z;
  last_chunk_end : Z;
  chunk_size : Z;
  chunks_sent : Z;
  recovery_attempts : Z;
}.

#[export] Instance eta_upgrade : Eta devmgr_upgrade := λ u,
  mk_upgrade (upgrade_state u) (image_data u) (image_size u) (image_crc u) (upgrade_version u)
             (session_id u) (offset u) (last_chunk_end u) (chunk_size u) (chunks_sent u)
             (recovery_attempts u).

Definition devmgr_upgrade_init : devmgr_upgrade :=
  mk_upgrade DEVMGR_UPGRADE_IDLE None 0 0 (zeros (DEVMGR_UPGRADE_VERSION_MAX + 1)) 0 0 0 0 0 0.

Definition devmgr_upgrade_start (upgrade : devmgr_upgrade) (data : option (list Z))
    (size crc : Z) (version : list Z) (chunk : Z) : option (Z * devmgr_upgrade) :=
  if negb (match data with Some _ => true | None => false end) || (size =? 0) ||
     (UINT32_MAX <? size) || (chunk =? 0) || (DEVMGR_PROTOCOL_MAX_PAYLOAD - 8 <? chunk) then
    Some (DEVMGR_ERROR_INVALID, upgrade)
  else
  version_length ← strlen version 0;
  if (version_length =? 0) || (DEVMGR_UPGRADE_VERSION_MAX <? version_length) then
    Some (DEVMGR_ERROR_INVALID, upgrade)
  else
  let upgrade := devmgr_upgrade_init in
  let upgrade := upgrade <| image_data := data |> <| image_size := size |>
                         <| image_crc := crc |> in
  version ← memcpy upgrade.(upgrade_version) 0 version 0 (version_length + 1);
  Some (DEVMGR_OK, upgrade <| upgrade_version := version |> <| chunk_size := chunk |>
                           <| upgrade_state := DEVMGR_UPGRADE_ENTER_BOOTLOADER |>).

(** The status, the state machine and [*frame], which is cleared first. *)
Definition devmgr_upgrade_build_request (upgrade : devmgr_upgrade)
    : option (Z * devmgr_upgrade * devmgr_frame) :=
  let frame := zero_frame in
  let refuse := Some (DEVMGR_ERROR_STATE, upgrade, frame) in
  let send (upgrade : devmgr_upgrade) (frame : devmgr_frame) :=
    Some (DEVMGR_OK, upgrade, frame <| frame_flags := DEVMGR_FRAME_ACK_REQUIRED |>) in
  let session_request (type : Z) :=
    payload ← devmgr_put_le32 frame.(frame_payload) 0 upgrade.(session_id);
    send upgrade (frame <| frame_type := type |> <| frame_payload := payload |>
                        <| frame_payload_length := 4 |>) in
  match upgrade.(upgrade_state) with
  | DEVMGR_UPGRADE_ENTER_BOOTLOADER =>
      send upgrade (frame <| frame_type := DEVMGR_MSG_ENTER_BOOTLOADER |>)
  | DEVMGR_UPGRADE_BEGIN =>
      payload ← devmgr_put_le32 frame.(frame_payload) 0 (u32 upgrade.(image_size));
      payload ← devmgr_put_le32 payload 4 upgrade.(image_crc);
      payload ← devmgr_put_le16 payload 8 upgrade.(chunk_size);
      length ← strlen upgrade.(upgrade_version) 0;
      let version_length := length + 1 in
      payload ← memcpy payload 10 upgrade.(upgrade_version) 0 version_length;
      send upgrade (frame <| frame_type := DEVMGR_MSG_FW_BEGIN |> <| frame_payload := payload |>
                          <| frame_payload_length := u16 (10 + version_length) |>)
  | DEVMGR_UPGRADE_TRANSFER =>
      if upgrade.(image_size) <=? upgrade.(offset) then refuse
      else
      payload ← devmgr_put_le32 frame.(frame_payload) 0 upgrade.(session_id);
      payload ← devmgr_put_le32 payload 4 upgrade.(offset);
      let remaining := upgrade.(image_size) - upgrade.(offset) in
      let chunk := if remaining <? upgrade.(chunk_size) then remaining
                   else upgrade.(chunk_size) in
      data ← upgrade.(image_data);
      payload ← memcpy payload 8 data upgrade.(offset) chunk;
      send (upgrade <| last_chunk_end := u32 (upgrade.(offset) + u32 chunk) |>
                    <| chunks_sent := u32 (upgrade.(chunks_sent) + 1) |>)
           (frame <| frame_type := DEVMGR_MSG_FW_DATA |> <| frame_payload := payload |>
                  <| frame_payload_length := u16 (8 + chunk) |>)
  | DEVMGR_UPGRADE_RECOVER =>
      if upgrade.(session_id) =? 0 then refuse else session_request DEVMGR_MSG_FW_STATUS
  | DEVMGR_UPGRADE_END => session_request DEVMGR_MSG_FW_END
  | DEVMGR_UPGRADE_VERIFY => session_request DEVMGR_MSG_FW_VERIFY
  | DEVMGR_UPGRADE_ACTIVATE => session_request DEVMGR_MSG_FW_ACTIVATE
  | DEVMGR_UPGRADE_REBOOT =>
      payload ← store frame.(frame_payload) 0 0;
      send upgrade (frame <| frame_type := DEVMGR_MSG_REBOOT |> <| frame_payload := payload |>
                          <| frame_payload_length := 1 |>)
  | DEVMGR_UPGRADE_IDLE | DEVMGR_UPGRADE_VALIDATING | DEVMGR_UPGRADE_COMPLETE
  | DEVMGR_UPGRADE_ERROR => refuse
  end.

Definition devmgr_upgrade_accept_response (upgrade : devmgr_upgrade) (request_type : Z)
    (response : devmgr_frame) : option (Z * devmgr_upgrade) :=
  let advance (upgrade : devmgr_upgrade) next :=
    Some (DEVMGR_OK, upgrade <| upgrade_state := next |>) in
  let fail (upgrade : devmgr_upgrade) :=
    Some (DEVMGR_ERROR_PROTOCOL, upgrade <| upgrade_state := DEVMGR_UPGRADE_ERROR |>) in
  let resume (upgrade : devmgr_upgrade) :=
    advance upgrade (if upgrade.(offset) =? upgrade.(image_size) then DEVMGR_UPGRADE_END
                     else DEVMGR_UPGRADE_TRANSFER) in
  let expect type := request_type =? type in
  let length := response.(frame_payload_length) in
  if (response.(frame_type) =? DEVMGR_MSG_NACK) || (response.(frame_type) =? DEVMGR_MSG_ERROR)
  then fail upgrade
  else
  match upgrade.(upgrade_state) with
  | DEVMGR_UPGRADE_ENTER_BOOTLOADER =>
      if negb (expect DEVMGR_MSG_ENTER_BOOTLOADER) then fail upgrade
      else advance upgrade DEVMGR_UPGRADE_BEGIN
  | DEVMGR_UPGRADE_BEGIN =>
      if negb (expect DEVMGR_MSG_FW_BEGIN) || negb (length =? 8) then fail upgrade
      else
      id ← devmgr_get_le32 response.(frame_payload) 0;
      let upgrade := upgrade <| session_id := id |> in
      next ← devmgr_get_le32 response.(frame_payload) 4;
      let upgrade := upgrade <| offset := next |> in
      if (upgrade.(session_id) =? 0) || (upgrade.(image_size) <? upgrade.(offset))
      then fail upgrade else resume upgrade
  | DEVMGR_UPGRADE_TRANSFER =>
      if negb (expect DEVMGR_MSG_FW_DATA) || negb (length =? 4) then fail upgrade
      else
      next ← devmgr_get_le32 response.(frame_payload) 0;
      let upgrade := upgrade <| offset := next |> in
      if negb (upgrade.(offset) =? upgrade.(last_chunk_end)) ||
         (upgrade.(image_size) <? upgrade.(offset))
      then fail upgrade else resume upgrade
  | DEVMGR_UPGRADE_RECOVER =>
      if negb (expect DEVMGR_MSG_FW_STATUS) || negb (length =? 8) then fail upgrade
      else
      id ← devmgr_get_le32 response.(frame_payload) 0;
      if negb (id =? upgrade.(session_id)) then fail upgrade
      else
      next ← devmgr_get_le32 response.(frame_payload) 4;
      let upgrade := upgrade <| offset := next |> in
      if upgrade.(image_size) <? upgrade.(offset) then fail upgrade else resume upgrade
  | DEVMGR_UPGRADE_END =>
      if negb (expect DEVMGR_MSG_FW_END) then fail upgrade
      else advance upgrade DEVMGR_UPGRADE_VERIFY
  | DEVMGR_UPGRADE_VERIFY =>
      if negb (expect DEVMGR_MSG_FW_VERIFY) || negb (length =? 4) then fail upgrade
      else
      crc ← devmgr_get_le32 response.(frame_payload) 0;
      if negb (crc =? upgrade.(image_crc)) then fail upgrade
      else advance upgrade DEVMGR_UPGRADE_ACTIVATE
  | DEVMGR_UPGRADE_ACTIVATE =>
      if negb (expect DEVMGR_MSG_FW_ACTIVATE) then fail upgrade
      else advance upgrade DEVMGR_UPGRADE_REBOOT
  | DEVMGR_UPGRADE_REBOOT =>
      if negb (expect DEVMGR_MSG_REBOOT) then fail upgrade
      else advance upgrade DEVMGR_UPGRADE_COMPLETE
  | DEVMGR_UPGRADE_IDLE | DEVMGR_UPGRADE_VALIDATING | DEVMGR_UPGRADE_COMPLETE
  | DEVMGR_UPGRADE_ERROR => fail upgrade
  end.

Definition devmgr_upgrade_active (upgrade : devmgr_upgrade) : bool :=
  negb (bool_decide (upgrade.(upgrade_state) = DEVMGR_UPGRADE_IDLE)) &&
  negb (bool_decide (upgrade.(upgrade_state) = DEVMGR_UPGRADE_COMPLETE)) &&
  negb (bool_decide (upgrade.(upgrade_state) = DEVMGR_UPGRADE_ERROR)).

Definition devmgr_upgrade_begin_recovery (upgrade : devmgr_upgrade) : Z * devmgr_upgrade :=
  if (upgrade.(session_id) =? 0) ||
     (negb (bool_decide (upgrade.(upgrade_state) = DEVMGR_UPGRADE_TRANSFER)) &&
      negb (bool_decide (upgrade.(upgrade_state) = DEVMGR_UPGRADE_RECOVER))) then
    (DEVMGR_ERROR_STATE, upgrade)
  else if 3 <=? upgrade.(recovery_attempts) then
    (DEVMGR_ERROR_TIMEOUT, upgrade <| upgrade_state := DEVMGR_UPGRADE_ERROR |>)
  else
    (DEVMGR_OK, upgrade <| recovery_attempts := u8 (upgrade.(recovery_attempts) + 1) |>
                        <| upgrade_state := DEVMGR_UPGRADE_RECOVER |>).

Definition devmgr_upgrade_state_string (state : devmgr_upgrade_state) : string :=
  match state with
  | DEVMGR_UPGRADE_IDLE => "IDLE"%string
  | DEVMGR_UPGRADE_VALIDATING => "VALIDATING"%string
  | DEVMGR_UPGRADE_ENTER_BOOTLOADER => "ENTER_BOOTLOADER"%string
  | DEVMGR_UPGRADE_BEGIN => "BEGIN"%string
  | DEVMGR_UPGRADE_TRANSFER => "TRANSFER"%string
  | DEVMGR_UPGRADE_RECOVER => "RECOVER"%string
  | DEVMGR_UPGRADE_END => "END"%string
  | DEVMGR_UPGRADE_VERIFY => "VERIFY"%string
  | DEVMGR_UPGRADE_ACTIVATE => "ACTIVATE"%string
  | DEVMGR_UPGRADE_REBOOT => "REBOOT"%string
  | DEVMGR_UPGRADE_COMPLETE => "COMPLETE"%string
  | DEVMGR_UPGRADE_ERROR => "ERROR"%string
  end.

(** ** Requests and answers *)

(** The bytes of the next chunk. *)
Definition next_chunk (image : list Z) (u : devmgr_upgrade) : list Z :=
  slice image (offset u) (Z.min (chunk_size u) (len image - offset u)).

(** The next request: its type and payload. *)
Definition next_request (image version : list Z) (u : devmgr_upgrade) : option (Z * list Z) :=
  match upgrade_state u with
  | DEVMGR_UPGRADE_ENTER_BOOTLOADER => Some (DEVMGR_MSG_ENTER_BOOTLOADER, [])
  | DEVMGR_UPGRADE_BEGIN =>
      Some (DEVMGR_MSG_FW_BEGIN, le_bytes 4 (len image) ++ le_bytes 4 (image_crc u) ++
                                 le_bytes 2 (chunk_size u) ++ version ++ [0])
  | DEVMGR_UPGRADE_TRANSFER =>
      Some (DEVMGR_MSG_FW_DATA, le_bytes 4 (session_id u) ++ le_bytes 4 (offset u) ++
                                next_chunk image u)
  | DEVMGR_UPGRADE_RECOVER => Some (DEVMGR_MSG_FW_STATUS, le_bytes 4 (session_id u))
  | DEVMGR_UPGRADE_END => Some (DEVMGR_MSG_FW_END, le_bytes 4 (session_id u))
  | DEVMGR_UPGRADE_VERIFY => Some (DEVMGR_MSG_FW_VERIFY, le_bytes 4 (session_id u))
  | DEVMGR_UPGRADE_ACTIVATE => Some (DEVMGR_MSG_FW_ACTIVATE, le_bytes 4 (session_id u))
  | DEVMGR_UPGRADE_REBOOT => Some (DEVMGR_MSG_REBOOT, [0])
  | _ => None
  end.

(** The state after building it: only a chunk leaves a trace. *)
Definition after_request (image : list Z) (u : devmgr_upgrade) : devmgr_upgrade :=
  match upgrade_state u with
  | DEVMGR_UPGRADE_TRANSFER =>
      u <| last_chunk_end := offset u + len (next_chunk image u) |>
        <| chunks_sent := u32 (chunks_sent u + 1) |>
  | _ => u
  end.

(** An upgrade of [image] to [version]: what never changes and the ranges. *)
Definition upgrade_base (image version : list Z) (u : devmgr_upgrade) : Prop :=
  image_data u = Some image ∧ image_size u = len image ∧ Forall is_u8 image ∧
  0 < len image ≤ UINT32_MAX ∧ is_u32 (image_crc u) ∧
  upgrade_version u = version ++ zeros (32 - len version) ∧
  Forall (λ b, 0 < b < 256) version ∧ 1 ≤ len version ≤ 31 ∧
  0 < chunk_size u ≤ 4088 ∧ is_u32 (session_id u) ∧ is_u32 (offset u) ∧
  is_u32 (last_chunk_end u) ∧ 0 ≤ recovery_attempts u ≤ 3.

(** What each state knows of the session and the offset. *)
Definition state_ok (image : list Z) (u : devmgr_upgrade) : Prop :=
  match upgrade_state u with
  | DEVMGR_UPGRADE_TRANSFER => session_id u ≠ 0 ∧ offset u < len image
  | DEVMGR_UPGRADE_RECOVER => session_id u ≠ 0
  | DEVMGR_UPGRADE_END | DEVMGR_UPGRADE_VERIFY | DEVMGR_UPGRADE_ACTIVATE
  | DEVMGR_UPGRADE_REBOOT | DEVMGR_UPGRADE_COMPLETE => session_id u ≠ 0 ∧ offset u = len image
  | _ => True
  end.

Definition upgrade_ok (image version : list Z) (u : devmgr_upgrade) : Prop :=
  upgrade_base image version u ∧ state_ok image u.

Lemma version_strlen v : Forall (λ b, 0 < b < 256) v → len v ≤ 31 →
  strlen (v ++ zeros (32 - len v)) 0 = Some (len v).
Proof.
  intros Hv Hl. unfold strlen. rewrite in_range_intro by lia. change (Z.to_nat 0) with 0%nat.
  rewrite drop_0.
  assert (zeros (32 - len v) = 0 :: zeros (31 - len v)) as ->.
  { unfold zeros. replace (Z.to_nat (32 - len v)) with (S (Z.to_nat (31 - len v))) by lia. done. }
  rewrite find_zero_string; [done|]. eapply Forall_impl; [done|]. simpl. lia.
Qed.

Lemma version_bytes v :
  len v ≤ 31 → slice (v ++ zeros (32 - len v)) 0 (len v + 1) = v ++ [0].
Proof.
  intros. replace (zeros (32 - len v)) with ([0] ++ zeros (31 - len v)).
  - rewrite (assoc_L (++)). apply slice_prefix. rewrite length_app. simpl. lia.
  - unfold zeros. replace (Z.to_nat (32 - len v)) with (S (Z.to_nat (31 - len v))) by lia. done.
Qed.

Lemma next_chunk_facts image u :
  0 ≤ offset u ≤ len image → 0 ≤ chunk_size u →
  len (next_chunk image u) = Z.min (chunk_size u) (len image - offset u).
Proof. intros. unfold next_chunk. apply len_slice; lia. Qed.

Lemma zero_payload : frame_payload zero_frame = [] ++ zeros 4096.
Proof. done. Qed.

(** Runs the writes of a payload into a cleared frame. *)
Ltac write_payload :=
  rewrite ?zero_payload;
  repeat first
    [ rewrite put_le32_zeros by (unfold is_u32 in *; rewrite ?length_app, ?length_le_bytes; simpl; lia); run_stmt
    | rewrite put_le16_zeros by (unfold is_u16; rewrite ?length_app, ?length_le_bytes; simpl; lia); run_stmt
    | rewrite memcpy_zeros by first [lia | rewrite ?length_app, ?length_le_bytes; simpl; lia]; run_stmt ].

Lemma zero_payload_store : store (frame_payload zero_frame) 0 0 = Some ([0] ++ zeros 4095).
Proof. by vm_compute. Qed.

Ltac frame_of_payload :=
  apply request_frame_intro;
  cbn [upd frame_type frame_flags frame_sequence frame_payload_length frame_payload zero_frame].

Lemma build_request_spec image version u :
  upgrade_ok image version u →
  devmgr_upgrade_build_request u =
    Some (match next_request image version u with
          | Some (type, payload) =>
              (DEVMGR_OK, after_request image u,
               request_frame type DEVMGR_FRAME_ACK_REQUIRED 0 payload)
          | None => (DEVMGR_ERROR_STATE, u, zero_frame)
          end).
Proof.
  intros [(Hd & Hsz & Him & Hlen & Hcrc & Hv & Hvb & Hvl & Hc & Hid & Hoff & Hlast & Hr) Hst].
  unfold devmgr_upgrade_build_request, next_request, after_request, state_ok, UINT32_MAX in *.
  destruct (upgrade_state u) eqn:Est. 11-12: reflexivity. 1-3: reflexivity.
  - assert (len (version ++ zeros (32 - len version)) = 32) as Hl32
      by (rewrite length_app, Nat2Z.inj_add, len_zeros; lia).
    rewrite Hv, version_strlen by (done || lia).
    rewrite Hsz, u32_id by (unfold is_u32; lia). write_payload.
    run_stmt. cbv zeta. write_payload. rewrite version_bytes, u16_id by (unfold is_u16; lia).
    do 2 f_equal. frame_of_payload.
    + rewrite !length_app, !length_le_bytes. simpl. lia.
    + replace (DEVMGR_PROTOCOL_MAX_PAYLOAD - (10 + (len version + 1)))
        with (4096 - 4 - 4 - 2 - (len version + 1)) by (unfold DEVMGR_PROTOCOL_MAX_PAYLOAD; lia).
      by rewrite <- !(assoc_L (++)).
  - destruct Hst as [Hs0 Hlt]. rewrite Hsz. zreduce. write_payload. rewrite Hd. run_stmt.
    unfold is_u32 in *. pose proof (next_chunk_facts image u ltac:(lia) ltac:(lia)) as Hnc.
    replace (if len image - offset u <? chunk_size u then len image - offset u else chunk_size u)
      with (len (next_chunk image u)) by (rewrite Hnc; ztest; lia).
    assert (slice image (offset u) (len (next_chunk image u)) = next_chunk image u) as Hch
      by (unfold next_chunk at 2; by rewrite Hnc).
    write_payload. rewrite Hch, u16_id by (unfold is_u16; lia).
    rewrite (u32_id (len (next_chunk image u))), (u32_id (offset u + _)) by (unfold is_u32; lia).
    do 2 f_equal. frame_of_payload.
    + rewrite !length_app, !length_le_bytes. simpl. lia.
    + replace (DEVMGR_PROTOCOL_MAX_PAYLOAD - (8 + len (next_chunk image u)))
        with (4096 - 4 - 4 - len (next_chunk image u)) by (unfold DEVMGR_PROTOCOL_MAX_PAYLOAD; lia).
      by rewrite <- !(assoc_L (++)).
  - zreduce. by write_payload.
  - by write_payload.
  - by write_payload.
  - by write_payload.
  - by rewrite zero_payload_store.
Qed.

(** The answer [w] to a request of type [rt], on the message instead of the
    frame. *)
Definition refused (w : wire_frame) : bool :=
  (w_type w =? DEVMGR_MSG_NACK) || (w_type w =? DEVMGR_MSG_ERROR).

Definition failed (u : devmgr_upgrade) : Z * devmgr_upgrade :=
  (DEVMGR_ERROR_PROTOCOL, u <| upgrade_state := DEVMGR_UPGRADE_ERROR |>).

Definition resumed (u : devmgr_upgrade) : Z * devmgr_upgrade :=
  (DEVMGR_OK, u <| upgrade_state := if offset u =? image_size u then DEVMGR_UPGRADE_END
                                    else DEVMGR_UPGRADE_TRANSFER |>).

Definition advanced (u : devmgr_upgrade) (next : devmgr_upgrade_state) : Z * devmgr_upgrade :=
  (DEVMGR_OK, u <| upgrade_state := next |>).

Definition answer (u : devmgr_upgrade) (rt : Z) (w : wire_frame) : Z * devmgr_upgrade :=
  let p := w_payload w in
  if refused w then failed u
  else
  match upgrade_state u with
  | DEVMGR_UPGRADE_ENTER_BOOTLOADER =>
      if rt =? DEVMGR_MSG_ENTER_BOOTLOADER then advanced u DEVMGR_UPGRADE_BEGIN else failed u
  | DEVMGR_UPGRADE_BEGIN =>
      if (rt =? DEVMGR_MSG_FW_BEGIN) && (len p =? 8) then
        let u := u <| session_id := field p 0 4 |> <| offset := field p 4 4 |> in
        if (session_id u =? 0) || (image_size u <? offset u) then failed u else resumed u
      else failed u
  | DEVMGR_UPGRADE_TRANSFER =>
      if (rt =? DEVMGR_MSG_FW_DATA) && (len p =? 4) then
        let u := u <| offset := field p 0 4 |> in
        if negb (offset u =? last_chunk_end u) || (image_size u <? offset u) then failed u
        else resumed u
      else failed u
  | DEVMGR_UPGRADE_RECOVER =>
      if (rt =? DEVMGR_MSG_FW_STATUS) && (len p =? 8) && (field p 0 4 =? session_id u) then
        let u := u <| offset := field p 4 4 |> in
        if image_size u <? offset u then failed u else resumed u
      else failed u
  | DEVMGR_UPGRADE_END =>
      if rt =? DEVMGR_MSG_FW_END then advanced u DEVMGR_UPGRADE_VERIFY else failed u
  | DEVMGR_UPGRADE_VERIFY =>
      if (rt =? DEVMGR_MSG_FW_VERIFY) && (len p =? 4) && (field p 0 4 =? image_crc u)
      then advanced u DEVMGR_UPGRADE_ACTIVATE else failed u
  | DEVMGR_UPGRADE_ACTIVATE =>
      if rt =? DEVMGR_MSG_FW_ACTIVATE then advanced u DEVMGR_UPGRADE_REBOOT else failed u
  | DEVMGR_UPGRADE_REBOOT =>
      if rt =? DEVMGR_MSG_REBOOT then advanced u DEVMGR_UPGRADE_COMPLETE else failed u
  | _ => failed u
  end.

Lemma field_view f off n :
  frame_ok f → 0 ≤ off → 0 ≤ n → off + n ≤ frame_payload_length f →
  field (w_payload (view f)) off n = field (frame_payload f) off n.
Proof. intros. unfold field, view. cbn [w_payload]. by rewrite slice_slice by lia. Qed.

Lemma accept_response_spec u rt f :
  frame_ok f →
  devmgr_upgrade_accept_response u rt f = Some (answer u rt (view f)).
Proof.
  intros Hf. pose proof Hf as (_ & _ & _ & Hn & Hl & Hb).
  unfold DEVMGR_PROTOCOL_MAX_PAYLOAD in *.
  unfold devmgr_upgrade_accept_response, answer, refused, failed, resumed, advanced.
  rewrite len_view_payload by done. cbn [view w_type].
  destruct (_ || _); [done|]. destruct (upgrade_state u); try done; try by destruct (rt =? _).
  all: destruct (rt =? _); [|done]; cbn [negb orb andb].
  all: match goal with |- context [?n =? ?k] =>
         destruct (Z.eqb_spec n k) as [E|]; [|done] end; cbn [negb andb].
  all: rewrite ?get_le32_field by (done || lia); run_stmt.
  all: rewrite !field_view by (done || lia).
  - run_stmt. by destruct (_ || _).
  - by destruct (_ || _).
  - destruct (_ =? session_id u); [|done]. cbn [negb].
    run_stmt. by destruct (_ <? _).
  - by destruct (_ =? image_crc u).
Qed.

(** ** The state machine stays within the image *)

Lemma request_payload_ok image version u type payload :
  upgrade_ok image version u → next_request image version u = Some (type, payload) →
  is_u8 type ∧ Forall is_u8 payload ∧ len payload ≤ DEVMGR_PROTOCOL_MAX_PAYLOAD.
Proof.
  intros [(Hd & Hsz & Him & Hlen & Hcrc & Hv & Hvb & Hvl & Hc & Hid & Hoff & Hlast & Hr) Hst] E.
  unfold next_request, state_ok, is_u32, DEVMGR_PROTOCOL_MAX_PAYLOAD in *.
  assert (Forall is_u8 version) as Hv8 by (eapply Forall_impl; [exact Hvb|unfold is_u8; simpl; lia]).
  destruct (upgrade_state u); simplify_eq; (split; [done|]).
  all: rewrite ?Forall_app, ?length_app, ?length_le_bytes; split_and?; auto with devmgr; try (simpl; lia).
  - by repeat constructor.
  - by apply slice_Forall.
  - pose proof (next_chunk_facts image u ltac:(lia) ltac:(lia)). lia.
  - by repeat constructor.
Qed.

Lemma after_request_ok image version u :
  upgrade_ok image version u → upgrade_ok image version (after_request image u).
Proof.
  intros Hu. pose proof Hu as [Hb Hst].
  pose proof Hb as (? & ? & ? & Hl & ? & ? & ? & ? & ? & ? & Hoff & ? & ?).
  unfold after_request, state_ok in Hst |- *. destruct (upgrade_state u) eqn:E; try done.
  destruct Hst as [? ?]. unfold is_u32, UINT32_MAX in *.
  pose proof (next_chunk_facts image u ltac:(lia) ltac:(lia)).
  split; [|by unfold state_ok; simpl; rewrite E].
  unfold upgrade_base, is_u32, UINT32_MAX. simpl. split_and!; try done; lia.
Qed.

Lemma failed_ok image version u :
  upgrade_base image version u → upgrade_ok image version (failed u).2.
Proof. by split. Qed.

Lemma resumed_ok image version u :
  upgrade_base image version u → session_id u ≠ 0 → offset u ≤ len image →
  upgrade_ok image version (resumed u).2.
Proof.
  intros Hb Hs Ho. split; [done|]. pose proof Hb as (_ & Hsz & _). unfold state_ok. simpl.
  rewrite Hsz. destruct (Z.eqb_spec (offset u) (len image)); split; done || lia.
Qed.

(** Setting the session and the offset from an answer. *)
Lemma retarget_ok image version u id off :
  upgrade_base image version u → is_u32 id → is_u32 off →
  upgrade_base image version (u <| session_id := id |> <| offset := off |>).
Proof. intros (? & ? & ? & ? & ? & ? & ? & ? & ? & ? & ? & ? & ?) ? ?. repeat (split; [done|]). done. Qed.

Lemma reoffset_ok image version u off :
  upgrade_base image version u → is_u32 off → upgrade_base image version (u <| offset := off |>).
Proof. intros (? & ? & ? & ? & ? & ? & ? & ? & ? & ? & ? & ? & ?) ?. repeat (split; [done|]). done. Qed.

Lemma answer_ok image version u rt w :
  upgrade_ok image version u → Forall is_u8 (w_payload w) →
  upgrade_ok image version (answer u rt w).2.
Proof.
  intros [Hb Hst] Hw. pose proof Hb as (_ & Hsz & _).
  pose proof (failed_ok image version u Hb) as Hfail.
  pose proof (field_range _ 0 4 Hw ltac:(lia)) as F0. pose proof (field_range _ 4 4 Hw ltac:(lia)) as F4.
  change (2 ^ (8 * 4)) with 4294967296 in *.
  unfold answer. destruct (refused w); [done|]. unfold state_ok in Hst.
  destruct (upgrade_state u) eqn:E; try done; try (case_match; [|done]).
  all: try (by split).
  - set (u1 := u <| session_id := _ |> <| offset := _ |>).
    pose proof (retarget_ok image version u _ _ Hb F0 F4) as Hb1. change (image_size u1) with (image_size u).
    destruct (Z.eqb_spec (session_id u1) 0); cbn [orb]; [by apply failed_ok|]. rewrite Hsz.
    destruct (Z.ltb_spec (len image) (offset u1)); [by apply failed_ok|by apply resumed_ok].
  - set (u1 := u <| offset := _ |>). destruct Hst.
    pose proof (reoffset_ok image version u _ Hb F0) as Hb1. change (image_size u1) with (image_size u).
    destruct (negb _); cbn [orb]; [by apply failed_ok|]. rewrite Hsz.
    destruct (Z.ltb_spec (len image) (offset u1)); [by apply failed_ok|by apply resumed_ok].
  - set (u1 := u <| offset := _ |>).
    pose proof (reoffset_ok image version u _ Hb F4) as Hb1. change (image_size u1) with (image_size u).
    rewrite Hsz.
    destruct (Z.ltb_spec (len image) (offset u1)); [by apply failed_ok|by apply resumed_ok].
Qed.

Lemma recovery_ok image version u :
  upgrade_ok image version u → upgrade_ok image version (devmgr_upgrade_begin_recovery u).2.
Proof.
  intros Hu. pose proof Hu as [(? & ? & ? & ? & ? & ? & ? & ? & ? & ? & ? & ? & ?) ?].
  unfold devmgr_upgrade_begin_recovery. destruct (Z.eqb_spec (session_id u) 0); [done|].
  cbn [orb]. destruct (negb _ && negb _); [done|].
  destruct (Z.leb_spec 3 (recovery_attempts u)); [apply failed_ok, Hu|].
  split; [|done]. unfold upgrade_base. simpl. rewrite u8_id by (unfold is_u8; lia).
  repeat (split; [done|]). lia.
Qed.

Lemma upgrade_start_ok u image size crc array version chunk :
  Forall is_u8 image → len image = size → 0 < size ≤ UINT32_MAX → is_u32 crc →
  holds_string array version → Forall (λ b, 0 < b < 256) version → 1 ≤ len version ≤ 31 →
  0 < chunk ≤ 4088 →
  ∃ u', devmgr_upgrade_start u (Some image) size crc array chunk = Some (DEVMGR_OK, u') ∧
    upgrade_ok image version u' ∧ upgrade_state u' = DEVMGR_UPGRADE_ENTER_BOOTLOADER ∧
    image_crc u' = crc ∧ recovery_attempts u' = 0.
Proof.
  intros Him Hsz Hs Hcrc Ha Hv Hvl Hc. unfold devmgr_upgrade_start, UINT32_MAX,
    DEVMGR_PROTOCOL_MAX_PAYLOAD, DEVMGR_UPGRADE_VERSION_MAX in *. zreduce.
  pose proof (holds_string_bound _ _ Ha). rewrite (strlen_holds _ _ Ha). run_stmt. zreduce.
  match goal with |- context [memcpy ?a] => change a with ([] ++ zeros 32) end.
  rewrite memcpy_zeros by (simpl; lia). run_stmt.
  eexists. split; [done|]. simpl. rewrite (holds_string_slice _ _ Ha).
  split_and!; try done. split; [|done]. unfold upgrade_base, UINT32_MAX. simpl.
  split_and!; try done; try lia.
  rewrite <- (assoc_L (++)). f_equal. unfold zeros.
  replace (Z.to_nat (32 - len version)) with (S (Z.to_nat (32 - (len version + 1)))) by lia. done.
Qed.

(** An upgrade that was accepted is set up so. *)
Lemma upgrade_started u image crc array version chunk u' :
  Forall is_u8 image → holds_string array version → Forall (λ b, 0 < b < 256) version →
  is_u16 chunk → is_u32 crc →
  devmgr_upgrade_start u (Some image) (len image) crc array chunk = Some (DEVMGR_OK, u') →
  upgrade_ok image version u' ∧ upgrade_state u' = DEVMGR_UPGRADE_ENTER_BOOTLOADER ∧ image_crc u' = crc.
Proof.
  intros Hi Ha Hv Hc Hcrc E.
  assert (0 < len image ≤ UINT32_MAX ∧ 0 < chunk ≤ 4088 ∧ 1 ≤ len version ≤ 31) as (Hl & Hch & Hvl).
  { revert E. unfold devmgr_upgrade_start, is_u16, DEVMGR_PROTOCOL_MAX_PAYLOAD, DEVMGR_UPGRADE_VERSION_MAX in *.
    cbn [negb orb]. destruct (Z.eqb_spec (len image) 0); [done|]. destruct (Z.ltb_spec UINT32_MAX (len image)); [done|].
    destruct (Z.eqb_spec chunk 0); [done|]. destruct (Z.ltb_spec (4096 - 8) chunk); [done|]. cbn [orb].
    rewrite (strlen_holds _ _ Ha). cbn [mbind option_bind].
    destruct (Z.eqb_spec (len version) 0); [done|]. destruct (Z.ltb_spec 31 (len version)); [done|]. lia. }
  destruct (upgrade_start_ok u image (len image) crc array version chunk) as (u1 & E1 & Hu & Hst & Hcr & _);
    try done. rewrite E in E1. by injection E1 as <-.
Qed.

(** ** Exchanges

    One round of the daemon: build a request, then either the device's answer
    arrives or all repetitions went unanswered and recovery begins. *)

Inductive exchange_event := Answered (response : devmgr_frame) | Unanswered.

Definition event_ok (e : exchange_event) : Prop :=
  match e with Answered f => frame_ok f | Unanswered => True end.

Definition exchange (u : devmgr_upgrade) (e : exchange_event)
    : option (Z * devmgr_upgrade * devmgr_frame) :=
  '(result, u, request) ← devmgr_upgrade_build_request u;
  if negb (result =? DEVMGR_OK) then Some (result, u, request)
  else match e with
       | Answered f =>
           '(result, u) ← devmgr_upgrade_accept_response u request.(frame_type) f;
           Some (result, u, request)
       | Unanswered =>
           let '(result, u) := devmgr_upgrade_begin_recovery u in Some (result, u, request)
       end.

(** Rounds up to the first that fails, with the requests sent. *)
Fixpoint exchanges (u : devmgr_upgrade) (es : list exchange_event)
    : option (Z * devmgr_upgrade * list wire_frame) :=
  match es with
  | [] => Some (DEVMGR_OK, u, [])
  | e :: es =>
      '(result, u, request) ← exchange u e;
      if negb (result =? DEVMGR_OK) then Some (result, u, [view request])
      else '(result, u, requests) ← exchanges u es; Some (result, u, view request :: requests)
  end.

(** What one round does, on messages. *)
Definition round (image version : list Z) (u : devmgr_upgrade) (e : exchange_event)
    : Z * devmgr_upgrade * wire_frame :=
  match next_request image version u with
  | None => (DEVMGR_ERROR_STATE, u, view zero_frame)
  | Some (type, payload) =>
      (match e with
       | Answered f => answer (after_request image u) type (view f)
       | Unanswered => devmgr_upgrade_begin_recovery (after_request image u)
       end, mk_wire type DEVMGR_FRAME_ACK_REQUIRED 0 payload)
  end.

Lemma exchange_spec image version u e :
  upgrade_ok image version u → event_ok e →
  ∃ f, exchange u e = Some ((round image version u e).1, f) ∧
       view f = (round image version u e).2 ∧ upgrade_ok image version (round image version u e).1.2.
Proof.
  intros Hu He. unfold exchange, round. rewrite (build_request_spec image version) by done. run_stmt.
  pose proof (after_request_ok image version u Hu) as Hu1.
  destruct (next_request image version u) as [[type payload]|]; [|by eexists].
  cbn [negb Z.eqb DEVMGR_OK]. destruct e as [f|].
  - rewrite accept_response_spec by done. run_stmt. cbn [frame_type request_frame].
    pose proof (view_ok f He) as (_ & _ & _ & Hp & _).
    pose proof (answer_ok image version (after_request image u) type (view f) Hu1 Hp) as Hok.
    destruct (answer _ type (view f)) as [r u']. simpl in *.
    eexists. by rewrite view_request_frame.
  - pose proof (recovery_ok image version _ Hu1) as Hok.
    destruct (devmgr_upgrade_begin_recovery _) as [r u']. simpl in *.
    eexists. by rewrite view_request_frame.
Qed.

(** Rounds remaining: every answer moves one state on or one chunk further, and
    each of the three recoveries allows another pass over the image. *)
Definition phase (u : devmgr_upgrade) : Z :=
  match upgrade_state u with
  | DEVMGR_UPGRADE_ENTER_BOOTLOADER => image_size u + 8
  | DEVMGR_UPGRADE_BEGIN => image_size u + 7
  | DEVMGR_UPGRADE_RECOVER => image_size u + 6
  | DEVMGR_UPGRADE_TRANSFER => image_size u - offset u + 5
  | DEVMGR_UPGRADE_END => 4
  | DEVMGR_UPGRADE_VERIFY => 3
  | DEVMGR_UPGRADE_ACTIVATE => 2
  | DEVMGR_UPGRADE_REBOOT => 1
  | _ => 0
  end.

Definition rounds_left (u : devmgr_upgrade) : Z :=
  (3 - recovery_attempts u) * (image_size u + 8) + phase u.

Lemma rounds_left_nonneg image version u : upgrade_ok image version u → 0 ≤ rounds_left u.
Proof.
  intros [(? & ? & ? & ? & ? & ? & ? & ? & ? & ? & ? & ? & ?) Hst].
  unfold rounds_left, phase, state_ok in *. destruct (upgrade_state u); nia.
Qed.

Lemma resumed_phase u :
  offset u ≤ image_size u →
  phase (resumed u).2 = if offset u =? image_size u then 4 else image_size u - offset u + 5.
Proof. intros. unfold phase. simpl. by destruct (offset u =? image_size u). Qed.

(** An answer that is accepted. *)
Lemma answer_progress image version u rt w :
  upgrade_ok image version u → Forall is_u8 (w_payload w) →
  (upgrade_state u = DEVMGR_UPGRADE_TRANSFER → offset u < last_chunk_end u) →
  (answer u rt w).1 = DEVMGR_OK →
  image_size (answer u rt w).2 = image_size u ∧
  recovery_attempts (answer u rt w).2 = recovery_attempts u ∧
  phase (answer u rt w).2 < phase u.
Proof.
  intros [(_ & Hsz & _ & Hl & _ & _ & _ & _ & _ & _ & Hoff & _) Hst] Hw Hlast.
  pose proof (field_range _ 0 4 Hw ltac:(lia)) as F0. pose proof (field_range _ 4 4 Hw ltac:(lia)) as F4.
  unfold answer, state_ok in *. destruct (refused w); [done|].
  destruct (upgrade_state u) eqn:E; try done; try (case_match; [|done]).
  all: try (unfold advanced, phase; simpl; rewrite E; intros _; split_and!; lia).
  - set (u1 := u <| session_id := _ |> <| offset := _ |>).
    destruct (session_id u1 =? 0); cbn [orb]; [done|].
    destruct (Z.ltb_spec (image_size u1) (offset u1)); [done|]. intros _. split_and!; try done.
    rewrite resumed_phase by done. unfold phase, u1 in *. rewrite E. simpl in *. ztest; lia.
  - set (u1 := u <| offset := _ |>). destruct (Z.eqb_spec (offset u1) (last_chunk_end u1)); [|done].
    cbn [negb orb].
    destruct (Z.ltb_spec (image_size u1) (offset u1)); [done|]. intros _. split_and!; try done.
    specialize (Hlast eq_refl).
    rewrite resumed_phase by done. unfold phase, u1 in *. rewrite E. simpl in *. ztest; lia.
  - set (u1 := u <| offset := _ |>).
    destruct (Z.ltb_spec (image_size u1) (offset u1)); [done|]. intros _. split_and!; try done.
    rewrite resumed_phase by done. unfold phase, u1 in *. rewrite E. simpl in *. ztest; lia.
Qed.

Lemma after_request_facts image version u :
  upgrade_ok image version u →
  phase (after_request image u) = phase u ∧
  image_size (after_request image u) = image_size u ∧
  recovery_attempts (after_request image u) = recovery_attempts u ∧
  upgrade_state (after_request image u) = upgrade_state u ∧
  (upgrade_state u = DEVMGR_UPGRADE_TRANSFER →
   offset (after_request image u) = offset u ∧
   last_chunk_end (after_request image u) = offset u + len (next_chunk image u) ∧
   0 < len (next_chunk image u)).
Proof.
  intros [(_ & Hsz & _ & Hl & _ & _ & _ & _ & Hc & _ & Hoff & _) Hst].
  unfold after_request, phase, state_ok in *.
  destruct (upgrade_state u) eqn:E; simpl; rewrite ?E; try done.
  split_and!; try done. intros _. destruct Hst. split_and!; try done.
  unfold is_u32 in Hoff. rewrite next_chunk_facts by lia. lia.
Qed.

Lemma round_progress image version u e :
  upgrade_ok image version u → event_ok e →
  (round image version u e).1.1 = DEVMGR_OK →
  rounds_left (round image version u e).1.2 < rounds_left u.
Proof.
  intros Hu He. unfold round.
  destruct (next_request image version u) as [[type payload]|] eqn:En; [|done].
  pose proof (after_request_ok image version u Hu) as Hu1.
  destruct (after_request_facts image version u Hu) as (Hph & Hsz & Hrec & Hst & Htr).
  set (u1 := after_request image u) in *. unfold rounds_left. rewrite <- Hph, <- Hsz, <- Hrec.
  destruct e as [f|]; simpl.
  - intros Hok. pose proof (view_ok f He) as (_ & _ & _ & Hp & _).
    destruct (answer_progress image version u1 type (view f) Hu1 Hp) as (-> & -> & ?); [|done|lia].
    intros E. rewrite Hst in E. destruct (Htr E) as (-> & -> & ?). lia.
  - unfold devmgr_upgrade_begin_recovery. destruct (session_id u1 =? 0); [done|]. cbn [orb].
    destruct (negb _ && negb _) eqn:Es; [done|].
    destruct (Z.leb_spec 3 (recovery_attempts u1)); [done|]. intros _.
    destruct Hu1 as [(_ & Hsz1 & _ & Hl & _ & _ & _ & _ & _ & _ & Hoff & _ & Hr) Hok1].
    unfold state_ok, phase in *. simpl. rewrite u8_id by (unfold is_u8; lia).
    apply andb_false_iff in Es as [Es|Es]; apply negb_false_iff, bool_decide_eq_true in Es;
      rewrite Es in *; nia.
Qed.

Lemma exchanges_total image version u es :
  upgrade_ok image version u → Forall event_ok es →
  ∃ r u' ws, exchanges u es = Some (r, u', ws) ∧ upgrade_ok image version u' ∧
    (r = DEVMGR_OK → rounds_left u' + len es ≤ rounds_left u).
Proof.
  intros Hu Hes. revert u Hu. induction Hes as [|e es He Hes IH]; intros u Hu.
  { exists DEVMGR_OK, u, []. split_and!; try done. simpl. lia. }
  cbn [exchanges]. destruct (exchange_spec image version u e Hu He) as (f & -> & Hf & Hu1).
  run_stmt. pose proof (round_progress image version u e Hu He) as Hp.
  destruct (round image version u e) as [[r u1] w]. simpl in *.
  destruct (Z.eqb_spec r DEVMGR_OK) as [->|]; cbn [negb]; [|by do 3 eexists].
  destruct (IH u1 Hu1) as (r & u' & ws & -> & Hu' & Hr). run_stmt. do 3 eexists.
  split; [done|]. split; [done|]. intros Hok. specialize (Hr Hok). specialize (Hp eq_refl). lia.
Qed.

(** ** What is sent *)

(** The image bytes carried by the requests. *)
Definition transferred (ws : list wire_frame) : list Z :=
  concat (map (λ w, if w_type w =? DEVMGR_MSG_FW_DATA then drop 8 (w_payload w) else []) ws).

Definition is_answered (e : exchange_event) : bool :=
  match e with Answered _ => true | Unanswered => false end.

(** The transfer has begun and no recovery is under way. *)
Definition transferring (u : devmgr_upgrade) : bool :=
  match upgrade_state u with
  | DEVMGR_UPGRADE_TRANSFER | DEVMGR_UPGRADE_END | DEVMGR_UPGRADE_VERIFY
  | DEVMGR_UPGRADE_ACTIVATE | DEVMGR_UPGRADE_REBOOT | DEVMGR_UPGRADE_COMPLETE => true
  | _ => false
  end.

Lemma round_transfers image version u f :
  upgrade_ok image version u → event_ok (Answered f) → transferring u = true →
  let '(r, u', w) := round image version u (Answered f) in
  r = DEVMGR_OK →
  transferring u' = true ∧ offset u ≤ offset u' ∧
  transferred [w] = slice image (offset u) (offset u' - offset u).
Proof.
  intros Hu He Ht. destruct (after_request_facts image version u Hu) as (_ & Hsz1 & _ & Hst & Htr).
  pose proof Hu as [(_ & Hsz & _ & _ & _ & _ & _ & _ & Hc & _ & Hoff & _) Hok].
  unfold round, next_request, transferring, state_ok in *. unfold is_u32 in Hoff.
  destruct (upgrade_state u) eqn:E; try done.
  all: unfold answer; rewrite Hst; destruct (refused (view f)); [done|]; cbn [w_type].
  1:{ destruct (Htr eq_refl) as (Ho1 & Hl1 & Hpos).
      destruct (_ && _); [|done]. set (u1 := _ <| offset := _ |>).
      destruct (Z.eqb_spec (offset u1) (last_chunk_end u1)) as [Heq|]; [|done]. cbn [negb orb].
      destruct (image_size u1 <? offset u1); [done|]. unfold resumed. cbv beta iota. intros _.
      change (last_chunk_end u1) with (last_chunk_end (after_request image u)) in Heq.
      rewrite Hl1 in Heq. split; [cbn [upd upgrade_state]; by destruct (_ =? _)|].
      change (offset (u1 <| upgrade_state := _ |>)) with (offset u1). rewrite Heq.
      split; [lia|]. unfold transferred. cbn [map concat w_type w_payload]. rewrite app_nil_r.
      cbn [Z.eqb DEVMGR_MSG_FW_DATA]. rewrite (assoc_L (++)), drop_app_length'
        by (rewrite length_app, !length_le_bytes; done).
      pose proof (next_chunk_facts image u ltac:(lia) ltac:(lia)) as Hn.
      unfold next_chunk at 1. f_equal. lia. }
  all: assert (after_request image u = u) as -> by (unfold after_request; by rewrite E).
  all: match goal with |- context [if ?b then _ else _] => destruct b end; [|done].
  all: unfold advanced; intros _; split; [done|]; split; [simpl; lia|].
  all: change (offset (u <| upgrade_state := _ |>)) with (offset u).
  all: by rewrite Z.sub_diag, slice_nil.
Qed.

Lemma exchanges_transfer image version u es r u' ws :
  upgrade_ok image version u → Forall event_ok es → Forall (λ e, is_answered e = true) es →
  transferring u = true → exchanges u es = Some (r, u', ws) → r = DEVMGR_OK →
  transferring u' = true ∧ offset u ≤ offset u' ∧
  transferred ws = slice image (offset u) (offset u' - offset u).
Proof.
  intros Hu Hes Ha. revert u r u' ws Hu. induction Hes as [|e es He Hes IH];
    intros u r u' ws Hu Ht Hrun Hr; cbn [exchanges] in Hrun.
  { simplify_eq. split_and!; [done|lia|]. by rewrite Z.sub_diag, slice_nil. }
  apply Forall_cons in Ha as [Hae Ha]. destruct e as [f|]; [|done].
  destruct (exchange_spec image version u (Answered f) Hu He) as (g & E & Hg & Hu1).
  rewrite E, bind_ok in Hrun. pose proof (round_transfers image version u f Hu He Ht) as Hround.
  destruct (round image version u (Answered f)) as [[r1 u1] w]. simpl in *.
  destruct (Z.eqb_spec r1 DEVMGR_OK) as [->|Hne]; cbn [negb] in Hrun; [|by simplify_eq].
  destruct (Hround eq_refl) as (Ht1 & Ho1 & Hw). clear Hround.
  destruct (exchanges u1 es) as [[[r2 u2] ws2]|] eqn:E2; [|done]. simpl in Hrun. simplify_eq.
  destruct (IH Ha u1 DEVMGR_OK u' ws2 Hu1 Ht1 E2 eq_refl) as (Ht2 & Ho2 & Hws).
  split_and!; [done|lia|]. unfold transferred in *. cbn [map concat] in *.
  rewrite app_nil_r in Hw. rewrite Hw, Hws.
  destruct Hu as [(_ & _ & _ & _ & _ & _ & _ & _ & _ & _ & Hoff & _) _]. unfold is_u32 in Hoff.
  replace (offset u' - offset u) with ((offset u1 - offset u) + (offset u' - offset u1)) by lia.
  rewrite slice_split by lia. do 2 f_equal. lia.
Qed.

(** ** How a state is reached *)

(** An answer that is not a refusal. *)
Definition confirmed (e : exchange_event) (f : devmgr_frame) : Prop :=
  e = Answered f ∧ refused (view f) = false.

Lemma resumed_cases u :
  resumed u = (DEVMGR_OK, u <| upgrade_state := DEVMGR_UPGRADE_END |>) ∨
  resumed u = (DEVMGR_OK, u <| upgrade_state := DEVMGR_UPGRADE_TRANSFER |>).
Proof. unfold resumed. destruct (offset u =? image_size u); [by left|by right]. Qed.

Lemma round_pred image version u e :
  upgrade_ok image version u → event_ok e →
  let '(r, u', w) := round image version u e in
  r = DEVMGR_OK → image_crc u' = image_crc u ∧
  match upgrade_state u' with
  | DEVMGR_UPGRADE_VERIFY =>
      upgrade_state u = DEVMGR_UPGRADE_END ∧ w_type w = DEVMGR_MSG_FW_END ∧ ∃ f, confirmed e f
  | DEVMGR_UPGRADE_ACTIVATE =>
      upgrade_state u = DEVMGR_UPGRADE_VERIFY ∧ w_type w = DEVMGR_MSG_FW_VERIFY ∧
      ∃ f, confirmed e f ∧ w_payload (view f) = le_bytes 4 (image_crc u)
  | DEVMGR_UPGRADE_REBOOT =>
      upgrade_state u = DEVMGR_UPGRADE_ACTIVATE ∧ w_type w = DEVMGR_MSG_FW_ACTIVATE ∧
      ∃ f, confirmed e f
  | DEVMGR_UPGRADE_COMPLETE =>
      upgrade_state u = DEVMGR_UPGRADE_REBOOT ∧ w_type w = DEVMGR_MSG_REBOOT ∧
      ∃ f, confirmed e f
  | _ => True
  end.
Proof.
  intros Hu He. destruct (after_request_facts image version u Hu) as (_ & _ & _ & Hst & _).
  assert (image_crc (after_request image u) = image_crc u) as Hcrc
    by (unfold after_request; by destruct (upgrade_state u)).
  unfold round, next_request.
  destruct e as [f|].
  2:{ unfold devmgr_upgrade_begin_recovery. rewrite Hst.
      destruct (upgrade_state u); try done; repeat case_match; simplify_eq; done. }
  pose proof (view_ok f He) as (_ & _ & _ & Hp & _).
  unfold answer. rewrite Hst.
  destruct (upgrade_state u) eqn:E; try done; destruct (refused (view f)) eqn:Er; try done.
  all: repeat (match goal with |- context [if ?b then _ else _] => destruct b eqn:? end; try done).
  all: try (match goal with |- context [resumed ?x] => destruct (resumed_cases x) as [->| ->]; done end).
  all: intros _; (split; [done|]); cbn [upd upgrade_state]; try done.
  all: split; [done|]; split; [done|]; exists f; try done.
  split; [done|].
  apply andb_prop in Heqb as [[_ H4%Z.eqb_eq]%andb_prop Hc%Z.eqb_eq].
  rewrite <- Hcrc, <- Hc, le32_field by (done || lia). by rewrite <- H4, slice_all.
Qed.

Lemma exchanges_snoc image version u es e u' ws :
  upgrade_ok image version u → Forall event_ok (es ++ [e]) →
  exchanges u (es ++ [e]) = Some (DEVMGR_OK, u', ws) →
  ∃ u1 ws1 w, exchanges u es = Some (DEVMGR_OK, u1, ws1) ∧ upgrade_ok image version u1 ∧
    round image version u1 e = (DEVMGR_OK, u', w) ∧ ws = ws1 ++ [w].
Proof.
  intros Hu [Hes [He _]%Forall_cons]%Forall_app. revert u u' ws Hu.
  induction Hes as [|e0 es He0 Hes IH]; intros u u' ws Hu; cbn [exchanges app].
  - destruct (exchange_spec image version u e Hu He) as (f & -> & Hf & Hu1). run_stmt.
    destruct (round image version u e) as [[r u1] w] eqn:R. simpl in *.
    destruct (Z.eqb_spec r DEVMGR_OK) as [->|]; cbn [negb]; intros; simplify_eq.
    by exists u, [], (view f).
  - destruct (exchange_spec image version u e0 Hu He0) as (f & -> & Hf & Hu1). run_stmt.
    destruct (round image version u e0) as [[r u1] w]. simpl in *.
    destruct (Z.eqb_spec r DEVMGR_OK) as [->|]; cbn [negb]; [|intros; by simplify_eq].
    destruct (exchanges u1 (es ++ [e])) as [[[r2 u2] ws2]|] eqn:E2; [|done]. simpl. intros. simplify_eq.
    destruct (IH u1 u' ws2 Hu1 E2) as (v & ws1 & w & -> & Hv & Hr & ->).
    exists v, (view f :: ws1), w. by split_and!.
Qed.

(** The steps after the transfer, each with the state and request before it. *)
Definition final_steps : list (devmgr_upgrade_state * devmgr_upgrade_state * Z) :=
  [(DEVMGR_UPGRADE_COMPLETE, DEVMGR_UPGRADE_REBOOT, DEVMGR_MSG_REBOOT);
   (DEVMGR_UPGRADE_REBOOT, DEVMGR_UPGRADE_ACTIVATE, DEVMGR_MSG_FW_ACTIVATE);
   (DEVMGR_UPGRADE_ACTIVATE, DEVMGR_UPGRADE_VERIFY, DEVMGR_MSG_FW_VERIFY);
   (DEVMGR_UPGRADE_VERIFY, DEVMGR_UPGRADE_END, DEVMGR_MSG_FW_END)].

Lemma last_step image version u es u' ws st type :
  upgrade_ok image version u → upgrade_state u = DEVMGR_UPGRADE_ENTER_BOOTLOADER →
  Forall event_ok es → exchanges u es = Some (DEVMGR_OK, u', ws) →
  (upgrade_state u', st, type) ∈ final_steps →
  ∃ es1 f u1 ws1 w, es = es1 ++ [Answered f] ∧ Forall event_ok es1 ∧
    exchanges u es1 = Some (DEVMGR_OK, u1, ws1) ∧ upgrade_ok image version u1 ∧
    upgrade_state u1 = st ∧ image_crc u' = image_crc u1 ∧ ws = ws1 ++ [w] ∧ w_type w = type ∧
    refused (view f) = false ∧
    (st = DEVMGR_UPGRADE_VERIFY → w_payload (view f) = le_bytes 4 (image_crc u1)).
Proof.
  intros Hu Hst Hes Hx Hin. destruct es as [|e es _] using rev_ind.
  { simpl in Hx. simplify_eq. rewrite Hst in Hin. set_solver. }
  destruct (exchanges_snoc image version u es e u' ws Hu Hes Hx) as (u1 & ws1 & w & X & Hu1 & R & ->).
  apply Forall_app in Hes as [Hes [He _]%Forall_cons].
  pose proof (round_pred image version u1 e Hu1 He) as P. rewrite R in P.
  destruct (P eq_refl) as [Hcrc Hpred]. unfold final_steps in Hin.
  rewrite !elem_of_cons in Hin.
  destruct Hin as [H|[H|[H|[H|H]]]]; [..|set_solver]; injection H as E -> ->; rewrite E in Hpred;
    destruct Hpred as (S & T & f & Hf); exists es, f, u1, ws1, w; unfold confirmed in *;
    naive_solver.
Qed.

(** ** Properties *)

(** C18: whatever the device answers, an upgrade stays well-formed, accesses
    nothing outside the image and the frames, and ends: of any sequence of
    4 * size + 32 rounds, with arbitrary answers or none, some round fails or
    the upgrade is over before. *)
Theorem upgrade_terminates image crc version es u0 :
  Forall is_u8 image → 0 < len image ≤ UINT32_MAX → is_u32 crc →
  Forall (λ b, 0 < b < 256) version → 1 ≤ len version ≤ 31 → Forall event_ok es →
  ∃ u, devmgr_upgrade_start u0 (Some image) (len image) crc (version ++ [0])
         DEVMGR_UPGRADE_DEFAULT_CHUNK = Some (DEVMGR_OK, u) ∧
  ∃ r u' ws, exchanges u es = Some (r, u', ws) ∧ upgrade_ok image version u' ∧
    (4 * len image + 32 < len es → r ≠ DEVMGR_OK).
Proof.
  intros Him Hl Hcrc Hv Hvl Hes.
  assert (holds_string (version ++ [0]) version) as Ha.
  { exists []. split; [done|]. eapply Forall_impl; [exact Hv|simpl; lia]. }
  destruct (upgrade_start_ok u0 image (len image) crc _ version DEVMGR_UPGRADE_DEFAULT_CHUNK
    Him eq_refl Hl Hcrc Ha Hv Hvl ltac:(done)) as (u & E & Hu & Hst & _ & Hrec).
  exists u. split; [done|].
  destruct (exchanges_total image version u es Hu Hes) as (r & u' & ws & Hx & Hu' & Hr).
  exists r, u', ws. split_and!; [done..|]. intros Hlong Hok. specialize (Hr Hok).
  pose proof (rounds_left_nonneg image version u' Hu').
  assert (rounds_left u = 4 * len image + 32); [|lia].
  destruct Hu as [(_ & Hsz & _) _]. unfold rounds_left, phase. rewrite Hst, Hrec, Hsz. lia.
Qed.

(** C20: the host sends the image, in order and without gaps: when every
    request of a transfer that starts at some offset is answered and accepted,
    the data requests carry exactly the image bytes from that offset to the
    acknowledged one, which is the end of the image once the transfer is over. *)
Theorem upgrade_sends_image image version u es u' ws :
  upgrade_ok image version u → Forall event_ok es → Forall (λ e, is_answered e = true) es →
  transferring u = true → exchanges u es = Some (DEVMGR_OK, u', ws) →
  transferred ws = slice image (offset u) (offset u' - offset u) ∧
  (upgrade_state u' ≠ DEVMGR_UPGRADE_TRANSFER →
   transferred ws = drop (Z.to_nat (offset u)) image).
Proof.
  intros Hu Hes Ha Ht Hx.
  destruct (exchanges_transfer image version u es _ u' ws Hu Hes Ha Ht Hx eq_refl) as (Ht' & Ho & Hws).
  split; [done|]. intros Hne. rewrite Hws.
  destruct (exchanges_total image version u es Hu Hes) as (? & ? & ? & E & [_ Hok] & _).
  rewrite E in Hx. simplify_eq. assert (offset u' = len image) as ->.
  { unfold state_ok, transferring in *. destruct (upgrade_state u'); try done; by destruct Hok. }
  unfold slice. apply firstn_all2. rewrite length_drop. lia.
Qed.

(** C19: an upgrade is reported complete only with the device's word for every
    step: the last four rounds are the end, verify, activate and reboot
    requests, each answered without a refusal, the verify answer carries the
    CRC of the image, and before them the whole image was acknowledged. *)
Theorem upgrade_complete_confirmed image version u es u' ws :
  upgrade_ok image version u → upgrade_state u = DEVMGR_UPGRADE_ENTER_BOOTLOADER →
  Forall event_ok es → exchanges u es = Some (DEVMGR_OK, u', ws) →
  upgrade_state u' = DEVMGR_UPGRADE_COMPLETE →
  ∃ es0 u1 ws0 end_ verify activate reboot,
    exchanges u es0 = Some (DEVMGR_OK, u1, ws0) ∧ offset u1 = len image ∧
    es = es0 ++ [Answered end_; Answered verify; Answered activate; Answered reboot] ∧
    Forall (λ f, refused (view f) = false) [end_; verify; activate; reboot] ∧
    w_payload (view verify) = le_bytes 4 (image_crc u1) ∧
    map w_type (drop (length ws0) ws) =
      [DEVMGR_MSG_FW_END; DEVMGR_MSG_FW_VERIFY; DEVMGR_MSG_FW_ACTIVATE; DEVMGR_MSG_REBOOT].
Proof.
  intros Hu Hst0 Hes Hx Hst.
  destruct (last_step image version u es u' ws DEVMGR_UPGRADE_REBOOT DEVMGR_MSG_REBOOT)
    as (es4 & f4 & u4 & ws4 & w4 & -> & H4 & X4 & _ & S4 & _ & -> & T4 & N4 & _); try done.
  { rewrite Hst. unfold final_steps. set_solver. }
  destruct (last_step image version u es4 u4 ws4 DEVMGR_UPGRADE_ACTIVATE DEVMGR_MSG_FW_ACTIVATE)
    as (es3 & f3 & u3 & ws3 & w3 & -> & H3 & X3 & _ & S3 & _ & -> & T3 & N3 & _); try done.
  { rewrite S4. unfold final_steps. set_solver. }
  destruct (last_step image version u es3 u3 ws3 DEVMGR_UPGRADE_VERIFY DEVMGR_MSG_FW_VERIFY)
    as (es2 & f2 & u2 & ws2 & w2 & -> & H2 & X2 & _ & S2 & _ & -> & T2 & N2 & Hcrc); try done.
  { rewrite S3. unfold final_steps. set_solver. }
  destruct (last_step image version u es2 u2 ws2 DEVMGR_UPGRADE_END DEVMGR_MSG_FW_END)
    as (es1 & f1 & u1 & ws1 & w1 & -> & _ & X1 & [_ Hok] & S1 & C1 & -> & T1 & N1 & _); try done.
  { rewrite S2. unfold final_steps. set_solver. }
  exists es1, u1, ws1, f1, f2, f3, f4. split_and!; try done.
  - unfold state_ok in Hok. rewrite S1 in Hok. apply Hok.
  - by rewrite <- !(assoc_L (++)).
  - by rewrite !Forall_cons.
  - by rewrite Hcrc, C1.
  - rewrite <- !(assoc_L (++)), drop_app_length. simpl. by rewrite T1, T2, T3, T4.
Qed.

(** *** Instances *)

Definition small_image : list Z := [7; 8; 9].

Definition small_version : list Z := [50].

Lemma small_image_Forall : Forall is_u8 small_image.
Proof. by repeat constructor. Qed.

Lemma small_version_Forall : Forall (λ b, 0 < b < 256) small_version.
Proof. by repeat constructor. Qed.

Definition small_crc : Z := Eval vm_compute in crc_of small_image.

Definition small_crc_bytes : list Z := Eval vm_compute in le_bytes 4 small_crc.

(** A reply of the device. *)
Definition reply (type : Z) (payload : list Z) : devmgr_frame :=
  request_frame type DEVMGR_FRAME_RESPONSE 0 payload.

Lemma reply_ok type payload :
  is_u8 type → Forall is_u8 payload → len payload ≤ DEVMGR_PROTOCOL_MAX_PAYLOAD →
  event_ok (Answered (reply type payload)).
Proof. intros. by apply request_frame_ok. Qed.

Definition small_session : list exchange_event :=
  [Answered (reply DEVMGR_MSG_ENTER_BOOTLOADER []);
   Answered (reply DEVMGR_MSG_FW_BEGIN [1; 0; 0; 0; 0; 0; 0; 0]);
   Unanswered;
   Answered (reply DEVMGR_MSG_FW_STATUS [1; 0; 0; 0; 0; 0; 0; 0]);
   Answered (reply DEVMGR_MSG_FW_DATA [3; 0; 0; 0]);
   Answered (reply DEVMGR_MSG_FW_END []);
   Answered (reply DEVMGR_MSG_FW_VERIFY small_crc_bytes);
   Answered (reply DEVMGR_MSG_FW_ACTIVATE []);
   Answered (reply DEVMGR_MSG_REBOOT [])].

Lemma small_session_ok : Forall event_ok small_session.
Proof.
  unfold small_session. rewrite !Forall_cons.
  split_and!; try exact I; try (by constructor); apply reply_ok; by repeat constructor.
Qed.

Definition small_start : devmgr_upgrade :=
  mk_upgrade DEVMGR_UPGRADE_ENTER_BOOTLOADER (Some small_image) 3 small_crc
             ([50] ++ zeros 31) 0 0 0 DEVMGR_UPGRADE_DEFAULT_CHUNK 0 0.

Lemma small_start_ok : upgrade_ok small_image small_version small_start.
Proof.
  split; [|done]. repeat (split; [first [done | apply small_image_Forall | apply small_version_Forall]|]).
  done.
Qed.

(** More rounds than an upgrade of three bytes can have. *)
Definition long_session : list exchange_event := concat (replicate 8 small_session).

Lemma long_session_ok : Forall event_ok long_session.
Proof. apply Forall_concat, Forall_replicate, small_session_ok. Qed.

Lemma upgrade_terminates_witness :
  ∃ u, devmgr_upgrade_start devmgr_upgrade_init (Some small_image) (len small_image) 0
         (small_version ++ [0]) DEVMGR_UPGRADE_DEFAULT_CHUNK = Some (DEVMGR_OK, u) ∧
  ∃ r u' ws, exchanges u long_session = Some (r, u', ws) ∧ r ≠ DEVMGR_OK.
Proof.
  destruct (upgrade_terminates small_image 0 small_version long_session devmgr_upgrade_init)
    as (u & E & r & u' & ws & Ex & _ & Hr);
    [apply small_image_Forall|done|done|apply small_version_Forall|done|apply long_session_ok|].
  exists u. split; [exact E|]. exists r, u', ws. split; [exact Ex|]. by apply Hr.
Defined.

Definition small_transfer : devmgr_upgrade :=
  small_start <| upgrade_state := DEVMGR_UPGRADE_TRANSFER |> <| session_id := 1 |>.

Definition small_acks : list exchange_event :=
  [Answered (reply DEVMGR_MSG_FW_DATA [3; 0; 0; 0]); Answered (reply DEVMGR_MSG_FW_END [])].

Lemma small_acks_ok : Forall event_ok small_acks.
Proof.
  unfold small_acks. rewrite !Forall_cons.
  split_and!; try (by constructor); apply reply_ok; by repeat constructor.
Qed.

Lemma small_transfer_ok : upgrade_ok small_image small_version small_transfer.
Proof. split; [|done]. exact (retarget_ok small_image small_version small_start 1 0 (proj1 small_start_ok)
    ltac:(done) ltac:(done)). Qed.

Lemma small_transfer_run :
  ∃ u' ws, exchanges small_transfer small_acks = Some (DEVMGR_OK, u', ws) ∧
    upgrade_state u' = DEVMGR_UPGRADE_VERIFY.
Proof. do 2 eexists. split; [vm_compute; reflexivity|done]. Qed.

Lemma upgrade_sends_image_witness :
  ∃ u' ws, exchanges small_transfer small_acks = Some (DEVMGR_OK, u', ws) ∧
    transferred ws = slice small_image (offset small_transfer) (offset u' - offset small_transfer) ∧
    (upgrade_state u' ≠ DEVMGR_UPGRADE_TRANSFER →
     transferred ws = drop (Z.to_nat (offset small_transfer)) small_image).
Proof.
  destruct small_transfer_run as (u' & ws & E & _). exists u', ws. split; [exact E|].
  apply (upgrade_sends_image small_image small_version small_transfer small_acks u' ws
    small_transfer_ok small_acks_ok); [by repeat constructor|done|exact E].
Defined.

(** C21: an upgrade stays well formed.  From a well-formed upgrade of an image, whatever
    its state, building a request, taking any frame as the response to any request and
    starting a recovery all return, leave a well-formed upgrade of the same image, and
    the request that is built is a well-formed frame. *)
Theorem upgrade_well_formed image version u request_type response :
  upgrade_ok image version u → frame_ok response →
  (∃ status u' request,
     devmgr_upgrade_build_request u = Some (status, u', request) ∧
     upgrade_ok image version u' ∧ frame_ok request) ∧
  (∃ status u',
     devmgr_upgrade_accept_response u request_type response = Some (status, u') ∧
     upgrade_ok image version u') ∧
  (∃ status u',
     devmgr_upgrade_begin_recovery u = (status, u') ∧ upgrade_ok image version u').
Proof.
  intros Hu Hf. split; [|split].
  - rewrite (build_request_spec image version) by done.
    destruct (next_request image version u) as [[type payload]|] eqn:E.
    + do 3 eexists. split; [done|]. split; [by apply after_request_ok|]. destruct (request_payload_ok _ _ _ _ _ Hu E) as (? & ? & ?). by apply request_frame_ok.
    + do 3 eexists. split; [done|]. split; [done|]. apply zero_frame_ok.
  - rewrite accept_response_spec by done. pose proof (answer_ok image version u request_type (view response) Hu).
    destruct (answer u request_type (view response)) as [status u']. do 2 eexists. split; [done|].
    apply H. apply view_ok, Hf.
  - pose proof (recovery_ok image version u Hu). destruct (devmgr_upgrade_begin_recovery u). eauto.
Qed.

Lemma upgrade_well_formed_witness :
  (∃ status u' request,
     devmgr_upgrade_build_request small_start = Some (status, u', request) ∧
     upgrade_ok small_image small_version u' ∧ frame_ok request) ∧
  (∃ status u',
     devmgr_upgrade_accept_response small_start DEVMGR_MSG_ENTER_BOOTLOADER sample_frame = Some (status, u') ∧
     upgrade_ok small_image small_version u') ∧
  (∃ status u',
     devmgr_upgrade_begin_recovery small_start = (status, u') ∧ upgrade_ok small_image small_version u').
Proof.
  apply (upgrade_well_formed small_image small_version small_start DEVMGR_MSG_ENTER_BOOTLOADER sample_frame).
  - apply small_start_ok.
  - apply sample_frame_ok.
Defined.

Lemma small_session_run :
  ∃ u' ws, exchanges small_start small_session = Some (DEVMGR_OK, u', ws) ∧
    upgrade_state u' = DEVMGR_UPGRADE_COMPLETE.
Proof. do 2 eexists. split; [vm_compute; reflexivity|done]. Qed.

Lemma upgrade_complete_confirmed_witness :
  ∃ ws es0 u1 ws0 end_ verify activate reboot,
    exchanges small_start es0 = Some (DEVMGR_OK, u1, ws0) ∧ offset u1 = len small_image ∧
    small_session =
      es0 ++ [Answered end_; Answered verify; Answered activate; Answered reboot] ∧
    Forall (λ f, refused (view f) = false) [end_; verify; activate; reboot] ∧
    w_payload (view verify) = le_bytes 4 (image_crc u1) ∧
    map w_type (drop (length ws0) ws) =
      [DEVMGR_MSG_FW_END; DEVMGR_MSG_FW_VERIFY; DEVMGR_MSG_FW_ACTIVATE; DEVMGR_MSG_REBOOT].
Proof.
  destruct small_session_run as (u' & ws & E & Hst). exists ws.
  exact (upgrade_complete_confirmed small_image small_version small_start small_session u' ws
    small_start_ok eq_refl small_session_ok E Hst).
Defined.
