(* ===== verification/Driver.v ===== *)
(** * What the host promises to a device

    The daemon seen from the line: one request at a time, numbered, sent and
    perhaps repeated until it is answered or given up, and an upgrade that is
    driven by the answers.  [Daemon] is shown to behave like this whatever else
    it does; [System] reasons about upgrades from nothing more. *)

From S2P Require Import Prelude Crc32 Frame Session Upgrade.

(** The request that waits for its answer, the number of the next one, and the
    upgrade. *)
Record driver := mk_driver {
  dr_pending : option wire_frame;
  dr_next : Z;
  dr_upgrade : devmgr_upgrade;
}.

(** A request without its flags: repetitions differ in the retry flag only. *)
Definition strip (w : wire_frame) : wire_frame :=
  mk_wire (w_type w) 0 (w_sequence w) (w_payload w).

(** The states in which an upgrade talks to the device. *)
Definition upgrade_running (u : devmgr_upgrade) : bool :=
  match upgrade_state u with
  | DEVMGR_UPGRADE_ENTER_BOOTLOADER | DEVMGR_UPGRADE_BEGIN | DEVMGR_UPGRADE_TRANSFER
  | DEVMGR_UPGRADE_RECOVER | DEVMGR_UPGRADE_END | DEVMGR_UPGRADE_VERIFY
  | DEVMGR_UPGRADE_ACTIVATE | DEVMGR_UPGRADE_REBOOT => true
  | _ => false
  end.

(** An upgrade that ended otherwise than by its last answer. *)
Definition given_up (u u' : devmgr_upgrade) : Prop :=
  upgrade_running u' = false ∧ (upgrade_state u' = DEVMGR_UPGRADE_COMPLETE → u' = u).

(** A request is begun, a frame goes out, a response completes the request. *)
Inductive label := Begin (q : wire_frame) | Emit (w : wire_frame) | Recv (w : wire_frame).

Definition begins (l : label) : option wire_frame := match l with Begin q => Some q | _ => None end.
Definition emits (l : label) : option wire_frame := match l with Emit w => Some w | _ => None end.
Definition receives (l : label) : option wire_frame := match l with Recv w => Some w | _ => None end.

(** The steps call the upgrade's own code: the next request is what
    devmgr_upgrade_build_request builds, an answer is taken by
    devmgr_upgrade_accept_response.  The session numbers the request it begins
    and clears its flags here. *)
Inductive driver_step (d : driver) : list label → driver → Prop :=
  | driver_other type payload :
      dr_pending d = None → upgrade_running (dr_upgrade d) = false →
      is_u8 type → Forall is_u8 payload → len payload ≤ DEVMGR_PROTOCOL_MAX_PAYLOAD →
      driver_step d [Begin (mk_wire type 0 (dr_next d) payload)]
        (mk_driver (Some (mk_wire type 0 (dr_next d) payload)) (succ_sequence (dr_next d))
           (dr_upgrade d))
  | driver_build image version u f :
      upgrade_ok image version (dr_upgrade d) →
      devmgr_upgrade_build_request (dr_upgrade d) = Some (DEVMGR_OK, u, f) →
      driver_step d [] (mk_driver (dr_pending d) (dr_next d) u)
  | driver_begin image version u f q :
      dr_pending d = None → upgrade_ok image version (dr_upgrade d) →
      devmgr_upgrade_build_request (dr_upgrade d) = Some (DEVMGR_OK, u, f) →
      q = strip (view (f <| frame_sequence := dr_next d |>)) →
      driver_step d [Begin q] (mk_driver (Some q) (succ_sequence (dr_next d)) (dr_upgrade d))
  | driver_emit w :
      dr_pending d = Some (strip w) → wire_ok w →
      driver_step d [Emit w] d
  | driver_drop :
      driver_step d [] (mk_driver None (dr_next d) (dr_upgrade d))
  | driver_recv request f status u :
      dr_pending d = Some request → frame_ok f → frame_sequence f = w_sequence request →
      (if upgrade_running (dr_upgrade d) then
         devmgr_upgrade_accept_response (dr_upgrade d) (w_type request) f = Some (status, u)
       else u = dr_upgrade d) →
      driver_step d [Recv (view f)] (mk_driver None (dr_next d) u)
  | driver_recover :
      upgrade_running (dr_upgrade d) = true →
      driver_step d []
        (mk_driver (dr_pending d) (dr_next d) (devmgr_upgrade_begin_recovery (dr_upgrade d)).2)
  | driver_start image array version chunk u :
      upgrade_running (dr_upgrade d) = false → Forall is_u8 image →
      holds_string array version → Forall (λ b, 0 < b < 256) version → is_u16 chunk →
      devmgr_upgrade_start (dr_upgrade d) (Some image) (len image) (crc_of image) array chunk =
        Some (DEVMGR_OK, u) →
      driver_step d [] (mk_driver (dr_pending d) (dr_next d) u)
  | driver_give_up u :
      given_up (dr_upgrade d) u →
      driver_step d [] (mk_driver (dr_pending d) (dr_next d) u).

(** Several steps, with all they show. *)
Inductive driver_run : driver → list label → driver → Prop :=
  | run_done d : driver_run d [] d
  | run_step d ls d' ls' d'' :
      driver_step d ls d' → driver_run d' ls' d'' → driver_run d (ls ++ ls') d''.

Lemma run_one d ls d' : driver_step d ls d' → driver_run d ls d'.
Proof. intros H. rewrite <- (app_nil_r ls). by eapply run_step; [|constructor]. Qed.

Lemma run_app d ls d' ls' d'' :
  driver_run d ls d' → driver_run d' ls' d'' → driver_run d (ls ++ ls') d''.
Proof.
  induction 1 as [|d ls1 d1 ls2 d2 Hs _ IH]; [done|]. intros H.
  rewrite <- (assoc_L (++)). eapply run_step; [done|by apply IH].
Qed.

(** ** What the steps amount to *)

(** The same steps by what the upgrade's code was shown to do. *)
Inductive driver_law (d : driver) : list label → driver → Prop :=
  | law_other type payload :
      dr_pending d = None → upgrade_running (dr_upgrade d) = false →
      is_u8 type → Forall is_u8 payload → len payload ≤ DEVMGR_PROTOCOL_MAX_PAYLOAD →
      driver_law d [Begin (mk_wire type 0 (dr_next d) payload)]
        (mk_driver (Some (mk_wire type 0 (dr_next d) payload)) (succ_sequence (dr_next d))
           (dr_upgrade d))
  | law_build image version :
      upgrade_ok image version (dr_upgrade d) → upgrade_running (dr_upgrade d) = true →
      driver_law d []
        (mk_driver (dr_pending d) (dr_next d) (after_request image (dr_upgrade d)))
  | law_begin image version type payload :
      dr_pending d = None → upgrade_ok image version (dr_upgrade d) →
      next_request image version (dr_upgrade d) = Some (type, payload) →
      driver_law d [Begin (mk_wire type 0 (dr_next d) payload)]
        (mk_driver (Some (mk_wire type 0 (dr_next d) payload)) (succ_sequence (dr_next d))
           (dr_upgrade d))
  | law_emit w :
      dr_pending d = Some (strip w) → wire_ok w →
      driver_law d [Emit w] d
  | law_drop :
      driver_law d [] (mk_driver None (dr_next d) (dr_upgrade d))
  | law_recv request w :
      dr_pending d = Some request → w_sequence w = w_sequence request → wire_ok w →
      driver_law d [Recv w]
        (mk_driver None (dr_next d)
           (if upgrade_running (dr_upgrade d) then (answer (dr_upgrade d) (w_type request) w).2
            else dr_upgrade d))
  | law_recover :
      upgrade_running (dr_upgrade d) = true →
      driver_law d []
        (mk_driver (dr_pending d) (dr_next d) (devmgr_upgrade_begin_recovery (dr_upgrade d)).2)
  | law_start image version u :
      upgrade_running (dr_upgrade d) = false →
      upgrade_ok image version u → upgrade_state u = DEVMGR_UPGRADE_ENTER_BOOTLOADER →
      image_crc u = crc_of image →
      driver_law d [] (mk_driver (dr_pending d) (dr_next d) u)
  | law_give_up u :
      given_up (dr_upgrade d) u →
      driver_law d [] (mk_driver (dr_pending d) (dr_next d) u).

Lemma upgrade_running_next image version u :
  upgrade_running u = true → ∃ type payload, next_request image version u = Some (type, payload).
Proof. unfold upgrade_running, next_request. destruct (upgrade_state u); try done; eauto. Qed.

Lemma driver_builds d image version :
  upgrade_ok image version (dr_upgrade d) → upgrade_running (dr_upgrade d) = true →
  driver_step d [] (mk_driver (dr_pending d) (dr_next d) (after_request image (dr_upgrade d))).
Proof.
  intros Hu Hr. destruct (upgrade_running_next image version _ Hr) as (type & payload & En).
  eapply driver_build; [done|]. by rewrite (build_request_spec image version), En.
Qed.

Lemma driver_begins d image version type payload :
  dr_pending d = None → upgrade_ok image version (dr_upgrade d) →
  next_request image version (dr_upgrade d) = Some (type, payload) →
  driver_step d [Begin (mk_wire type 0 (dr_next d) payload)]
    (mk_driver (Some (mk_wire type 0 (dr_next d) payload)) (succ_sequence (dr_next d)) (dr_upgrade d)).
Proof.
  intros Hp Hu En. eapply driver_begin; [done..|by rewrite (build_request_spec image version), En|].
  unfold strip, view, request_frame. cbn -[slice]. by rewrite slice_prefix.
Qed.

Lemma driver_recvs d request f :
  dr_pending d = Some request → frame_ok f → frame_sequence f = w_sequence request →
  driver_step d [Recv (view f)]
    (mk_driver None (dr_next d)
       (if upgrade_running (dr_upgrade d) then (answer (dr_upgrade d) (w_type request) (view f)).2
        else dr_upgrade d)).
Proof.
  intros Hp Hf Hs. apply (driver_recv d request f (answer (dr_upgrade d) (w_type request) (view f)).1); [done..|].
  destruct (upgrade_running (dr_upgrade d)); [|done]. rewrite accept_response_spec by done.
  by destruct (answer _ _ _).
Qed.

Lemma driver_step_law d ls d' : driver_step d ls d' → driver_law d ls d'.
Proof.
  destruct 1 as [type payload|image version u f Hu E|image version u f q Hp Hu E ->|w| |request f status u Hp Hf Hs E| |
    image array version chunk u Hr Hi Ha Hv Hc E|u].
  - by apply law_other.
  - rewrite (build_request_spec image version) in E by done.
    destruct (next_request image version (dr_upgrade d)) as [[type payload]|] eqn:En; [|done].
    injection E as <- <-. apply (law_build d image version); [done|].
    unfold next_request in En. unfold upgrade_running. by destruct (upgrade_state (dr_upgrade d)).
  - rewrite (build_request_spec image version) in E by done.
    destruct (next_request image version (dr_upgrade d)) as [[type payload]|] eqn:En; [|done].
    injection E as <- <-.
    replace (strip _) with (mk_wire type 0 (dr_next d) payload); [by eapply law_begin|].
    unfold strip, view, request_frame. cbn -[slice]. by rewrite slice_prefix.
  - by apply law_emit.
  - apply law_drop.
  - replace u with (if upgrade_running (dr_upgrade d) then (answer (dr_upgrade d) (w_type request) (view f)).2
                    else dr_upgrade d).
    { apply law_recv; [done..|by apply view_ok]. }
    destruct (upgrade_running (dr_upgrade d)); [|done].
    rewrite accept_response_spec in E by done. by injection E as ->.
  - by apply law_recover.
  - destruct (upgrade_started _ _ _ _ _ _ _ Hi Ha Hv Hc (crc_of_u32 _ Hi) E) as (Hu & Hst & Hcr). by eapply law_start.
  - by apply law_give_up.
Qed.
