(* ===== verification/Os.v ===== *)
(** * System calls

    The program talks to the kernel through calls whose outcome it cannot
    predict.  An outcome is a value; a definition that makes calls takes the
    outcomes it will meet as a list, its script, and returns what is left of
    it.  Running out of script is [None], like running out of fuel. *)

From S2P Require Import Prelude.

(** The values of errno the program distinguishes; EWOULDBLOCK is EAGAIN. *)
Inductive errno := EINTR | EAGAIN | EIO | EOTHER.

#[export] Instance errno_eq_dec : EqDecision errno.
Proof. solve_decision. Defined.

(** [write]: the bytes the kernel has room for, or -1. *)
Inductive write_outcome := Wrote (n : Z) | WriteError (e : errno).

(** A write of [offered] bytes takes no more than that. *)
Definition taken (n offered : Z) : Z := Z.min n offered.

(** [read]: the bytes that are there (none at the end of the file), or -1. *)
Inductive read_outcome := Read (bytes : list Z) | ReadError (e : errno).

(** A read into [room] bytes delivers no more than that. *)
Definition delivered (bytes : list Z) (room : Z) : list Z := take (Z.to_nat room) bytes.

(** [open] and the calls like it: a new descriptor, or -1. *)
Inductive open_outcome := Opened (fd : Z) | OpenError (e : errno).

(** The loop [do fd = open(...); while (fd < 0 && errno == EINTR)]: the
    descriptor, or [None] for a failure. *)
Fixpoint open_retry (script : list open_outcome) : option (option Z) :=
  match script with
  | [] => None
  | Opened fd :: _ => Some (Some fd)
  | OpenError EINTR :: script => open_retry script
  | OpenError _ :: _ => Some None
  end.

Lemma open_retry_nonneg script fd :
  Forall (λ o, match o with Opened fd => 0 ≤ fd | OpenError _ => True end) script →
  open_retry script = Some (Some fd) → 0 ≤ fd.
Proof.
  induction 1 as [|o script Ho _ IH]; [done|]. destruct o as [n|[]]; simpl; try done.
  by intros [= <-].
Qed.

(** Scripts that end: at last a call finds nothing to do, or fails. *)
Definition read_ends (o : read_outcome) : bool :=
  match o with
  | Read bytes => bool_decide (bytes = [])
  | ReadError e => bool_decide (e ≠ EINTR)
  end.

Definition write_ends (o : write_outcome) : bool :=
  match o with
  | Wrote n => n <=? 0
  | WriteError e => bool_decide (e ≠ EINTR)
  end.

Definition open_ends (o : open_outcome) : bool :=
  match o with
  | Opened _ => false
  | OpenError e => bool_decide (e ≠ EINTR)
  end.

Definition read_ok (o : read_outcome) : Prop :=
  match o with Read bytes => Forall is_u8 bytes | ReadError _ => True end.

(** ** Resources

    What a process holds and has to give back.  Definitions that acquire or
    release log it; [held] replays a log, and is [None] if something is given
    back that is not held, such as a descriptor closed twice. *)

Inductive resource := Fd (fd : Z) | Mapping (size : Z) | Mutex | Condition.

#[export] Instance resource_eq_dec : EqDecision resource.
Proof. solve_decision. Defined.

Inductive os_event := Acquired (r : resource) | Released (r : resource).

Fixpoint give_back (r : resource) (rs : list resource) : option (list resource) :=
  match rs with
  | [] => None
  | x :: rs => if decide (x = r) then Some rs else cons x <$> give_back r rs
  end.

Fixpoint held (log : list os_event) (rs : list resource) : option (list resource) :=
  match log with
  | [] => Some rs
  | Acquired r :: log => held log (r :: rs)
  | Released r :: log => rs ← give_back r rs; held log rs
  end.

Lemma held_app log1 log2 rs : held (log1 ++ log2) rs = (rs' ← held log1 rs; held log2 rs').
Proof.
  revert rs. induction log1 as [|[r|r] log1 IH]; intros rs; simpl; [done|apply IH|].
  destruct (give_back r rs); simpl; [apply IH|done].
Qed.

Lemma give_back_head (r : resource) rs : give_back r (r :: rs) = Some rs.
Proof. simpl. by rewrite decide_True. Qed.

Lemma give_back_Permutation r rs rs' : give_back r rs = Some rs' → rs ≡ₚ r :: rs'.
Proof.
  revert rs'. induction rs as [|x rs IH]; intros rs' H; [done|]. cbn [give_back] in H.
  case_decide as Hx; [by simplify_eq|]. apply fmap_Some in H as (rs1 & H & ->).
  rewrite (IH rs1 H). apply Permutation_swap.
Qed.

Lemma give_back_elem r rs : r ∈ rs → ∃ rs', give_back r rs = Some rs'.
Proof.
  induction rs as [|x rs IH]; [by intros ?%not_elem_of_nil|].
  intros [->|H]%elem_of_cons; cbn [give_back]; case_decide; eauto; [done|].
  destruct (IH H) as [rs' ->]. eauto.
Qed.

(** What a process holds, whatever the order it was acquired in. *)
Definition holds (log : list os_event) (rs : list resource) : Prop :=
  ∃ rs', held log [] = Some rs' ∧ rs' ≡ₚ rs.

Lemma holds_perm log rs rs' : holds log rs → rs ≡ₚ rs' → holds log rs'.
Proof. intros (l & E & H) H'. exists l. split; [done|]. by rewrite H. Qed.

Lemma holds_acquired log r rs : holds log rs → holds (log ++ [Acquired r]) (r :: rs).
Proof. intros (l & E & H). exists (r :: l). rewrite held_app, E. simpl. split; [done|]. by rewrite H. Qed.

Lemma holds_released log r rs : holds log (r :: rs) → holds (log ++ [Released r]) rs.
Proof.
  intros (l & E & H). destruct (give_back_elem r l) as [l' El]; [rewrite H; left|].
  exists l'. rewrite held_app, E. simpl. rewrite El. split; [done|].
  apply give_back_Permutation in El. apply (Permutation_cons_inv (a := r)). by rewrite <- El.
Qed.

Lemma holds_nil : holds [] [].
Proof. by exists []. Qed.

Lemma holds_open_close r : holds [Acquired r; Released r] [].
Proof. apply (holds_released [Acquired r] r). exists [r]. done. Qed.

(** Two parts of a run that each give back what they take. *)
Lemma holds_app log log' : holds log [] → holds log' [] → holds (log ++ log') [].
Proof.
  intros (l & E & ->%Permutation_nil_r) (l' & E' & ->%Permutation_nil_r). exists [].
  by rewrite held_app, E.
Qed.
