(* ===== verification/Log.v ===== *)
(** * Log messages: src/common/log.c

    The level is a global variable, passed here explicitly.  What the C library
    makes of the clock and of the format is an argument: [local] is the text of
    the time, if there is one, and [message] the formatted message, [None] for a
    format that is NULL.  A call gives the line that goes to stderr, if any. *)

From S2P Require Import Prelude.

Definition DEVMGR_LOG_ERROR : Z := 0.
Definition DEVMGR_LOG_WARN : Z := 1.
Definition DEVMGR_LOG_INFO : Z := 2.
Definition DEVMGR_LOG_DEBUG : Z := 3.
Definition DEVMGR_LOG_TRACE : Z := 4.

(** The level a process starts with. *)
Definition current_level : Z := DEVMGR_LOG_INFO.

Definition devmgr_log_set_level (current level : Z) : Z :=
  if (DEVMGR_LOG_ERROR <=? level) && (level <=? DEVMGR_LOG_TRACE) then level else current.

Definition devmgr_log_get_level (current : Z) : Z := current.

Definition level_names : list string := ["ERROR"; "WARN"; "INFO"; "DEBUG"; "TRACE"]%string.

(** [%-5s] *)
Definition pad5 (s : list Z) : list Z := s ++ replicate (5 - length s) 32.

Definition devmgr_log_vwrite (current level : Z) (component message : option (list Z))
    (local : option (list Z)) : option (option (list Z)) :=
  match message with
  | Some message =>
      if (devmgr_log_get_level current <? level) || (level <? DEVMGR_LOG_ERROR) ||
         (DEVMGR_LOG_TRACE <? level) then Some None
      else
      let timestamp := default (chars "unknown-time") local in
      name ← level_names !! Z.to_nat level;
      Some (Some (timestamp ++ [32] ++ pad5 (chars name) ++ chars " [" ++
                  default (chars "core") component ++ chars "] " ++ message ++ [10]))
  | None => Some None
  end.

(** The variable arguments are already part of [message]. *)
Definition devmgr_log_write (current level : Z) (component message local : option (list Z)) :
    option (option (list Z)) :=
  devmgr_log_vwrite current level component message local.

(** ** What is written *)

Definition level_ok (level : Z) : Prop := DEVMGR_LOG_ERROR ≤ level ≤ DEVMGR_LOG_TRACE.

#[export] Instance level_ok_dec level : Decision (level_ok level).
Proof. unfold level_ok. apply _. Defined.

(** The level in force after a sequence of calls that set it. *)
Definition level_after (levels : list Z) : Z := foldl devmgr_log_set_level current_level levels.

Lemma set_level_spec current level :
  devmgr_log_set_level current level = if decide (level_ok level) then level else current.
Proof.
  unfold devmgr_log_set_level, level_ok, DEVMGR_LOG_ERROR, DEVMGR_LOG_TRACE.
  destruct (Z.leb_spec 0 level), (Z.leb_spec level 4); case_decide; (done || lia).
Qed.

Lemma level_after_ok levels : level_ok (level_after levels).
Proof.
  unfold level_after. assert (level_ok current_level) as H by done. revert H. generalize current_level.
  induction levels as [|l ls IH]; intros c H; [done|]. apply IH. rewrite set_level_spec. by case_decide.
Qed.

(** A message is written exactly when it has a level that exists and that does
    not exceed the one set last; levels that do not exist are never set, and the
    table of names is never left. *)
Theorem log_filters levels level component message local :
  ∃ line, devmgr_log_write (level_after levels) level component message local = Some line ∧
    (is_Some line ↔ is_Some message ∧ 0 ≤ level ≤ level_after levels).
Proof.
  pose proof (level_after_ok levels) as Hc. set (c := level_after levels) in *.
  unfold level_ok, DEVMGR_LOG_ERROR, DEVMGR_LOG_TRACE in Hc.
  unfold devmgr_log_write, devmgr_log_vwrite, devmgr_log_get_level, DEVMGR_LOG_ERROR, DEVMGR_LOG_TRACE.
  destruct message as [m|]; [|by eexists; split; [|split; intros []; done]].
  destruct (Z.ltb_spec c level), (Z.ltb_spec level 0), (Z.ltb_spec 4 level); cbn [orb];
    try (eexists; split; [done|]; split; [by intros []|intros [_ ?]; lia]).
  destruct (lookup_lt_is_Some_2 level_names (Z.to_nat level)) as [name ->]; [cbn; lia|].
  eexists. split; [done|]. split; intros; [split; [done|lia]|done].
Qed.
