(* ===== verification/Cli.v ===== *)
(** * Command lines: what the programs under apps/ use of the C library, and the
    entry point of the daemon, apps/devmgrd/main.c

    An argument is its characters, without the terminator.  [getopt_long] is the
    whole scan of the arguments: the options in the order in which the calls
    return them, and the operands left behind the last option, as the GNU library
    permutes them. *)

From S2P Require Import Prelude.

(** ** Numbers *)

Definition is_space (c : Z) : bool := (c =? 32) || ((9 <=? c) && (c <=? 13)).
Definition is_digit (c : Z) : bool := (48 <=? c) && (c <=? 57).

Fixpoint skip (p : Z → bool) (s : list Z) : list Z :=
  match s with c :: s' => if p c then skip p s' else s | [] => [] end.

(** The value of the digits at the start, and what follows them. *)
Fixpoint digits (s : list Z) (value : Z) : Z * list Z :=
  match s with
  | c :: s' => if is_digit c then digits s' (10 * value + (c - 48)) else (value, s)
  | [] => (value, [])
  end.

(** The sign, the value and the rest; [None] if there is no number. *)
Definition scan_number (s : list Z) : option (bool * Z * list Z) :=
  let s := skip is_space s in
  let '(negative, s) := match s with
                        | c :: s' => if c =? 45 then (true, s') else if c =? 43 then (false, s') else (false, s)
                        | [] => (false, s)
                        end in
  match s with
  | c :: _ => if is_digit c then let '(v, rest) := digits s 0 in Some (negative, v, rest) else None
  | [] => None
  end.

Definition ULONG_MAX : Z := UINT64_MAX.
Definition LONG_MAX : Z := 9223372036854775807.
Definition LONG_MIN : Z := -9223372036854775808.

(** [strtoul(s, &end, 10)]: the value and the characters from [end] on. *)
Definition strtoul (s : list Z) : Z * list Z :=
  match scan_number s with
  | None => (0, s)
  | Some (negative, v, rest) =>
      (if ULONG_MAX <? v then ULONG_MAX else if negative then u64 (- v) else v, rest)
  end.

(** [strtol(s, &end, 10)] *)
Definition strtol (s : list Z) : Z * list Z :=
  match scan_number s with
  | None => (0, s)
  | Some (negative, v, rest) =>
      (Z.max LONG_MIN (Z.min LONG_MAX (if negative then - v else v)), rest)
  end.

(** [%lu], for a number of at most [fuel] digits. *)
Fixpoint decimal (fuel : nat) (n : Z) : list Z :=
  match fuel with
  | O => []
  | S fuel => if n <? 10 then [48 + n] else decimal fuel (n / 10) ++ [48 + n mod 10]
  end.

Definition decimal_u64 (n : Z) : list Z := decimal 20 n.

(** ** Options *)

Record cli_option := mk_option { opt_name : list Z; opt_argument : bool; opt_value : Z }.

(** What a call returns: the option and its argument, or '?'. *)
Inductive opt_result := Opt (value : Z) (argument : option (list Z)) | BadOption.

(** The option a short letter stands for. *)
Definition short_option (table : list cli_option) (c : Z) : option cli_option :=
  List.find (λ o, opt_value o =? c) table.

Definition is_prefix (p s : list Z) : bool := bool_decide (take (length p) s = p).

(** The option a long name or a unique abbreviation stands for. *)
Definition long_option (table : list cli_option) (name : list Z) : option cli_option :=
  match List.find (λ o, bool_decide (opt_name o = name)) table with
  | Some o => Some o
  | None => match List.filter (λ o, is_prefix name (opt_name o)) table with [o] => Some o | _ => None end
  end.

(** [name=value] *)
Fixpoint split_equal (s : list Z) : list Z * option (list Z) :=
  match s with
  | [] => ([], None)
  | c :: s' => if c =? 61 then ([], Some s') else let '(n, v) := split_equal s' in (c :: n, v)
  end.

(** The letters of one argument: the results, and the option that takes the next
    argument. *)
Fixpoint short_cluster (table : list cli_option) (letters : list Z) : list opt_result * option Z :=
  match letters with
  | [] => ([], None)
  | c :: letters =>
      match short_option table c with
      | None => let '(r, next) := short_cluster table letters in (BadOption :: r, next)
      | Some o =>
          if opt_argument o then
            match letters with [] => ([], Some (opt_value o)) | _ => ([Opt (opt_value o) (Some letters)], None) end
          else let '(r, next) := short_cluster table letters in (Opt (opt_value o) None :: r, next)
      end
  end.

(** A long option: its result, or the option that takes the next argument. *)
Definition long_argument (table : list cli_option) (text : list Z) : opt_result + Z :=
  let '(name, value) := split_equal text in
  match long_option table name, value with
  | None, _ => inl BadOption
  | Some o, Some v => inl (if opt_argument o then Opt (opt_value o) (Some v) else BadOption)
  | Some o, None => if opt_argument o then inr (opt_value o) else inl (Opt (opt_value o) None)
  end.

(** The results of one argument that is an option, and the option that takes the
    next argument. *)
Definition option_argument (table : list cli_option) (arg : list Z) : list opt_result * option Z :=
  match arg with
  | _ :: c :: text =>
      if c =? 45 then
        match long_argument table text with inl r => ([r], None) | inr v => ([], Some v) end
      else short_cluster table (c :: text)
  | _ => ([], None)
  end.

(** An operand does not start with a dash, or is a dash alone. *)
Definition is_operand (arg : list Z) : bool :=
  match arg with c :: _ :: _ => negb (c =? 45) | _ => true end.

Fixpoint getopt_long (table : list cli_option) (args : list (list Z))
    : list opt_result * list (list Z) :=
  match args with
  | [] => ([], [])
  | arg :: args =>
      if bool_decide (arg = [45; 45]) then ([], args)
      else if is_operand arg then let '(r, operands) := getopt_long table args in (r, arg :: operands)
      else
        let '(r, next) := option_argument table arg in
        match next, args with
        | None, _ => let '(r', operands) := getopt_long table args in (r ++ r', operands)
        | Some v, [] => (r ++ [BadOption], [])
        | Some v, a :: args =>
            let '(r', operands) := getopt_long table args in (r ++ Opt v (Some a) :: r', operands)
        end
  end.

(** ** The daemon's command line *)

(** [snprintf(default_socket, 128, "/tmp/devmgrd-%lu.sock", getuid())]; the text
    is shorter than 128 characters. *)
Definition default_socket (uid : Z) : list Z := chars "/tmp/devmgrd-" ++ decimal_u64 uid ++ chars ".sock".

Definition devmgrd_options : list cli_option :=
  [mk_option (chars "device") true 100; mk_option (chars "socket") true 115;
   mk_option (chars "help") false 104].

(** The loop over the options: the device and the socket, or the exit status. *)
Fixpoint devmgrd_scan (results : list opt_result) (device : option (list Z)) (socket : list Z)
    : option (list Z) * list Z + Z :=
  match results with
  | [] => inl (device, socket)
  | Opt 100 (Some arg) :: results => devmgrd_scan results (Some arg) socket
  | Opt 115 (Some arg) :: results => devmgrd_scan results device arg
  | Opt 104 _ :: _ => inr 0
  | _ :: _ => inr 2
  end.

(** [main] up to the call of [devmgr_daemon_run]: its configuration, or the exit
    status after the usage message. *)
Definition devmgrd_main (args : list (list Z)) (uid : Z) : list Z * list Z + Z :=
  let '(results, operands) := getopt_long devmgrd_options args in
  match devmgrd_scan results None (default_socket uid) with
  | inr status => inr status
  | inl (Some device, socket) => match operands with [] => inl (device, socket) | _ => inr 2 end
  | inl (None, _) => inr 2
  end.

Definition devmgrd_exit (result : Z) : Z := if result =? 0 then 0 else 1.

(** ** Numbers read back *)

Lemma digits_decimal fuel n rest v :
  0 ≤ n < 10 ^ Z.of_nat fuel → (fuel ≠ 0)%nat →
  digits (decimal fuel n ++ rest) v = digits rest (10 ^ len (decimal fuel n) * v + n).
Proof.
  revert n rest v. induction fuel as [|fuel IH]; intros n rest v Hn Hf; [done|]. cbn [decimal].
  rewrite Nat2Z.inj_succ, Z.pow_succ_r in Hn by lia. destruct (Z.ltb_spec n 10).
  - cbn [app digits length]. unfold is_digit. zreduce. f_equal. lia.
  - rewrite <- (assoc_L (++)). destruct fuel as [|fuel]; [cbn in Hn; lia|].
    rewrite IH by mlia. cbn [app digits]. unfold is_digit.
    pose proof (Z.mod_pos_bound n 10 ltac:(lia)). zreduce.
    rewrite length_app, Nat2Z.inj_add. cbn [length]. rewrite Z.pow_add_r by lia.
    change (10 ^ Z.of_nat 1) with 10. f_equal. mlia.
Qed.

Lemma decimal_head fuel n : 0 ≤ n → (fuel ≠ 0)%nat → ∃ c s, decimal fuel n = c :: s ∧ is_digit c = true.
Proof.
  revert n. induction fuel as [|fuel IH]; intros n Hn Hf; [done|]. cbn [decimal].
  destruct (Z.ltb_spec n 10).
  - eexists _, []. split; [done|]. unfold is_digit. by zreduce.
  - destruct fuel as [|fuel].
    + eexists _, []. split; [done|]. unfold is_digit. pose proof (Z.mod_pos_bound n 10 ltac:(lia)). by zreduce.
    + destruct (IH (n / 10) ltac:(mlia) ltac:(done)) as (c & s & -> & Hc). by eexists _, _.
Qed.

Lemma digits_rest s v : match s with c :: _ => is_digit c = false | [] => True end → digits s v = (v, s).
Proof. destruct s as [|c s]; cbn; [done|]. by intros ->. Qed.

Lemma scan_decimal (negative : bool) n rest :
  is_u64 n → match rest with c :: _ => is_digit c = false | [] => True end →
  scan_number ((if negative then [45] else []) ++ decimal_u64 n ++ rest) = Some (negative, n, rest).
Proof.
  intros Hn Hr. unfold is_u64, decimal_u64 in *.
  destruct (decimal_head 20 n ltac:(lia) ltac:(done)) as (c & s & Ed & Hc).
  assert (digits (decimal 20 n ++ rest) 0 = (n, rest)) as Hd.
  { rewrite digits_decimal by (done || (change (10 ^ Z.of_nat 20) with 100000000000000000000; lia)).
    rewrite Z.mul_0_r. by apply digits_rest. }
  unfold scan_number. rewrite Ed in *. cbn [app] in *. destruct negative; cbn [app skip].
  - change (is_space 45) with false. cbv iota zeta. change (45 =? 45) with true. cbv iota zeta.
    by rewrite Hc, Hd.
  - pose proof Hc as Hc'. unfold is_digit in Hc'. apply andb_prop in Hc' as [H1%Z.leb_le H2%Z.leb_le].
    unfold is_space. zreduce. by rewrite Hc, Hd.
Qed.

(** A number that fits is read as it is written. *)
Theorem strtoul_decimal n rest :
  is_u64 n → match rest with c :: _ => is_digit c = false | [] => True end →
  strtoul (decimal_u64 n ++ rest) = (n, rest).
Proof.
  intros Hn Hr. pose proof (scan_decimal false n rest Hn Hr) as E. cbn [app] in E. unfold strtoul. rewrite E.
  unfold is_u64, ULONG_MAX, UINT64_MAX in *. by zreduce.
Qed.

(** [%ld] *)
Definition signed_decimal (n : Z) : list Z :=
  if n <? 0 then 45 :: decimal_u64 (- n) else decimal_u64 n.

Theorem strtol_decimal n rest :
  LONG_MIN ≤ n ≤ LONG_MAX → match rest with c :: _ => is_digit c = false | [] => True end →
  strtol (signed_decimal n ++ rest) = (n, rest).
Proof.
  unfold LONG_MIN, LONG_MAX. intros Hn Hr. unfold strtol, signed_decimal, LONG_MIN, LONG_MAX.
  destruct (Z.ltb_spec n 0).
  - pose proof (scan_decimal true (- n) rest ltac:(unfold is_u64; lia) Hr) as E. cbn [app] in *.
    rewrite E. f_equal. lia.
  - pose proof (scan_decimal false n rest ltac:(unfold is_u64; lia) Hr) as E. cbn [app] in *.
    rewrite E. f_equal. lia.
Qed.

Lemma decimal_not_nil n : 0 ≤ n → decimal_u64 n ≠ [].
Proof. intros Hn. destruct (decimal_head 20 n Hn) as (c & s & E & _); [done|]. unfold decimal_u64. by rewrite E. Qed.

Lemma signed_decimal_not_nil n : signed_decimal n ≠ [].
Proof. unfold signed_decimal. destruct (Z.ltb_spec n 0); [done|]. by apply decimal_not_nil. Qed.

(** ** Options read back *)

(** The four ways to write an option that takes an argument, and the two ways to
    write one that does not. *)
Inductive spelling := LongSpace | LongEqual | ShortSpace | ShortJoined.

Definition render (how : spelling) (o : cli_option) (argument : option (list Z)) : list (list Z) :=
  match how, argument with
  | LongSpace, Some a => [chars "--" ++ opt_name o; a]
  | LongEqual, Some a => [chars "--" ++ opt_name o ++ [61] ++ a]
  | ShortSpace, Some a => [[45; opt_value o]; a]
  | ShortJoined, Some a => [45 :: opt_value o :: a]
  | LongSpace, None | LongEqual, None => [chars "--" ++ opt_name o]
  | _, None => [[45; opt_value o]]
  end.

(** The options of a table that can be told apart. *)
Definition table_ok (table : list cli_option) : Prop :=
  NoDup (map opt_name table) ∧ NoDup (map opt_value table) ∧
  Forall (λ o, opt_name o ≠ [] ∧ opt_value o ≠ 45 ∧ Forall (λ c, c ≠ 61) (opt_name o)) table.

Lemma find_named {A} (f : A → bool) (l : list A) x :
  x ∈ l → f x = true → (∀ y, y ∈ l → f y = true → y = x) → List.find f l = Some x.
Proof.
  induction l as [|y l IH]; intros Hx Hf Hu; [by apply elem_of_nil in Hx|]. cbn.
  destruct (f y) eqn:E; [f_equal; apply Hu; [by left|done]|].
  apply IH; [|done|intros z Hz; apply Hu; by right]. apply elem_of_cons in Hx as [->|]; [congruence|done].
Qed.

Lemma NoDup_map_inj {A B} (f : A → B) (l : list A) x y :
  NoDup (map f l) → x ∈ l → y ∈ l → f x = f y → x = y.
Proof.
  induction l as [|z l IH]; cbn; [by intros _ ?%elem_of_nil|].
  intros [Hn Hl]%NoDup_cons [->|Hx]%elem_of_cons [->|Hy]%elem_of_cons E; [done|..|by apply IH].
  - destruct Hn. rewrite E. by apply list_elem_of_fmap_2.
  - destruct Hn. rewrite <- E. by apply list_elem_of_fmap_2.
Qed.

Section Render.
Context (table : list cli_option) (Ht : table_ok table).

Lemma short_option_of o : o ∈ table → short_option table (opt_value o) = Some o.
Proof.
  intros Ho. apply find_named; [done|by apply Z.eqb_refl|]. intros y Hy E%Z.eqb_eq.
  by apply (NoDup_map_inj opt_value table); [apply Ht|..].
Qed.

Lemma long_option_of o : o ∈ table → long_option table (opt_name o) = Some o.
Proof.
  intros Ho. unfold long_option. rewrite (find_named _ table o); [done..|by apply bool_decide_eq_true|].
  intros y Hy E%bool_decide_eq_true. by apply (NoDup_map_inj opt_name table); [apply Ht|..].
Qed.

Lemma split_equal_name name rest :
  Forall (λ c, c ≠ 61) name → split_equal (name ++ 61 :: rest) = (name, Some rest) ∧
  split_equal name = (name, None).
Proof.
  induction 1 as [|c name Hc _ [IH1 IH2]]; [done|]. cbn. rewrite (proj2 (Z.eqb_neq _ _) Hc), IH1, IH2. done.
Qed.

Lemma getopt_alone c text args r :
  45 :: c :: text ≠ [45; 45] → option_argument table (45 :: c :: text) = (r, None) →
  getopt_long table ((45 :: c :: text) :: args) =
    let '(r', operands) := getopt_long table args in (r ++ r', operands).
Proof. intros Hn E. cbn [getopt_long]. rewrite bool_decide_false by done. by rewrite E. Qed.

Lemma getopt_next c text a args v :
  45 :: c :: text ≠ [45; 45] → option_argument table (45 :: c :: text) = ([], Some v) →
  getopt_long table ((45 :: c :: text) :: a :: args) =
    let '(r', operands) := getopt_long table args in (Opt v (Some a) :: r', operands).
Proof. intros Hn E. cbn [getopt_long]. rewrite bool_decide_false by done. by rewrite E. Qed.

(** One option in any spelling, followed by anything. *)
Lemma getopt_option how o argument args :
  o ∈ table → is_Some argument ↔ opt_argument o = true → (how = ShortJoined → argument ≠ Some []) →
  getopt_long table (render how o argument ++ args) =
    let '(r, operands) := getopt_long table args in (Opt (opt_value o) argument :: r, operands).
Proof.
  intros Ho Ha Hj. destruct Ht as (_ & _ & Hok). rewrite Forall_forall in Hok. destruct (Hok o Ho) as (Hne & Hv & Heq).
  destruct (split_equal_name (opt_name o) (default [] argument) Heq) as [E1 E2].
  pose proof (long_option_of o Ho) as El. pose proof (short_option_of o Ho) as Es.
  destruct argument as [a|];
    [assert (opt_argument o = true) as Eo by naive_solver
    |assert (opt_argument o = false) as Eo by (destruct (opt_argument o); naive_solver)];
    destruct how; unfold render; cbn [app] in *; change (chars "--") with [45; 45]; cbn [app default] in *.
  all: first [apply getopt_next | eapply (getopt_alone _ _ _ [_])];
    [intros [=]; first [congruence | by destruct (opt_name o)]|].
  all: cbn [option_argument]; rewrite ?Z.eqb_refl, ?(proj2 (Z.eqb_neq _ _) Hv).
  all: unfold long_argument; cbn [short_cluster id] in *; rewrite ?E1, ?E2, ?El, ?Es, ?Eo; try done.
  unfold id in *. by destruct a; [destruct Hj|].
Qed.

(** A command line is read as it was written: options in any spelling, then
    operands. *)
Theorem getopt_render (opts : list (spelling * cli_option * option (list Z))) operands :
  Forall (λ '(how, o, a), o ∈ table ∧ (is_Some a ↔ opt_argument o = true) ∧
                          (how = ShortJoined → a ≠ Some [])) opts →
  Forall is_operand operands →
  getopt_long table (concat (map (λ '(how, o, a), render how o a) opts) ++ operands) =
    (map (λ '(_, o, a), Opt (opt_value o) a) opts, operands).
Proof.
  intros Hs Hop. induction Hs as [|[[how o] a] opts (Ho & Ha & Hj) _ IH]; cbn [map concat].
  - cbn [app]. induction Hop as [|x l Hx _ IH]; [done|]. cbn [getopt_long].
    rewrite bool_decide_false by (intros ->; done). apply Is_true_true in Hx. by rewrite Hx, IH.
  - rewrite <- (assoc_L (++)), getopt_option by done. by rewrite IH.
Qed.
End Render.

Lemma devmgrd_options_ok : table_ok devmgrd_options.
Proof.
  split; [|split]; [by apply (bool_decide_unpack _); vm_compute..|].
  repeat constructor; cbn; try done; by repeat constructor.
Qed.

(** The daemon starts with the device and the socket it is given, in any spelling
    of the options, and with the socket of the user if none is given. *)
Theorem devmgrd_command_line how how' device socket uid :
  device ≠ [] → socket ≠ [] →
  let dev := render how (mk_option (chars "device") true 100) (Some device) in
  let sock := render how' (mk_option (chars "socket") true 115) (Some socket) in
  devmgrd_main (dev ++ sock) uid = inl (device, socket) ∧
  devmgrd_main (sock ++ dev) uid = inl (device, socket) ∧
  devmgrd_main dev uid = inl (device, default_socket uid) ∧ devmgrd_main sock uid = inr 2.
Proof.
  intros Hd Hs dev sock.
  pose proof (getopt_option devmgrd_options devmgrd_options_ok how (mk_option (chars "device") true 100) (Some device)) as E1.
  pose proof (getopt_option devmgrd_options devmgrd_options_ok how' (mk_option (chars "socket") true 115) (Some socket)) as E2.
  assert (∀ args, getopt_long devmgrd_options (dev ++ args) =
    let '(r, l) := getopt_long devmgrd_options args in (Opt 100 (Some device) :: r, l)) as F1.
  { intros args. apply E1; [by left|done|]. intros _ [=]. done. }
  assert (∀ args, getopt_long devmgrd_options (sock ++ args) =
    let '(r, l) := getopt_long devmgrd_options args in (Opt 115 (Some socket) :: r, l)) as F2.
  { intros args. apply E2; [by right; left|done|]. intros _ [=]. done. }
  unfold devmgrd_main. rewrite <- (app_nil_r sock) at 1 3. rewrite <- (app_nil_r dev) at 2 3.
  rewrite F1, !F2, !F1. done.
Qed.

(** Operands are arguments. *)
Lemma getopt_operands table args x : x ∈ (getopt_long table args).2 → x ∈ args.
Proof.
  induction args as [args IH] using (induction_ltof1 _ length); unfold ltof in IH.
  destruct args as [|arg args]; [done|]. cbn [getopt_long].
  case_bool_decide; [by right|]. destruct (is_operand arg).
  - pose proof (IH args) as IH1. destruct (getopt_long table args) as [r l]. cbn in *.
    intros [->|?]%elem_of_cons; [by left|right; apply IH1; [lia|done]].
  - destruct (option_argument table arg) as [r [v|]].
    + destruct args as [|a args]; [by intros ?%elem_of_nil|]. pose proof (IH args) as IH1.
      destruct (getopt_long table args) as [r' l]. cbn in *. intros. do 2 right. apply IH1; [lia|done].
    + pose proof (IH args) as IH1. destruct (getopt_long table args) as [r' l]. cbn in *.
      intros. right. apply IH1; [lia|done].
Qed.
