(* ===== verification/Transport.v ===== *)
(** * Serial transport and pseudo-terminals: include/devmgr/transport.h,
    src/transport/serial.c, include/devmgr/pty.h and src/transport/pty.c

    Opening a line and configuring it, the calls that repeat themselves when a
    signal interrupts them, and closing.  [termios] has the bits of Linux. *)

From S2P Require Import Prelude Os.

(** ** struct termios *)

Definition IGNBRK : Z := 0x1.
Definition BRKINT : Z := 0x2.
Definition PARMRK : Z := 0x8.
Definition ISTRIP : Z := 0x20.
Definition INLCR : Z := 0x40.
Definition IGNCR : Z := 0x80.
Definition ICRNL : Z := 0x100.
Definition IXON : Z := 0x400.
Definition IXANY : Z := 0x800.
Definition IXOFF : Z := 0x1000.
Definition OPOST : Z := 0x1.
Definition CSIZE : Z := 0x30.
Definition CS8 : Z := 0x30.
Definition CSTOPB : Z := 0x40.
Definition CREAD : Z := 0x80.
Definition PARENB : Z := 0x100.
Definition CLOCAL : Z := 0x800.
Definition CRTSCTS : Z := 0x80000000.
Definition ISIG : Z := 0x1.
Definition ICANON : Z := 0x2.
Definition ECHO : Z := 0x8.
Definition ECHONL : Z := 0x40.
Definition IEXTEN : Z := 0x8000.

Definition B9600 : Z := 13.
Definition B19200 : Z := 14.
Definition B38400 : Z := 15.
Definition B57600 : Z := 4097.
Definition B115200 : Z := 4098.

(** The speeds are kept beside the flags. *)
Record termios := mk_termios {
  c_iflag : Z;
  c_oflag : Z;
  c_cflag : Z;
  c_lflag : Z;
  c_vmin : Z;
  c_vtime : Z;
  c_ispeed : Z;
  c_ospeed : Z;
}.

#[export] Instance eta_termios : Eta termios := λ t,
  mk_termios (c_iflag t) (c_oflag t) (c_cflag t) (c_lflag t) (c_vmin t) (c_vtime t)
    (c_ispeed t) (c_ospeed t).

(** Flags set and cleared in a word. *)
Definition with_bits (flags bits : Z) : Z := Z.lor flags bits.
Definition without_bits (flags bits : Z) : Z := Z.ldiff flags bits.

Definition any_of (bits : list Z) : Z := foldr Z.lor 0 bits.

(** As in the C library. *)
Definition cfmakeraw (t : termios) : termios :=
  t <| c_iflag := without_bits (c_iflag t)
                    (any_of [IGNBRK; BRKINT; PARMRK; ISTRIP; INLCR; IGNCR; ICRNL; IXON]) |>
    <| c_oflag := without_bits (c_oflag t) OPOST |>
    <| c_lflag := without_bits (c_lflag t) (any_of [ECHO; ECHONL; ICANON; ISIG; IEXTEN]) |>
    <| c_cflag := with_bits (without_bits (c_cflag t) (any_of [CSIZE; PARENB])) CS8 |>
    <| c_vmin := 1 |> <| c_vtime := 0 |>.

(** ** The code *)

Inductive devmgr_transport_kind := DEVMGR_TRANSPORT_SERIAL | DEVMGR_TRANSPORT_PTY.

(** [config_path] is [None] for a NULL pointer; the path itself goes to open only. *)
Record devmgr_transport_config := mk_transport_config {
  config_kind : devmgr_transport_kind;
  config_path : option (list Z);
  baud_rate : Z;
  hardware_flow_control : bool;
}.

Record devmgr_transport := mk_transport {
  transport_fd : Z;
  transport_kind : devmgr_transport_kind;
}.

#[export] Instance eta_transport : Eta devmgr_transport := λ t,
  mk_transport (transport_fd t) (transport_kind t).

Definition baud_to_speed (baud speed : Z) : Z * Z :=
  if baud =? 9600 then (DEVMGR_OK, B9600)
  else if baud =? 19200 then (DEVMGR_OK, B19200)
  else if baud =? 38400 then (DEVMGR_OK, B38400)
  else if baud =? 57600 then (DEVMGR_OK, B57600)
  else if baud =? 115200 then (DEVMGR_OK, B115200)
  else (DEVMGR_ERROR_INVALID, speed).

(** What opening a line meets: open, tcgetattr, and whether cfsetispeed,
    cfsetospeed and tcsetattr fail. *)
Record line_env := mk_line_env {
  line_open : list open_outcome;
  line_attributes : option termios;
  ispeed_fails : bool;
  ospeed_fails : bool;
  tcsetattr_fails : bool;
}.

(** The attributes the line has afterwards, if they were set. *)
Definition configure_serial (config : devmgr_transport_config) (env : line_env)
    : Z * option termios :=
  let '(result, speed) := baud_to_speed (baud_rate config) 0 in
  if negb (result =? DEVMGR_OK) then (DEVMGR_ERROR_INVALID, None)
  else match line_attributes env with
  | None => (DEVMGR_ERROR_IO, None)
  | Some attributes =>
      let a := cfmakeraw attributes in
      let a := a <| c_cflag := with_bits (c_cflag a) (any_of [CLOCAL; CREAD]) |> in
      let a := a <| c_cflag := without_bits (c_cflag a) (any_of [PARENB; CSTOPB; CSIZE]) |> in
      let a := a <| c_cflag := with_bits (c_cflag a) CS8 |> in
      let a := if hardware_flow_control config
               then a <| c_cflag := with_bits (c_cflag a) CRTSCTS |>
               else a <| c_cflag := without_bits (c_cflag a) CRTSCTS |> in
      let a := a <| c_iflag := without_bits (c_iflag a) (any_of [IXON; IXOFF; IXANY]) |> in
      let a := a <| c_vmin := 0 |> <| c_vtime := 0 |> in
      if ispeed_fails env then (DEVMGR_ERROR_IO, None)
      else
      let a := a <| c_ispeed := speed |> in
      if ospeed_fails env then (DEVMGR_ERROR_IO, None)
      else
      let a := a <| c_ospeed := speed |> in
      if tcsetattr_fails env then (DEVMGR_ERROR_IO, None) else (DEVMGR_OK, Some a)
  end.

Definition devmgr_transport_open (transport : devmgr_transport) (config : devmgr_transport_config)
    (env : line_env) : option (Z * devmgr_transport * option termios * list os_event) :=
  match config_path config with
  | None => Some (DEVMGR_ERROR_INVALID, transport, None, [])
  | Some _ =>
      let transport := transport <| transport_fd := -1 |> in
      opened ← open_retry (line_open env);
      match opened with
      | None => Some (DEVMGR_ERROR_IO, transport, None, [])
      | Some fd =>
          let '(result, attributes) := configure_serial config env in
          if negb (result =? DEVMGR_OK) then
            Some (result, transport, attributes, [Acquired (Fd fd); Released (Fd fd)])
          else Some (DEVMGR_OK, mk_transport fd (config_kind config), attributes, [Acquired (Fd fd)])
      end
  end.

(** [do count = read(...); while (count < 0 && errno == EINTR)] *)
Fixpoint read_retry (script : list read_outcome) (room : Z)
    : option (read_outcome * list read_outcome) :=
  match script with
  | [] => None
  | ReadError EINTR :: script => read_retry script room
  | ReadError e :: script => Some (ReadError e, script)
  | Read bytes :: script => Some (Read (delivered bytes room), script)
  end.

Fixpoint write_retry (script : list write_outcome) (offered : Z)
    : option (write_outcome * list write_outcome) :=
  match script with
  | [] => None
  | WriteError EINTR :: script => write_retry script offered
  | WriteError e :: script => Some (WriteError e, script)
  | Wrote n :: script => Some (Wrote (taken n offered), script)
  end.

(** A transport that is not open reports EINVAL. *)
Definition devmgr_transport_read (transport : devmgr_transport) (length : Z)
    (script : list read_outcome) : option (read_outcome * list read_outcome) :=
  if transport_fd transport <? 0 then Some (ReadError EOTHER, script)
  else read_retry script length.

Definition devmgr_transport_write (transport : devmgr_transport) (length : Z)
    (script : list write_outcome) : option (write_outcome * list write_outcome) :=
  if transport_fd transport <? 0 then Some (WriteError EOTHER, script)
  else write_retry script length.

Definition devmgr_transport_get_fd (transport : devmgr_transport) : Z := transport_fd transport.

(** [close]: success, or an error.  Linux releases the descriptor in any case. *)
Inductive close_outcome := Closed | CloseError (e : errno).

Fixpoint close_retry (fd : Z) (script : list close_outcome) : option (list os_event) :=
  match script with
  | [] => None
  | CloseError EINTR :: script => log ← close_retry fd script; Some (Released (Fd fd) :: log)
  | _ :: _ => Some [Released (Fd fd)]
  end.

Definition devmgr_transport_close (transport : devmgr_transport) (script : list close_outcome)
    : option (devmgr_transport * list os_event) :=
  if 0 <=? transport_fd transport then
    log ← close_retry (transport_fd transport) script;
    Some (transport <| transport_fd := -1 |>, log)
  else Some (transport, []).

(** What creating a pseudo-terminal meets; [pts_name] is the string ptsname
    returns, [None] for NULL. *)
Record pty_env := mk_pty_env {
  pty_open : list open_outcome;
  grantpt_fails : bool;
  unlockpt_fails : bool;
  pts_name : option (list Z);
}.

(** Returns the status, *master_fd, the bytes of [slave_path] and the log. *)
Definition devmgr_pty_create (slave_path : list Z) (path_capacity master_fd : Z) (env : pty_env)
    : option (Z * Z * list Z * list os_event) :=
  if path_capacity =? 0 then Some (DEVMGR_ERROR_INVALID, master_fd, slave_path, [])
  else
  opened ← open_retry (pty_open env);
  match opened with
  | None => Some (DEVMGR_ERROR_IO, -1, slave_path, [])
  | Some fd =>
      let fail status := Some (status, -1, slave_path, [Acquired (Fd fd); Released (Fd fd)]) in
      if grantpt_fails env || unlockpt_fails env then fail DEVMGR_ERROR_IO
      else match pts_name env with
      | None => fail DEVMGR_ERROR_IO
      | Some path =>
          path_length ← strlen path 0;
          if path_capacity <? path_length + 1 then fail DEVMGR_ERROR_OVERFLOW
          else
          slave_path ← memcpy slave_path 0 path 0 (path_length + 1);
          Some (DEVMGR_OK, fd, slave_path, [Acquired (Fd fd)])
      end
  end.

(** ** Correctness *)

Lemma land_ldiff x m k : Z.land (Z.ldiff x m) k = Z.land x (Z.ldiff k m).
Proof.
  apply Z.bits_inj'. intros n _. rewrite !Z.land_spec, !Z.ldiff_spec.
  destruct (Z.testbit x n), (Z.testbit k n), (Z.testbit m n); done.
Qed.

Lemma lor_land_absorb x k : Z.lor (Z.land x k) k = k.
Proof.
  apply Z.bits_inj'. intros n _. rewrite !Z.lor_spec, !Z.land_spec.
  destruct (Z.testbit x n), (Z.testbit k n); done.
Qed.

(** Computes the bits [Z.land _ k] of a word that was set and cleared bits. *)
Ltac flag_constant x :=
  lazymatch x with
  | any_of _ => idtac | Zpos _ => idtac | Z0 => idtac
  | _ => is_const x
  end.

Ltac flag_fold f a b :=
  flag_constant a; flag_constant b;
  let c := eval vm_compute in (f a b) in change (f a b) with c.

Ltac flag_bits :=
  unfold with_bits, without_bits, cfmakeraw; cbn -[Z.land Z.lor Z.ldiff any_of];
  repeat (rewrite Z.land_lor_distr_l || rewrite land_ldiff);
  repeat match goal with
  | |- context [Z.ldiff ?a ?b] => flag_fold Z.ldiff a b
  | |- context [Z.land ?a ?b] => flag_fold Z.land a b
  end;
  rewrite ?Z.land_0_r, ?Z.lor_0_r, ?Z.lor_0_l, ?lor_land_absorb; reflexivity.

(** A raw line: eight bits, no parity, one stop bit, nothing translated, echoed
    or buffered, reads that do not wait, at the speed asked for. *)
Definition line_ready (config : devmgr_transport_config) (a : termios) : Prop :=
  Z.land (c_cflag a) (any_of [CSIZE; PARENB; CSTOPB; CREAD; CLOCAL]) = any_of [CS8; CREAD; CLOCAL] ∧
  Z.land (c_cflag a) CRTSCTS = (if hardware_flow_control config then CRTSCTS else 0) ∧
  Z.land (c_iflag a) (any_of [IGNBRK; BRKINT; PARMRK; ISTRIP; INLCR; IGNCR; ICRNL;
                              IXON; IXOFF; IXANY]) = 0 ∧
  Z.land (c_oflag a) OPOST = 0 ∧
  Z.land (c_lflag a) (any_of [ECHO; ECHONL; ICANON; ISIG; IEXTEN]) = 0 ∧
  c_vmin a = 0 ∧ c_vtime a = 0 ∧ c_ospeed a = c_ispeed a ∧
  baud_to_speed (baud_rate config) 0 = (DEVMGR_OK, c_ispeed a).

Lemma configure_serial_spec config env :
  match configure_serial config env with
  | (status, Some a) => status = DEVMGR_OK ∧ line_ready config a
  | (status, None) => status ≠ DEVMGR_OK
  end.
Proof.
  unfold configure_serial.
  destruct (baud_to_speed (baud_rate config) 0) as [result speed] eqn:Eb.
  destruct (Z.eqb_spec result DEVMGR_OK) as [->|]; [|done]. cbn [negb].
  destruct (line_attributes env) as [a|]; [|done]. cbv zeta.
  destruct (ispeed_fails env); [done|]. destruct (ospeed_fails env); [done|].
  destruct (tcsetattr_fails env); [done|]. split; [done|].
  unfold line_ready. rewrite Eb.
  destruct (hardware_flow_control config);
    (split; [flag_bits|]; split; [flag_bits|]; split; [flag_bits|]; split; [flag_bits|];
     split; [flag_bits|]; done).
Qed.

Definition fds_ok (script : list open_outcome) : Prop :=
  Forall (λ o, match o with Opened fd => 0 ≤ fd | OpenError _ => True end) script.

(** What an open transport owns. *)
Definition transport_resources (transport : devmgr_transport) : list resource :=
  if 0 <=? transport_fd transport then [Fd (transport_fd transport)] else [].

(** Every way out of devmgr_transport_open. *)
Lemma transport_open_spec transport config env :
  fds_ok (line_open env) → is_Some (open_retry (line_open env)) → is_Some (config_path config) →
  ∃ status transport' attributes log,
    devmgr_transport_open transport config env = Some (status, transport', attributes, log) ∧
    (status = DEVMGR_OK → 0 ≤ transport_fd transport' ∧
       ∃ a, attributes = Some a ∧ line_ready config a) ∧
    (status ≠ DEVMGR_OK → transport_fd transport' = -1 ∧ attributes = None) ∧
    ∀ rs, held log rs = Some (transport_resources transport' ++ rs).
Proof.
  intros Hfds [o Ho] [path Hp]. unfold devmgr_transport_open, transport_resources.
  rewrite Hp, Ho. run_stmt.
  destruct o as [fd|]; [|do 4 eexists; split; [done|]; by split_and!].
  pose proof (open_retry_nonneg _ _ Hfds Ho) as Hfd.
  pose proof (configure_serial_spec config env) as Hc.
  destruct (configure_serial config env) as [status [a|]].
  - destruct Hc as [-> Hc]. do 4 eexists. split; [done|]. split; [by eauto|]. split; [done|].
    intros rs. cbn [transport_fd]. by rewrite (proj2 (Z.leb_le 0 fd) Hfd).
  - rewrite (proj2 (Z.eqb_neq _ _) Hc). do 4 eexists. split; [done|]. split; [done|].
    split; [done|]. intros rs. cbn [held app]. rewrite give_back_head. done.
Qed.

(** ** Properties *)

(** C38: opening a transport returns whatever the system calls report; it succeeds
    only with the line in raw mode, 8N1, at the requested speed and with the
    requested flow control, and on every failure no descriptor stays open.
    Closing it, if close is not interrupted, gives the descriptor back once. *)
Theorem transport_open_close transport config env rs :
  fds_ok (line_open env) → is_Some (open_retry (line_open env)) → is_Some (config_path config) →
  ∃ status transport' attributes log,
    devmgr_transport_open transport config env = Some (status, transport', attributes, log) ∧
    (status = DEVMGR_OK → ∃ a, attributes = Some a ∧ line_ready config a) ∧
    (status ≠ DEVMGR_OK → attributes = None ∧ held log rs = Some rs) ∧
    ∃ closed log', devmgr_transport_close transport' [Closed] = Some (closed, log') ∧
      transport_fd closed = -1 ∧ held (log ++ log') rs = Some rs.
Proof.
  intros Hfds Ho Hp.
  destruct (transport_open_spec transport config env Hfds Ho Hp)
    as (status & t & attributes & log & E & Hok & Hfail & Hl).
  exists status, t, attributes, log. split; [exact E|]. split; [intros Hs; by apply Hok|].
  unfold transport_resources, devmgr_transport_close in *. split.
  { intros Hs. destruct (Hfail Hs) as [Hfd Ha]. split; [done|]. rewrite Hl, Hfd. done. }
  destruct (decide (status = DEVMGR_OK)) as [Hs|Hs].
  - destruct (Hok Hs) as [Hfd _]. rewrite (proj2 (Z.leb_le 0 (transport_fd t)) Hfd) in *.
    do 2 eexists. split; [done|]. split; [done|]. rewrite held_app, Hl. cbn.
    by rewrite decide_True.
  - destruct (Hfail Hs) as [Hfd _]. rewrite Hfd in *. do 2 eexists. split; [done|]. split; [done|].
    by rewrite app_nil_r, Hl.
Qed.

Definition sample_config : devmgr_transport_config :=
  mk_transport_config DEVMGR_TRANSPORT_SERIAL (Some [47; 0]) 115200 false.

(** A signal during open, then a terminal in canonical mode at 9600 baud. *)
Definition sample_line : line_env :=
  mk_line_env [OpenError EINTR; Opened 5] (Some (mk_termios 0x500 0x5 0xBD 0x8A3B 1 0 B9600 B9600))
    false false false.

Lemma transport_open_close_witness :
  ∃ status transport' attributes log,
    devmgr_transport_open (mk_transport (-1) DEVMGR_TRANSPORT_PTY) sample_config sample_line =
      Some (status, transport', attributes, log) ∧
    (status = DEVMGR_OK → ∃ a, attributes = Some a ∧ line_ready sample_config a) ∧
    (status ≠ DEVMGR_OK → attributes = None ∧ held log [] = Some []) ∧
    ∃ closed log', devmgr_transport_close transport' [Closed] = Some (closed, log') ∧
      transport_fd closed = -1 ∧ held (log ++ log') [] = Some [].
Proof.
  apply (transport_open_close (mk_transport (-1) DEVMGR_TRANSPORT_PTY) sample_config sample_line []).
  - by repeat constructor.
  - by eexists.
  - by eexists.
Defined.

(** An interrupted close is repeated although Linux has released the
    descriptor: the second call closes a descriptor the transport no longer
    owns, which may by then belong to another part of the process. *)
Theorem transport_close_repeats fd script :
  0 ≤ fd → ∃ transport log,
    devmgr_transport_close (mk_transport fd DEVMGR_TRANSPORT_SERIAL) (CloseError EINTR :: Closed :: script) =
      Some (transport, log) ∧
    held log [Fd fd] = None ∧
    held (take 1 log ++ [Acquired (Fd fd)] ++ drop 1 log) [Fd fd] = Some [].
Proof.
  intros Hfd. unfold devmgr_transport_close. cbn [transport_fd].
  rewrite (proj2 (Z.leb_le 0 fd) Hfd). do 2 eexists. split; [done|].
  split; cbn; rewrite decide_True by done; cbn; [done|]. by rewrite decide_True.
Qed.

(** Creating a pseudo-terminal returns whatever the system calls report: on
    success the buffer holds the whole name of the slave, never more than its
    capacity, and the master is open; on failure nothing stays open and the
    buffer is as before. *)
Lemma pty_create_outcome slave_path capacity env name rs :
  fds_ok (pty_open env) → is_Some (open_retry (pty_open env)) → 1 ≤ capacity ≤ len slave_path →
  (∀ a, pts_name env = Some a → holds_string a name) →
  ∃ status master slave_path' log,
    devmgr_pty_create slave_path capacity (-1) env = Some (status, master, slave_path', log) ∧
    (status = DEVMGR_OK →
       0 ≤ master ∧ held log rs = Some (Fd master :: rs) ∧ holds_string slave_path' name ∧
       len name < capacity ∧ drop (Z.to_nat capacity) slave_path' = drop (Z.to_nat capacity) slave_path) ∧
    (status ≠ DEVMGR_OK → master = -1 ∧ held log rs = Some rs ∧ slave_path' = slave_path).
Proof.
  intros Hfds [o Ho] Hcap Hname. unfold devmgr_pty_create.
  rewrite (proj2 (Z.eqb_neq capacity 0)) by lia. rewrite Ho. run_stmt.
  destruct o as [fd|]; [|by do 4 eexists]. pose proof (open_retry_nonneg _ _ Hfds Ho) as Hfd.
  assert (Hfail : ∀ status, status ≠ DEVMGR_OK → ∃ status' master slave_path' log,
    Some (status, -1, slave_path, [Acquired (Fd fd); Released (Fd fd)]) =
      Some (status', master, slave_path', log) ∧
    (status' = DEVMGR_OK →
       0 ≤ master ∧ held log rs = Some (Fd master :: rs) ∧ holds_string slave_path' name ∧
       len name < capacity ∧ drop (Z.to_nat capacity) slave_path' = drop (Z.to_nat capacity) slave_path) ∧
    (status' ≠ DEVMGR_OK → master = -1 ∧ held log rs = Some rs ∧ slave_path' = slave_path)).
  { intros status Hs. do 4 eexists. split; [done|]. split; [done|]. intros _. cbn [held].
    by rewrite give_back_head. }
  destruct (grantpt_fails env || unlockpt_fails env); [by apply Hfail|].
  destruct (pts_name env) as [path|]; [|by apply Hfail]. specialize (Hname path eq_refl).
  rewrite (strlen_holds path name Hname). run_stmt. pose proof (holds_string_bound _ _ Hname).
  destruct (Z.ltb_spec capacity (len name + 1)); [by apply Hfail|].
  rewrite memcpy_ok by lia. run_stmt. rewrite (holds_string_slice path name Hname).
  do 4 eexists. split; [done|]. split; [|done]. intros _. split; [done|]. split; [done|].
  split; [apply holds_string_splice; [|lia]; by destruct Hname as (r & _ & ?)|]. split; [lia|].
  apply array_eq; [rewrite !length_drop, length_splice by (rewrite ?length_app; cbn; lia); done|].
  intros i _. rewrite !lookup_drop, lookup_splice by (rewrite ?length_app; cbn; lia).
  rewrite decide_False; [done|]. rewrite length_app. cbn. lia.
Qed.

