(* ===== verification/Firmware.v ===== *)
(** * Firmware images: include/devmgr/firmware.h and src/upgrade/firmware.c

    Opening maps a regular file of bounded size and takes its CRC; closing
    gives everything back. *)

From S2P Require Import Prelude Crc32 Os.

(** ** The code *)

Definition DEVMGR_FIRMWARE_MAX_SIZE : Z := 16 * 1024 * 1024.

(** [image_data] is the mapped memory; NULL is [None]. *)
Record devmgr_firmware_image := mk_image {
  image_fd : Z;
  image_data : option (list Z);
  image_size : Z;
  image_crc32 : Z;
}.

#[export] Instance eta_image : Eta devmgr_firmware_image := λ i,
  mk_image (image_fd i) (image_data i) (image_size i) (image_crc32 i).

(** [memset(image, 0, sizeof( *image)); image->fd = -1] *)
Definition no_image : devmgr_firmware_image := mk_image (-1) None 0 0.

(** What [fstat] reports: the file is regular, and its size. *)
Inductive stat_outcome := StatError | Stat (regular : bool) (st_size : Z).

(** [mmap]: the bytes of the file, or MAP_FAILED. *)
Inductive mmap_outcome := MapFailed | Mapped (bytes : list Z).

(** What one call of devmgr_firmware_open meets. *)
Record firmware_env := mk_firmware_env {
  env_open : list open_outcome;
  env_fstat : stat_outcome;
  env_mmap : mmap_outcome;
}.

Definition devmgr_firmware_open (image : devmgr_firmware_image) (path : option (list Z))
    (env : firmware_env) : option (Z * devmgr_firmware_image * list os_event) :=
  match path with
  | None => Some (DEVMGR_ERROR_INVALID, image, [])
  | Some path =>
      c ← load path 0;
      if c =? 0 then Some (DEVMGR_ERROR_INVALID, image, [])
      else
      let image := no_image in
      opened ← open_retry (env_open env);
      match opened with
      | None => Some (DEVMGR_ERROR_IO, image, [])
      | Some fd =>
          let log := [Acquired (Fd fd)] in
          match env_fstat env with
          | Stat true st_size =>
              if (st_size <=? 0) || (DEVMGR_FIRMWARE_MAX_SIZE <? st_size) then
                Some (DEVMGR_ERROR_LIMIT, image, log ++ [Released (Fd fd)])
              else match env_mmap env with
              | MapFailed => Some (DEVMGR_ERROR_IO, image, log ++ [Released (Fd fd)])
              | Mapped bytes =>
                  let image := mk_image fd (Some bytes) st_size 0 in
                  crc ← devmgr_crc32 (image_data image) (image_size image);
                  Some (DEVMGR_OK, image <| image_crc32 := crc |>,
                        log ++ [Acquired (Mapping st_size)])
              end
          | _ => Some (DEVMGR_ERROR_LIMIT, image, log ++ [Released (Fd fd)])
          end
      end
  end.

Definition devmgr_firmware_close (image : devmgr_firmware_image)
    : devmgr_firmware_image * list os_event :=
  let unmapped :=
    match image_data image with
    | Some _ => if negb (image_size image =? 0) then [Released (Mapping (image_size image))] else []
    | None => []
    end in
  let closed := if 0 <=? image_fd image then [Released (Fd (image_fd image))] else [] in
  (no_image, unmapped ++ closed).

(** ** Correctness *)

(** What an image owns. *)
Definition image_resources (image : devmgr_firmware_image) : list resource :=
  match image_data image with
  | Some _ => [Mapping (image_size image); Fd (image_fd image)]
  | None => []
  end.

(** An image is closed, or a mapped file with its CRC. *)
Definition image_ok (image : devmgr_firmware_image) : Prop :=
  match image_data image with
  | None => image = no_image
  | Some bytes =>
      0 ≤ image_fd image ∧ len bytes = image_size image ∧ Forall is_u8 bytes ∧
      1 ≤ image_size image ≤ DEVMGR_FIRMWARE_MAX_SIZE ∧ image_crc32 image = crc_of bytes
  end.

(** What the kernel promises: descriptors are not negative, a mapping holds the
    bytes of the file. *)
Definition firmware_env_ok (env : firmware_env) : Prop :=
  Forall (λ o, match o with Opened fd => 0 ≤ fd | OpenError _ => True end) (env_open env) ∧
  (∃ o, open_retry (env_open env) = Some o) ∧
  match env_fstat env, env_mmap env with
  | Stat _ st_size, Mapped bytes => len bytes = st_size ∧ Forall is_u8 bytes
  | _, _ => True
  end.

(** Every way out of devmgr_firmware_open. *)
Lemma firmware_open_spec path env :
  firmware_env_ok env → 0 < len path →
  ∃ status image log,
    devmgr_firmware_open no_image (Some path) env = Some (status, image, log) ∧
    image_ok image ∧ (status = DEVMGR_OK ↔ is_Some (image_data image)) ∧
    ∀ rs, held log rs = Some (image_resources image ++ rs).
Proof.
  intros (Hfds & [o Ho] & Hmap) Hp. unfold devmgr_firmware_open.
  assert (Hno : image_ok no_image) by done.
  destruct (load_ok path 0) as (c & -> & _); [lia|]. run_stmt.
  destruct (c =? 0).
  { do 3 eexists. split; [done|]. split; [done|]. split; [|done]. split; [done|by intros []]. }
  cbv zeta. rewrite Ho. run_stmt. destruct o as [fd|]; cycle 1.
  { do 3 eexists. split; [done|]. split; [done|]. split; [|done]. split; [done|by intros []]. }
  pose proof (open_retry_nonneg _ _ Hfds Ho) as Hfd.
  assert (Hclosed : ∀ status, status ≠ DEVMGR_OK →
    ∃ status' image log,
      Some (status, no_image, [Acquired (Fd fd)] ++ [Released (Fd fd)]) = Some (status', image, log) ∧
      image_ok image ∧ (status' = DEVMGR_OK ↔ is_Some (image_data image)) ∧
      ∀ rs, held log rs = Some (image_resources image ++ rs)).
  { intros status Hs. do 3 eexists. split; [done|]. split; [done|].
    split; [split; [done|by intros []]|]. intros rs. cbn [app held]. by rewrite give_back_head. }
  destruct (env_fstat env) as [|regular st_size]; [by apply Hclosed|].
  destruct regular; [|by apply Hclosed].
  destruct (Z.leb_spec st_size 0); [by apply Hclosed|]. cbn [orb].
  destruct (Z.ltb_spec DEVMGR_FIRMWARE_MAX_SIZE st_size); [by apply Hclosed|].
  destruct (env_mmap env) as [|bytes]; [by apply Hclosed|]. destruct Hmap as [Hlen Hb].
  cbn [image_data image_size]. rewrite devmgr_crc32_spec by lia. run_stmt.
  rewrite take_ge by lia. do 3 eexists. split; [done|]. split; [by repeat split; cbn; try lia|].
  split; [done|]. done.
Qed.

(** Closing gives back exactly what the image owns, and again nothing. *)
Lemma firmware_close_spec image rs :
  image_ok image →
  (devmgr_firmware_close image).1 = no_image ∧
  held (devmgr_firmware_close image).2 (image_resources image ++ rs) = Some rs.
Proof.
  intros Hi. split; [done|]. unfold image_ok, image_resources, devmgr_firmware_close in *.
  destruct (image_data image) as [bytes|] eqn:E; cycle 1.
  { rewrite Hi. done. }
  destruct Hi as (Hfd & Hlen & _ & Hsize & _). cbn [snd].
  rewrite (proj2 (Z.eqb_neq (image_size image) 0)) by lia.
  rewrite (proj2 (Z.leb_le 0 (image_fd image))) by lia.
  cbn [negb app held]. rewrite give_back_head. cbn. by rewrite decide_True.
Qed.

(** ** Properties *)

(** The file is there, regular, of 1 byte to 16 MiB, and can be mapped. *)
Definition opens (path : list Z) (env : firmware_env) (fd : Z) (bytes : list Z) : Prop :=
  head path ≠ Some 0 ∧ open_retry (env_open env) = Some (Some fd) ∧
  env_fstat env = Stat true (len bytes) ∧ 1 ≤ len bytes ≤ 16777216 ∧ env_mmap env = Mapped bytes.

Lemma firmware_open_succeeds path env fd bytes :
  firmware_env_ok env → 0 < len path → opens path env fd bytes →
  devmgr_firmware_open no_image (Some path) env =
    Some (DEVMGR_OK, mk_image fd (Some bytes) (len bytes) (crc_of bytes),
          [Acquired (Fd fd); Acquired (Mapping (len bytes))]).
Proof.
  intros (_ & _ & Hm) Hp (Hc & Ho & Hs & Hl & Hb). unfold devmgr_firmware_open.
  rewrite Hs, Hb in *. destruct Hm as [_ Hu]. destruct path as [|c path]; [done|].
  rewrite (proj2 (load_Some (c :: path) 0 c)) by done. cbn [mbind option_bind].
  rewrite (proj2 (Z.eqb_neq c 0)) by (intros ->; by destruct Hc). cbn [mbind option_bind].
  rewrite Ho. cbn [mbind option_bind]. unfold DEVMGR_FIRMWARE_MAX_SIZE.
  rewrite (proj2 (Z.leb_gt (len bytes) 0)) by lia. rewrite (proj2 (Z.ltb_ge (16 * 1024 * 1024) (len bytes))) by lia.
  cbn [orb image_data image_size]. rewrite devmgr_crc32_spec by lia. by rewrite take_ge by lia.
Qed.

Lemma firmware_open_opens path env image log :
  firmware_env_ok env → devmgr_firmware_open no_image (Some path) env = Some (DEVMGR_OK, image, log) →
  ∃ fd bytes, opens path env fd bytes.
Proof.
  intros (_ & _ & Hm). unfold devmgr_firmware_open, opens.
  destruct (load path 0) as [c|] eqn:Ec; [|done]. cbn [mbind option_bind].
  destruct (Z.eqb_spec c 0) as [|Hc]; [done|].
  destruct (open_retry (env_open env)) as [[fd|]|]; [|done..]. cbn [mbind option_bind].
  destruct (env_fstat env) as [|[] n]; [done| |done].
  destruct (Z.leb_spec n 0); [done|]. destruct (Z.ltb_spec DEVMGR_FIRMWARE_MAX_SIZE n); [done|]. cbn [orb].
  destruct (env_mmap env) as [|bytes]; [done|]. destruct Hm as [<- _]. intros _. exists fd, bytes.
  split; [|by repeat split; unfold DEVMGR_FIRMWARE_MAX_SIZE in *; lia].
  apply load_Some in Ec as [_ Ec]. destruct path as [|x path]; [done|]. injection Ec as ->. by intros [= ->].
Qed.

(** C30: opening a firmware file succeeds exactly when it should and never leaks
    or invents anything.  Whatever open, fstat and mmap report, the call
    returns; it returns success if and only if the path is not empty, the file
    can be opened, fstat says that it is a regular file of 1 byte to 16 MiB and
    mmap maps it, and then the image holds that descriptor, those bytes, their
    number and their CRC-32; otherwise the image is empty.  Opening followed by
    closing leaves the process with the descriptors and mappings it had, each
    given back once. *)
Theorem firmware_open_close path env rs :
  firmware_env_ok env → 0 < len path →
  ∃ status image log,
    devmgr_firmware_open no_image (Some path) env = Some (status, image, log) ∧
    (status = DEVMGR_OK ↔ ∃ fd bytes, opens path env fd bytes) ∧
    (∀ fd bytes, opens path env fd bytes →
       image = mk_image fd (Some bytes) (len bytes) (crc_of bytes)) ∧
    (status ≠ DEVMGR_OK → image = no_image) ∧
    (devmgr_firmware_close image).1 = no_image ∧
    held (log ++ (devmgr_firmware_close image).2) rs = Some rs.
Proof.
  intros He Hp. destruct (firmware_open_spec path env He Hp) as (status & image & log & E & Hi & Hs & Hl).
  exists status, image, log. destruct (firmware_close_spec image rs Hi) as [Hc Hh].
  split; [done|].
  assert (∀ fd bytes, opens path env fd bytes →
    status = DEVMGR_OK ∧ image = mk_image fd (Some bytes) (len bytes) (crc_of bytes)) as Hopen.
  { intros fd bytes Ho. rewrite (firmware_open_succeeds path env fd bytes) in E by done. by injection E. }
  split; [split; [|by intros (fd & bytes & [? _]%Hopen)]|].
  { intros ->. by eapply firmware_open_opens. }
  split; [by intros fd bytes [_ ?]%Hopen|]. split.
  { unfold image_ok in Hi. destruct (image_data image) eqn:Ed; [|done]. intros []. apply Hs. by eexists. }
  split; [done|]. rewrite held_app, Hl. apply Hh.
Qed.

(** An interrupted open, then a file of three bytes. *)
Definition sample_firmware_env : firmware_env :=
  mk_firmware_env [OpenError EINTR; Opened 7] (Stat true 3) (Mapped [1; 2; 3]).

Lemma sample_firmware_env_ok : firmware_env_ok sample_firmware_env.
Proof.
  split; [by repeat constructor|]. split; [by eexists|]. split; [done|by repeat constructor].
Qed.

Lemma firmware_open_close_witness :
  ∃ status image log,
    devmgr_firmware_open no_image (Some [97; 0]) sample_firmware_env = Some (status, image, log) ∧
    (status = DEVMGR_OK ↔ ∃ fd bytes, opens [97; 0] sample_firmware_env fd bytes) ∧
    (∀ fd bytes, opens [97; 0] sample_firmware_env fd bytes →
       image = mk_image fd (Some bytes) (len bytes) (crc_of bytes)) ∧
    (status ≠ DEVMGR_OK → image = no_image) ∧
    (devmgr_firmware_close image).1 = no_image ∧
    held (log ++ (devmgr_firmware_close image).2) [Fd 3] = Some [Fd 3].
Proof.
  apply (firmware_open_close [97; 0] sample_firmware_env [Fd 3]).
  - apply sample_firmware_env_ok.
  - simpl. lia.
Defined.
