(* ===== verification/Worker.v ===== *)
(** * Validation worker: include/devmgr/worker.h and src/worker/worker.c

    One thread that opens firmware files for the reactor: a mailbox of one job
    and one result, guarded by a mutex, and an eventfd that reports results.
    The operations are the critical sections of the code; [worker_step]
    interleaves those of the reactor with those of the thread.  A thread that
    waits for the condition moves when it is signalled, or wakes up on its own. *)

From S2P Require Import Prelude Crc32 Os Firmware.

(** ** The code *)

Definition DEVMGR_WORKER_PATH_MAX : Z := 4096.

Record devmgr_validation_result := mk_validation {
  validation_job_id : Z;
  validation_status : Z;
  validation_image : devmgr_firmware_image;
}.

#[export] Instance eta_validation : Eta devmgr_validation_result := λ r,
  mk_validation (validation_job_id r) (validation_status r) (validation_image r).

Record devmgr_worker := mk_worker {
  event_fd : Z;
  initialized : bool;
  stop : bool;
  job_pending : bool;
  job_running : bool;
  result_pending : bool;
  job_id : Z;
  job_path : list Z;
  worker_result : devmgr_validation_result;
}.

#[export] Instance eta_worker : Eta devmgr_worker := λ w,
  mk_worker (event_fd w) (initialized w) (stop w) (job_pending w) (job_running w)
    (result_pending w) (job_id w) (job_path w) (worker_result w).

(** What pthread_mutex_init, pthread_cond_init, eventfd and pthread_create
    report to devmgr_worker_init. *)
Record init_env := mk_init_env {
  mutex_init_fails : bool;
  cond_init_fails : bool;
  eventfd_result : Z;
  thread_create_fails : bool;
}.

Definition devmgr_worker_init (env : init_env) : Z * devmgr_worker * list os_event :=
  let worker :=
    mk_worker (-1) false false false false false 0 (zeros DEVMGR_WORKER_PATH_MAX)
      (mk_validation 0 0 no_image) in
  if mutex_init_fails env then (DEVMGR_ERROR_IO, worker, [])
  else
  let log := [Acquired Mutex] in
  if cond_init_fails env then (DEVMGR_ERROR_IO, worker, log ++ [Released Mutex])
  else
  let log := log ++ [Acquired Condition] in
  let worker := worker <| event_fd := eventfd_result env |> in
  if event_fd worker <? 0 then
    (DEVMGR_ERROR_IO, worker, log ++ [Released Condition; Released Mutex])
  else
  let log := log ++ [Acquired (Fd (event_fd worker))] in
  if thread_create_fails env then
    (DEVMGR_ERROR_IO, worker <| event_fd := -1 |>,
     log ++ [Released (Fd (event_fd worker)); Released Condition; Released Mutex])
  else (DEVMGR_OK, worker <| initialized := true |>, log).

(** The last component tells whether the condition was signalled. *)
Definition devmgr_worker_submit_firmware (worker : devmgr_worker) (id : Z)
    (path : option (list Z)) : option (Z * devmgr_worker * bool) :=
  match path with
  | None => Some (DEVMGR_ERROR_INVALID, worker, false)
  | Some path =>
      if negb (initialized worker) || (id =? 0) then Some (DEVMGR_ERROR_INVALID, worker, false)
      else
      length ← strlen path 0;
      if (length =? 0) || (DEVMGR_WORKER_PATH_MAX <=? length) then
        Some (DEVMGR_ERROR_LIMIT, worker, false)
      else if stop worker || job_pending worker || job_running worker || result_pending worker then
        Some (DEVMGR_ERROR_BUSY, worker, false)
      else
      copied ← memcpy (job_path worker) 0 path 0 (length + 1);
      Some (DEVMGR_OK, worker <| job_path := copied |> <| job_id := id |>
                              <| job_pending := true |>, true)
  end.

Definition devmgr_worker_get_event_fd (worker : devmgr_worker) : Z :=
  if negb (initialized worker) then -1 else event_fd worker.

Definition devmgr_worker_take_result (worker : devmgr_worker) (result : devmgr_validation_result)
    : Z * devmgr_worker * devmgr_validation_result :=
  if negb (initialized worker) then (DEVMGR_ERROR_INVALID, worker, result)
  else if negb (result_pending worker) then (DEVMGR_ERROR_NOT_FOUND, worker, result)
  else
  let taken := worker_result worker in
  let image := (validation_image taken) <| image_fd := -1 |> <| image_data := None |>
                                      <| image_size := 0 |> in
  (DEVMGR_OK, worker <| worker_result := taken <| validation_image := image |> |>
                     <| result_pending := false |>, taken).

(** The thread between two of its critical sections. *)
Inductive thread_pc :=
  | Fetching
  | Waiting
  | Validating (id : Z) (path : list Z)
  | Publishing (result : devmgr_validation_result)
  | Notifying
  | Exited.

(** The first critical section of worker_main: from pthread_mutex_lock, or from
    the return of pthread_cond_wait, to the next wait, exit or unlock. *)
Definition worker_fetch (worker : devmgr_worker) : option (devmgr_worker * thread_pc) :=
  if negb (stop worker) && negb (job_pending worker) then Some (worker, Waiting)
  else if stop worker then Some (worker, Exited)
  else
  let id := job_id worker in
  n ← strlen (job_path worker) 0;
  path ← mem_read (job_path worker) 0 (n + 1);
  Some (worker <| job_pending := false |> <| job_running := true |>, Validating id path).

Definition worker_validate (id : Z) (path : list Z) (env : firmware_env)
    : option (devmgr_validation_result * list os_event) :=
  '(status, image, log) ← devmgr_firmware_open no_image (Some path) env;
  Some (mk_validation id status image, log).

Definition worker_publish (worker : devmgr_worker) (result : devmgr_validation_result)
    : devmgr_worker :=
  worker <| worker_result := result |> <| job_running := false |> <| result_pending := true |>.

(** The eventfd counter after notify_reactor; an interrupted write is repeated. *)
Fixpoint notify_reactor (script : list write_outcome) (counter : Z) : option Z :=
  match script with
  | [] => None
  | Wrote _ :: _ => Some (counter + 1)
  | WriteError EINTR :: script => notify_reactor script counter
  | WriteError _ :: _ => Some counter
  end.

(** devmgr_worker_destroy before and after pthread_join; the first tells whether
    there is a thread to join: it returns at once on a worker that was never
    started. *)
Definition worker_destroy_stop (worker : devmgr_worker) : devmgr_worker * bool :=
  if negb (initialized worker) then (worker, false) else (worker <| stop := true |>, true).

Definition worker_destroy_finish (worker : devmgr_worker) : devmgr_worker * list os_event :=
  let '(image, log) :=
    if result_pending worker then devmgr_firmware_close (validation_image (worker_result worker))
    else (validation_image (worker_result worker), []) in
  (worker <| worker_result := (worker_result worker) <| validation_image := image |> |>
          <| initialized := false |> <| event_fd := -1 |>,
   log ++ [Released (Fd (event_fd worker)); Released Condition; Released Mutex]).

(** ** The thread and the reactor *)

(** The reactor: running, waiting in pthread_join, or past devmgr_worker_destroy. *)
Inductive reactor_pc := Running | Joining | Destroyed.

#[export] Instance reactor_pc_eq_dec : EqDecision reactor_pc.
Proof. solve_decision. Defined.

(** [ws_log] is what was acquired and released, [ws_accepted] the ids of the jobs
    accepted and [ws_taken] the results collected, both in order; [ws_missed]
    tells whether a write to the eventfd has failed. *)
Record worker_system := mk_worker_system {
  ws_worker : devmgr_worker;
  ws_thread : thread_pc;
  ws_reactor : reactor_pc;
  ws_counter : Z;
  ws_log : list os_event;
  ws_accepted : list Z;
  ws_taken : list devmgr_validation_result;
  ws_missed : bool;
}.

#[export] Instance eta_worker_system : Eta worker_system := λ s,
  mk_worker_system (ws_worker s) (ws_thread s) (ws_reactor s) (ws_counter s) (ws_log s)
    (ws_accepted s) (ws_taken s) (ws_missed s).

(** pthread_cond_signal: a thread in pthread_cond_wait returns from it, and is
    then before the test of its loop; otherwise the signal is lost. *)
Definition signalled (pc : thread_pc) : thread_pc :=
  match pc with Waiting => Fetching | pc => pc end.

(** The thread's critical sections, and the calls it makes between them.  A
    waiting thread does nothing until it is signalled, unless the wait returns
    on its own, which POSIX permits. *)
Inductive thread_step (s : worker_system) : worker_system → Prop :=
  | thread_spurious_wakeup :
      ws_thread s = Waiting → thread_step s (s <| ws_thread := Fetching |>)
  | thread_fetch w pc :
      ws_thread s = Fetching →
      worker_fetch (ws_worker s) = Some (w, pc) →
      thread_step s (s <| ws_worker := w |> <| ws_thread := pc |>)
  | thread_validate id path env result log :
      ws_thread s = Validating id path → firmware_env_ok env →
      worker_validate id path env = Some (result, log) →
      thread_step s (s <| ws_thread := Publishing result |> <| ws_log := ws_log s ++ log |>)
  | thread_publish result :
      ws_thread s = Publishing result →
      thread_step s
        (s <| ws_worker := worker_publish (ws_worker s) result |> <| ws_thread := Notifying |>)
  | thread_notify script counter :
      ws_thread s = Notifying →
      notify_reactor script (ws_counter s) = Some counter →
      thread_step s
        (s <| ws_counter := counter |> <| ws_thread := Fetching |>
           <| ws_missed := ws_missed s || (counter =? ws_counter s) |>).

Definition submitted (s : worker_system) (id status : Z) (w : devmgr_worker) (signal : bool)
    : worker_system :=
  s <| ws_worker := w |>
    <| ws_thread := if signal then signalled (ws_thread s) else ws_thread s |>
    <| ws_accepted := ws_accepted s ++ (if status =? DEVMGR_OK then [id] else []) |>.

Definition collected (s : worker_system) (w : devmgr_worker) (result : devmgr_validation_result)
    : worker_system :=
  s <| ws_worker := w |> <| ws_counter := 0 |> <| ws_taken := ws_taken s ++ [result] |>.

Definition stopping (s : worker_system) (w : devmgr_worker) : worker_system :=
  s <| ws_worker := w |> <| ws_thread := signalled (ws_thread s) |> <| ws_reactor := Joining |>.

Definition joined (s : worker_system) (w : devmgr_worker) (log : list os_event) : worker_system :=
  s <| ws_worker := w |> <| ws_reactor := Destroyed |> <| ws_log := ws_log s ++ log |>.

(** The reactor's calls, made as the daemon makes them: a result is taken when
    the eventfd has reported one. *)
Inductive worker_step (s : worker_system) : worker_system → Prop :=
  | reactor_submit id path status w signal :
      ws_reactor s = Running → is_u32 id →
      (∀ p, path = Some p → Forall is_u8 p ∧ ∃ str, holds_string p str) →
      devmgr_worker_submit_firmware (ws_worker s) id path = Some (status, w, signal) →
      worker_step s (submitted s id status w signal)
  | reactor_collect unset w result :
      (* the reactor reads the counter, which resets it, and takes the result *)
      ws_reactor s = Running → 0 < ws_counter s →
      devmgr_worker_take_result (ws_worker s) unset = (DEVMGR_OK, w, result) →
      worker_step s (collected s w result)
  | reactor_stop w :
      ws_reactor s = Running → worker_destroy_stop (ws_worker s) = (w, true) →
      worker_step s (stopping s w)
  | reactor_join w log :
      ws_reactor s = Joining → ws_thread s = Exited →
      worker_destroy_finish (ws_worker s) = (w, log) →
      worker_step s (joined s w log)
  | worker_thread s' : thread_step s s' → worker_step s s'.

(** What devmgr_worker_init leaves behind when it succeeds. *)
Definition worker_start (env : init_env) : worker_system :=
  let '(_, worker, log) := devmgr_worker_init env in
  mk_worker_system worker Fetching Running 0 log [] [] false.

Inductive worker_reachable (env : init_env) : worker_system → Prop :=
  | reach_start : worker_reachable env (worker_start env)
  | reach_step s s' : worker_reachable env s → worker_step s s' → worker_reachable env s'.

(** ** The invariant *)

Definition thread_busy (pc : thread_pc) : bool :=
  match pc with Validating _ _ | Publishing _ => true | _ => false end.

Definition thread_ids (pc : thread_pc) : list Z :=
  match pc with
  | Validating id _ => [id]
  | Publishing result => [validation_job_id result]
  | _ => []
  end.

(** The jobs accepted and not yet collected. *)
Definition in_flight (s : worker_system) : list Z :=
  let w := ws_worker s in
  (if job_pending w then [job_id w] else []) ++ thread_ids (ws_thread s) ++
  (if result_pending w then [validation_job_id (worker_result w)] else []).

Definition thread_resources (pc : thread_pc) : list resource :=
  match pc with
  | Publishing result => image_resources (validation_image result)
  | _ => []
  end.

Definition mailbox_resources (w : devmgr_worker) : list resource :=
  if result_pending w then image_resources (validation_image (worker_result w)) else [].

(** What the results handed to the reactor own. *)
Definition taken_resources (results : list devmgr_validation_result) : list resource :=
  concat (map (λ r, image_resources (validation_image r)) results).

Definition own_resources (fd : Z) : list resource := [Fd fd; Condition; Mutex].

Definition path_ok (path : list Z) : Prop := 0 < len path.

(** A result is a success exactly when it carries a mapped image. *)
Definition result_ok (r : devmgr_validation_result) : Prop :=
  image_ok (validation_image r) ∧
  (validation_status r = DEVMGR_OK ↔ is_Some (image_data (validation_image r))).

Definition thread_ok (pc : thread_pc) : Prop :=
  match pc with
  | Validating _ path => path_ok path
  | Publishing result => result_ok result
  | _ => True
  end.

(** [rest] is what the process holds beside what the worker owns. *)
Record worker_inv (fd : Z) (rest : list resource) (s : worker_system) : Prop := {
  inv_alive : ws_reactor s ≠ Destroyed →
    initialized (ws_worker s) = true ∧ event_fd (ws_worker s) = fd;
  inv_stop : stop (ws_worker s) = true ↔ ws_reactor s ≠ Running;
  inv_waiting : ws_thread s = Waiting →
    stop (ws_worker s) = false ∧ job_pending (ws_worker s) = false;
  inv_running : job_running (ws_worker s) = thread_busy (ws_thread s);
  inv_mailbox : (length (in_flight s) ≤ 1)%nat;
  inv_order : ws_accepted s = map validation_job_id (ws_taken s) ++ in_flight s;
  inv_notified : 0 < ws_counter s ∨ ws_thread s = Notifying → result_pending (ws_worker s) = true;
  inv_announced : ws_missed s = false → result_pending (ws_worker s) = true →
    0 < ws_counter s ∨ ws_thread s = Notifying;
  inv_counter : 0 ≤ ws_counter s ∧ (ws_thread s = Notifying → ws_counter s = 0);
  inv_thread : thread_ok (ws_thread s);
  inv_path : len (job_path (ws_worker s)) = DEVMGR_WORKER_PATH_MAX ∧
    (job_pending (ws_worker s) = true → ∃ str, holds_string (job_path (ws_worker s)) str);
  inv_images : (ws_reactor s ≠ Destroyed → result_pending (ws_worker s) = true →
      result_ok (worker_result (ws_worker s))) ∧ Forall result_ok (ws_taken s);
  inv_joined : ws_reactor s = Destroyed → ws_thread s = Exited;
  inv_exited : ws_thread s = Exited → stop (ws_worker s) = true;
  inv_resources : holds (ws_log s)
    ((if decide (ws_reactor s = Destroyed) then []
      else own_resources fd ++ thread_resources (ws_thread s) ++ mailbox_resources (ws_worker s)) ++
     rest);
}.

Lemma worker_start_inv env :
  (devmgr_worker_init env).1.1 = DEVMGR_OK → worker_inv (eventfd_result env) [] (worker_start env).
Proof.
  unfold worker_start, devmgr_worker_init.
  destruct (mutex_init_fails env); [done|]. destruct (cond_init_fails env); [done|].
  cbn [event_fd upd]. destruct (Z.ltb_spec (eventfd_result env) 0); [done|].
  destruct (thread_create_fails env); [done|]. intros _.
  split; cbn -[zeros]; try done.
  - lia.
  - intros [?|?]; [lia|done].
  - exists [Fd (eventfd_result env); Condition; Mutex]. by split.
Qed.

(** A job is accepted only when nothing is in flight. *)
Lemma submit_spec w id path status w' signal :
  (∀ p, path = Some p → Forall is_u8 p ∧ ∃ str, holds_string p str) →
  len (job_path w) = DEVMGR_WORKER_PATH_MAX →
  devmgr_worker_submit_firmware w id path = Some (status, w', signal) →
  status ≠ DEVMGR_OK ∧ w' = w ∧ signal = false ∨
  status = DEVMGR_OK ∧ signal = true ∧ stop w = false ∧ job_pending w = false ∧
  job_running w = false ∧ result_pending w = false ∧
  ∃ copied str, len copied = DEVMGR_WORKER_PATH_MAX ∧ holds_string copied str ∧
    w' = w <| job_path := copied |> <| job_id := id |> <| job_pending := true |>.
Proof.
  intros Hpath Hlen. unfold devmgr_worker_submit_firmware.
  destruct path as [p|]; [|by intros [= <- <- <-]; left].
  destruct (Hpath p eq_refl) as (_ & str & Hstr).
  destruct (negb (initialized w) || (id =? 0)); [by intros [= <- <- <-]; left|].
  rewrite (strlen_holds p str Hstr). cbn [mbind option_bind].
  destruct (Z.eqb_spec (len str) 0); [by intros [= <- <- <-]; left|]. cbn [orb].
  destruct (Z.leb_spec DEVMGR_WORKER_PATH_MAX (len str)); [by intros [= <- <- <-]; left|].
  destruct (stop w || _ || _ || _) eqn:Hb; [by intros [= <- <- <-]; left|].
  rewrite !orb_false_iff in Hb. destruct Hb as [[[? ?] ?] ?].
  pose proof (holds_string_bound p str Hstr).
  unfold DEVMGR_WORKER_PATH_MAX in *. rewrite memcpy_ok by lia.
  rewrite (holds_string_slice p str Hstr). cbn [mbind option_bind]. intros [= <- <- <-].
  right. repeat (split; [done|]). exists (splice (job_path w) 0 (str ++ [0])), str.
  split; [rewrite length_splice; rewrite ?length_app; cbn; lia|]. split; [|done].
  destruct Hstr as (r & _ & ?). apply holds_string_splice; [done|lia].
Qed.

(** Opens the invariant of a state into its components. *)
Ltac open_inv H :=
  destruct H as [Hal Hst Hwa Hru Hma Hor Hno Han Hco Hth [Hpl Hph] [Him Htk] Hjo Hex Hre].

Lemma step_submit_inv fd rest s id path status w signal :
  worker_inv fd rest s → ws_reactor s = Running →
  (∀ p, path = Some p → Forall is_u8 p ∧ ∃ str, holds_string p str) →
  devmgr_worker_submit_firmware (ws_worker s) id path = Some (status, w, signal) →
  worker_inv fd rest (submitted s id status w signal).
Proof.
  unfold submitted. intros H Hrun Hp E. pose proof H as H'. open_inv H.
  destruct (submit_spec _ _ _ _ _ _ Hp Hpl E)
    as [(Hs & -> & ->)|(-> & -> & Hs1 & Hs2 & Hs3 & Hs4 & copied & str & Hcl & Hcs & ->)].
  { rewrite (proj2 (Z.eqb_neq status DEVMGR_OK)) by done. rewrite app_nil_r.
    by destruct s. }
  rewrite Hs3 in Hru. assert (Hidle : in_flight s = []).
  { unfold in_flight. rewrite Hs2, Hs4. by destruct (ws_thread s). }
  assert (Hnn : ws_thread s ≠ Notifying) by (intros Ht; rewrite Hno in Hs4; [done|by right]).
  assert (Hth' : thread_ids (signalled (ws_thread s)) = [] ∧
                 signalled (ws_thread s) ≠ Waiting ∧ signalled (ws_thread s) ≠ Notifying ∧
                 thread_busy (signalled (ws_thread s)) = false ∧
                 thread_resources (signalled (ws_thread s)) = thread_resources (ws_thread s))
    by by destruct (ws_thread s).
  destruct Hth' as (Hids & Hnw & Hnn' & Hbusy & Hres).
  split; cbn -[own_resources DEVMGR_WORKER_PATH_MAX]; try done.
  - by rewrite Hbusy.
  - unfold in_flight. cbn. by rewrite Hids, Hs4.
  - rewrite Hor, Hidle. unfold in_flight. cbn. by rewrite Hids, Hs4, app_nil_r.
  - intros [?|?]; [by apply Hno; left|done].
  - by rewrite Hs4.
  - split; [apply Hco|done].
  - by destruct (ws_thread s).
  - split; [done|]. intros _. by exists str.
  - intros Hd. by rewrite Hrun in Hd.
  - intros Hx. rewrite Hex in Hs1; [done|]. by destruct (ws_thread s).
  - unfold mailbox_resources in *. cbn. by rewrite Hres.
Qed.

Lemma taken_resources_snoc results r :
  taken_resources (results ++ [r]) = taken_resources results ++ image_resources (validation_image r).
Proof. unfold taken_resources. rewrite map_app, concat_app. cbn. by rewrite app_nil_r. Qed.

Lemma in_flight_result s :
  (length (in_flight s) ≤ 1)%nat → result_pending (ws_worker s) = true →
  job_pending (ws_worker s) = false ∧ thread_ids (ws_thread s) = [] ∧
  in_flight s = [validation_job_id (worker_result (ws_worker s))].
Proof.
  unfold in_flight. cbv zeta. intros Hl Hrp. rewrite Hrp in *.
  rewrite !length_app in Hl. cbn [length] in Hl.
  destruct (job_pending (ws_worker s)), (thread_ids (ws_thread s)); cbn in *; try (exfalso; lia); done.
Qed.

(** A result that was announced can be taken. *)
Lemma take_result_ready fd rest s unset :
  worker_inv fd rest s → ws_reactor s = Running → 0 < ws_counter s →
  ∃ w result, devmgr_worker_take_result (ws_worker s) unset = (DEVMGR_OK, w, result) ∧ result_ok result.
Proof.
  intros H Hrun Hc. open_inv H. destruct Hal as [Hi _]; [by rewrite Hrun|].
  assert (Hrp : result_pending (ws_worker s) = true) by (apply Hno; by left).
  unfold devmgr_worker_take_result. rewrite Hi, Hrp. do 2 eexists. split; [done|].
  apply Him; [by rewrite Hrun|done].
Qed.

(** It is the result of the job in flight. *)
Lemma take_result_id fd rest s unset :
  worker_inv fd rest s → ws_reactor s = Running → 0 < ws_counter s →
  ∃ w result, devmgr_worker_take_result (ws_worker s) unset = (DEVMGR_OK, w, result) ∧
    in_flight s = [validation_job_id result].
Proof.
  intros H Hrun Hc. open_inv H. destruct Hal as [Hi _]; [by rewrite Hrun|].
  assert (Hrp : result_pending (ws_worker s) = true) by (apply Hno; by left).
  destruct (in_flight_result s Hma Hrp) as (_ & _ & Hfl).
  unfold devmgr_worker_take_result. rewrite Hi, Hrp. eauto.
Qed.

Lemma step_collect_inv fd rest s unset w result :
  worker_inv fd rest s → ws_reactor s = Running → 0 < ws_counter s →
  devmgr_worker_take_result (ws_worker s) unset = (DEVMGR_OK, w, result) →
  worker_inv fd (rest ++ image_resources (validation_image result)) (collected s w result).
Proof.
  unfold collected. intros H Hrun Hc E. open_inv H. destruct Hal as [Hi He]; [by rewrite Hrun|].
  assert (Hrp : result_pending (ws_worker s) = true) by (apply Hno; by left).
  assert (Hnn : ws_thread s ≠ Notifying) by (intros Ht; apply Hco in Ht; lia).
  destruct (in_flight_result s Hma Hrp) as (Hjp & Hids & Hfl).
  unfold devmgr_worker_take_result in E. rewrite Hi, Hrp in E. cbn [negb] in E.
  injection E as <- <-. split; cbn -[own_resources DEVMGR_WORKER_PATH_MAX taken_resources]; try done.
  - unfold in_flight. cbn. rewrite Hjp, Hids. cbn. lia.
  - rewrite Hor, Hfl. unfold in_flight. cbn. by rewrite Hjp, Hids, map_app, !app_nil_r.
  - intros [?|?]; [lia|done].
  - split; [done|]. apply Forall_app. split; [done|]. constructor; [apply Him; [by rewrite Hrun|done]|constructor].
  - rewrite Hrun in Hre |- *. rewrite decide_False in Hre |- * by done.
    unfold mailbox_resources in *. rewrite Hrp in Hre. cbn [result_pending upd].
    eapply holds_perm; [exact Hre|]. rewrite app_nil_r, <- !(assoc_L (++)).
    do 2 apply Permutation_app_head. apply Permutation_app_comm.
Qed.

Lemma step_stop_inv fd rest s w :
  worker_inv fd rest s → ws_reactor s = Running → worker_destroy_stop (ws_worker s) = (w, true) →
  worker_inv fd rest (stopping s w).
Proof.
  unfold stopping, worker_destroy_stop. intros H Hrun E. open_inv H.
  destruct Hal as [Hini Hev]; [by rewrite Hrun|]. rewrite Hini in E. injection E as <-.
  rewrite Hrun in *.
  assert (Hsame : thread_ids (signalled (ws_thread s)) = thread_ids (ws_thread s) ∧
    thread_busy (signalled (ws_thread s)) = thread_busy (ws_thread s) ∧
    thread_resources (signalled (ws_thread s)) = thread_resources (ws_thread s) ∧
    (signalled (ws_thread s) = Notifying ↔ ws_thread s = Notifying) ∧
    signalled (ws_thread s) ≠ Waiting) by by destruct (ws_thread s).
  destruct Hsame as (Hids & Hbusy & Hres & Hsn & Hnw).
  split; cbn -[own_resources DEVMGR_WORKER_PATH_MAX]; try done; try (by rewrite Hbusy).
  - unfold in_flight. cbn. by rewrite Hids.
  - rewrite Hor. unfold in_flight. cbn. by rewrite Hids.
  - by rewrite Hsn.
  - by rewrite Hsn.
  - rewrite Hsn. done.
  - by destruct (ws_thread s).
  - split; [intros _; by apply Him|done].
  - by rewrite Hres.
Qed.

(** Closing an image inside a log. *)
Lemma holds_close log image rs :
  image_ok image → holds log (image_resources image ++ rs) →
  holds (log ++ (devmgr_firmware_close image).2) rs.
Proof.
  intros Hi Hh. unfold image_ok, image_resources, devmgr_firmware_close in *.
  destruct (image_data image) as [bytes|]; [|rewrite Hi; cbn; by rewrite app_nil_r].
  destruct Hi as (Hfd & Hlen & _ & Hsize & _). cbn [snd].
  rewrite (proj2 (Z.eqb_neq (image_size image) 0)) by lia.
  rewrite (proj2 (Z.leb_le 0 (image_fd image))) by lia.
  rewrite (assoc_L (++)). by do 2 apply holds_released.
Qed.

Lemma step_join_inv fd rest s w log :
  worker_inv fd rest s → ws_reactor s = Joining → ws_thread s = Exited →
  worker_destroy_finish (ws_worker s) = (w, log) →
  worker_inv fd rest (joined s w log).
Proof.
  unfold joined. intros H Hj Hx E. open_inv H. rewrite Hj, Hx in *. destruct Hal as [_ He]; [done|].
  unfold worker_destroy_finish in E.
  assert (Hw : ∃ image log1,
    (if result_pending (ws_worker s)
     then devmgr_firmware_close (validation_image (worker_result (ws_worker s)))
     else (validation_image (worker_result (ws_worker s)), [])) = (image, log1) ∧
    holds (ws_log s ++ log1) (own_resources fd ++ rest)).
  { rewrite decide_False in Hre by done. cbn [thread_resources app] in Hre.
    unfold mailbox_resources in Hre. destruct (result_pending (ws_worker s)).
    - do 2 eexists. split; [done|]. apply holds_close; [by apply Him|].
      eapply holds_perm; [exact Hre|]. rewrite !(assoc_L (++)). apply Permutation_app_tail, Permutation_app_comm.
    - do 2 eexists. split; [done|]. by rewrite app_nil_r. }
  destruct Hw as (image & log1 & E1 & Hh). rewrite E1 in E. injection E as <- <-.
  unfold in_flight in *. rewrite Hx in *.
  split; cbn -[own_resources DEVMGR_WORKER_PATH_MAX taken_resources] in *; rewrite ?Hx; try done.
  { split; [done|]. intros _. by apply Hst. }
  rewrite He, (assoc_L (++)). change [Released (Fd fd); Released Condition; Released Mutex] with
    ([Released (Fd fd)] ++ [Released Condition] ++ [Released Mutex]).
  rewrite !(assoc_L (++)). by do 3 apply holds_released.
Qed.

Lemma step_fetch_inv fd rest s w pc :
  worker_inv fd rest s → ws_thread s = Fetching →
  worker_fetch (ws_worker s) = Some (w, pc) →
  worker_inv fd rest (s <| ws_worker := w |> <| ws_thread := pc |>).
Proof.
  intros H Ht E. open_inv H.
  assert (Hplain : thread_ids (ws_thread s) = [] ∧ thread_busy (ws_thread s) = false ∧
    thread_resources (ws_thread s) = [] ∧ ws_thread s ≠ Notifying) by by rewrite Ht.
  destruct Hplain as (Hids & Hbusy & Hres & Hnn).
  assert (Hnd : ws_reactor s ≠ Destroyed) by (intros Hd; apply Hjo in Hd; by rewrite Hd in Ht).
  assert (Hno' : ∀ pc, pc ≠ Notifying → 0 < ws_counter s ∨ pc = Notifying → result_pending (ws_worker s) = true)
    by (intros q Hq [?|?]; [by apply Hno; left|done]).
  assert (Han' : ∀ pc, ws_missed s = false → result_pending (ws_worker s) = true →
    0 < ws_counter s ∨ pc = Notifying) by (intros q Hm Hrp; destruct (Han Hm Hrp); [by left|done]).
  unfold in_flight in *. cbv zeta in *. rewrite Hids in *. rewrite Hbusy in Hru. rewrite Hres in Hre.
  unfold worker_fetch in E.
  destruct (stop (ws_worker s)) eqn:Es; cbn [negb andb] in E; cycle 1.
  destruct (job_pending (ws_worker s)) eqn:Ej; cbn [negb] in E.
  - destruct (Hph eq_refl) as (str & Hstr).
    pose proof (holds_string_bound _ _ Hstr).
    rewrite (strlen_holds _ _ Hstr) in E. cbn [mbind option_bind] in E.
    rewrite mem_read_ok, (holds_string_slice _ _ Hstr) in E by lia. cbn [mbind option_bind] in E.
    injection E as <- <-.
    split; cbn -[own_resources DEVMGR_WORKER_PATH_MAX]; try done; try by rewrite Es.
    + by apply Hno'.
    + by intros ??; apply Han'.
    + split; [apply Hco|done].
    + unfold path_ok. rewrite length_app. cbn. lia.
  - injection E as <- <-. split; cbn -[own_resources DEVMGR_WORKER_PATH_MAX]; try done; try by rewrite Es.
    + unfold in_flight. cbn. by rewrite Ej.
    + rewrite Hor. unfold in_flight. cbn. by rewrite Ej.
    + by apply Hno'.
    + by intros ??; apply Han'.
    + split; [apply Hco|done].
    + split; [done|]. by rewrite Ej.
  - injection E as <- <-. split; cbn -[own_resources DEVMGR_WORKER_PATH_MAX]; try done; try by rewrite Es.
    + by apply Hno'.
    + by intros ??; apply Han'.
    + split; [apply Hco|done].
Qed.

(** While the thread is busy nothing else is in flight. *)
Lemma in_flight_busy s ids :
  thread_ids (ws_thread s) = ids → (0 < length ids)%nat → (length (in_flight s) ≤ 1)%nat →
  job_pending (ws_worker s) = false ∧ result_pending (ws_worker s) = false ∧ in_flight s = ids.
Proof.
  unfold in_flight. cbv zeta. intros -> Hn Hl. rewrite !length_app in Hl.
  destruct (job_pending (ws_worker s)), (result_pending (ws_worker s));
    cbn in *; try (exfalso; lia). by rewrite app_nil_r.
Qed.

Lemma worker_validate_spec id path env :
  firmware_env_ok env → path_ok path →
  ∃ result log, worker_validate id path env = Some (result, log) ∧
    validation_job_id result = id ∧ image_ok (validation_image result) ∧
    (validation_status result = DEVMGR_OK ↔ is_Some (image_data (validation_image result))) ∧
    ∀ rs, held log rs = Some (image_resources (validation_image result) ++ rs).
Proof.
  intros He Hp. unfold worker_validate.
  destruct (firmware_open_spec path env He Hp) as (status & image & log & -> & Hi & Hs & Hl).
  do 2 eexists. split; [done|]. done.
Qed.

Lemma step_validate_inv fd rest s id path env result log :
  worker_inv fd rest s → ws_thread s = Validating id path → firmware_env_ok env →
  worker_validate id path env = Some (result, log) →
  worker_inv fd rest (s <| ws_thread := Publishing result |> <| ws_log := ws_log s ++ log |>).
Proof.
  intros H Ht He E. open_inv H. rewrite Ht in *.
  destruct (worker_validate_spec id path env He Hth) as (r & l & E' & Hid & Hi & Hsi & Hl).
  rewrite E in E'. injection E' as <- <-.
  destruct (in_flight_busy s [id]) as (Hjp & Hrp & Hfl); [by rewrite Ht|cbn; lia|done|].
  split; cbn -[own_resources DEVMGR_WORKER_PATH_MAX]; try done.
  - unfold in_flight. cbn. by rewrite Hjp, Hrp.
  - rewrite Hor, Hfl. unfold in_flight. cbn. by rewrite Hjp, Hrp, Hid.
  - intros [?|?]; [by apply Hno; left|done].
  - by rewrite Hrp.
  - by split; [apply Hco|].
  - by intros Hd%Hjo.
  - destruct (decide (ws_reactor s = Destroyed)) as [Hd|]; [by apply Hjo in Hd|].
    unfold mailbox_resources in *. rewrite Hrp, app_nil_r in *. destruct Hre as (l & El & Hperm).
    exists (image_resources (validation_image result) ++ l). rewrite held_app, El. cbn.
    split; [apply Hl|]. rewrite Hperm. cbn [thread_resources].
    change (Fd fd :: _) with (own_resources fd ++ image_resources (validation_image result) ++ rest).
    rewrite !(assoc_L (++)). apply Permutation_app_tail, Permutation_app_comm.
Qed.

Lemma step_publish_inv fd rest s result :
  worker_inv fd rest s → ws_thread s = Publishing result →
  worker_inv fd rest (s <| ws_worker := worker_publish (ws_worker s) result |> <| ws_thread := Notifying |>).
Proof.
  intros H Ht. open_inv H. rewrite Ht in *.
  destruct (in_flight_busy s [validation_job_id result]) as (Hjp & Hrp & Hfl);
    [by rewrite Ht|cbn; lia|done|].
  assert (Hc : ¬ 0 < ws_counter s).
  { intros Hc. rewrite Hno in Hrp; [done|by left]. }
  split; cbn -[own_resources DEVMGR_WORKER_PATH_MAX]; try done.
  - unfold in_flight. cbn. by rewrite Hjp.
  - rewrite Hor, Hfl. unfold in_flight. cbn. by rewrite Hjp.
  - by right.
  - split; [apply Hco|]. intros _. lia.
  - by intros Hd%Hjo.
  - destruct (decide (ws_reactor s = Destroyed)) as [Hd|]; [by apply Hjo in Hd|].
    unfold mailbox_resources in *. rewrite Hrp, app_nil_r in *. exact Hre.
Qed.

Lemma notify_reactor_cases script counter counter' :
  notify_reactor script counter = Some counter' → counter' = counter ∨ counter' = counter + 1.
Proof.
  induction script as [|[n|e] script IH]; cbn; [done|by intros [= <-]; right|].
  destruct e; try (by intros [= <-]; left). done.
Qed.

Lemma step_notify_inv fd rest s script counter :
  worker_inv fd rest s → ws_thread s = Notifying →
  notify_reactor script (ws_counter s) = Some counter →
  worker_inv fd rest (s <| ws_counter := counter |> <| ws_thread := Fetching |>
                        <| ws_missed := ws_missed s || (counter =? ws_counter s) |>).
Proof.
  intros H Ht E. open_inv H. rewrite Ht in *. destruct Hco as [Hc0 Hc1].
  apply notify_reactor_cases in E. assert (Hrp : result_pending (ws_worker s) = true) by auto.
  split; cbn -[own_resources DEVMGR_WORKER_PATH_MAX]; try done.
  - unfold in_flight in *. cbn in *. by rewrite Ht in Hma.
  - unfold in_flight in *. cbn in *. by rewrite Ht in Hor.
  - intros [_ Hm]%orb_false_iff _. apply Z.eqb_neq in Hm. left. lia.
  - split; [lia|done].
  - by intros Hd%Hjo.
Qed.

Lemma step_wakeup_inv fd rest s :
  worker_inv fd rest s → ws_thread s = Waiting → worker_inv fd rest (s <| ws_thread := Fetching |>).
Proof.
  intros H Ht. open_inv H. unfold in_flight in *. rewrite Ht in *.
  split; cbn -[own_resources DEVMGR_WORKER_PATH_MAX] in *; try done.
  - intros [?|?]; [by apply Hno; left|done].
  - intros Hm Hrp. destruct (Han Hm Hrp); [by left|done].
  - by split; [apply Hco|].
  - by intros Hd%Hjo.
Qed.

Lemma thread_step_inv fd rest s s' : worker_inv fd rest s → thread_step s s' → worker_inv fd rest s'.
Proof.
  intros Hs Hstep. destruct Hstep;
    eauto using step_wakeup_inv, step_fetch_inv, step_validate_inv, step_publish_inv, step_notify_inv.
Qed.

Lemma thread_step_keeps s s' :
  thread_step s s' → ws_taken s' = ws_taken s ∧ ws_accepted s' = ws_accepted s ∧
                     ws_reactor s' = ws_reactor s.
Proof. by intros []. Qed.

(** The reactor keeps the images it was handed. *)
Lemma worker_reachable_inv env s :
  (devmgr_worker_init env).1.1 = DEVMGR_OK → worker_reachable env s →
  worker_inv (eventfd_result env) (taken_resources (ws_taken s)) s.
Proof.
  intros Hok. induction 1 as [|s s' _ IH Hstep].
  - replace (ws_taken (worker_start env)) with (@nil devmgr_validation_result); [by apply worker_start_inv|].
    unfold worker_start. by destruct (devmgr_worker_init env) as [[??]?].
  - destruct Hstep as [| |w| |s' Ht].
    + eapply step_submit_inv; eauto.
    + cbn -[taken_resources]. rewrite taken_resources_snoc. eapply step_collect_inv; eauto.
    + eapply step_stop_inv; eauto.
    + eapply step_join_inv; eauto.
    + destruct (thread_step_keeps _ _ Ht) as (-> & _). by eapply thread_step_inv.
Qed.

(** ** Properties *)

(** C22: the worker never leaks and never releases twice: at any moment of any
    interleaving the log of acquisitions and releases replays, and once
    devmgr_worker_destroy has returned all that is left are the descriptors
    and mappings of the images handed to the reactor. *)
Theorem worker_no_leak env s :
  (devmgr_worker_init env).1.1 = DEVMGR_OK → worker_reachable env s →
  is_Some (held (ws_log s) []) ∧
  (ws_reactor s = Destroyed → holds (ws_log s) (taken_resources (ws_taken s))).
Proof.
  intros Hok Hr. pose proof (inv_resources _ _ _ (worker_reachable_inv env s Hok Hr)) as Hh. split.
  - destruct Hh as (rs & -> & _). eauto.
  - intros Hd. by rewrite decide_True in Hh.
Qed.

(** C23: every accepted job is answered once and in order: the jobs accepted so
    far are those whose results were collected followed by at most one that is
    still in flight, and a collected result is a success exactly when it
    carries a mapped image. *)
Theorem worker_exactly_once env s :
  (devmgr_worker_init env).1.1 = DEVMGR_OK → worker_reachable env s →
  ws_accepted s = map validation_job_id (ws_taken s) ++ in_flight s ∧
  (length (in_flight s) ≤ 1)%nat ∧ Forall result_ok (ws_taken s).
Proof.
  intros Hok Hr. pose proof (worker_reachable_inv env s Hok Hr) as H.
  split; [apply (inv_order _ _ _ H)|]. split; [apply (inv_mailbox _ _ _ H)|apply (inv_images _ _ _ H)].
Qed.

(** The thread can go on by itself: it is not waiting for a signal. *)
Definition thread_enabled (s : worker_system) : Prop :=
  ws_thread s ≠ Waiting ∧ ∃ s', thread_step s s'.

(** How many steps the thread has before it the announcement of a result. *)
Definition announce_in (s : worker_system) : nat :=
  if 0 <? ws_counter s then 0 else
  match ws_thread s with
  | Fetching | Waiting => 4
  | Validating _ _ => 3
  | Publishing _ => 2
  | Notifying => 1
  | Exited => 0
  end.

(** A job accepted and not announced: where the thread may be. *)
Definition working (s : worker_system) : Prop :=
  ws_counter s = 0 ∧
  match ws_thread s with
  | Fetching => stop (ws_worker s) = false ∧ job_pending (ws_worker s) = true ∧
      ∃ str, holds_string (job_path (ws_worker s)) str
  | Validating _ path => path_ok path
  | Publishing _ | Notifying => True
  | Waiting | Exited => False
  end.

Lemma in_flight_working fd rest s :
  worker_inv fd rest s → ws_reactor s = Running → ws_missed s = false → in_flight s ≠ [] →
  0 < ws_counter s ∨ working s.
Proof.
  intros H Hrun Hm Hfl. open_inv H.
  assert (Hstop : stop (ws_worker s) = false).
  { destruct (stop (ws_worker s)); [|done]. by destruct Hst as [[] _]. }
  destruct (decide (0 < ws_counter s)) as [|Hc]; [by left|right]. split; [lia|].
  unfold in_flight in Hfl. destruct (result_pending (ws_worker s)) eqn:Hrp.
  { destruct (Han Hm eq_refl) as [|Ht]; [done|]. by rewrite Ht. }
  destruct (ws_thread s) eqn:Ht; try done.
  - destruct (job_pending (ws_worker s)); [|done]. auto.
  - destruct (Hwa eq_refl) as [_ Hjp]. by rewrite Hjp in Hfl.
  - by rewrite Hex in Hstop.
Qed.

Lemma fetch_pending w str :
  stop w = false → job_pending w = true → holds_string (job_path w) str →
  ∃ path, worker_fetch w =
    Some (w <| job_pending := false |> <| job_running := true |>, Validating (job_id w) path).
Proof.
  intros Hs Hj Hstr. pose proof (holds_string_bound _ _ Hstr). unfold worker_fetch.
  rewrite Hs, Hj, (strlen_holds _ _ Hstr). cbn [negb andb mbind option_bind].
  rewrite mem_read_ok by lia. eauto.
Qed.

Lemma working_enabled s : working s → thread_enabled s.
Proof.
  intros [_ H]. unfold thread_enabled. destruct (ws_thread s) as [| |id path|result| |] eqn:Ht; try done.
  - destruct H as (Hs & Hj & str & Hstr). destruct (fetch_pending _ _ Hs Hj Hstr) as (path & E).
    split; [done|]. eexists. by eapply thread_fetch.
  - destruct (worker_validate_spec id path sample_firmware_env) as (r & l & E & _);
      [apply sample_firmware_env_ok|done|].
    split; [done|]. eexists. by eapply thread_validate; [|apply sample_firmware_env_ok|].
  - split; [done|]. eexists. by eapply thread_publish.
  - split; [done|]. eexists. by apply (thread_notify s [Wrote 8] _ Ht eq_refl).
Qed.

Lemma working_advances s s' :
  working s → thread_step s s' → ws_missed s' = false → (announce_in s' < announce_in s)%nat.
Proof.
  intros [Hc H] Hstep. unfold announce_in. rewrite Hc. destruct Hstep as [Ht|w pc Ht E|? ? ? ? ? Ht|? Ht|script c Ht E];
    rewrite Ht in *; cbn -[Z.ltb] in *; try rewrite Hc; intros Hm; try (cbn; lia); try done.
  - destruct H as (Hs & Hj & str & Hstr). destruct (fetch_pending _ _ Hs Hj Hstr) as (path & E').
    rewrite E in E'. injection E' as -> ->. cbn. lia.
  - apply notify_reactor_cases in E. apply orb_false_iff in Hm as [_ Hm]. apply Z.eqb_neq in Hm.
    rewrite (proj2 (Z.ltb_lt 0 c)) by lia. cbn. lia.
Qed.

(** While a job is in flight the mailbox takes no other. *)
Lemma submit_refused fd rest s id path status w signal :
  worker_inv fd rest s → in_flight s ≠ [] →
  (∀ p, path = Some p → Forall is_u8 p ∧ ∃ str, holds_string p str) →
  devmgr_worker_submit_firmware (ws_worker s) id path = Some (status, w, signal) →
  submitted s id status w signal = s.
Proof.
  intros H Hfl Hp E. open_inv H.
  destruct (submit_spec _ _ _ _ _ _ Hp Hpl E) as [(Hs & -> & ->)|(_ & _ & _ & Hj & Hr & Hrp & _)].
  - unfold submitted. rewrite (proj2 (Z.eqb_neq status DEVMGR_OK)) by done. rewrite app_nil_r. by destruct s.
  - destruct Hfl. unfold in_flight. rewrite Hj, Hrp. rewrite Hr in Hru. by destruct (ws_thread s).
Qed.


(** ** A worker at work *)

(** The next step of the thread, with what the file system shows it. *)
Definition thread_run (env : firmware_env) (ws : worker_system) : option worker_system :=
  match ws_thread ws with
  | Fetching =>
      '(w, pc) ← worker_fetch (ws_worker ws); Some (ws <| ws_worker := w |> <| ws_thread := pc |>)
  | Validating id path =>
      '(result, log) ← worker_validate id path env;
      Some (ws <| ws_thread := Publishing result |> <| ws_log := ws_log ws ++ log |>)
  | Publishing result =>
      Some (ws <| ws_worker := worker_publish (ws_worker ws) result |> <| ws_thread := Notifying |>)
  | Notifying =>
      let counter := ws_counter ws + 1 in
      Some (ws <| ws_counter := counter |> <| ws_thread := Fetching |>
               <| ws_missed := ws_missed ws || (counter =? ws_counter ws) |>)
  | Waiting | Exited => None
  end.

Lemma thread_run_step env ws ws' :
  firmware_env_ok env → thread_run env ws = Some ws' → thread_step ws ws'.
Proof.
  intros He. unfold thread_run. destruct (ws_thread ws) as [| |id path|result| |] eqn:Et; try done.
  - destruct (worker_fetch _) as [[w pc]|] eqn:E; cbn; [|done]. intros [= <-]. by eapply thread_fetch.
  - destruct (worker_validate id path env) as [[result log]|] eqn:E; cbn; [|done]. intros [= <-].
    by eapply thread_validate.
  - intros [= <-]. by apply thread_publish.
  - intros [= <-]. by apply (thread_notify _ [Wrote 8]).
Qed.

Fixpoint thread_runs (n : nat) (env : firmware_env) (ws : worker_system) : option worker_system :=
  match n with
  | O => Some ws
  | S n => ws ← thread_run env ws; thread_runs n env ws
  end.

Lemma thread_runs_reachable init n env ws ws' :
  firmware_env_ok env → worker_reachable init ws → thread_runs n env ws = Some ws' →
  worker_reachable init ws'.
Proof.
  intros He. revert ws. induction n as [|n IH]; cbn; intros ws Hr E; [by simplify_eq|].
  destruct (thread_run env ws) as [ws1|] eqn:E1; [|done]. cbn in E. apply (IH ws1); [|done].
  eapply reach_step; [exact Hr|]. by eapply worker_thread, thread_run_step.
Qed.

Definition sample_init : init_env := mk_init_env false false 4 false.

(** A thread that found no job and waits, and the submission that wakes it. *)
Definition waiting_system : worker_system :=
  (worker_start sample_init) <| ws_thread := Waiting |>.

Definition submitted_system : worker_system :=
  (worker_start sample_init)
    <| ws_worker := (ws_worker (worker_start sample_init))
         <| job_path := splice (zeros DEVMGR_WORKER_PATH_MAX) 0 [97; 0] |> <| job_id := 1 |>
         <| job_pending := true |> |>
    <| ws_accepted := [1] |>.

Lemma submitted_reachable : worker_reachable sample_init submitted_system.
Proof.
  apply (reach_step _ waiting_system).
  { apply (thread_runs_reachable _ 1 sample_firmware_env (worker_start sample_init));
      [apply sample_firmware_env_ok|constructor|by vm_compute]. }
  refine (reactor_submit waiting_system 1 (Some [97; 0]) DEVMGR_OK _ true eq_refl _ _ _).
  - done.
  - intros p [= <-]. split; [by repeat constructor|]. exists [97], []. split; [done|by repeat constructor].
  - by vm_compute.
Qed.

(** The reactor's calls on the way to the end, refused where they are not made. *)
Definition collect_run (ws : worker_system) : option worker_system :=
  guard (ws_reactor ws = Running ∧ 0 < ws_counter ws);;
  let '(status, w, result) := devmgr_worker_take_result (ws_worker ws) (mk_validation 0 0 no_image) in
  guard (status = DEVMGR_OK);; Some (collected ws w result).

Definition stop_run (ws : worker_system) : option worker_system :=
  guard (ws_reactor ws = Running);;
  let '(w, joining) := worker_destroy_stop (ws_worker ws) in
  guard (joining = true);; Some (stopping ws w).

Definition join_run (ws : worker_system) : option worker_system :=
  guard (ws_reactor ws = Joining);;
  match ws_thread ws with
  | Exited => let '(w, log) := worker_destroy_finish (ws_worker ws) in Some (joined ws w log)
  | _ => None
  end.

Lemma collect_run_step ws ws' : collect_run ws = Some ws' → worker_step ws ws'.
Proof.
  unfold collect_run. intros H. case_guard as Hg; [|done]. destruct Hg. cbn in H.
  destruct (devmgr_worker_take_result _ _) as [[status w] result] eqn:E.
  case_guard; [|done]. cbn in H. injection H as <-. subst. by eapply reactor_collect.
Qed.

Lemma stop_run_step ws ws' : stop_run ws = Some ws' → worker_step ws ws'.
Proof.
  unfold stop_run. intros H. case_guard; [|done]. cbn in H.
  destruct (worker_destroy_stop _) as [w joining] eqn:E.
  case_guard; [|done]. cbn in H. injection H as <-. subst. by apply reactor_stop.
Qed.

Lemma join_run_step ws ws' : join_run ws = Some ws' → worker_step ws ws'.
Proof.
  unfold join_run. intros H. case_guard; [|done]. cbn in H. destruct (ws_thread ws) eqn:Et; try done.
  destruct (worker_destroy_finish _) as [w log] eqn:E. injection H as <-. by apply reactor_join.
Qed.

(** The job done, its result collected and the worker destroyed. *)
Definition finished_system : option worker_system :=
  ws ← thread_runs 4 sample_firmware_env submitted_system;
  ws ← collect_run ws;
  ws ← stop_run ws;
  ws ← thread_runs 1 sample_firmware_env ws;
  join_run ws.

Lemma finished_reachable ws : finished_system = Some ws → worker_reachable sample_init ws.
Proof.
  pose proof sample_firmware_env_ok as He. unfold finished_system. intros E.
  destruct (thread_runs 4 _ _) as [ws1|] eqn:E1; [|done]. cbn [mbind option_bind] in E.
  destruct (collect_run ws1) as [ws2|] eqn:E2; [|done]. cbn [mbind option_bind] in E.
  destruct (stop_run ws2) as [ws3|] eqn:E3; [|done]. cbn [mbind option_bind] in E.
  destruct (thread_runs 1 _ ws3) as [ws4|] eqn:E4; [|done]. cbn [mbind option_bind] in E.
  eapply reach_step; [|by apply join_run_step].
  eapply thread_runs_reachable; [exact He| |exact E4].
  eapply reach_step; [|by apply stop_run_step].
  eapply reach_step; [|by apply collect_run_step].
  eapply thread_runs_reachable; [exact He|apply submitted_reachable|exact E1].
Qed.

Lemma finished_destroyed :
  ∃ ws, finished_system = Some ws ∧ ws_reactor ws = Destroyed ∧ length (ws_taken ws) = 1%nat.
Proof.
  assert (match finished_system with
          | Some ws => bool_decide (ws_reactor ws = Destroyed) && (length (ws_taken ws) =? 1)%nat
          | None => false
          end = true) as H by by vm_compute.
  destruct finished_system as [ws|]; [|done]. apply andb_true_iff in H as [H1%bool_decide_eq_true H2%Nat.eqb_eq].
  eauto.
Qed.

Lemma worker_no_leak_witness :
  ∃ ws, ws_reactor ws = Destroyed ∧ length (ws_taken ws) = 1%nat ∧
    is_Some (held (ws_log ws) []) ∧ (ws_reactor ws = Destroyed → holds (ws_log ws) (taken_resources (ws_taken ws))).
Proof.
  destruct finished_destroyed as (ws & E & Hd & Hl). exists ws. split; [exact Hd|]. split; [exact Hl|].
  exact (worker_no_leak sample_init ws eq_refl (finished_reachable ws E)).
Defined.

Lemma worker_exactly_once_witness :
  ws_accepted submitted_system = map validation_job_id (ws_taken submitted_system) ++ [1] ∧
  (length (in_flight submitted_system) ≤ 1)%nat ∧
  Forall result_ok (ws_taken submitted_system).
Proof. apply (worker_exactly_once sample_init submitted_system eq_refl submitted_reachable). Defined.

