(* ===== verification/Daemon.v ===== *)
(** * The daemon: apps/devmgrd/daemon.h and apps/devmgrd/daemon.c

    One event loop over the device's line, the clients' sockets, a timer, the
    signals and the validation worker.  A handler is a computation on the state
    [daemon] that may be stuck; it is stuck only on undefined behaviour or when
    the script of a loop that repeats a system call ends too early.  The other
    calls take their outcomes from [kernel]. *)

From stdpp Require Import gmap.
From S2P Require Import Prelude Crc32 RingBuffer Frame Parser Session Ipc Upgrade Os Transport Firmware Worker.

(** ** State *)

Definition MAX_CLIENTS : Z := 16.

Record daemon_client := mk_client {
  client_fd : Z;
  client_input : list Z;
  input_size : Z;
  expected_size : Z;
  client_output : list Z;
  output_size : Z;
  output_offset : Z;
  close_after_write : bool;
}.

#[export] Instance eta_client : Eta daemon_client := λ c,
  mk_client (client_fd c) (client_input c) (input_size c) (expected_size c) (client_output c)
    (output_size c) (output_offset c) (close_after_write c).

(** A client after [memset(..., 0, ...)]. *)
Definition zero_client : daemon_client :=
  mk_client 0 (zeros (DEVMGR_IPC_REQUEST_HEADER_SIZE + DEVMGR_IPC_MAX_PAYLOAD)) 0 0
    (zeros (DEVMGR_IPC_RESPONSE_HEADER_SIZE + DEVMGR_IPC_MAX_PAYLOAD)) 0 0 false.

(** What is at a path of the file system. *)
Inductive path_kind := NoFile | SocketFile | OtherFile.

#[export] Instance path_kind_eq_dec : EqDecision path_kind.
Proof. solve_decision. Defined.

(** The kernel: the outcome of the n-th call of clock_gettime (seconds and
    nanoseconds) and of epoll_ctl (whether it fails), the number of calls so
    far, the epoll interest list and what is at the socket's path.  The last
    five fields are a trace: the frames queued for the device, the bytes the
    line took, the bytes clients were sent, by descriptor, the frames the parser
    delivered, and the requests that were begun. *)
Record kernel := mk_kernel {
  k_clock : nat → option (Z * Z);
  k_epoll_fails : nat → bool;
  k_calls : nat;
  k_interest : gmap Z Z;
  k_path : path_kind;
  k_frames : list wire_frame;
  k_line : list Z;
  k_replies : list (Z * list Z);
  k_heard : list wire_frame;
  k_requests : list wire_frame;
}.

#[export] Instance eta_kernel : Eta kernel := λ k,
  mk_kernel (k_clock k) (k_epoll_fails k) (k_calls k) (k_interest k) (k_path k)
    (k_frames k) (k_line k) (k_replies k) (k_heard k) (k_requests k).

(** struct daemon_context and its surroundings: [worker] is the worker with its
    thread and the log of resources of the process. *)
Record daemon := mk_daemon {
  epoll_fd : Z;
  listen_fd : Z;
  timer_fd : Z;
  signal_fd : Z;
  transport : devmgr_transport;
  parser : devmgr_parser;
  session : devmgr_session;
  clients : list daemon_client;
  active_client : Z;
  transport_output : list Z;
  transport_output_size : Z;
  transport_output_offset : Z;
  socket_path : option (list Z);
  running : bool;
  latest_telemetry : list Z;
  latest_telemetry_length : Z;
  telemetry_frames : Z;
  firmware : devmgr_firmware_image;
  upgrade : devmgr_upgrade;
  upgrade_operation_id : Z;
  upgrade_result : Z;
  worker : worker_system;
  pending_upgrade_version : list Z;
  kern : kernel;
}.

#[export] Instance eta_daemon : Eta daemon := λ d,
  mk_daemon (epoll_fd d) (listen_fd d) (timer_fd d) (signal_fd d) (transport d) (parser d)
    (session d) (clients d) (active_client d) (transport_output d) (transport_output_size d)
    (transport_output_offset d) (socket_path d) (running d) (latest_telemetry d)
    (latest_telemetry_length d) (telemetry_frames d) (firmware d) (upgrade d)
    (upgrade_operation_id d) (upgrade_result d) (worker d) (pending_upgrade_version d) (kern d).

(** ** Computations on the daemon *)

Definition M (A : Type) : Type := daemon → option (A * daemon).

#[export] Instance M_ret : MRet M := λ A a d, Some (a, d).
#[export] Instance M_bind : MBind M := λ A B k m d, '(a, d) ← m d; k a d.

Definition gets {A} (f : daemon → A) : M A := λ d, Some (f d, d).
Definition modify (f : daemon → daemon) : M unit := λ d, Some (tt, f d).

(** A step that may be undefined. *)
Definition lift {A} (o : option A) : M A := λ d, a ← o; Some (a, d).

(** A function that returns a status and an updated part of the state. *)
Definition on_part {A B} (get : daemon → A) (put : A → daemon → daemon) (f : A → B * A) : M B :=
  λ d, let '(b, a) := f (get d) in Some (b, put a d).

Definition log (events : list os_event) : M unit :=
  modify (λ d, d <| worker := (worker d) <| ws_log := ws_log (worker d) ++ events |> |>).

Definition session_transition (event : devmgr_session_event) : M Z :=
  on_part session (λ s d, d <| session := s |>) (λ s, devmgr_session_transition s event).

Definition set_upgrade_state (state : devmgr_upgrade_state) : M unit :=
  modify (λ d, d <| upgrade := (upgrade d) <| upgrade_state := state |> |>).

Definition set_upgrade_result (result : Z) : M unit :=
  modify (λ d, d <| upgrade_result := result |>).

(** devmgr_firmware_close(&context->firmware) *)
Definition close_firmware : M unit :=
  image ← gets firmware;
  let '(image, events) := devmgr_firmware_close image in
  log events;;
  modify (λ d, d <| firmware := image |>).

(** ** System calls *)

Definition next_call : M nat :=
  n ← gets (λ d, k_calls (kern d));
  modify (λ d, d <| kern := (kern d) <| k_calls := S n |> |>);;
  mret n.

Definition monotonic_ns : M Z :=
  n ← next_call;
  now ← gets (λ d, k_clock (kern d) n);
  mret (match now with
        | None => 0
        | Some (tv_sec, tv_nsec) => u64 (u64 (u64 tv_sec * 1000000000) + u64 tv_nsec)
        end).

Definition EPOLLIN : Z := 0x1.
Definition EPOLLOUT : Z := 0x4.
Definition EPOLLERR : Z := 0x8.
Definition EPOLLHUP : Z := 0x10.
Definition EPOLLRDHUP : Z := 0x2000.

Inductive epoll_operation := EPOLL_CTL_ADD | EPOLL_CTL_MOD | EPOLL_CTL_DEL.

(** epoll_ctl: whether it failed. *)
Definition epoll_ctl (operation : epoll_operation) (fd events : Z) : M bool :=
  n ← next_call;
  failed ← gets (λ d, k_epoll_fails (kern d) n);
  if (failed : bool) then mret true
  else
  modify (λ d, d <| kern := (kern d) <| k_interest :=
    match operation with
    | EPOLL_CTL_DEL => delete fd (k_interest (kern d))
    | _ => <[fd := events]> (k_interest (kern d))
    end |> |>);;
  mret false.

Definition epoll_update (operation : epoll_operation) (fd events : Z) : M Z :=
  failed ← epoll_ctl operation fd events;
  mret (if (failed : bool) then DEVMGR_ERROR_IO else DEVMGR_OK).

Definition trace_frame (frame : devmgr_frame) : M unit :=
  modify (λ d, d <| kern := (kern d) <| k_frames := k_frames (kern d) ++ [view frame] |> |>).

Definition trace_heard (frame : devmgr_frame) : M unit :=
  modify (λ d, d <| kern := (kern d) <| k_heard := k_heard (kern d) ++ [view frame] |> |>).

Definition trace_request (frame : devmgr_frame) : M unit :=
  modify (λ d, d <| kern := (kern d) <| k_requests := k_requests (kern d) ++ [view frame] |> |>).

Definition trace_line (bytes : list Z) : M unit :=
  modify (λ d, d <| kern := (kern d) <| k_line := k_line (kern d) ++ bytes |> |>).

Definition trace_reply (fd : Z) (bytes : list Z) : M unit :=
  modify (λ d, d <| kern := (kern d) <| k_replies := k_replies (kern d) ++ [(fd, bytes)] |> |>).

(** ** Clients *)

Definition get_client (index : Z) : M daemon_client :=
  cs ← gets clients; lift (if 0 <=? index then cs !! Z.to_nat index else None).

Definition set_client (index : Z) (client : daemon_client) : M unit :=
  modify (λ d, d <| clients := <[Z.to_nat index := client]> (clients d) |>).

Definition close_client (index : Z) : M unit :=
  client ← get_client index;
  (if 0 <=? client_fd client then
     epoll_ctl EPOLL_CTL_DEL (client_fd client) 0;;
     log [Released (Fd (client_fd client))];;
     set_client index (client <| client_fd := -1 |>)
   else mret tt);;
  active ← gets active_client;
  if active =? index then modify (λ d, d <| active_client := -1 |>) else mret tt.

(** [payload] is [None] for NULL; the response is zeroed before it is filled. *)
Definition queue_client_response (index command status : Z) (payload : option (list Z))
    (payload_length : Z) : M Z :=
  client ← get_client index;
  let '(payload_length, status) :=
    if DEVMGR_IPC_MAX_PAYLOAD <? payload_length then (0, DEVMGR_ERROR_LIMIT)
    else (payload_length, status) in
  bytes ← lift (match payload with
                | Some payload =>
                    if negb (payload_length =? 0)
                    then memcpy (zeros DEVMGR_IPC_MAX_PAYLOAD) 0 payload 0 payload_length
                    else Some (zeros DEVMGR_IPC_MAX_PAYLOAD)
                | None => Some (zeros DEVMGR_IPC_MAX_PAYLOAD)
                end);
  '(result, output, size) ← lift (devmgr_ipc_encode_response
      (mk_ipc_response command status (u32 payload_length) bytes) (client_output client)
      (DEVMGR_IPC_RESPONSE_HEADER_SIZE + DEVMGR_IPC_MAX_PAYLOAD) (output_size client));
  set_client index (client <| client_output := output |> <| output_size := size |>);;
  if negb (result =? DEVMGR_OK) then mret result
  else
  client ← get_client index;
  set_client index (client <| output_offset := 0 |> <| close_after_write := true |>);;
  epoll_update EPOLL_CTL_MOD (client_fd client)
    (Z.lor EPOLLIN (Z.lor EPOLLOUT EPOLLRDHUP)).

(** ** The line to the device *)

Definition update_transport_events : M Z :=
  d ← gets id;
  let events := if transport_output_offset d <? transport_output_size d
                then Z.lor EPOLLIN EPOLLOUT else EPOLLIN in
  epoll_update EPOLL_CTL_MOD (devmgr_transport_get_fd (transport d)) events.

Definition queue_frame (frame : devmgr_frame) : M Z :=
  d ← gets id;
  if transport_output_offset d <? transport_output_size d then mret DEVMGR_ERROR_BUSY
  else
  modify (λ d, d <| transport_output_offset := 0 |>);;
  '(result, output, size) ← lift (devmgr_frame_encode frame (transport_output d)
                                    DEVMGR_PROTOCOL_MAX_FRAME (transport_output_size d));
  modify (λ d, d <| transport_output := output |> <| transport_output_size := size |>);;
  if negb (result =? DEVMGR_OK) then mret result
  else trace_frame frame;; update_transport_events.

Definition retransmit_frame (frame : devmgr_frame) : M Z := queue_frame frame.

Definition upgrade_policy : devmgr_retry_policy := mk_policy 2000 750 4.

Definition cancel_request : M unit :=
  modify (λ d, d <| session := devmgr_session_cancel_request (session d) |>).

(** devmgr_session_begin_request on the daemon's session; [frame] is what
    [*request] holds before. *)
Definition begin_request (type flags : Z) (payload : option (list Z)) (payload_length : Z)
    (policy : devmgr_retry_policy) (now_ns : Z) (frame : devmgr_frame) : M (Z * devmgr_frame) :=
  s ← gets session;
  '(result, s, request) ←
    lift (devmgr_session_begin_request s type flags payload payload_length policy now_ns frame);
  modify (λ d, d <| session := s |>);;
  (if result =? DEVMGR_OK then trace_request request else mret tt);;
  mret (result, request).

(** [unset] is the uninitialised local [request]. *)
Definition queue_upgrade_request (unset : devmgr_frame) : M Z :=
  u ← gets upgrade;
  '(result, u, upgrade_frame) ← lift (devmgr_upgrade_build_request u);
  modify (λ d, d <| upgrade := u |>);;
  '(result, request) ←
    (if result =? DEVMGR_OK then
       now ← monotonic_ns;
       begin_request (frame_type upgrade_frame) (frame_flags upgrade_frame)
         (Some (frame_payload upgrade_frame)) (frame_payload_length upgrade_frame) upgrade_policy
         now unset
     else mret (result, unset));
  result ← (if result =? DEVMGR_OK then queue_frame request else mret result);
  (if negb (result =? DEVMGR_OK) then cancel_request else mret tt);;
  mret result.

(** ** Results of the worker *)

(** The read of the eventfd: interrupted reads are repeated, and a read that
    gets through takes the whole count, if there is one. *)
Fixpoint read_event (script : list read_outcome) (counter : Z) : option (bool * Z) :=
  match script with
  | [] => None
  | ReadError EINTR :: script => read_event script counter
  | ReadError _ :: _ => Some (false, counter)
  | Read _ :: _ => Some (if counter =? 0 then (false, 0) else (true, 0))
  end.

(** devmgr_worker_take_result, after the count was taken. *)
Definition take_result (unset : devmgr_validation_result) : M (Z * devmgr_validation_result) :=
  ws ← gets worker;
  let '(result, w, validation) := devmgr_worker_take_result (ws_worker ws) unset in
  (if result =? DEVMGR_OK then modify (λ d, d <| worker := collected ws w validation |>)
   else mret tt);;
  mret (result, validation).

(** An image is valid: the upgrade begins. *)
Definition launch_upgrade (image : devmgr_firmware_image) (unset : devmgr_frame) : M Z :=
  modify (λ d, d <| firmware := image |>);;
  d ← gets id;
  '(result, u) ← lift (devmgr_upgrade_start (upgrade d) (image_data (firmware d))
                         (image_size (firmware d)) (image_crc32 (firmware d))
                         (pending_upgrade_version d) DEVMGR_UPGRADE_DEFAULT_CHUNK);
  modify (λ d, d <| upgrade := u |>);;
  result ← (if result =? DEVMGR_OK then session_transition DEVMGR_SESSION_START_UPGRADE
            else mret result);
  result ← (if result =? DEVMGR_OK then queue_upgrade_request unset else mret result);
  if negb (result =? DEVMGR_OK) then
    set_upgrade_result result;;
    set_upgrade_state DEVMGR_UPGRADE_ERROR;;
    close_firmware;;
    s ← gets session;
    (if bool_decide (session_state s = DEVMGR_DEVICE_UPGRADING)
     then session_transition DEVMGR_SESSION_UPGRADE_DONE;; mret tt else mret tt);;
    mret DEVMGR_OK
  else mret DEVMGR_OK.

Definition handle_worker_completion (script : list read_outcome) (unset : devmgr_validation_result)
    (unset_request : devmgr_frame) : M Z :=
  ws ← gets worker;
  '(full, counter) ← lift (read_event script (ws_counter ws));
  modify (λ d, d <| worker := (worker d) <| ws_counter := counter |> |>);;
  if negb (full : bool) then mret DEVMGR_ERROR_IO
  else
  '(result, validation) ← take_result unset;
  if negb (result =? DEVMGR_OK) then mret result
  else
  d ← gets id;
  if negb (validation_job_id validation =? upgrade_operation_id d) ||
     negb (bool_decide (upgrade_state (upgrade d) = DEVMGR_UPGRADE_VALIDATING)) then
    log (devmgr_firmware_close (validation_image validation)).2;;
    mret DEVMGR_OK
  else if negb (validation_status validation =? DEVMGR_OK) then
    set_upgrade_result (validation_status validation);;
    set_upgrade_state DEVMGR_UPGRADE_ERROR;;
    mret DEVMGR_OK
  else
  launch_upgrade (validation_image validation) unset_request.

(** ** Frames from the device *)

Definition is_refusal (frame : devmgr_frame) : bool :=
  (frame_type frame =? DEVMGR_MSG_NACK) || (frame_type frame =? DEVMGR_MSG_ERROR).

(** The end of an upgrade, good or bad. *)
Definition finish_upgrade (result : Z) : M unit :=
  set_upgrade_result result;;
  session_transition DEVMGR_SESSION_UPGRADE_DONE;;
  close_firmware.

(** The three things a frame may be: telemetry, an answer to the upgrade, an
    answer for a client. *)
Definition store_telemetry (frame : devmgr_frame) : M Z :=
  (if frame_payload_length frame =? 16 then
     d ← gets id;
     bytes ← lift (memcpy (latest_telemetry d) 0 (frame_payload frame) 0
                          (frame_payload_length frame));
     modify (λ d, d <| latest_telemetry := bytes |>
                    <| latest_telemetry_length := frame_payload_length frame |>
                    <| telemetry_frames := u64 (telemetry_frames d + 1) |>)
   else mret tt);;
  mret DEVMGR_OK.

Definition upgrade_response (unset : devmgr_frame) (request_type : Z) (frame : devmgr_frame) : M Z :=
  d ← gets id;
  '(result, u) ← lift (devmgr_upgrade_accept_response (upgrade d) request_type frame);
  modify (λ d, d <| upgrade := u |>);;
  if (result =? DEVMGR_OK) && bool_decide (upgrade_state u = DEVMGR_UPGRADE_COMPLETE) then
    finish_upgrade DEVMGR_OK;; mret result
  else if negb (result =? DEVMGR_OK) then finish_upgrade result;; mret DEVMGR_OK
  else queue_upgrade_request unset.

Definition client_answer (request_type : Z) (frame : devmgr_frame) : M Z :=
  index ← gets active_client;
  modify (λ d, d <| active_client := -1 |>);;
  (if negb (is_refusal frame) then
     if request_type =? DEVMGR_MSG_START_TELEMETRY
     then session_transition DEVMGR_SESSION_START_STREAM;; mret tt
     else if request_type =? DEVMGR_MSG_STOP_TELEMETRY
     then session_transition DEVMGR_SESSION_STOP_STREAM;; mret tt
     else mret tt
   else mret tt);;
  queue_client_response index request_type
    (if is_refusal frame then DEVMGR_ERROR_PROTOCOL else DEVMGR_OK)
    (Some (frame_payload frame)) (frame_payload_length frame).

Definition on_device_frame (unset : devmgr_frame) (frame : devmgr_frame) : M Z :=
  trace_heard frame;;
  if (frame_type frame =? DEVMGR_MSG_TELEMETRY) && (frame_sequence frame =? 0)
  then store_telemetry frame
  else
  request_type ← gets (λ d, frame_type (pending_frame (session_pending (session d))));
  result ← on_part session (λ s d, d <| session := s |>)
             (λ s, devmgr_session_accept_response s frame);
  if negb (result =? DEVMGR_OK) then mret DEVMGR_OK
  else
  d ← gets id;
  if bool_decide (session_state (session d) = DEVMGR_DEVICE_HANDSHAKING) then
    if is_refusal frame then mret DEVMGR_ERROR_PROTOCOL
    else session_transition DEVMGR_SESSION_HANDSHAKE_OK
  else if devmgr_upgrade_active (upgrade d) then upgrade_response unset request_type frame
  else if 0 <=? active_client d then client_answer request_type frame
  else mret DEVMGR_OK.

(** The loop of flush_transport. *)
Fixpoint flush_loop (fuel : nat) (script : list write_outcome) : M Z :=
  d ← gets id;
  if negb (transport_output_offset d <? transport_output_size d) then mret DEVMGR_OK
  else match fuel with
  | O => lift None
  | S fuel =>
      bytes ← lift (mem_read (transport_output d) (transport_output_offset d)
                      (transport_output_size d - transport_output_offset d));
      '(outcome, script) ← lift (devmgr_transport_write (transport d) (len bytes) script);
      match outcome with
      | Wrote count =>
          if 0 <? count then
            trace_line (take (Z.to_nat count) bytes);;
            modify (λ d, d <| transport_output_offset := transport_output_offset d + count |>);;
            flush_loop fuel script
          else mret DEVMGR_ERROR_DISCONNECTED
      | WriteError EAGAIN => mret DEVMGR_OK
      | WriteError _ => mret DEVMGR_ERROR_DISCONNECTED
      end
  end.

Definition flush_transport (script : list write_outcome) : M Z :=
  result ← flush_loop (length script) script;
  if negb (result =? DEVMGR_OK) then mret result
  else
  d ← gets id;
  (if transport_output_offset d =? transport_output_size d
   then modify (λ d, d <| transport_output_offset := 0 |> <| transport_output_size := 0 |>)
   else mret tt);;
  update_transport_events.

(** The loop of read_transport; [locals] is the stack of the parser. *)
Fixpoint read_loop (fuel : nat) (script : list read_outcome) (locals : drain_locals)
    (unset : devmgr_frame) : M Z :=
  match fuel with
  | O => lift None
  | S fuel =>
      d ← gets id;
      '(outcome, script) ← lift (devmgr_transport_read (transport d) 2048 script);
      match outcome with
      | Read bytes =>
          if 0 <? len bytes then
            '(result, p, d, _) ← lift (devmgr_parser_feed (on_device_frame unset) (parser d) locals
                                         (Some bytes) (len bytes) d 0);
            modify (λ _, d <| parser := p |>);;
            if negb (result =? DEVMGR_OK) then mret result else read_loop fuel script locals unset
          else mret DEVMGR_OK
      | ReadError EAGAIN => mret DEVMGR_OK
      | ReadError _ => mret DEVMGR_ERROR_DISCONNECTED
      end
  end.

Definition read_transport (script : list read_outcome) (locals : drain_locals)
    (unset : devmgr_frame) : M Z :=
  read_loop (length script) script locals unset.

(** ** Requests from clients *)

Definition upgrade_state_code (state : devmgr_upgrade_state) : Z :=
  match state with
  | DEVMGR_UPGRADE_IDLE => 0
  | DEVMGR_UPGRADE_VALIDATING => 1
  | DEVMGR_UPGRADE_ENTER_BOOTLOADER => 2
  | DEVMGR_UPGRADE_BEGIN => 3
  | DEVMGR_UPGRADE_TRANSFER => 4
  | DEVMGR_UPGRADE_RECOVER => 5
  | DEVMGR_UPGRADE_END => 6
  | DEVMGR_UPGRADE_VERIFY => 7
  | DEVMGR_UPGRADE_ACTIVATE => 8
  | DEVMGR_UPGRADE_REBOOT => 9
  | DEVMGR_UPGRADE_COMPLETE => 10
  | DEVMGR_UPGRADE_ERROR => 11
  end.

Definition request_policy : devmgr_retry_policy := mk_policy 1000 500 2.

(** The three commands the daemon answers itself. *)
Definition get_telemetry (index command : Z) : M Z :=
  d ← gets id;
  if latest_telemetry_length d =? 0
  then queue_client_response index command DEVMGR_ERROR_NOT_FOUND None 0
  else queue_client_response index command DEVMGR_OK (Some (latest_telemetry d))
         (latest_telemetry_length d).

Definition upgrade_status (index : Z) (request : devmgr_ipc_request) : M Z :=
  d ← gets id;
  let not_found := queue_client_response index (request_command request) DEVMGR_ERROR_NOT_FOUND None 0 in
  if negb (request_payload_length request =? 4) || (upgrade_operation_id d =? 0) then not_found
  else
  id ← lift (devmgr_get_le32 (request_payload request) 0);
  if negb (id =? upgrade_operation_id d) then not_found
  else
  p ← lift (devmgr_put_le32 (zeros 20) 0 (upgrade_operation_id d));
  p ← lift (store p 4 (u8 (upgrade_state_code (upgrade_state (upgrade d)))));
  p ← lift (devmgr_put_le32 p 8 (u32 (upgrade_result d)));
  p ← lift (devmgr_put_le32 p 12 (offset (upgrade d)));
  p ← lift (devmgr_put_le32 p 16 (u32 (Upgrade.image_size (upgrade d))));
  queue_client_response index (request_command request) DEVMGR_OK (Some p) 20.

(** devmgr_worker_submit_firmware on the daemon's worker. *)
Definition submit_firmware (id : Z) (path : list Z) : M Z :=
  ws ← gets worker;
  '(result, w, signal) ← lift (devmgr_worker_submit_firmware (ws_worker ws) id (Some path));
  modify (λ d, d <| worker := submitted ws id result w signal |>);;
  mret result.

(** The job of a request that passed all checks is handed to the worker. *)
Definition submit_upgrade (index : Z) (request : devmgr_ipc_request)
    (version_offset version_length : Z) (unset : list Z) : M Z :=
  let payload := request_payload request in
  let respond status payload size :=
    queue_client_response index (request_command request) status payload size in
  d ← gets id;
  let id := u32 (upgrade_operation_id d + 1) in
  let id := if id =? 0 then 1 else id in
  modify (λ d, d <| upgrade_operation_id := id |>);;
  set_upgrade_result DEVMGR_OK;;
  set_upgrade_state DEVMGR_UPGRADE_VALIDATING;;
  version ← lift (memcpy (pending_upgrade_version d) 0 payload version_offset (version_length + 1));
  modify (λ d, d <| pending_upgrade_version := version |>);;
  result ← submit_firmware id payload;
  if negb (result =? DEVMGR_OK) then
    set_upgrade_result result;;
    set_upgrade_state DEVMGR_UPGRADE_ERROR;;
    respond result None 0
  else
  operation_payload ← lift (devmgr_put_le32 (take 4 unset) 0 id);
  respond DEVMGR_OK (Some operation_payload) 4.

Definition start_upgrade (index : Z) (request : devmgr_ipc_request) (unset : list Z) : M Z :=
  let payload := request_payload request in
  let length := request_payload_length request in
  let respond status payload size :=
    queue_client_response index (request_command request) status payload size in
  path_end ← lift (memchr0 payload 0 length);
  match path_end with
  | None => respond DEVMGR_ERROR_INVALID None 0
  | Some path_length =>
      let version_offset := path_length + 1 in
      version_end ← (if (path_length =? 0) || (length <=? version_offset) then mret None
                     else lift (memchr0 payload version_offset (length - version_offset)));
      match version_end with
      | None => respond DEVMGR_ERROR_INVALID None 0
      | Some version_length =>
          if (version_length =? 0) || (DEVMGR_UPGRADE_VERSION_MAX <? version_length) then
            respond DEVMGR_ERROR_INVALID None 0
          else
          d ← gets id;
          if negb (bool_decide (session_state (session d) = DEVMGR_DEVICE_READY)) ||
             (0 <=? active_client d) || devmgr_upgrade_active (upgrade d) then
            respond DEVMGR_ERROR_BUSY None 0
          else
          submit_upgrade index request version_offset version_length unset
      end
  end.

(** [unset] stands for the uninitialised bytes of the locals. *)
Definition start_request (index : Z) (request : devmgr_ipc_request) (unset : list Z)
    (unset_frame : devmgr_frame) : M Z :=
  let command := request_command request in
  let respond status := queue_client_response index command status None 0 in
  if command =? DEVMGR_IPC_GET_TELEMETRY then get_telemetry index command
  else if command =? DEVMGR_IPC_UPGRADE_STATUS then upgrade_status index request
  else if command =? DEVMGR_IPC_UPGRADE then start_upgrade index request unset
  else
  d ← gets id;
  let state := session_state (session d) in
  if devmgr_upgrade_active (upgrade d) then respond DEVMGR_ERROR_BUSY
  else if (command =? DEVMGR_MSG_START_TELEMETRY) &&
          negb (bool_decide (state = DEVMGR_DEVICE_READY)) then respond DEVMGR_ERROR_STATE
  else if (command =? DEVMGR_MSG_STOP_TELEMETRY) &&
          negb (bool_decide (state = DEVMGR_DEVICE_STREAMING)) then respond DEVMGR_ERROR_STATE
  else if negb (bool_decide (state = DEVMGR_DEVICE_READY)) &&
          negb (bool_decide (state = DEVMGR_DEVICE_STREAMING)) then respond DEVMGR_ERROR_STATE
  else if 0 <=? active_client d then respond DEVMGR_ERROR_BUSY
  else
  now ← monotonic_ns;
  '(result, frame) ← begin_request command DEVMGR_FRAME_ACK_REQUIRED (Some (request_payload request))
                       (u16 (request_payload_length request)) request_policy now unset_frame;
  if negb (result =? DEVMGR_OK) then respond result
  else
  result ← queue_frame frame;
  if negb (result =? DEVMGR_OK) then cancel_request;; respond result
  else
  modify (λ d, d <| active_client := index |>);;
  mret DEVMGR_OK.

(** ** Client sockets *)

(** A request as it lies on the stack before it is decoded. *)
Record locals := mk_stack {
  unset_bytes : list Z;
  unset_frame : devmgr_frame;
  unset_request : devmgr_ipc_request;
  unset_validation : devmgr_validation_result;
  unset_parser : drain_locals;
}.

(** The part of handle_client_input after bytes have been read into the
    buffer; [None] means that more are needed. *)
Definition client_received (index : Z) (stack : locals) : M (option Z) :=
  client ← get_client index;
  stop ← (if (DEVMGR_IPC_REQUEST_HEADER_SIZE <=? input_size client) && (expected_size client =? 0)
          then
            payload_length ← lift (devmgr_get_le32 (client_input client) 4);
            if DEVMGR_IPC_MAX_PAYLOAD <? payload_length then
              result ← queue_client_response index 0 DEVMGR_ERROR_LIMIT None 0;
              mret (Some result)
            else
              set_client index (client <| expected_size :=
                                  DEVMGR_IPC_REQUEST_HEADER_SIZE + payload_length |>);;
              mret None
          else mret None);
  match stop with
  | Some result => mret (Some result)
  | None =>
      client ← get_client index;
      if negb (expected_size client =? 0) && (input_size client =? expected_size client) then
        '(result, request) ← lift (devmgr_ipc_decode_request (client_input client)
                                     (input_size client) (unset_request stack));
        result ← (if negb (result =? DEVMGR_OK)
                  then queue_client_response index 0 result None 0
                  else start_request index request (unset_bytes stack) (unset_frame stack));
        mret (Some result)
      else mret None
  end.

Fixpoint handle_client_input (script : list read_outcome) (index : Z) (stack : locals) : M Z :=
  match script with
  | [] => lift None
  | outcome :: script =>
      client ← get_client index;
      match outcome with
      | Read available =>
          let bytes := delivered available
            (DEVMGR_IPC_REQUEST_HEADER_SIZE + DEVMGR_IPC_MAX_PAYLOAD - input_size client) in
          if 0 <? len bytes then
            input ← lift (mem_write (client_input client) (input_size client) bytes);
            set_client index (client <| client_input := input |>
                                     <| input_size := input_size client + len bytes |>);;
            done ← client_received index stack;
            match done with
            | Some result => mret result
            | None => handle_client_input script index stack
            end
          else close_client index;; mret DEVMGR_OK
      | ReadError EAGAIN => mret DEVMGR_OK
      | ReadError EINTR => handle_client_input script index stack
      | ReadError _ => close_client index;; mret DEVMGR_OK
      end
  end.

Fixpoint client_output_loop (fuel : nat) (script : list write_outcome) (index : Z) : M bool :=
  client ← get_client index;
  if negb (output_offset client <? output_size client) then mret true
  else match fuel, script with
  | S fuel, outcome :: script =>
      bytes ← lift (mem_read (client_output client) (output_offset client)
                      (output_size client - output_offset client));
      match outcome with
      | Wrote n =>
          let count := taken n (len bytes) in
          if 0 <? count then
            trace_reply (client_fd client) (take (Z.to_nat count) bytes);;
            set_client index (client <| output_offset := output_offset client + count |>);;
            client_output_loop fuel script index
          else close_client index;; mret false
      | WriteError EAGAIN => mret false
      | WriteError _ => close_client index;; mret false
      end
  | _, _ => lift None
  end.

(** [true] from the loop: everything was written. *)
Definition handle_client_output (script : list write_outcome) (index : Z) : M Z :=
  finished ← client_output_loop (length script) script index;
  (if (finished : bool) then
     client ← get_client index;
     if close_after_write client then close_client index else mret tt
   else mret tt);;
  mret DEVMGR_OK.

(** The first free client. *)
Definition free_client (cs : list daemon_client) : option Z :=
  match list_find (λ c, client_fd c < 0) cs with
  | Some (i, _) => Some (Z.of_nat i)
  | None => None
  end.

Fixpoint accept_clients (script : list open_outcome) : M Z :=
  match script with
  | [] => lift None
  | OpenError EAGAIN :: _ => mret DEVMGR_OK
  | OpenError EINTR :: script => accept_clients script
  | OpenError _ :: _ => mret DEVMGR_ERROR_IO
  | Opened fd :: script =>
      log [Acquired (Fd fd)];;
      cs ← gets clients;
      match free_client cs with
      | None => log [Released (Fd fd)];; accept_clients script
      | Some index =>
          set_client index (zero_client <| client_fd := fd |>);;
          result ← epoll_update EPOLL_CTL_ADD fd (Z.lor EPOLLIN EPOLLRDHUP);
          (if negb (result =? DEVMGR_OK) then close_client index else mret tt);;
          accept_clients script
      end
  end.

(** ** Setting up and tearing down *)

(** What create_listener meets: whether lstat fails though something is there,
    unlink, socket, bind, chmod, listen. *)
Record listener_env := mk_listener_env {
  lstat_fails : bool;
  unlink_fails : bool;
  listener_socket : open_outcome;
  bind_fails : bool;
  chmod_fails : bool;
  listen_fails : bool;
}.

Definition set_path (kind : path_kind) : M unit :=
  modify (λ d, d <| kern := (kern d) <| k_path := kind |> |>).

(** The size of sun_path. *)
Definition SUN_PATH_SIZE : Z := 108.

Definition create_listener (path : list Z) (env : listener_env) : M Z :=
  length ← lift (strlen path 0);
  if (length =? 0) || (SUN_PATH_SIZE <=? length) then mret (-1)
  else
  kind ← gets (λ d, k_path (kern d));
  cleared ← (if lstat_fails env then mret false
             else match kind with
             | NoFile => mret true
             | SocketFile => if unlink_fails env then mret false else set_path NoFile;; mret true
             | OtherFile => mret false
             end);
  if negb (cleared : bool) then mret (-1)
  else match listener_socket env with
  | OpenError _ => mret (-1)
  | Opened fd =>
      log [Acquired (Fd fd)];;
      address ← lift (memcpy (zeros SUN_PATH_SIZE) 0 path 0 (length + 1));
      (if bind_fails env then mret tt else set_path SocketFile);;
      if bind_fails env || chmod_fails env || listen_fails env then
        log [Released (Fd fd)];;
        set_path NoFile;;
        mret (-1)
      else mret fd
  end.

(** struct devmgr_daemon_config *)
Record devmgr_daemon_config := mk_daemon_config {
  device_path : option (list Z);
  config_socket_path : option (list Z);
}.

(** What setup_context meets. *)
Record setup_env := mk_setup_env {
  sigprocmask_fails : bool;
  setup_worker : init_env;
  setup_line : line_env;
  setup_listener : listener_env;
  setup_epoll : open_outcome;
  setup_timer : open_outcome;
  setup_signal : open_outcome;
  settime_fails : bool;
}.

(** A descriptor that is opened, or -1. *)
Definition open_fd (outcome : open_outcome) : M Z :=
  match outcome with
  | Opened fd => log [Acquired (Fd fd)];; mret fd
  | OpenError _ => mret (-1)
  end.

(** The worker before devmgr_worker_init: all zero, and no thread. *)
Definition no_worker : worker_system :=
  mk_worker_system
    (mk_worker 0 false false false false false 0 (zeros DEVMGR_WORKER_PATH_MAX)
       (mk_validation 0 0 (mk_image 0 None 0 0)))
    Exited Destroyed 0 [] [] [] false.

(** The context after memset and the assignments that follow it. *)
Definition blank_context (config : devmgr_daemon_config) (k : kernel) : daemon :=
  mk_daemon (-1) (-1) (-1) (-1) (mk_transport (-1) DEVMGR_TRANSPORT_SERIAL)
    (mk_parser (mk_ring [] 0 0 0) zero_stats) (devmgr_session_init <| next_sequence := 0 |>)
    (replicate (Z.to_nat MAX_CLIENTS) (zero_client <| client_fd := -1 |>)) (-1)
    (zeros DEVMGR_PROTOCOL_MAX_FRAME) 0 0 (config_socket_path config) true (zeros 16) 0 0
    (mk_image (-1) None 0 0) devmgr_upgrade_init 0 0 no_worker
    (zeros (DEVMGR_UPGRADE_VERSION_MAX + 1)) k.

(** devmgr_worker_init on the context's worker; the thread starts with it. *)
Definition start_worker (env : init_env) : M Z :=
  let '(result, w, events) := devmgr_worker_init env in
  log events;;
  modify (λ d, d <| worker :=
    if result =? DEVMGR_OK
    then mk_worker_system w Fetching Running 0 (ws_log (worker d)) [] [] false
    else (worker d) <| ws_worker := w |> |>);;
  mret result.

(** devmgr_transport_open on the context's transport. *)
Definition open_transport (config : devmgr_transport_config) (env : line_env) : M Z :=
  d ← gets id;
  '(result, t, _, events) ← lift (devmgr_transport_open (transport d) config env);
  log events;;
  modify (λ d, d <| transport := t |>);;
  mret result.

(** [epoll_update(...) != DEVMGR_OK || ...]: whether one of them failed. *)
Fixpoint add_all (fds : list Z) : M bool :=
  match fds with
  | [] => mret false
  | fd :: fds =>
      result ← epoll_update EPOLL_CTL_ADD fd EPOLLIN;
      if negb (result =? DEVMGR_OK) then mret true else add_all fds
  end.

(** The second half of setup_context: the listener and the descriptors the loop
    waits for. *)
Definition open_descriptors (path : list Z) (env : setup_env) : M Z :=
  fd ← create_listener path (setup_listener env);
  modify (λ d, d <| listen_fd := fd |>);;
  fd ← open_fd (setup_epoll env);
  modify (λ d, d <| epoll_fd := fd |>);;
  fd ← open_fd (setup_timer env);
  modify (λ d, d <| timer_fd := fd |>);;
  fd ← open_fd (setup_signal env);
  modify (λ d, d <| signal_fd := fd |>);;
  d ← gets id;
  if (listen_fd d <? 0) || (epoll_fd d <? 0) || (timer_fd d <? 0) || (signal_fd d <? 0) ||
     settime_fails env then mret DEVMGR_ERROR_IO
  else
  failed ← add_all [listen_fd d; timer_fd d; signal_fd d;
                    devmgr_worker_get_event_fd (ws_worker (worker d));
                    devmgr_transport_get_fd (transport d)];
  mret (if (failed : bool) then DEVMGR_ERROR_IO else DEVMGR_OK).

Definition setup_context (config : devmgr_daemon_config) (env : setup_env) : M Z :=
  if sigprocmask_fails env then mret DEVMGR_ERROR_IO
  else
  modify (λ d, d <| session := devmgr_session_init |> <| upgrade := devmgr_upgrade_init |>);;
  result ← start_worker (setup_worker env);
  if negb (result =? DEVMGR_OK) then mret DEVMGR_ERROR_IO
  else
  let '(result, p) := devmgr_parser_init in
  modify (λ d, d <| parser := p |>);;
  if negb (result =? DEVMGR_OK) then mret DEVMGR_ERROR_IO
  else
  result ← open_transport (mk_transport_config DEVMGR_TRANSPORT_SERIAL (device_path config) 115200 false)
             (setup_line env);
  if negb (result =? DEVMGR_OK) then mret DEVMGR_ERROR_IO
  else
  path ← lift (config_socket_path config);
  open_descriptors path env.

(** [if (fd >= 0) (void)close(fd)] *)
Definition close_fd (fd : Z) : M unit := if 0 <=? fd then log [Released (Fd fd)] else mret tt.

Fixpoint close_clients (n : nat) (index : Z) : M unit :=
  match n with
  | O => mret tt
  | S n => close_client index;; close_clients n (index + 1)
  end.

(** cleanup_context up to the pthread_join of devmgr_worker_destroy; whether
    there is a thread to wait for. *)
Definition cleanup_stop (script : list close_outcome) : M bool :=
  close_clients (Z.to_nat MAX_CLIENTS) 0;;
  d ← gets id;
  close_fd (signal_fd d);;
  close_fd (timer_fd d);;
  close_fd (epoll_fd d);;
  close_fd (listen_fd d);;
  '(t, events) ← lift (devmgr_transport_close (transport d) script);
  log events;;
  modify (λ d, d <| transport := t |>);;
  ws ← gets worker;
  let '(w, joining) := worker_destroy_stop (ws_worker ws) in
  if joining then modify (λ d, d <| worker := stopping ws w |>);; mret true
  else mret false.

(** The rest of it, once the thread has ended. *)
Definition cleanup_finish (joining : bool) : M unit :=
  (if joining then
     ws ← gets worker;
     let '(w, events) := worker_destroy_finish (ws_worker ws) in
     modify (λ d, d <| worker := joined ws w events |>)
   else mret tt);;
  close_firmware;;
  path ← gets socket_path;
  match path with
  | Some _ => set_path NoFile
  | None => mret tt
  end.

Definition handshake_policy : devmgr_retry_policy := mk_policy 1000 500 3.

Definition start_handshake (unset : devmgr_frame) : M Z :=
  result ← session_transition DEVMGR_SESSION_CONNECT;
  result ← (if result =? DEVMGR_OK then session_transition DEVMGR_SESSION_TRANSPORT_CONNECTED
            else mret result);
  '(result, frame) ←
    (if result =? DEVMGR_OK then
       now ← monotonic_ns;
       begin_request DEVMGR_MSG_PING DEVMGR_FRAME_ACK_REQUIRED None 0 handshake_policy now unset
     else mret (result, unset));
  if result =? DEVMGR_OK then queue_frame frame else mret result.

(** ** The event loop *)

(** An event of epoll_wait, with what the calls of its handler will meet. *)
Record epoll_event := mk_event {
  ev_fd : Z;
  ev_flags : Z;
  ev_accepts : list open_outcome;
  ev_reads : list read_outcome;
  ev_writes : list write_outcome;
  ev_stack : locals;
}.

Definition has (flags bits : Z) : bool := negb (Z.land flags bits =? 0).

Definition EPOLL_GONE : Z := Z.lor EPOLLERR (Z.lor EPOLLHUP EPOLLRDHUP).

(** devmgr_session_tick with retransmit_frame, on the daemon's session. *)
Definition session_tick (now : Z) : M Z :=
  d ← gets id;
  '(result, s, d) ← lift (devmgr_session_tick retransmit_frame (session d) now d);
  modify (λ _, d <| session := s |>);;
  mret result.

(** A request of the upgrade has timed out. *)
Definition recover_upgrade (unset : devmgr_frame) : M Z :=
  result ← on_part upgrade (λ u d, d <| upgrade := u |>) devmgr_upgrade_begin_recovery;
  result ← (if result =? DEVMGR_OK then queue_upgrade_request unset else mret result);
  if result =? DEVMGR_OK then mret DEVMGR_OK
  else
  set_upgrade_result DEVMGR_ERROR_TIMEOUT;;
  set_upgrade_state DEVMGR_UPGRADE_ERROR;;
  close_firmware;;
  session_transition DEVMGR_SESSION_UPGRADE_DONE;;
  mret DEVMGR_OK.

Definition handle_timer (unset : devmgr_frame) : M Z :=
  now ← monotonic_ns;
  result ← session_tick now;
  if negb (result =? DEVMGR_ERROR_TIMEOUT) then mret result
  else
  d ← gets id;
  if devmgr_upgrade_active (upgrade d) then recover_upgrade unset
  else if 0 <=? active_client d then
    modify (λ d, d <| active_client := -1 |>);;
    queue_client_response (active_client d) 0 DEVMGR_ERROR_TIMEOUT None 0
  else mret result.

Definition handle_transport (e : epoll_event) : M Z :=
  result ← (if has (ev_flags e) EPOLLOUT then flush_transport (ev_writes e) else mret DEVMGR_OK);
  result ← (if (result =? DEVMGR_OK) && has (ev_flags e) EPOLLIN
            then read_transport (ev_reads e) (unset_parser (ev_stack e)) (unset_frame (ev_stack e))
            else mret result);
  mret (if has (ev_flags e) EPOLL_GONE then DEVMGR_ERROR_DISCONNECTED else result).

Definition handle_client (e : epoll_event) (index : Z) : M Z :=
  result ← (if has (ev_flags e) EPOLLIN then handle_client_input (ev_reads e) index (ev_stack e)
            else mret DEVMGR_OK);
  client ← get_client index;
  result ← (if (result =? DEVMGR_OK) && (0 <=? client_fd client) && has (ev_flags e) EPOLLOUT
            then handle_client_output (ev_writes e) index else mret result);
  client ← get_client index;
  (if (0 <=? client_fd client) && has (ev_flags e) EPOLL_GONE then close_client index
   else mret tt);;
  mret result.

(** The client with a descriptor. *)
Definition client_of (cs : list daemon_client) (fd : Z) : option Z :=
  match list_find (λ c, client_fd c = fd) cs with
  | Some (i, _) => Some (Z.of_nat i)
  | None => None
  end.

(** The body of the loop over the events. *)
Definition handle_event (e : epoll_event) : M Z :=
  d ← gets id;
  if ev_fd e =? listen_fd d then accept_clients (ev_accepts e)
  else if ev_fd e =? signal_fd d then modify (λ d, d <| running := false |>);; mret DEVMGR_OK
  else if ev_fd e =? devmgr_worker_get_event_fd (ws_worker (worker d)) then
    handle_worker_completion (ev_reads e) (unset_validation (ev_stack e)) (unset_frame (ev_stack e))
  else if ev_fd e =? timer_fd d then handle_timer (unset_frame (ev_stack e))
  else if ev_fd e =? devmgr_transport_get_fd (transport d) then handle_transport e
  else match client_of (clients d) (ev_fd e) with
  | Some index => handle_client e index
  | None => mret DEVMGR_OK
  end.

(** epoll_wait: the ready events, or -1. *)
Inductive wait_outcome := WaitError (e : errno) | Ready (events : list epoll_event).

(** devmgr_daemon_run up to the loop, for a configuration without NULL. *)
Definition daemon_boot (config : devmgr_daemon_config) (env : setup_env) (unset : devmgr_frame)
    : M Z :=
  result ← setup_context config env;
  if result =? DEVMGR_OK then start_handshake unset else mret result.
