(* ===== verification/DaemonSafety.v ===== *)
(** * The daemon is safe

    The invariant of the event loop: what each part of the state looks like,
    what the process owns, and how upgrade, firmware image and session belong
    together.  Every handler keeps it, returns, and moves the session and the
    upgrade as [Driver] says. *)

From stdpp Require Import gmap.
From S2P Require Import Prelude Crc32 RingBuffer Frame Parser Session Ipc Upgrade Driver Os Transport.
From S2P Require Import Firmware Worker Daemon.

(** ** Reasoning about computations *)

(** [m] returns from [d], in a state that satisfies [Q]. *)
Definition wp {A} (m : M A) (d : daemon) (Q : A → daemon → Prop) : Prop :=
  ∃ a d', m d = Some (a, d') ∧ Q a d'.

Section Rules.
Context {A B : Type}.

Lemma wp_ret (a : A) d (Q : A → daemon → Prop) : Q a d → wp (mret a) d Q.
Proof. intros H. by exists a, d. Qed.

Lemma wp_bind (m : M A) (k : A → M B) d Q : wp m d (λ a d', wp (k a) d' Q) → wp (m ≫= k) d Q.
Proof.
  intros (a & d' & E & b & d'' & E' & H). exists b, d''. split; [|done].
  unfold mbind, M_bind. by rewrite E.
Qed.

Lemma wp_gets (f : daemon → A) d (Q : A → daemon → Prop) : Q (f d) d → wp (gets f) d Q.
Proof. intros H. by exists (f d), d. Qed.

Lemma wp_modify f d (Q : unit → daemon → Prop) : Q tt (f d) → wp (modify f) d Q.
Proof. intros H. by exists tt, (f d). Qed.

Lemma wp_lift (o : option A) a d (Q : A → daemon → Prop) : o = Some a → Q a d → wp (lift o) d Q.
Proof. intros -> H. by exists a, d. Qed.

Lemma wp_on_part (get : daemon → A) put (f : A → B * A) d Q :
  Q (f (get d)).1 (put (f (get d)).2 d) → wp (on_part get put f) d Q.
Proof. intros H. unfold wp, on_part. destruct (f (get d)). eauto. Qed.

Lemma wp_mono (m : M A) d (P Q : A → daemon → Prop) :
  wp m d P → (∀ a d', P a d' → Q a d') → wp m d Q.
Proof. intros (a & d' & E & H) HPQ. exists a, d'. auto. Qed.

Lemma wp_and (m : M A) d (P Q : A → daemon → Prop) :
  wp m d P → wp m d Q → wp m d (λ a d', P a d' ∧ Q a d').
Proof. intros (a & d' & E & H) (a' & d'' & E' & H'). exists a, d'. rewrite E in E'. by simplify_eq. Qed.

End Rules.

(** Runs the next statement of the goal, if it cannot fail. *)
Ltac wp_step :=
  lazymatch goal with
  | |- wp (mbind _ _) _ _ => apply wp_bind; wp_step
  | |- wp (mret _) _ _ => apply wp_ret
  | |- wp (gets _) _ _ => apply wp_gets
  | |- wp (modify _) _ _ => apply wp_modify
  | |- wp (on_part _ _ _) _ _ => apply wp_on_part
  | |- _ => idtac
  end; cbv beta.

(** ** The invariant *)

Definition INPUT_SIZE : Z := DEVMGR_IPC_REQUEST_HEADER_SIZE + DEVMGR_IPC_MAX_PAYLOAD.
Definition OUTPUT_SIZE : Z := DEVMGR_IPC_RESPONSE_HEADER_SIZE + DEVMGR_IPC_MAX_PAYLOAD.

Definition client_ok (c : daemon_client) : Prop :=
  (len (client_input c) = INPUT_SIZE ∧ Forall is_u8 (client_input c) ∧
   0 ≤ input_size c ≤ INPUT_SIZE ∧ (expected_size c = 0 ∨ 8 ≤ expected_size c ≤ INPUT_SIZE)) ∧
  len (client_output c) = OUTPUT_SIZE ∧ Forall is_u8 (client_output c) ∧
  0 ≤ output_offset c ≤ output_size c ∧ output_size c ≤ OUTPUT_SIZE.

Definition clients_ok (cs : list daemon_client) : Prop :=
  len cs = MAX_CLIENTS ∧ Forall client_ok cs.

(** The output buffer holds what is left of the last frame: the bytes the line
    took followed by these are the frames queued so far. *)
Definition output_ok (output : list Z) (size offset : Z) (k : kernel) : Prop :=
  len output = DEVMGR_PROTOCOL_MAX_FRAME ∧ Forall is_u8 output ∧
  0 ≤ offset ≤ size ∧ size ≤ DEVMGR_PROTOCOL_MAX_FRAME ∧
  concat (map encode_wire (k_frames k)) = k_line k ++ slice output offset (size - offset).

Definition telemetry_ok (bytes : list Z) (length : Z) : Prop :=
  len bytes = 16 ∧ Forall is_u8 bytes ∧ (length = 0 ∨ length = 16).

(** What the process owns, beside what the worker owns. *)
Definition fd_resources (fd : Z) : list resource := if 0 <=? fd then [Fd fd] else [].

Definition client_resources (cs : list daemon_client) : list resource :=
  concat (map (λ c, fd_resources (client_fd c)) cs).

Definition daemon_resources (d : daemon) : list resource :=
  client_resources (clients d) ++ image_resources (firmware d) ++
  fd_resources (signal_fd d) ++ fd_resources (timer_fd d) ++ fd_resources (epoll_fd d) ++
  fd_resources (listen_fd d) ++ fd_resources (transport_fd (transport d)).

Definition worker_ok (d : daemon) : Prop :=
  (∃ fd, worker_inv fd (daemon_resources d) (worker d)) ∧ ws_reactor (worker d) = Running.

(** What holds of the state at any time in the loop. *)
Definition base_ok (d : daemon) : Prop :=
  clients_ok (clients d) ∧ -1 ≤ active_client d < MAX_CLIENTS ∧
  output_ok (transport_output d) (transport_output_size d) (transport_output_offset d) (kern d) ∧
  telemetry_ok (latest_telemetry d) (latest_telemetry_length d) ∧
  session_ok (session d) ∧ parser_ready (parser d) ∧ version_ok (pending_upgrade_version d) ∧
  image_ok (firmware d) ∧ is_u32 (upgrade_operation_id d) ∧ worker_ok d.

(** Upgrade, image and session between two handlers: while the upgrade talks to
    the device its image is mapped and the session is UPGRADING; otherwise no
    image is open. *)
Definition linked (d : daemon) : Prop :=
  if upgrade_running (upgrade d) then
    session_state (session d) = DEVMGR_DEVICE_UPGRADING ∧
    ∃ image version, upgrade_ok image version (upgrade d) ∧
      image_data (firmware d) = Some image ∧ image_crc (upgrade d) = crc_of image
  else
    firmware d = no_image ∧ session_state (session d) ≠ DEVMGR_DEVICE_UPGRADING ∧
    (upgrade_state (upgrade d) = DEVMGR_UPGRADE_VALIDATING →
     ∃ version, holds_string (pending_upgrade_version d) version ∧ 1 ≤ len version ≤ 31).

Definition daemon_ok (d : daemon) : Prop := base_ok d ∧ linked d.

(** The daemon as a driver of the device. *)
Definition driver_of (d : daemon) : driver :=
  let p := session_pending (session d) in
  mk_driver (if pending_active p then Some (strip (view (pending_frame p))) else None)
    (next_sequence (session d)) (upgrade d).

(** What the trace shows of the driver: the frames queued, those delivered, and
    the requests begun. *)
Definition line_trace (k : kernel) : list wire_frame * list wire_frame * list wire_frame :=
  (k_frames k, k_heard k, map strip (k_requests k)).

(** The trace grown by what a run of the driver shows. *)
Definition grown (t : list wire_frame * list wire_frame * list wire_frame) (ls : list label)
    : list wire_frame * list wire_frame * list wire_frame :=
  (t.1.1 ++ omap emits ls, t.1.2, t.2 ++ omap begins ls).

Lemma grown_nil t : grown t [] = t.
Proof. destruct t as [[] ]. unfold grown. cbn. by rewrite !app_nil_r. Qed.

Lemma grown_app t ls ls' : grown (grown t ls) ls' = grown t (ls ++ ls').
Proof. unfold grown. cbn. by rewrite !omap_app, !(assoc_L (++)). Qed.

(** From [d] to [d'] the daemon began requests and queued frames, after it
    received [ls]. *)
Definition moves (ls : list label) (d d' : daemon) : Prop :=
  ∃ ms, omap receives ms = [] ∧ line_trace (kern d') = grown (line_trace (kern d)) ms ∧
        driver_run (driver_of d) (ls ++ ms) (driver_of d').

Lemma moves_same d d' :
  driver_of d' = driver_of d → line_trace (kern d') = line_trace (kern d) → moves [] d d'.
Proof. intros H1 H2. exists []. rewrite H1, H2, grown_nil. split; [done|]. split; [done|constructor]. Qed.

Lemma moves_step ls d d' :
  driver_step (driver_of d) ls (driver_of d') → omap receives ls = [] →
  line_trace (kern d') = grown (line_trace (kern d)) ls → moves [] d d'.
Proof. intros H1 H2 H3. exists ls. split; [done|]. split; [done|by apply run_one]. Qed.

Lemma moves_silent d d' :
  driver_step (driver_of d) [] (driver_of d') → line_trace (kern d') = line_trace (kern d) → moves [] d d'.
Proof. intros H1 H2. apply (moves_step []); [done|done|]. by rewrite H2, grown_nil. Qed.

Lemma moves_trans ls d d' d'' : moves ls d d' → moves [] d' d'' → moves ls d d''.
Proof.
  intros (ms & N1 & H1 & R1) (ms' & N2 & H2 & R2). exists (ms ++ ms').
  rewrite H2, H1, grown_app, (assoc_L (++)), omap_app, N1, N2. split; [done|]. split; [done|]. by eapply run_app.
Qed.

(** Splits a claim about a changed state into its parts, and keeps those that
    were not touched. *)
Ltac open_base H :=
  destruct H as (Hcl & Hac & Hou & Hte & Hse & Hpa & Hve & Him & Hid & Hwo).

Ltac keep_base :=
  refine (conj _ (conj _ (conj _ (conj _ (conj _ (conj _ (conj _ (conj _ (conj _ _)))))))));
  try assumption.

(** ** What the process owns *)

Lemma worker_inv_log fd rest rest' ws l :
  worker_inv fd rest ws →
  (∀ own, holds (ws_log ws) (own ++ rest) → holds (ws_log ws ++ l) (own ++ rest')) →
  worker_inv fd rest' (ws <| ws_log := ws_log ws ++ l |>).
Proof. intros [] Hl. split; try done. by apply Hl. Qed.

Lemma worker_inv_perm fd rest rest' ws :
  worker_inv fd rest ws → rest ≡ₚ rest' → worker_inv fd rest' ws.
Proof. intros [] Hp. split; try done. eapply holds_perm; [done|]. by rewrite Hp. Qed.

Lemma worker_release fd r rest rest' ws :
  worker_inv fd rest ws → rest ≡ₚ r :: rest' →
  worker_inv fd rest' (ws <| ws_log := ws_log ws ++ [Released r] |>).
Proof.
  intros H Hr. eapply worker_inv_log; [done|]. intros own Hh. apply holds_released.
  eapply holds_perm; [done|]. rewrite Hr. by rewrite Permutation_middle.
Qed.

Lemma worker_acquire fd r rest rest' ws :
  worker_inv fd rest ws → rest' ≡ₚ r :: rest →
  worker_inv fd rest' (ws <| ws_log := ws_log ws ++ [Acquired r] |>).
Proof.
  intros H Hr. eapply worker_inv_log; [done|]. intros own Hh.
  eapply holds_perm; [by apply holds_acquired|]. rewrite Hr. by rewrite Permutation_middle.
Qed.

Lemma worker_close fd image rest rest' ws :
  worker_inv fd rest ws → image_ok image → rest ≡ₚ image_resources image ++ rest' →
  worker_inv fd rest' (ws <| ws_log := ws_log ws ++ (devmgr_firmware_close image).2 |>).
Proof.
  intros H Hi Hr. eapply worker_inv_log; [done|]. intros own Hh. apply holds_close; [done|].
  eapply holds_perm; [done|]. rewrite Hr, !(assoc_L (++)). by rewrite (Permutation_app_comm own).
Qed.

(** Replacing one client. *)
Lemma client_resources_insert cs i c c' :
  cs !! i = Some c →
  fd_resources (client_fd c) ++ client_resources (<[i := c']> cs) ≡ₚ
  fd_resources (client_fd c') ++ client_resources cs.
Proof.
  intros Hi. unfold client_resources. rewrite <- (take_drop_middle cs i c Hi) at 2.
  rewrite insert_take_drop by (by eapply lookup_lt_Some).
  rewrite !map_app, !concat_app. cbn [map concat].
  rewrite !(assoc_L (++)). rewrite (Permutation_app_comm (fd_resources (client_fd c))).
  rewrite (Permutation_app_comm (fd_resources (client_fd c'))).
  rewrite <- !(assoc_L (++)). apply Permutation_app_head. rewrite !(assoc_L (++)).
  apply Permutation_app_tail, Permutation_app_comm.
Qed.

Lemma clients_lookup cs (i : Z) :
  clients_ok cs → 0 ≤ i < MAX_CLIENTS → ∃ c, cs !! Z.to_nat i = Some c ∧ client_ok c.
Proof.
  intros [Hl Hc] Hi. destruct (lookup_lt_is_Some_2 cs (Z.to_nat i)) as [c E]; [lia|].
  exists c. split; [done|]. by eapply Forall_lookup_1.
Qed.

Lemma clients_insert cs (i : nat) c : clients_ok cs → client_ok c → clients_ok (<[i := c]> cs).
Proof. intros [Hl Hc] Hc'. split; [by rewrite length_insert|]. by apply Forall_insert. Qed.

(** ** Small steps *)

(** Changes the daemon does not care about. *)
Definition same_trace (k k' : kernel) : Prop :=
  k_frames k' = k_frames k ∧ k_line k' = k_line k ∧ k_path k' = k_path k ∧
  k_replies k' = k_replies k ∧ line_trace k' = line_trace k.

Lemma base_kern d k : base_ok d → same_trace (kern d) k → base_ok (d <| kern := k |>).
Proof.
  intros H (Hf & Hl & _). open_base H. keep_base. unfold output_ok in *. cbn. by rewrite Hf, Hl.
Qed.

Lemma wp_next_call d Q :
  (∀ n k, same_trace (kern d) k → Q n (d <| kern := k |>)) → wp next_call d Q.
Proof. intros H. unfold next_call. do 3 wp_step. by apply H. Qed.

Lemma u64_now tv : is_u64 (match tv : option (Z * Z) with
  | None => 0
  | Some (tv_sec, tv_nsec) => u64 (u64 (u64 tv_sec * 1000000000) + u64 tv_nsec)
  end).
Proof. destruct tv as [[]|]; [apply u64_range|done]. Qed.

Lemma wp_monotonic_ns d Q :
  (∀ now k, is_u64 now → same_trace (kern d) k → Q now (d <| kern := k |>)) → wp monotonic_ns d Q.
Proof.
  intros H. unfold monotonic_ns. apply wp_bind, wp_next_call. intros n k Hk. do 2 wp_step.
  apply H; [apply u64_now|done].
Qed.

Lemma wp_epoll_ctl op fd events d Q :
  (∀ failed k, same_trace (kern d) k → Q failed (d <| kern := k |>)) → wp (epoll_ctl op fd events) d Q.
Proof.
  intros H. unfold epoll_ctl. apply wp_bind, wp_next_call. intros n k Hk. wp_step.
  destruct (k_epoll_fails _ _); [wp_step; by apply H|]. do 2 wp_step.
  match goal with |- Q _ (?d' <| kern := ?k' |>) => apply (H false k') end. done.
Qed.

Lemma wp_epoll_update op fd events d Q :
  (∀ result k, result = DEVMGR_OK ∨ result = DEVMGR_ERROR_IO → same_trace (kern d) k →
               Q result (d <| kern := k |>)) →
  wp (epoll_update op fd events) d Q.
Proof.
  intros H. unfold epoll_update. apply wp_bind, wp_epoll_ctl. intros failed k Hk. wp_step.
  apply H; [|done]. destruct failed; auto.
Qed.

(** ** Clients *)

(** Nothing changed that concerns the device or an upgrade. *)
Definition aside (d d' : daemon) : Prop :=
  session d' = session d ∧ upgrade d' = upgrade d ∧ firmware d' = firmware d ∧
  pending_upgrade_version d' = pending_upgrade_version d ∧
  line_trace (kern d') = line_trace (kern d).

#[export] Instance aside_preorder : PreOrder aside.
Proof.
  split; [done|]. intros d1 d2 d3 (? & ? & ? & ? & ?) (? & ? & ? & ? & ?).
  split_and!; congruence.
Qed.

Lemma aside_linked d d' : aside d d' → linked d → linked d'.
Proof. unfold linked. by intros (-> & -> & -> & -> & _). Qed.

Lemma aside_moves d d' : aside d d' → moves [] d d'.
Proof.
  intros (Hs & Hu & _ & _ & Hk). apply moves_same; [|done]. unfold driver_of. by rewrite Hs, Hu.
Qed.

Lemma aside_kern d k : same_trace (kern d) k → aside d (d <| kern := k |>).
Proof. intros (_ & _ & _ & _ & Hf). split_and!; done. Qed.

Lemma wp_get_client i d Q :
  clients_ok (clients d) → 0 ≤ i < MAX_CLIENTS →
  (∀ c, clients d !! Z.to_nat i = Some c → client_ok c → Q c d) → wp (get_client i) d Q.
Proof.
  intros Hc Hi H. unfold get_client. wp_step. destruct (clients_lookup _ _ Hc Hi) as (c & E & Hok).
  apply (wp_lift _ c); [|by apply H]. by rewrite (proj2 (Z.leb_le 0 i)) by lia.
Qed.

(** A client is replaced by one with the same descriptor. *)
Lemma base_set_client d i c c' :
  base_ok d → clients d !! i = Some c → client_ok c' → client_fd c' = client_fd c →
  base_ok (d <| clients := <[i := c']> (clients d) |>).
Proof.
  intros H Hi Hc' Hfd. open_base H. keep_base; [by apply clients_insert|].
  destruct Hwo as [[fd Hw] Hr]. split; [|done]. exists fd.
  eapply worker_inv_perm; [exact Hw|]. unfold daemon_resources.
  cbn [clients firmware signal_fd timer_fd epoll_fd listen_fd transport upd].
  apply Permutation_app_tail. pose proof (client_resources_insert _ _ _ c' Hi) as Hp.
  rewrite Hfd in Hp. symmetry. by apply Permutation_app_inv_l in Hp.
Qed.

Lemma close_client_ok i d :
  base_ok d → 0 ≤ i < MAX_CLIENTS → wp (close_client i) d (λ _ d', base_ok d' ∧ aside d d').
Proof.
  intros Hd Hi. unfold close_client. apply wp_bind, wp_get_client; [apply Hd|done|].
  intros c Ec Hc. apply wp_bind.
  apply wp_mono with (P := λ _ d', base_ok d' ∧ aside d d').
  - destruct (Z.leb_spec 0 (client_fd c)); [|by wp_step]. apply wp_bind, wp_epoll_ctl.
    intros failed k Hk. unfold log, set_client. do 2 wp_step. split; [|by apply (aside_kern d k)].
    pose proof (base_kern d k Hd Hk) as H1. open_base H1. keep_base.
    + by apply clients_insert.
    + destruct Hwo as [[fd Hw] Hr]. split; [|done]. exists fd.
      eapply worker_release; [exact Hw|]. unfold daemon_resources.
      cbn [clients firmware signal_fd timer_fd epoll_fd listen_fd transport upd].
      rewrite app_comm_cons. apply Permutation_app_tail.
      pose proof (client_resources_insert _ _ _ (c <| client_fd := -1 |>) Ec) as Hp.
      unfold fd_resources in Hp at 1. rewrite (proj2 (Z.leb_le 0 _)) in Hp by done. by symmetry.
  - intros _ d1 [H1 Ha]. wp_step. destruct (active_client d1 =? i); wp_step; [|done].
    split; [|done]. open_base H1. by keep_base.
Qed.

(** A client whose response is encoded. *)
Definition answered_client (c : daemon_client) (message : list Z) : daemon_client :=
  c <| client_output := overwrite (client_output c) message |> <| output_size := len message |>
    <| output_offset := 0 |> <| close_after_write := true |>.

Lemma answered_client_ok c message :
  client_ok c → Forall is_u8 message → len message ≤ OUTPUT_SIZE → client_ok (answered_client c message).
Proof.
  intros (Hin & Hl & Hb & _) Hm Hn. split; [done|]. cbn -[OUTPUT_SIZE]. unfold overwrite.
  split; [rewrite length_app, length_drop; lia|]. split; [apply Forall_app; split; [done|by apply Forall_drop]|].
  lia.
Qed.

Definition payload_ok (payload : option (list Z)) (n : Z) : Prop :=
  match payload with
  | Some a => Forall is_u8 a ∧ 0 ≤ n ≤ len a
  | None => n = 0
  end ∧ n ≤ DEVMGR_IPC_MAX_PAYLOAD.

(** The response a client is sent. *)
Definition reply (command status : Z) (payload : option (list Z)) (n : Z) : devmgr_ipc_response :=
  mk_ipc_response command status n
    (overwrite (zeros DEVMGR_IPC_MAX_PAYLOAD) (take (Z.to_nat n) (default [] payload))).

Lemma client_reply_ok command status payload n :
  is_u8 command → -2147483648 ≤ status < 2147483648 → payload_ok payload n →
  response_ok (reply command status payload n) ∧
  match payload with
  | Some payload =>
      if negb (n =? 0) then memcpy (zeros DEVMGR_IPC_MAX_PAYLOAD) 0 payload 0 n
      else Some (zeros DEVMGR_IPC_MAX_PAYLOAD)
  | None => Some (zeros DEVMGR_IPC_MAX_PAYLOAD)
  end = Some (response_payload (reply command status payload n)).
Proof.
  intros Hc Hs [Hp Hn]. unfold reply. cbn [response_payload].
  assert (Forall is_u8 (take (Z.to_nat n) (default [] payload)) ∧
          len (take (Z.to_nat n) (default [] payload)) = n) as [Hb Hl].
  { destruct payload as [a|]; cbn; [|by subst n]. destruct Hp. split; [by apply Forall_take|].
    rewrite length_take. lia. }
  split.
  - assert (0 ≤ n) by (destruct payload; [lia|by subst n]).
    destruct (overwrite_facts (zeros DEVMGR_IPC_MAX_PAYLOAD) (take (Z.to_nat n) (default [] payload)))
      as (? & ? & _); [done|apply zeros_Forall|done|lia|]. by repeat (split; [done|]).
  - destruct payload as [a|]; cbn; [|by subst n].
    destruct (Z.eqb_spec n 0) as [->|]; cbn [negb]; [done|].
    unfold DEVMGR_IPC_MAX_PAYLOAD in *. rewrite memcpy_ok by (rewrite ?len_zeros; lia).
    rewrite slice_0. unfold splice, overwrite. done.
Qed.

Lemma encoded_reply_ok r :
  response_ok r → Forall is_u8 (encoded_response r) ∧ len (encoded_response r) ≤ OUTPUT_SIZE.
Proof.
  intros Hr. destruct (response_bytes_facts r Hr) as [Hl Hb]. destruct Hr as (Hc & _ & Hn & _).
  unfold encoded_response. split.
  - unfold ipc_message. cbn [map concat app]. rewrite !Forall_app, !Forall_cons, !Forall_app.
    split_and!; auto with devmgr; done.
  - rewrite length_ipc_message, Hl. unfold OUTPUT_SIZE, DEVMGR_IPC_MAX_PAYLOAD,
      DEVMGR_IPC_RESPONSE_HEADER_SIZE in *. cbn. lia.
Qed.

Lemma queue_client_response_ok i command status payload n d :
  base_ok d → 0 ≤ i < MAX_CLIENTS → is_u8 command → -2147483648 ≤ status < 2147483648 →
  payload_ok payload n →
  wp (queue_client_response i command status payload n) d (λ _ d', base_ok d' ∧ aside d d').
Proof.
  intros Hd Hi Hc Hs Hp. destruct (client_reply_ok command status payload n Hc Hs Hp) as [Hr Eb].
  unfold queue_client_response. apply wp_bind, wp_get_client; [apply Hd|done|]. intros c Ec Hcok.
  assert (0 ≤ n ≤ DEVMGR_IPC_MAX_PAYLOAD) as Hn by apply Hr.
  rewrite (proj2 (Z.ltb_ge DEVMGR_IPC_MAX_PAYLOAD n)) by lia.
  apply wp_bind. eapply wp_lift; [exact Eb|]. unfold DEVMGR_IPC_MAX_PAYLOAD in Hn.
  rewrite u32_id by (unfold is_u32; lia).
  change (mk_ipc_response command status n _) with (reply command status payload n).
  pose proof Hcok as (_ & Hol & _).
  assert (12 + response_payload_length (reply command status payload n) ≤
    DEVMGR_IPC_RESPONSE_HEADER_SIZE + DEVMGR_IPC_MAX_PAYLOAD ≤ len (client_output c)) as Hcap
    by (rewrite Hol; cbn; unfold OUTPUT_SIZE, DEVMGR_IPC_RESPONSE_HEADER_SIZE, DEVMGR_IPC_MAX_PAYLOAD; lia).
  apply wp_bind. eapply wp_lift; [by apply ipc_encode_response_spec|].
  destruct (encoded_reply_ok _ Hr) as [Hmb Hml]. set (message := encoded_response _) in *.
  unfold set_client. wp_step. cbv iota. cbn [negb Z.eqb DEVMGR_OK].
  set (c1 := c <| client_output := _ |> <| output_size := _ |>).
  apply wp_bind. unfold get_client. wp_step. eapply (wp_lift _ c1).
  { rewrite (proj2 (Z.leb_le 0 i)) by lia. cbn. apply list_lookup_insert_eq. by eapply lookup_lt_Some. }
  wp_step. apply wp_epoll_update. intros result k _ Hk.
  split; [|exact (aside_kern d k Hk)].
  pose proof (base_set_client d (Z.to_nat i) c (answered_client c message) Hd Ec
                (answered_client_ok c message Hcok Hmb Hml) eq_refl) as H1.
  replace (<[Z.to_nat i := answered_client c message]> (clients d)) with
    (<[Z.to_nat i := answered_client c message]> (<[Z.to_nat i := c1]> (clients d))) in H1
    by apply list_insert_insert_eq.
  exact (base_kern _ k H1 Hk).
Qed.

(** ** The line *)

(** Only the output buffer changed, and perhaps one frame was queued. *)
Definition queued_frames (ws : list wire_frame) (d d' : daemon) : Prop :=
  session d' = session d ∧ upgrade d' = upgrade d ∧ firmware d' = firmware d ∧
  pending_upgrade_version d' = pending_upgrade_version d ∧ active_client d' = active_client d ∧
  line_trace (kern d') = grown (line_trace (kern d)) (map Emit ws).

Lemma queued_none d d' : queued_frames [] d d' → aside d d'.
Proof. intros (? & ? & ? & ? & _ & Hk). cbn in Hk. rewrite grown_nil in Hk. by split_and!. Qed.

Lemma update_transport_events_ok d :
  base_ok d →
  wp update_transport_events d (λ result d',
    (result = DEVMGR_OK ∨ result = DEVMGR_ERROR_IO) ∧ base_ok d' ∧ queued_frames [] d d').
Proof.
  intros Hd. unfold update_transport_events. wp_step. apply wp_epoll_update. intros result k Hr Hk.
  split; [done|]. split; [by apply base_kern|]. split_and!; try done. cbn [map]. rewrite grown_nil. apply Hk.
Qed.

Lemma queue_frame_ok frame d :
  base_ok d → frame_ok frame →
  wp (queue_frame frame) d (λ result d', base_ok d' ∧
    (result = DEVMGR_ERROR_BUSY ∧ queued_frames [] d d' ∨
     (result = DEVMGR_OK ∨ result = DEVMGR_ERROR_IO) ∧ queued_frames [view frame] d d')).
Proof.
  intros Hd Hf. unfold queue_frame. wp_step.
  destruct (Z.ltb_spec (transport_output_offset (id d)) (transport_output_size (id d))) as [|Hge];
    unfold id in *.
  { wp_step. split; [done|]. left. split; [done|]. split_and!; try done. by rewrite grown_nil. }
  wp_step. pose proof Hd as (_ & _ & (Hol & Hob & Ho & Hs & Htr) & _).
  pose proof Hf as (_ & _ & _ & Hn & Hpl & _).
  assert (DEVMGR_PROTOCOL_MAX_FRAME = 4112) as Hmax by done.
  assert (DEVMGR_PROTOCOL_MAX_PAYLOAD = 4096) as Hmp by done.
  apply wp_bind. eapply wp_lift; [apply frame_encode_spec; [done|lia]|]. cbv iota. wp_step.
  set (w := encode_wire (view frame)). change (negb _) with false. cbv iota. unfold trace_frame. wp_step.
  assert (len w = 16 + frame_payload_length frame) as Hw
    by (unfold w; rewrite length_encode_wire, len_view_payload by done; done).
  match goal with |- wp update_transport_events ?x _ => set (d1 := x) end.
  assert (base_ok d1) as H1.
  { open_base Hd. keep_base. split_and!; cbn -[w].
    - rewrite length_app, length_drop. lia.
    - apply Forall_app; split; [by apply encode_wire_Forall, view_ok|by apply Forall_drop].
    - lia.
    - lia.
    - lia.
    - rewrite map_app, concat_app, Htr. cbn [map concat]. rewrite app_nil_r, Z.sub_0_r.
      replace (transport_output_size d - transport_output_offset d) with 0 by lia.
      rewrite slice_nil, app_nil_r. f_equal. symmetry. by apply slice_prefix. }
  eapply wp_mono; [by apply update_transport_events_ok|].
  intros result d' (Hr & Hd' & (? & ? & ? & ? & ? & Hk)). split; [done|]. right. split; [done|].
  split_and!; try done. cbn [map] in Hk. rewrite grown_nil in Hk. rewrite Hk. unfold grown, line_trace. cbn. by rewrite app_nil_r.
Qed.

(** ** Requests to the device *)

Lemma begun_ok s f policy now :
  session_ok s → frame_ok f → frame_sequence f = next_sequence s → policy_ok policy → is_u64 now →
  session_ok (begun s f policy now).
Proof.
  intros (_ & Hnz & _) Hf Hseq Hp Hnow. destruct (succ_sequence_ok (next_sequence s)).
  split; [done|]. split; [done|]. split; [done|]. split; [done|].
  split; [by apply saturating_add_u64, milliseconds_to_ns_u64|]. split; [done|].
  intros _. split; [cbn; by rewrite Hseq|apply Hp].
Qed.

(** The state after a request began. *)
Definition with_request (d : daemon) (f : devmgr_frame) (policy : devmgr_retry_policy) (now : Z) : daemon :=
  d <| session := begun (session d) f policy now |>
    <| kern := (kern d) <| k_requests := k_requests (kern d) ++ [view f] |> |>.

Lemma begin_request_ok type flags src n policy now unset d (Q : Z * devmgr_frame → daemon → Prop) :
  base_ok d → is_u8 type → is_u8 flags → Forall is_u8 src → 0 ≤ n ≤ len src →
  n ≤ DEVMGR_PROTOCOL_MAX_PAYLOAD → policy_ok policy → timeout_ms policy ≠ 0 → is_u64 now →
  (pending_active (session_pending (session d)) = true → Q (DEVMGR_ERROR_BUSY, unset) d) →
  (let f := request_frame type flags (next_sequence (session d)) (take (Z.to_nat n) src) in
   pending_active (session_pending (session d)) = false → frame_ok f →
   base_ok (with_request d f policy now) → Q (DEVMGR_OK, f) (with_request d f policy now)) →
  wp (begin_request type flags (Some src) n policy now unset) d Q.
Proof.
  intros Hd Ht Hfl Hs Hn Hmax Hp Htm Hnow Hbusy Hok. unfold begin_request. wp_step. apply wp_bind.
  eapply wp_lift; [by apply begin_request_spec|].
  rewrite (proj2 (Z.ltb_ge _ n)) by done. rewrite (proj2 (Z.eqb_neq _ _)) by done. cbn [orb].
  destruct (pending_active (session_pending (session d))).
  { wp_step. change (DEVMGR_ERROR_BUSY =? DEVMGR_OK) with false. cbv iota. do 2 wp_step.
    replace (d <| session := session d |>) with d by by destruct d. by apply Hbusy. }
  cbv zeta. wp_step. change (DEVMGR_OK =? DEVMGR_OK) with true. cbv iota. unfold trace_request. do 2 wp_step.
  pose proof Hd as (_ & _ & _ & _ & Hso & _).
  assert (frame_ok (request_frame type flags (next_sequence (session d)) (take (Z.to_nat n) src))) as Hf.
  { apply request_frame_ok; [done..|apply Hso|by apply Forall_take|rewrite length_take; lia]. }
  apply Hok; [done..|]. open_base Hd. keep_base. by apply begun_ok.
Qed.

(** Beginning a request is one step of the driver. *)
Lemma begun_moves d f policy now :
  pending_active (session_pending (session d)) = false →
  driver_step (mk_driver None (next_sequence (session d)) (upgrade d)) [Begin (strip (view f))]
    (mk_driver (Some (strip (view f))) (succ_sequence (next_sequence (session d))) (upgrade d)) →
  moves [] d (with_request d f policy now).
Proof.
  intros Hp Hs. apply (moves_step [Begin (strip (view f))]); [|done|].
  - unfold driver_of. rewrite Hp. exact Hs.
  - unfold line_trace, grown. cbn. by rewrite map_app, app_nil_r.
Qed.

Lemma next_request_after image version u :
  next_request image version (after_request image u) = next_request image version u.
Proof. unfold next_request, after_request. by destruct (upgrade_state u) eqn:E; cbn; rewrite ?E. Qed.

Lemma cancel_request_ok d :
  base_ok d → wp cancel_request d (λ _ d', base_ok d' ∧ moves [] d d' ∧
    upgrade d' = upgrade d ∧ firmware d' = firmware d ∧
    pending_upgrade_version d' = pending_upgrade_version d ∧
    session_state (session d') = session_state (session d)).
Proof.
  intros Hd. unfold cancel_request. wp_step. split_and!; try done.
  - open_base Hd. keep_base. destruct Hse as (? & ? & ?). split_and!; try done. by apply pending_ok_stop.
  - apply moves_silent; [|done]. apply (driver_drop (driver_of d)).
Qed.

(** What a request of the upgrade leaves as it was. *)
Definition requested (d d' : daemon) : Prop :=
  base_ok d' ∧ moves [] d d' ∧ firmware d' = firmware d ∧
  pending_upgrade_version d' = pending_upgrade_version d ∧
  session_state (session d') = session_state (session d).

Lemma requested_trans d d' d'' : requested d d' → requested d' d'' → requested d d''.
Proof.
  intros (_ & Hm & Hf & Hv & Hs) (Hb & Hm' & Hf' & Hv' & Hs').
  split; [done|]. split; [by eapply moves_trans|]. split_and!; congruence.
Qed.

Lemma requested_refl d : base_ok d → requested d d.
Proof. intros. split; [done|]. split; [by apply moves_same|done]. Qed.

(** The end of a request that may not have been queued. *)
Lemma settle_ok result d :
  base_ok d →
  wp ((if negb (result =? DEVMGR_OK) then cancel_request else mret tt);; mret result) d
    (λ r d', requested d d' ∧ upgrade d' = upgrade d ∧ r = result).
Proof.
  intros Hd. apply wp_bind. destruct (negb _).
  - eapply wp_mono; [by apply cancel_request_ok|]. intros _ d' (Hb & Hm & Hu & Hf & Hv & Hs).
    wp_step. by split_and!.
  - do 2 wp_step. by split_and!; [apply requested_refl|..].
Qed.

(** The pending request is handed to the line. *)
Lemma queue_pending_ok frame d :
  base_ok d → frame_ok frame → dr_pending (driver_of d) = Some (strip (view frame)) →
  wp (queue_frame frame) d (λ result d', requested d d' ∧ upgrade d' = upgrade d ∧ session d' = session d ∧
    -2147483648 ≤ result < 2147483648).
Proof.
  intros Hd Hf Hp. eapply wp_mono; [by apply queue_frame_ok|].
  intros result d' [Hb H].
  assert (∃ ws, queued_frames ws d d' ∧ driver_run (driver_of d) (map Emit ws) (driver_of d))
    as (ws & (Hs & Hu & Hfi & Hv & _ & Hk) & Hr).
  { destruct H as [[_ H]|[_ H]]; [exists []; split; [done|constructor]|].
    exists [view frame]. split; [done|]. apply run_one. apply driver_emit; [done|by apply view_ok]. }
  assert (driver_of d' = driver_of d) as Hdr by (unfold driver_of; by rewrite Hs, Hu).
  split; [|split; [done|]; split; [done|]; by destruct H as [[-> _]|[[-> | ->] _]]]. split; [done|]. split; [|by rewrite Hs].
  exists (map Emit ws). split; [clear; by induction ws|]. split; [done|]. by rewrite Hdr.
Qed.

(** A request of the upgrade, once it is built. *)
Lemma issue_request_ok image version type payload unset d :
  base_ok d → upgrade_ok image version (upgrade d) →
  next_request image version (upgrade d) = Some (type, payload) →
  wp ('(result, request) ←
        (now ← monotonic_ns;
         begin_request type DEVMGR_FRAME_ACK_REQUIRED
           (Some (frame_payload (request_frame type DEVMGR_FRAME_ACK_REQUIRED 0 payload)))
           (len payload) upgrade_policy now unset);
      result ← (if result =? DEVMGR_OK then queue_frame request else mret result);
      (if negb (result =? DEVMGR_OK) then cancel_request else mret tt);;
      mret result) d (λ _ d', requested d d' ∧ upgrade d' = upgrade d).
Proof.
  intros Hd Hu En. destruct (request_payload_ok _ _ _ _ _ Hu En) as (Ht & Hpb & Hpl).
  assert (frame_ok (request_frame type DEVMGR_FRAME_ACK_REQUIRED 0 payload)) as Hf
    by by apply request_frame_ok.
  apply wp_bind, wp_bind, wp_monotonic_ns. intros now k Hnow Hk.
  pose proof (base_kern d k Hd Hk) as H1. assert (requested d (d <| kern := k |>)) as Hr1.
  { split; [done|]. split; [by apply aside_moves, aside_kern|done]. }
  set (d1 := d <| kern := k |>) in *. change (upgrade d) with (upgrade d1) in *. clearbody d1. clear Hd.
  assert (take (Z.to_nat (len payload)) (frame_payload (request_frame type DEVMGR_FRAME_ACK_REQUIRED 0 payload))
          = payload) as Etake by (unfold request_frame; cbn; by rewrite Nat2Z.id, take_app_length).
  apply begin_request_ok; try done; [apply Hf|..].
  { cbn. rewrite length_app. lia. }
  - intros _. change (DEVMGR_ERROR_BUSY =? DEVMGR_OK) with false.
    cbv iota. wp_step.
    eapply wp_mono; [by apply settle_ok|]. intros _ d' (Hr & Hu' & _).
    split; [by eapply requested_trans|done].
  - rewrite Etake. intros f Hp Hff H2. wp_step.
    set (d2 := with_request d1 f upgrade_policy now) in *.
    assert (requested d1 d2) as Hr2.
    { split; [done|]. split; [|done]. eapply begun_moves; [done|].
      rewrite (view_request_frame _ _ _ _ : view f = _). by eapply driver_begins. }
    eapply wp_mono; [by apply (queue_pending_ok f d2)|].
    intros result d' (Hr3 & Hu3 & _). eapply wp_mono; [apply settle_ok, Hr3|].
    intros _ d'' (Hr4 & Hu4 & _). split; [|by rewrite Hu4, Hu3].
    eapply requested_trans; [|done]. eapply requested_trans; [|done]. by eapply requested_trans.
Qed.

(** The next request of a running upgrade. *)
Lemma queue_upgrade_request_ok image version unset d :
  base_ok d → upgrade_ok image version (upgrade d) → upgrade_running (upgrade d) = true →
  wp (queue_upgrade_request unset) d (λ _ d',
    requested d d' ∧ upgrade_ok image version (upgrade d') ∧ upgrade_running (upgrade d') = true ∧
    image_crc (upgrade d') = image_crc (upgrade d)).
Proof.
  intros Hd Hu Hrun. unfold queue_upgrade_request. wp_step. apply wp_bind.
  eapply wp_lift; [by apply build_request_spec|].
  destruct (upgrade_running_next image version _ Hrun) as (type & payload & En). rewrite En.
  wp_step. change (DEVMGR_OK =? DEVMGR_OK) with true. cbv iota.
  set (d1 := d <| upgrade := after_request image (upgrade d) |>).
  assert (requested d d1) as Hr.
  { split; [by open_base Hd; keep_base|]. split; [|done].
    apply moves_silent; [|done]. by apply (driver_builds (driver_of d) image version). }
  eapply wp_mono; [apply (issue_request_ok image version type payload unset d1)|].
  - apply Hr.
  - by apply after_request_ok.
  - cbn. by rewrite next_request_after.
  - intros _ d' [Hr' Hu']. rewrite Hu'. split; [by eapply requested_trans|].
    split; [by apply after_request_ok|]. cbn. unfold after_request, upgrade_running in *.
    by destruct (upgrade_state (upgrade d)) eqn:E; cbn; rewrite ?E.
Qed.

(** ** Ends of upgrades *)

Definition in_state (st : devmgr_device_state) (d : daemon) : daemon :=
  d <| session := (session d) <| session_state := st |> |>.

Lemma in_state_ok st d : base_ok d → base_ok (in_state st d).
Proof. intros H. open_base H. by keep_base. Qed.

Lemma wp_session_transition event d Q :
  event ≠ DEVMGR_SESSION_TRANSPORT_LOST → event ≠ DEVMGR_SESSION_FAIL →
  (∀ result st,
    (st = DEVMGR_DEVICE_UPGRADING →
       event = DEVMGR_SESSION_START_UPGRADE ∨
       session_state (session d) = DEVMGR_DEVICE_UPGRADING ∧ event ≠ DEVMGR_SESSION_UPGRADE_DONE) →
    (result = DEVMGR_OK → event = DEVMGR_SESSION_START_UPGRADE → st = DEVMGR_DEVICE_UPGRADING) →
    Q result (in_state st d)) →
  wp (session_transition event) d Q.
Proof.
  intros Hl Hf H. unfold session_transition. wp_step. unfold devmgr_session_transition.
  rewrite !bool_decide_false by done. cbn [orb].
  assert (in_state (session_state (session d)) d = d <| session := session d |>) as E
    by by unfold in_state; destruct (session d).
  destruct (session_state (session d)) eqn:Es; repeat case_bool_decide; cbn [fst snd];
    first [rewrite <- E | idtac]; apply H; subst; naive_solver.
Qed.

(** The state after devmgr_firmware_close. *)
Definition without_image (d : daemon) : daemon :=
  d <| worker := (worker d) <| ws_log := ws_log (worker d) ++ (devmgr_firmware_close (firmware d)).2 |> |>
    <| firmware := no_image |>.

Lemma wp_close_firmware d Q : Q tt (without_image d) → wp close_firmware d Q.
Proof. intros H. by exists tt, (without_image d). Qed.

Lemma without_image_ok d : base_ok d → base_ok (without_image d).
Proof.
  intros H. open_base H. keep_base; [done|]. destruct Hwo as [[fd Hw] Hr]. split; [|done]. exists fd.
  eapply worker_close; [exact Hw|done|]. unfold daemon_resources.
  cbn [without_image clients firmware signal_fd timer_fd epoll_fd listen_fd transport upd].
  change (image_resources no_image) with (@nil resource). cbn [app]. by rewrite Permutation_app_swap_app.
Qed.

(** No upgrade runs: what is left to check. *)
Lemma idle_ok d :
  base_ok d → upgrade_running (upgrade d) = false → upgrade_state (upgrade d) ≠ DEVMGR_UPGRADE_VALIDATING →
  firmware d = no_image → session_state (session d) ≠ DEVMGR_DEVICE_UPGRADING → daemon_ok d.
Proof. intros Hd Hr Hv Hf Hs. split; [done|]. unfold linked. by rewrite Hr. Qed.

(** ** Frames from the device *)

(** What a handler does: the invariant is kept, and the device sees a driver. *)
Definition handled (ls : list label) (d d' : daemon) : Prop := daemon_ok d' ∧ moves ls d d'.

Lemma handled_trans ls d d' d'' : moves ls d d' → handled [] d' d'' → handled ls d d''.
Proof. intros H [H1 H2]. split; [done|]. by eapply moves_trans. Qed.

Lemma handled_aside d d' : daemon_ok d → base_ok d' → aside d d' → handled [] d d'.
Proof.
  intros [_ Hl] Hb Ha. split; [|by apply aside_moves]. split; [done|]. by eapply aside_linked.
Qed.

Lemma kern_ok d k : daemon_ok d → same_trace (kern d) k → handled [] d (d <| kern := k |>).
Proof.
  intros Hd Hk. apply handled_aside; [done|by apply base_kern; [apply Hd|]|by apply aside_kern].
Qed.

Lemma given_up_moves d u :
  given_up (upgrade d) u → moves [] d (d <| upgrade := u |>).
Proof. intros H. apply moves_silent; [|done]. by apply (driver_give_up (driver_of d) u). Qed.

Lemma store_telemetry_ok frame d :
  daemon_ok d → frame_ok frame → wp (store_telemetry frame) d (λ _ d', handled [] d d').
Proof.
  intros Hd (_ & _ & _ & _ & Hl & Hb). unfold store_telemetry. apply wp_bind.
  destruct (Z.eqb_spec (frame_payload_length frame) 16) as [E|]; cycle 1.
  { do 2 wp_step. apply handled_aside; [done|apply Hd|done]. }
  wp_step. apply wp_bind. pose proof Hd as [H1 _]. open_base H1. destruct Hte as (Ht & Htb & Htl).
  unfold DEVMGR_PROTOCOL_MAX_PAYLOAD in Hl.
  eapply wp_lift; [rewrite memcpy_ok by (unfold id; lia); reflexivity|]. do 2 wp_step.
  apply handled_aside; [done| |done]. keep_base. split_and!; cbn.
  - rewrite length_splice by (rewrite ?length_slice; lia). lia.
  - apply splice_Forall; [done|by apply slice_Forall].
  - auto.
Qed.

(** An upgrade ends, with its session and its image. *)
Lemma finish_upgrade_ok result d :
  base_ok d → upgrade_running (upgrade d) = false → upgrade_state (upgrade d) ≠ DEVMGR_UPGRADE_VALIDATING →
  wp (finish_upgrade result) d (λ _ d', handled [] d d').
Proof.
  intros Hd Hr Hv. unfold finish_upgrade, set_upgrade_result. wp_step.
  set (d1 := d <| upgrade_result := result |>). assert (base_ok d1) as H1 by by open_base Hd; keep_base.
  apply wp_bind, wp_session_transition; [done..|]. intros r st Hst _. apply wp_close_firmware.
  split; [|by apply moves_same]. apply idle_ok; try done.
  - by apply without_image_ok, in_state_ok.
  - cbn. intros ->. by destruct Hst as [|[]].
Qed.

Lemma answer_cases u rt w :
  let '(result, u') := answer u rt w in
  image_crc u' = image_crc u ∧
  (result = DEVMGR_OK ∧ upgrade_running u = true ∧
     (upgrade_state u' = DEVMGR_UPGRADE_COMPLETE ∨ upgrade_running u' = true) ∨
   result ≠ DEVMGR_OK ∧ upgrade_state u' = DEVMGR_UPGRADE_ERROR).
Proof.
  unfold answer, failed, resumed, advanced, upgrade_running.
  destruct (refused w); [naive_solver|].
  destruct (upgrade_state u) eqn:E; repeat case_match; simplify_eq; cbn; naive_solver.
Qed.

Lemma running_active u : upgrade_running u = true → devmgr_upgrade_active u = true.
Proof. unfold upgrade_running, devmgr_upgrade_active. by destruct (upgrade_state u). Qed.

(** A running upgrade asks for its next step. *)
Lemma next_step_ok image version unset d :
  base_ok d → upgrade_ok image version (upgrade d) → upgrade_running (upgrade d) = true →
  session_state (session d) = DEVMGR_DEVICE_UPGRADING → image_data (firmware d) = Some image →
  image_crc (upgrade d) = crc_of image →
  wp (queue_upgrade_request unset) d (λ _ d', handled [] d d').
Proof.
  intros Hd Hu Hr Hs Hf Hc. eapply wp_mono; [by eapply queue_upgrade_request_ok|].
  intros result d' ((Hb & Hm & Hf' & _ & Hs') & Hu' & Hr' & Hc'). split; [|done]. split; [done|].
  unfold linked. rewrite Hr'. split; [congruence|]. exists image, version. split_and!; congruence.
Qed.

(** The upgrade takes an answer. *)
Definition with_answer (d : daemon) (rt : Z) (w : wire_frame) : daemon :=
  d <| upgrade := if upgrade_running (upgrade d) then (answer (upgrade d) rt w).2 else upgrade d |>.

Lemma upgrade_response_ok unset rt frame d :
  daemon_ok d → frame_ok frame → devmgr_upgrade_active (upgrade d) = true →
  wp (upgrade_response unset rt frame) d (λ _ d', handled [] (with_answer d rt (view frame)) d').
Proof.
  intros [Hd Hl] Hf Ha. unfold upgrade_response. wp_step. apply wp_bind. unfold id.
  eapply wp_lift; [by apply accept_response_spec|].
  pose proof (answer_cases (upgrade d) rt (view frame)) as Hc. unfold with_answer, linked in *.
  destruct (upgrade_running (upgrade d)) eqn:Er.
  - destruct Hl as (Hs & image & version & Hu & Hi & Hcrc).
    pose proof (answer_ok image version (upgrade d) rt (view frame) Hu) as Hu'.
    destruct (answer _ _ _) as [r u]. cbn [snd] in *. wp_step.
    assert (base_ok (d <| upgrade := u |>)) as H1 by by open_base Hd; keep_base.
    destruct Hc as [Hcu [(-> & _ & [Hc|Hc])|[Hc1 Hc2]]].
    + rewrite bool_decide_true by done. cbn [andb Z.eqb DEVMGR_OK]. apply wp_bind.
      eapply wp_mono; [apply finish_upgrade_ok|]; cbn; [done|by unfold upgrade_running; rewrite Hc|by rewrite Hc|].
      intros _ d' Hd'. by wp_step.
    + rewrite bool_decide_false by (intros E; unfold upgrade_running in Hc; by rewrite E in Hc).
      cbn [andb negb Z.eqb DEVMGR_OK]. eapply next_step_ok; cbn; try done; [|congruence].
      apply Hu', view_ok, Hf.
    + rewrite (proj2 (Z.eqb_neq _ _)) by done. cbn [andb negb]. apply wp_bind.
      eapply wp_mono; [apply finish_upgrade_ok|]; cbn; [done|by unfold upgrade_running; rewrite Hc2|by rewrite Hc2|].
      intros _ d' Hd'. by wp_step.
  - destruct (answer _ _ _) as [r u]. destruct Hc as [_ [(_ & [=] & _)|[Hc1 Hc2]]]. wp_step.
    rewrite (proj2 (Z.eqb_neq _ _)) by done. cbn [andb negb]. apply wp_bind.
    assert (base_ok (d <| upgrade := u |>)) as H1 by by open_base Hd; keep_base.
    eapply wp_mono; [apply (finish_upgrade_ok r)|]; cbn; [done|by unfold upgrade_running; rewrite Hc2|by rewrite Hc2|].
    intros _ d' Hd'. wp_step. eapply handled_trans; [|done].
    refine (given_up_moves d u _). split; [by unfold upgrade_running; rewrite Hc2|by rewrite Hc2].
Qed.

(** The session moves on its own while no upgrade runs. *)
Lemma transition_ok event d :
  daemon_ok d → upgrade_running (upgrade d) = false → event ≠ DEVMGR_SESSION_TRANSPORT_LOST →
  event ≠ DEVMGR_SESSION_FAIL → event ≠ DEVMGR_SESSION_START_UPGRADE →
  wp (session_transition event) d (λ _ d', handled [] d d' ∧ upgrade d' = upgrade d).
Proof.
  intros [Hd Hl] Hr H1 H2 H3. apply wp_session_transition; [done..|]. intros r st Hst _.
  split; [|done]. split; [|by apply moves_same]. split; [by apply in_state_ok|].
  unfold linked in *. cbn. rewrite Hr in *. destruct Hl as (? & ? & ?). split_and!; try done.
  cbn. intros ->. by destruct Hst as [|[]].
Qed.

Lemma drop_active_ok d i :
  daemon_ok d → -1 ≤ i < MAX_CLIENTS → handled [] d (d <| active_client := i |>).
Proof. intros Hd Hi. apply handled_aside; [done| |done]. destruct Hd as [Hd _]. open_base Hd. by keep_base. Qed.

Lemma client_answer_ok rt frame d :
  daemon_ok d → frame_ok frame → is_u8 rt → upgrade_running (upgrade d) = false → 0 ≤ active_client d →
  wp (client_answer rt frame) d (λ _ d', handled [] d d').
Proof.
  intros Hd Hf Hrt Hr Ha. unfold client_answer. do 2 wp_step.
  pose proof Hd as [(_ & Hac & _) _]. destruct (drop_active_ok d (-1) Hd) as [H1 Hm1]; [done|].
  set (d1 := d <| active_client := -1 |>) in *. apply wp_bind.
  apply wp_mono with (P := λ _ d', handled [] d d').
  - assert (∀ event, event ≠ DEVMGR_SESSION_TRANSPORT_LOST → event ≠ DEVMGR_SESSION_FAIL →
      event ≠ DEVMGR_SESSION_START_UPGRADE →
      wp (session_transition event;; mret tt) d1 (λ _ d', handled [] d d')) as Htr.
    { intros event He1 He2 He3. apply wp_bind. eapply wp_mono; [by apply transition_ok|].
      intros _ d2 [H2 _]. wp_step. by eapply handled_trans. }
    repeat case_match; [by apply Htr..| |]; by wp_step.
  - intros _ d2 [H2 Hm2]. pose proof Hf as (_ & _ & _ & Hn & Hl & Hb).
    eapply wp_mono; [apply queue_client_response_ok; [apply H2|lia|done|by case_match|]|].
    { unfold payload_ok, DEVMGR_PROTOCOL_MAX_PAYLOAD, DEVMGR_IPC_MAX_PAYLOAD in *.
      split; [split; [done|]|]; lia. }
    intros _ d3 [Hb3 Ha3]. eapply handled_trans; [done|]. by apply handled_aside.
Qed.

Lemma base_session d s : base_ok d → session_ok s → base_ok (d <| session := s |>).
Proof. intros H Hs. open_base H. by keep_base. Qed.

(** A response is matched with the pending request. *)
Lemma accept_response_cases frame d :
  daemon_ok d → frame_ok frame →
  let '(result, s) := devmgr_session_accept_response (session d) frame in
  let d' := d <| session := s |> in
  let request := strip (view (pending_frame (session_pending (session d)))) in
  daemon_ok d' ∧ (result ≠ DEVMGR_OK → moves [] d d') ∧
  (result = DEVMGR_OK → moves [Recv (view frame)] d (with_answer d' (w_type request) (view frame))).
Proof.
  intros [Hd Hl] Hf. unfold devmgr_session_accept_response.
  set (p := session_pending (session d)). pose proof Hd as (_ & _ & _ & _ & (Hn & Hnz & Hp) & _).
  assert (∀ st, daemon_ok (d <| session := (session d) <| session_stats := st |> |>)) as Hst.
  { intros st. split; [|done]. by apply base_session. }
  destruct (pending_active p) eqn:Ea; cbn [negb].
  2:{ case_match; split_and!; try done; intros _; by apply moves_same. }
  destruct (Z.eqb_spec (frame_sequence frame) (frame_sequence (pending_frame p))) as [Eq|]; cbn [negb].
  2:{ split_and!; try done. intros _. by apply moves_same. }
  do 2 (destruct (_ && _); [split_and!; try done; intros _; by apply moves_same|]).
  split_and!; try done.
  - split; [|done]. apply base_session; [done|]. split_and!; try done. by apply pending_ok_stop.
  - intros _. exists []. rewrite grown_nil, app_nil_r. split; [done|]. split; [done|]. apply run_one.
    unfold driver_of at 1. fold p. rewrite Ea. by apply driver_recvs.
Qed.

(** The trace of a frame that the parser delivered. *)
Definition hearing (f : devmgr_frame) (d : daemon) : daemon :=
  d <| kern := (kern d) <| k_heard := k_heard (kern d) ++ [view f] |> |>.

Lemma hearing_ok f d : daemon_ok d → daemon_ok (hearing f d).
Proof. intros [Hd Hl]. split; [|done]. open_base Hd. by keep_base. Qed.

Lemma on_device_frame_ok unset frame d0 :
  daemon_ok d0 → frame_ok frame →
  wp (on_device_frame unset frame) d0
    (λ _ d', handled [] (hearing frame d0) d' ∨ handled [Recv (view frame)] (hearing frame d0) d').
Proof.
  intros Hd Hf. apply (hearing_ok frame) in Hd. unfold on_device_frame, trace_heard. wp_step.
  change (d0 <| kern := _ |>) with (hearing frame d0). set (d := hearing frame d0) in *. clearbody d.
  destruct (_ && _).
  { eapply wp_mono; [by apply store_telemetry_ok|]. auto. }
  do 2 wp_step. pose proof (accept_response_cases frame d Hd Hf) as Hc.
  set (rt := frame_type (pending_frame (session_pending (session d)))).
  assert (is_u8 rt) as Hrt by apply Hd.
  destruct (devmgr_session_accept_response _ _) as [result s]. cbn [fst snd]. destruct Hc as (H1 & Hbad & Hgood).
  destruct (Z.eqb_spec result DEVMGR_OK) as [Er|Er]; cbn [negb].
  2:{ wp_step. left. split; [done|by apply Hbad]. }
  specialize (Hgood Er). set (d1 := d <| session := s |>) in *. cbn [strip view w_type] in Hgood. fold rt in Hgood.
  wp_step. unfold id.
  assert (upgrade_running (upgrade d1) = false → moves [Recv (view frame)] d d1) as Hidle.
  { intros Hr. unfold with_answer in Hgood. rewrite Hr in Hgood. done. }
  case_bool_decide as Hst.
  { assert (upgrade_running (upgrade d1) = false) as Hr.
    { destruct (upgrade_running _) eqn:Hr; [|done]. destruct H1 as [_ Hl]. unfold linked in Hl.
      rewrite Hr in Hl. destruct Hl as [Hl _]. congruence. }
    destruct (is_refusal frame); [wp_step; right; split; [done|by apply Hidle]|].
    eapply wp_mono; [by apply transition_ok|]. intros _ d2 [H2 _]. right. eapply handled_trans; [by apply Hidle|done]. }
  destruct (devmgr_upgrade_active (upgrade d1)) eqn:Hact.
  { eapply wp_mono; [by apply upgrade_response_ok|]. intros ? d2 H2. right. by eapply handled_trans. }
  assert (upgrade_running (upgrade d1) = false) as Hr.
  { destruct (upgrade_running _) eqn:Hr; [|done]. by rewrite running_active in Hact. }
  destruct (Z.leb_spec 0 (active_client d1)).
  - eapply wp_mono; [by apply client_answer_ok|]. intros ? d2 H2. right. eapply handled_trans; [by apply Hidle|done].
  - wp_step. right. split; [done|by apply Hidle].
Qed.

(** ** The handlers of the line *)

(** Any number of steps of the driver: the frames it emits are those queued, the
    requests it begins are those begun, and the answers it takes are among the
    frames that were delivered, in order. *)
Definition drives (d d' : daemon) : Prop :=
  ∃ ls fs, driver_run (driver_of d) ls (driver_of d') ∧
    k_frames (kern d') = k_frames (kern d) ++ omap emits ls ∧
    map strip (k_requests (kern d')) = map strip (k_requests (kern d)) ++ omap begins ls ∧
    k_heard (kern d') = k_heard (kern d) ++ fs ∧ omap receives ls `sublist_of` fs.

#[export] Instance drives_preorder : PreOrder drives.
Proof.
  split.
  - intros d. exists [], []. cbn. rewrite !app_nil_r. split; [constructor|done].
  - intros d1 d2 d3 (ls & fs & R1 & F1 & B1 & H1 & S1) (ls' & fs' & R2 & F2 & B2 & H2 & S2).
    exists (ls ++ ls'), (fs ++ fs'). rewrite F2, F1, B2, B1, H2, H1, !omap_app, !(assoc_L (++)).
    split; [by eapply run_app|]. split_and!; try done. by apply sublist_app.
Qed.

(** What a handler does after it was given the frames [fs]. *)
Lemma moves_drives l fs d d' :
  moves (Recv <$> l) d d' → l `sublist_of` fs →
  ∀ d0, driver_of d0 = driver_of d → k_frames (kern d0) = k_frames (kern d) →
    k_requests (kern d0) = k_requests (kern d) → k_heard (kern d) = k_heard (kern d0) ++ fs → drives d0 d'.
Proof.
  intros (ms & N & Ht & Hr) Hs d0 Ed Ef Eq Eh. exists (map Recv l ++ ms), fs. injection Ht as Hf Hh Hq. cbn in Hf, Hh, Hq.
  rewrite Ed, Ef, Eq, Hf, Hh, Hq, !omap_app, N, app_nil_r.
  assert (omap emits (map Recv l) = [] ∧ omap begins (map Recv l) = [] ∧ omap receives (map Recv l) = l)
    as (-> & -> & ->) by (clear; induction l as [|x l (? & ? & IH)]; cbn; [done|]; split_and!; [done..|by f_equal]).
  by split_and!.
Qed.

(** What holds after a handler, or a part of one, that started in [d]. *)
Definition served (d d' : daemon) : Prop := daemon_ok d' ∧ drives d d'.

Lemma served_handled d d' : handled [] d d' → served d d'.
Proof.
  intros [H1 H2]. split; [done|]. apply (moves_drives [] [] d); try done. by rewrite app_nil_r.
Qed.

(** A frame that was delivered, and perhaps taken as the answer. *)
Lemma served_heard f d d' :
  handled [] (hearing f d) d' ∨ handled [Recv (view f)] (hearing f d) d' → served d d'.
Proof.
  intros [[H1 H2]|[H1 H2]]; (split; [done|]).
  - apply (moves_drives [] [view f] (hearing f d)); try done. apply sublist_nil_l.
  - by apply (moves_drives [view f] [view f] (hearing f d)).
Qed.

Lemma served_trans d d' d'' : served d d' → served d' d'' → served d d''.
Proof. intros [_ H] [H1 H2]. split; [done|]. by etrans. Qed.

Lemma served_aside d d' : daemon_ok d → base_ok d' → aside d d' → served d d'.
Proof. intros. by apply served_handled, handled_aside. Qed.

Lemma write_retry_ends script n :
  Exists write_ends script →
  ∃ o script', write_retry script n = Some (o, script') ∧ (length script' < length script)%nat ∧
    ((∃ count, o = Wrote count ∧ count ≤ n ∧ (0 < count → 0 ≤ n → Exists write_ends script')) ∨
     ∃ e, o = WriteError e).
Proof.
  induction script as [|o script IH]; intros H; [by apply Exists_nil in H|].
  cbn [write_retry]. apply Exists_cons in H. destruct o as [count|e].
  - do 2 eexists. split; [done|]. split; [cbn; lia|]. left. eexists. split; [done|]. unfold taken.
    split; [lia|]. intros Hc _. destruct H as [H|]; [|done]. cbn in H. apply Is_true_true, Z.leb_le in H. lia.
  - destruct (decide (e = EINTR)) as [->|He].
    + destruct H as [H|H]; [cbn in H; by rewrite bool_decide_false in H by naive_solver|].
      destruct (IH H) as (o & script' & E & Hl & Ho). exists o, script'. split; [done|]. split; [cbn; lia|done].
    + destruct e; try done; (do 2 eexists; split; [done|]; split; [cbn; lia|]; right; eauto).
Qed.

(** Some bytes of the output are on the line. *)
Lemma written_ok count d :
  base_ok d → 0 < count ≤ transport_output_size d - transport_output_offset d →
  let bytes := slice (transport_output d) (transport_output_offset d)
                 (transport_output_size d - transport_output_offset d) in
  base_ok (d <| kern := (kern d) <| k_line := k_line (kern d) ++ take (Z.to_nat count) bytes |> |>
             <| transport_output_offset := transport_output_offset d + count |>).
Proof.
  intros Hd Hc bytes. open_base Hd. keep_base. destruct Hou as (Hl & Hb & Ho & Hs & Ht).
  split_and!; try done; cbn -[bytes]; [lia..|]. rewrite Ht, <- (assoc_L (++)). f_equal. fold bytes.
  set (rest := slice _ (_ + _) _).
  assert (bytes = slice (transport_output d) (transport_output_offset d) count ++ rest) as ->
    by (unfold bytes, rest; rewrite <- slice_split by lia; f_equal; lia).
  rewrite take_app_length'; [done|]. rewrite length_slice; lia.
Qed.

Lemma flush_loop_ok fuel script d :
  base_ok d → (length script ≤ fuel)%nat → Exists write_ends script →
  wp (flush_loop fuel script) d (λ _ d', base_ok d' ∧ aside d d').
Proof.
  revert script d. induction fuel as [|fuel IH]; intros script d Hd Hf Hs;
    [by destruct script; [apply Exists_nil in Hs|cbn in Hf; lia]|].
  cbn [flush_loop]. wp_step. unfold id.
  destruct (Z.ltb_spec (transport_output_offset d) (transport_output_size d)); cbn [negb]; [|by wp_step].
  pose proof Hd as (_ & _ & (Hl & _ & Ho & Hsz & _) & _).
  apply wp_bind. eapply wp_lift; [apply mem_read_ok; lia|].
  apply wp_bind. unfold devmgr_transport_write. set (bytes := slice _ _ _).
  destruct (_ <? 0); [eapply wp_lift; [done|]; cbv iota; by wp_step|].
  destruct (write_retry_ends script (len bytes) Hs) as (o & script' & E & Hl' & Hc).
  eapply wp_lift; [exact E|]. destruct Hc as [(count & -> & Hle & Hc)|(e & ->)]; [|by destruct e; wp_step].
  destruct (Z.ltb_spec 0 count); [|by wp_step]. unfold trace_line. do 2 wp_step.
  assert (len bytes = transport_output_size d - transport_output_offset d) as Hb
    by (apply len_slice; lia).
  pose proof (written_ok count d Hd ltac:(lia)) as H1. fold bytes in H1. cbv zeta in H1.
  eapply wp_mono; [apply (IH script' _ H1); [lia|apply Hc; lia]|].
  intros ? d' [Hd' Ha]. split; [done|]. by etrans; [|exact Ha].
Qed.

Lemma flush_transport_ok script d :
  daemon_ok d → Exists write_ends script → wp (flush_transport script) d (λ _ d', served d d').
Proof.
  intros Hd Hs. unfold flush_transport. apply wp_bind.
  eapply wp_mono; [apply flush_loop_ok; [apply Hd|done|done]|]. intros result d1 [H1 Ha].
  destruct (negb _); [wp_step; by apply served_aside|]. wp_step. apply wp_bind. unfold id.
  apply wp_mono with (P := λ _ d', base_ok d' ∧ aside d d').
  - destruct (Z.eqb_spec (transport_output_offset d1) (transport_output_size d1)) as [E|]; wp_step; [|done].
    split; [|done]. open_base H1. keep_base. destruct Hou as (? & ? & _ & _ & Ht).
    rewrite E, Z.sub_diag, slice_nil in Ht. by split_and!.
  - intros _ d2 [H2 Ha2]. eapply wp_mono; [by apply update_transport_events_ok|].
    intros _ d3 (_ & H3 & Hq). apply served_aside; [done|done|]. etrans; [done|]. by apply queued_none.
Qed.

Lemma read_retry_ends script n :
  Exists read_ends script → Forall read_ok script →
  ∃ o script', read_retry script n = Some (o, script') ∧ (length script' < length script)%nat ∧
    Forall read_ok script' ∧
    ((∃ bytes, o = Read bytes ∧ Forall is_u8 bytes ∧ (0 < len bytes → Exists read_ends script')) ∨
     ∃ e, o = ReadError e).
Proof.
  intros H. induction script as [|o script IH]; [by apply Exists_nil in H|].
  intros [Ho Hs]%Forall_cons. cbn [read_retry]. apply Exists_cons in H. destruct o as [bytes|e].
  - do 2 eexists. split; [done|]. split; [cbn; lia|]. split; [done|]. left. eexists. split; [done|].
    split; [by apply Forall_take|]. intros Hc. destruct H as [H|]; [|done]. cbn in H.
    apply bool_decide_unpack in H as ->. unfold delivered in Hc. rewrite take_nil in Hc. cbn in Hc. lia.
  - destruct (decide (e = EINTR)) as [->|He].
    + destruct H as [H|H]; [cbn in H; by rewrite bool_decide_false in H by naive_solver|].
      destruct (IH H Hs) as (o & script' & E & Hl & Hr). exists o, script'.
      split; [done|]. split; [cbn; lia|done].
    + destruct e; try done; (do 2 eexists; split; [done|]; split; [cbn; lia|]; split; [done|]; right; eauto).
Qed.

Lemma parser_drives d d0 bytes locals unset :
  served d0 d → locals_ok locals → Forall is_u8 bytes →
  ∃ result p d' n, devmgr_parser_feed (on_device_frame unset) (parser d) locals (Some bytes) (len bytes) d 0
    = Some (result, p, d', n) ∧ served d0 (d' <| parser := p |>).
Proof.
  intros Hd Hl Hb.
  destruct (parser_feed_safe (on_device_frame unset) (served d0)) with
    (p := parser d) (l := locals) (data := bytes) (length := len bytes) (c := d) (n := 0)
    as (result & p & d' & n & E & Hp & Hd'); try done.
  - intros f c Hf Hc.
    destruct (on_device_frame_ok unset f c (proj1 Hc) Hf) as (r & c' & E & H). exists r, c'.
    split; [done|]. eapply served_trans; [done|]. by eapply served_heard.
  - apply Hd.
  - lia.
  - exists result, p, d', n. split; [done|]. destruct Hd' as [[Hb' Hl'] Hdr]. split; [|done].
    split; [|done]. open_base Hb'. by keep_base.
Qed.

Lemma read_loop_ok fuel script locals unset d d0 :
  served d0 d → (length script ≤ fuel)%nat → Exists read_ends script → Forall read_ok script →
  locals_ok locals → wp (read_loop fuel script locals unset) d (λ _ d', served d0 d').
Proof.
  revert script d. induction fuel as [|fuel IH]; intros script d Hd Hf Hs Hok Hl;
    [by destruct script; [apply Exists_nil in Hs|cbn in Hf; lia]|].
  cbn [read_loop]. wp_step. apply wp_bind. unfold devmgr_transport_read, id.
  destruct (_ <? 0); [eapply wp_lift; [done|]; cbv iota; by wp_step|].
  destruct (read_retry_ends script 2048 Hs Hok) as (o & script' & E & Hl' & Hok' & Hc).
  eapply wp_lift; [exact E|]. destruct Hc as [(bytes & -> & Hb & Hc)|(e & ->)]; [|by destruct e; wp_step].
  destruct (Z.ltb_spec 0 (len bytes)); [|by wp_step]. apply wp_bind.
  destruct (parser_drives d d0 bytes locals unset Hd Hl Hb) as (result & p & d' & n & Ef & Hd').
  eapply wp_lift; [exact Ef|]. cbv iota. wp_step.
  destruct (result =? DEVMGR_OK); cbn [negb]; [|by wp_step].
  apply IH; try done; [lia|by apply Hc].
Qed.

(** ** The timer *)

(** The session changed, but not its state. *)
Lemma linked_session d d' :
  linked d → upgrade d' = upgrade d → firmware d' = firmware d →
  pending_upgrade_version d' = pending_upgrade_version d →
  session_state (session d') = session_state (session d) → linked d'.
Proof. unfold linked. by intros ? -> -> -> ->. Qed.

Lemma session_tick_ok now d :
  daemon_ok d → is_u64 now →
  wp (session_tick now) d (λ _ d', handled [] d d' ∧ upgrade d' = upgrade d).
Proof.
  intros [Hd Hl] Hnow. unfold session_tick. wp_step. apply wp_bind. unfold id.
  pose proof Hd as (_ & _ & _ & _ & Hs & _). pose proof Hs as (Hn & Hnz & Hp).
  unfold devmgr_session_tick. set (p := session_pending (session d)) in *.
  destruct (pending_active p) eqn:Ea; cbn [negb orb]; cycle 1.
  { eapply wp_lift; [done|]. cbv iota. do 2 wp_step. split; [|done].
    split; [split; [by apply base_session|done]|by apply moves_same]. }
  destruct (now <? deadline_ns p); [eapply wp_lift; [done|]; cbv iota; do 2 wp_step; split; [|done];
    split; [split; [by apply base_session|done]|by apply moves_same]|].
  destruct (Z.leb_spec (max_retries (pending_policy p)) (retries_done p)).
  { eapply wp_lift; [done|]. cbv iota. do 2 wp_step. split; [|done]. split; [split; [|done]|].
    - apply base_session; [done|]. split_and!; try done. by apply pending_ok_stop.
    - apply moves_silent; [|done]. apply (driver_drop (driver_of d)). }
  cbv zeta. change (_ <| frame_flags := _ |>) with (retry_frame (pending_frame p)).
  destruct (queue_pending_ok (retry_frame (pending_frame p)) d) as (r & d1 & E & Hr & Hu & Hs1 & _);
    [done|apply retry_frame_ok, Hp|unfold driver_of; fold p; by rewrite Ea|].
  assert (∀ p', pending_ok p' → pending_active p' = true → pending_frame p' = retry_frame (pending_frame p) →
    ∀ st, let d' := d1 <| session := (session d) <| session_pending := p' |> <| session_stats := st |> |> in
    handled [] d d' ∧ upgrade d' = upgrade d) as Hdone.
  { intros p' Hp' Ha' Hf' st d'. split; [|done]. destruct Hr as (Hb1 & Hm1 & Hf1 & Hv1 & Hst1).
    split; [split; [by apply base_session|by eapply linked_session]|].
    eapply moves_trans; [done|]. apply moves_same; [|done]. unfold driver_of. cbn.
    rewrite Hs1. fold p. by rewrite Ha', Hf', Ea. }
  unfold retransmit_frame. rewrite E. cbn [mbind option_bind].
  pose proof (retry_frame_ok _ (proj1 Hp)) as Hrf.
  destruct (negb _); (eapply wp_lift; [done|]; cbv iota; do 2 wp_step).
  - pose (p1 := p <| pending_frame := retry_frame (pending_frame p) |>).
    refine (Hdone p1 _ Ea eq_refl (session_stats (session d))).
    destruct Hp as (? & ? & ? & ? & ?). by split_and!.
  - by refine (Hdone (repeated p now) (repeated_ok p now Hp Hnow _) Ea eq_refl _).
Qed.

(** An upgrade that is given up: the state is ERROR and the image is closed. *)
Definition abandoned (result : Z) (d : daemon) : daemon :=
  without_image (d <| upgrade_result := result |>
                   <| upgrade := (upgrade d) <| upgrade_state := DEVMGR_UPGRADE_ERROR |> |>).

Lemma abandoned_ok result d : base_ok d → base_ok (abandoned result d) ∧ moves [] d (abandoned result d).
Proof.
  intros Hd. split.
  - apply without_image_ok. open_base Hd. by keep_base.
  - by refine (given_up_moves d _ _).
Qed.

(** The session leaves UPGRADING after that. *)
Lemma end_session_ok {A} result d d0 (r : A) :
  base_ok d → moves [] d0 d →
  wp (session_transition DEVMGR_SESSION_UPGRADE_DONE;; mret r) (abandoned result d)
    (λ _ d', handled [] d0 d').
Proof.
  intros Hd Hm. destruct (abandoned_ok result d Hd) as [H1 Hm1].
  apply wp_bind, wp_session_transition; [done..|]. intros r' st Hst _. wp_step.
  eapply handled_trans; [done|]. eapply handled_trans; [done|].
  split; [|by apply moves_same].
  apply idle_ok; [by apply in_state_ok|done..|]. cbn. intros ->. by destruct Hst as [|[]].
Qed.

(** The same, if it is there at all. *)
Lemma leave_session_ok result d d0 (r : Z) :
  base_ok d → moves [] d0 d →
  wp ((if bool_decide (session_state (session (abandoned result d)) = DEVMGR_DEVICE_UPGRADING)
       then session_transition DEVMGR_SESSION_UPGRADE_DONE;; mret tt else mret tt);; mret r)
    (abandoned result d) (λ _ d', handled [] d0 d').
Proof.
  intros Hd Hm. apply wp_bind. case_bool_decide.
  - eapply wp_mono; [by apply end_session_ok|]. intros ? d' H'. by wp_step.
  - do 2 wp_step. destruct (abandoned_ok result d Hd) as [H1 Hm1].
    split; [by apply idle_ok|]. by eapply moves_trans.
Qed.

Lemma recovery_cases u :
  let '(result, u') := devmgr_upgrade_begin_recovery u in
  image_crc u' = image_crc u ∧
  (upgrade_running u = false → result ≠ DEVMGR_OK ∧ u' = u) ∧
  (result = DEVMGR_OK → upgrade_running u' = true).
Proof.
  unfold devmgr_upgrade_begin_recovery, upgrade_running.
  destruct (session_id u =? 0); cbn [orb]; [by split_and!|].
  destruct (upgrade_state u) eqn:E; repeat case_bool_decide; cbn [negb andb]; try done; destruct (3 <=? _);
    by split_and!.
Qed.

Lemma recover_upgrade_ok unset d :
  daemon_ok d → wp (recover_upgrade unset) d (λ _ d', handled [] d d').
Proof.
  intros [Hd Hl]. unfold recover_upgrade. wp_step. pose proof (recovery_cases (upgrade d)) as Hc.
  assert (upgrade_running (upgrade d) = true →
    driver_step (driver_of d) [] (driver_of (d <| upgrade := (devmgr_upgrade_begin_recovery (upgrade d)).2 |>)))
    as Hstep by apply (driver_recover (driver_of d)).
  assert (∀ image version, upgrade_ok image version (upgrade d) →
    upgrade_ok image version (devmgr_upgrade_begin_recovery (upgrade d)).2) as Hok
    by (intros; by apply recovery_ok).
  destruct (devmgr_upgrade_begin_recovery (upgrade d)) as [result u]. cbn [fst snd] in *.
  destruct Hc as (Hcrc & Hidle & Hrun). set (d1 := d <| upgrade := u |>) in *.
  assert (base_ok d1) as H1 by by open_base Hd; keep_base.
  assert (moves [] d d1) as Hm1.
  { destruct (upgrade_running (upgrade d)); [by apply moves_silent; [apply Hstep|]|].
    destruct (Hidle eq_refl) as [_ ->]. by apply moves_same. }
  apply wp_bind. apply wp_mono with (P := λ r d', base_ok d' ∧ moves [] d d' ∧ (r = DEVMGR_OK → daemon_ok d')).
  - destruct (Z.eqb_spec result DEVMGR_OK) as [->|]; [|by wp_step].
    specialize (Hrun eq_refl). unfold linked in Hl.
    destruct (upgrade_running (upgrade d)); [|by destruct (Hidle eq_refl)].
    destruct Hl as (Hs & image & version & Hu & Hi & Hci).
    eapply wp_mono; [eapply (next_step_ok image version); try done; [by apply Hok|cbn; congruence]|].
    intros r d2 [H2 Hm2]. split; [apply H2|]. split; [by eapply moves_trans|done].
  - intros r d2 (H2 & Hm2 & Hd2). destruct (Z.eqb_spec r DEVMGR_OK); [wp_step; split; auto|].
    unfold set_upgrade_result, set_upgrade_state. do 2 wp_step.
    apply wp_bind, wp_close_firmware. by apply (end_session_ok DEVMGR_ERROR_TIMEOUT d2).
Qed.

Lemma handle_timer_ok unset d :
  daemon_ok d → wp (handle_timer unset) d (λ _ d', handled [] d d').
Proof.
  intros Hd. unfold handle_timer. apply wp_bind, wp_monotonic_ns. intros now k Hnow Hk.
  destruct (kern_ok d k Hd Hk) as [H1 Hm1].
  apply wp_bind. eapply wp_mono; [by apply session_tick_ok|]. intros result d2 [[H2 Hm2] _].
  assert (moves [] d d2) as Hm by by eapply moves_trans.
  destruct (negb _); [by wp_step|]. wp_step. unfold id.
  destruct (devmgr_upgrade_active (upgrade d2)) eqn:Ha; cycle 1.
  { destruct (Z.leb_spec 0 (active_client d2)); [|by wp_step]. wp_step.
    destruct (drop_active_ok d2 (-1) H2) as [H3 Hm3]; [done|]. pose proof H2 as [(_ & Hac & _) _].
    eapply wp_mono; [apply queue_client_response_ok; [apply H3|lia|done..]|].
    intros _ d4 [Hb4 Ha4]. eapply handled_trans; [done|]. eapply handled_trans; [done|]. by apply handled_aside. }
  eapply wp_mono; [by apply recover_upgrade_ok|]. intros ? d3 H3. by eapply handled_trans.
Qed.

(** ** The worker's results *)

Lemma version_bytes_ok array version :
  version_ok array → holds_string array version → Forall (λ b, 0 < b < 256) version.
Proof.
  intros (_ & Hb & _) (r & -> & Hz). apply Forall_app in Hb as [Hb _].
  rewrite Forall_forall in *. intros b Hin. specialize (Hb b Hin). specialize (Hz b Hin).
  unfold is_u8 in Hb. cbn in *. lia.
Qed.

(** An upgrade of a valid image is set up. *)
Lemma image_upgrade_ok image bytes d :
  base_ok (d <| firmware := image |>) → linked d →
  upgrade_state (upgrade d) = DEVMGR_UPGRADE_VALIDATING → image_data image = Some bytes →
  ∃ version u, devmgr_upgrade_start (upgrade d) (image_data image) (image_size image) (image_crc32 image)
      (pending_upgrade_version d) DEVMGR_UPGRADE_DEFAULT_CHUNK = Some (DEVMGR_OK, u) ∧
    upgrade_ok bytes version u ∧ upgrade_running u = true ∧ image_crc u = crc_of bytes ∧
    moves [] d (d <| firmware := image |> <| upgrade := u |>).
Proof.
  intros Hd Hl Hv Hi. assert (upgrade_running (upgrade d) = false) as Hr
    by (unfold upgrade_running; by rewrite Hv).
  unfold linked in Hl. rewrite Hr in Hl. destruct Hl as (_ & _ & Hver).
  destruct (Hver Hv) as (version & Hs & Hn). open_base Hd. cbn in Him. unfold image_ok in Him.
  rewrite Hi in *. destruct Him as (_ & Hlen & Hb & Hsz & Hcrc).
  unfold DEVMGR_FIRMWARE_MAX_SIZE in *.
  destruct (upgrade_start_ok (upgrade d) bytes (image_size image) (image_crc32 image)
    (pending_upgrade_version d) version DEVMGR_UPGRADE_DEFAULT_CHUNK)
    as (u & E & Hu & Hst & Hcu & _); try done.
  - unfold UINT32_MAX. lia.
  - rewrite Hcrc. by apply crc_of_u32.
  - by eapply version_bytes_ok.
  - exists version, u. split; [done|]. split; [done|]. split; [unfold upgrade_running; by rewrite Hst|].
    rewrite Hcu, Hcrc in *. split; [done|]. apply moves_silent; [|done].
    rewrite <- Hlen in E.
    by apply (driver_start (driver_of d) bytes (pending_upgrade_version d) version DEVMGR_UPGRADE_DEFAULT_CHUNK);
      [..|by eapply version_bytes_ok| |].
Qed.

Lemma launch_upgrade_ok image unset d :
  base_ok (d <| firmware := image |>) → linked d →
  upgrade_state (upgrade d) = DEVMGR_UPGRADE_VALIDATING → is_Some (image_data image) →
  wp (launch_upgrade image unset) d (λ _ d', handled [] d d').
Proof.
  intros Hd Hl Hv [bytes Hi].
  destruct (image_upgrade_ok image bytes d Hd Hl Hv Hi) as (version & u & E & Hu & Hr & Hc & Hm).
  unfold launch_upgrade. do 2 wp_step. apply wp_bind. unfold id. eapply wp_lift; [exact E|].
  cbv iota. wp_step. set (d1 := d <| firmware := image |> <| upgrade := u |>) in *.
  assert (base_ok d1) as H1 by by open_base Hd; keep_base.
  change (DEVMGR_OK =? DEVMGR_OK) with true. cbv iota.
  apply wp_bind, wp_session_transition; [done..|]. intros result st Hst Hup.
  assert (moves [] d (in_state st d1)) as Hm2 by by eapply moves_trans, moves_same.
  apply wp_bind. apply wp_mono with (P := λ r d', base_ok d' ∧ moves [] d d' ∧ (r = DEVMGR_OK → daemon_ok d')).
  - destruct (Z.eqb_spec result DEVMGR_OK) as [->|]; [|wp_step; split; [by apply in_state_ok|done]].
    eapply wp_mono; [apply (next_step_ok bytes version);
      [by apply in_state_ok|done|done|by apply Hup|done|done]|].
    intros r d2 [H2 Hm3]. split; [apply H2|]. split; [by eapply moves_trans|done].
  - intros r d2 (H2 & Hm3 & Hd2). destruct (Z.eqb_spec r DEVMGR_OK); cbn [negb]; [wp_step; split; auto|].
    unfold set_upgrade_result, set_upgrade_state. do 2 wp_step.
    apply wp_bind, wp_close_firmware. wp_step. by apply (leave_session_ok r d2).
Qed.

Lemma read_event_ends script counter :
  Exists read_ends script → 0 ≤ counter →
  ∃ full counter', read_event script counter = Some (full, counter') ∧
    if full : bool then 0 < counter ∧ counter' = 0 else counter' = counter.
Proof.
  intros H Hc. induction script as [|o script IH]; [by apply Exists_nil in H|].
  apply Exists_cons in H. destruct o as [bytes|e]; cbn [read_event].
  - destruct (Z.eqb_spec counter 0) as [->|]; [by exists false, 0|]. exists true, 0. split; [done|lia].
  - destruct (decide (e = EINTR)) as [->|].
    + destruct H as [H|H]; [cbn in H; by rewrite bool_decide_false in H by naive_solver|auto].
    + destruct e; try done; by exists false, counter.
Qed.

(** The state after a result was taken; its image is the caller's. *)
Definition with_result (d : daemon) (w : devmgr_worker) (result : devmgr_validation_result) : daemon :=
  d <| worker := collected (worker d) w result |>.

Definition dropped (d : daemon) (image : devmgr_firmware_image) : daemon :=
  d <| worker := (worker d) <| ws_log := ws_log (worker d) ++ (devmgr_firmware_close image).2 |> |>.

Lemma collect_ok unset d :
  base_ok d → 0 < ws_counter (worker d) →
  ∃ w result, devmgr_worker_take_result (ws_worker (worker d)) unset = (DEVMGR_OK, w, result) ∧
    result_ok result ∧
    let d' := with_result d w result in
    base_ok (dropped d' (validation_image result)) ∧
    (firmware d = no_image → base_ok (d' <| firmware := validation_image result |>)).
Proof.
  intros Hd Hc. open_base Hd. destruct Hwo as [[fd Hw] Hr].
  destruct (take_result_ready _ _ _ unset Hw Hr Hc) as (w & result & E & Hres).
  exists w, result. split; [done|]. split; [done|].
  pose proof (step_collect_inv _ _ _ _ _ _ Hw Hr Hc E) as Hw'. cbv zeta. split.
  - keep_base. split; [|done]. exists fd. eapply worker_close; [exact Hw'|apply Hres|].
    apply Permutation_app_comm.
  - intros Hf. keep_base; [apply Hres|]. split; [|done]. exists fd. eapply worker_inv_perm; [exact Hw'|].
    unfold daemon_resources. rewrite Hf. cbn [clients firmware signal_fd timer_fd epoll_fd listen_fd transport upd].
    change (image_resources no_image) with (@nil resource). cbn [app]. rewrite <- (assoc_L (++)).
    apply Permutation_app_head, Permutation_app_comm.
Qed.

Lemma handle_worker_completion_ok script unset unset_request d :
  daemon_ok d → Exists read_ends script →
  wp (handle_worker_completion script unset unset_request) d (λ _ d', handled [] d d').
Proof.
  intros [Hd Hl] Hs. unfold handle_worker_completion. wp_step. apply wp_bind.
  assert (0 ≤ ws_counter (worker d)) as Hc0
    by (pose proof Hd as (_ & _ & _ & _ & _ & _ & _ & _ & _ & [fd Hw] & _); apply (inv_counter _ _ _ Hw)).
  destruct (read_event_ends script _ Hs Hc0) as (full & counter & E & Hc).
  eapply wp_lift; [exact E|]. cbv iota. wp_step. destruct full; cbn [negb]; cycle 1.
  { wp_step. subst counter. replace (d <| worker := _ |>) with d; [split; [done|by apply moves_same]|].
    destruct d as [????????????????????? ws ??]. by destruct ws. }
  destruct Hc as [Hc ->].
  destruct (collect_ok unset d Hd Hc) as (w & result & Et & [Hi Hok] & Hclosed & Hopen).
  apply wp_bind. exists (DEVMGR_OK, result), (with_result d w result).
  split; [unfold take_result, mbind, M_bind; cbn -[devmgr_worker_take_result]; by rewrite Et|].
  cbv iota beta zeta in *. cbn [negb Z.eqb DEVMGR_OK]. wp_step. set (d1 := with_result d w result) in *. unfold id.
  destruct (Z.eqb_spec (validation_job_id result) (upgrade_operation_id d1)); cbn [negb orb]; cycle 1.
  { unfold log. do 2 wp_step. by apply handled_aside. }
  case_bool_decide as Hv; cbn [negb]; [|unfold log; do 2 wp_step; by apply handled_aside].
  change (upgrade d1) with (upgrade d) in Hv.
  assert (upgrade_running (upgrade d) = false) as Hr by (unfold upgrade_running; by rewrite Hv).
  pose proof Hl as Hl'. unfold linked in Hl'. rewrite Hr in Hl'. destruct Hl' as (Hf & Hst & _).
  destruct (Z.eqb_spec (validation_status result) DEVMGR_OK) as [Hs1|Hs1]; cbn [negb].
  - eapply wp_mono; [apply launch_upgrade_ok; [by apply Hopen|done|done|by apply Hok]|].
    intros ? d2 H2. by eapply handled_trans; [apply moves_same|].
  - unfold set_upgrade_result, set_upgrade_state. do 3 wp_step.
    assert (base_ok d1) as H1.
    { unfold image_ok in Hi. destruct (image_data (validation_image result)) eqn:Ei.
      - destruct Hs1. apply Hok. eauto.
      - specialize (Hopen Hf). rewrite Hi, <- Hf in Hopen. by destruct d. }
    split; [|by refine (given_up_moves d _ _)].
    apply idle_ok; [by open_base H1; keep_base|done..].
Qed.
