(* ===== verification/DaemonClients.v ===== *)
(** * The daemon's clients

    The handlers of the sockets keep the invariant of [DaemonSafety]: requests
    are decoded, checked, answered or passed on to the device, whatever bytes
    a client sends. *)

From stdpp Require Import gmap.
From S2P Require Import Prelude Crc32 RingBuffer Frame Parser Session Ipc Upgrade Driver Os Transport.
From S2P Require Import Firmware Worker Daemon DaemonSafety.

(** ** Requests the daemon answers itself *)

Lemma respond_ok i command status payload n d0 d :
  moves [] d0 d → daemon_ok d → 0 ≤ i < MAX_CLIENTS → is_u8 command →
  -2147483648 ≤ status < 2147483648 → payload_ok payload n →
  wp (queue_client_response i command status payload n) d (λ _ d', handled [] d0 d').
Proof.
  intros Hm Hd Hi Hc Hs Hp. eapply wp_mono; [by apply queue_client_response_ok; [apply Hd|..]|].
  intros _ d' [Hb Ha]. eapply handled_trans; [done|]. by apply handled_aside.
Qed.

Lemma refuse_ok i command status d0 d :
  moves [] d0 d → daemon_ok d → 0 ≤ i < MAX_CLIENTS → is_u8 command →
  -2147483648 ≤ status < 2147483648 →
  wp (queue_client_response i command status None 0) d (λ _ d', handled [] d0 d').
Proof. intros. by apply respond_ok. Qed.

Lemma get_telemetry_ok i command d :
  daemon_ok d → 0 ≤ i < MAX_CLIENTS → is_u8 command →
  wp (get_telemetry i command) d (λ _ d', handled [] d d').
Proof.
  intros Hd Hi Hc. unfold get_telemetry. wp_step. unfold id.
  destruct (_ =? 0); [apply refuse_ok; try done; by apply moves_same|].
  apply respond_ok; try done; [by apply moves_same|].
  pose proof Hd as [(_ & _ & _ & (Hl & Hb & Hn) & _) _]. unfold payload_ok, DEVMGR_IPC_MAX_PAYLOAD.
  split; [split; [done|]|]; lia.
Qed.

(** One more word of a small payload. *)
Lemma wp_put_word (a : list Z) off v d (Q : list Z → daemon → Prop) :
  0 ≤ off → off + 4 ≤ len a → Forall is_u8 a →
  (∀ a', len a' = len a → Forall is_u8 a' → Q a' d) → wp (lift (devmgr_put_le32 a off v)) d Q.
Proof.
  intros Ho Hl Hb HQ. eapply wp_lift; [by apply put_le32_spec|]. apply HQ.
  - rewrite length_splice; rewrite ?length_le_bytes; cbn; lia.
  - auto with devmgr.
Qed.

Lemma upgrade_status_ok i request d :
  daemon_ok d → 0 ≤ i < MAX_CLIENTS → request_ok request →
  wp (upgrade_status i request) d (λ _ d', handled [] d d').
Proof.
  intros Hd Hi (Hc & Hn & Hl & Hb). unfold upgrade_status. wp_step. unfold id, DEVMGR_IPC_MAX_PAYLOAD in *.
  assert (wp (queue_client_response i (request_command request) DEVMGR_ERROR_NOT_FOUND None 0) d
    (λ _ d', handled [] d d')) as Hno by (apply refuse_ok; try done; by apply moves_same).
  destruct (negb _ || _); [done|]. apply wp_bind.
  eapply wp_lift; [apply get_le32_field; [done|lia..]|]. destruct (negb _); [done|].
  apply wp_bind, wp_put_word; [done|done|apply zeros_Forall|]. intros p1 Hl1 Hb1.
  change (len (zeros 20)) with 20 in *.
  apply wp_bind. eapply wp_lift; [apply store_ok; lia|].
  set (p2 := <[_ := _]> p1). assert (len p2 = 20) as Hl2 by (unfold p2; by rewrite length_insert).
  assert (Forall is_u8 p2) as Hb2 by (apply Forall_insert; [done|apply u8_range]). clearbody p2.
  apply wp_bind, wp_put_word; [done|lia|done|]. intros p3 Hl3 Hb3.
  apply wp_bind, wp_put_word; [done|lia|done|]. intros p4 Hl4 Hb4.
  apply wp_bind, wp_put_word; [done|lia|done|]. intros p5 Hl5 Hb5.
  apply respond_ok; try done; [by apply moves_same|]. split; [split; [done|lia]|done].
Qed.

(** ** Upgrades *)

Lemma submit_firmware_ok job path d :
  base_ok d → Forall is_u8 path → (∃ str, holds_string path str) →
  wp (submit_firmware job path) d (λ result d',
    base_ok d' ∧ aside d d' ∧ -2147483648 ≤ result < 2147483648).
Proof.
  intros Hd Hb Hs. unfold submit_firmware. wp_step. apply wp_bind.
  open_base Hd. destruct Hwo as [[fd Hw] Hr].
  assert (∀ p, Some path = Some p → Forall is_u8 p ∧ ∃ str, holds_string p str) as Hp by naive_solver.
  assert (∃ result w signal,
    devmgr_worker_submit_firmware (ws_worker (worker d)) job (Some path) = Some (result, w, signal) ∧
    -2147483648 ≤ result < 2147483648) as (result & w & signal & E & Hres).
  { destruct Hs as [str Hs]. unfold devmgr_worker_submit_firmware. destruct (_ || _); [by do 3 eexists|].
    rewrite (strlen_holds _ _ Hs). cbn [mbind option_bind].
    destruct (Z.eqb_spec (len str) 0); cbn [orb]; [by do 3 eexists|].
    destruct (Z.leb_spec DEVMGR_WORKER_PATH_MAX (len str)); [by do 3 eexists|].
    destruct (_ || _); [by do 3 eexists|]. pose proof (holds_string_bound _ _ Hs).
    rewrite memcpy_ok by (rewrite ?(proj1 (inv_path _ _ _ Hw)); lia). by do 3 eexists. }
  eapply wp_lift; [exact E|]. cbv iota. do 2 wp_step. split; [|done]. keep_base. split; [|done].
  exists fd. by eapply step_submit_inv.
Qed.

(** The state of an upgrade whose image is being validated. *)
Definition validating (job : Z) (version : list Z) (d : daemon) : daemon :=
  d <| upgrade_operation_id := job |> <| upgrade_result := DEVMGR_OK |>
    <| upgrade := (upgrade d) <| upgrade_state := DEVMGR_UPGRADE_VALIDATING |> |>
    <| pending_upgrade_version := splice (pending_upgrade_version d) 0 (version ++ [0]) |>.

Lemma validating_ok job version d :
  daemon_ok d → devmgr_upgrade_active (upgrade d) = false → is_u32 job →
  Forall is_u8 version → Forall (λ x, x ≠ 0) version → 1 ≤ len version ≤ 31 →
  handled [] d (validating job version d).
Proof.
  intros [Hd Hl] Ha Hj Hb Hz Hn.
  assert (upgrade_running (upgrade d) = false) as Hr.
  { destruct (upgrade_running _) eqn:Hr; [|done]. by rewrite running_active in Ha. }
  unfold linked in Hl. rewrite Hr in Hl. destruct Hl as (Hf & Hst & _).
  split; [|by refine (given_up_moves d _ _)]. open_base Hd. pose proof Hve as (Hvl & Hvb & _).
  split; [keep_base; apply version_copy; done || lia|]. unfold linked. cbn [upgrade_running].
  split; [done|]. split; [done|]. intros _. exists version. split; [|done].
  apply holds_string_splice; [done|lia].
Qed.

(** An upgrade that does not get that far. *)
Lemma rejected_ok result d :
  daemon_ok d → upgrade_running (upgrade d) = false →
  handled [] d (d <| upgrade_result := result |>
                  <| upgrade := (upgrade d) <| upgrade_state := DEVMGR_UPGRADE_ERROR |> |>).
Proof.
  intros [Hd Hl] Hr. unfold linked in Hl. rewrite Hr in Hl. destruct Hl as (Hf & Hst & _).
  split; [|by refine (given_up_moves d _ _)]. apply idle_ok; [by open_base Hd; keep_base|done..].
Qed.

Lemma submit_upgrade_ok i request off n unset path p version r d :
  daemon_ok d → devmgr_upgrade_active (upgrade d) = false → 0 ≤ i < MAX_CLIENTS → request_ok request →
  holds_string (request_payload request) path →
  request_payload request = p ++ version ++ 0 :: r → len p = off → len version = n →
  Forall (λ x, x ≠ 0) version → 1 ≤ n ≤ 31 → Forall is_u8 unset → 4 ≤ len unset →
  wp (submit_upgrade i request off n unset) d (λ _ d', handled [] d d').
Proof.
  intros Hd Ha Hi (Hc & Hpl & Hl & Hb) Hpath Hp Hoff Hn Hz Hn1 Hub Hul.
  unfold submit_upgrade, set_upgrade_result, set_upgrade_state. wp_step. unfold id.
  set (job := if _ =? 0 then 1 else _).
  assert (is_u32 job) as Hj by (unfold job; case_match; [done|apply u32_range]). clearbody job.
  do 3 wp_step. apply wp_bind. pose proof Hd as [(_ & _ & _ & _ & _ & _ & (Hvl & _ & _) & _) _].
  unfold DEVMGR_IPC_MAX_PAYLOAD in *.
  assert (slice (request_payload request) off (n + 1) = version ++ [0]) as Hsl
    by (rewrite Hp; apply slice_terminated; congruence).
  assert (Forall is_u8 version) as Hvb
    by (rewrite Hp in Hb; rewrite !Forall_app in Hb; apply Hb).
  assert (off + (n + 1) ≤ len (request_payload request)) as Hfit
    by (rewrite Hp, !length_app; cbn; lia).
  eapply wp_lift; [apply memcpy_ok; lia|].
  rewrite Hsl. wp_step. change (_ <| pending_upgrade_version := _ |>) with (validating job version d).
  destruct (validating_ok job version d) as [H1 Hm1]; [done..|lia|].
  set (d1 := validating job version d) in *. apply wp_bind.
  eapply wp_mono; [apply submit_firmware_ok; [apply H1|done|by exists path]|].
  intros result d2 (H2 & Ha2 & Hres). assert (handled [] d d2) as [Hd2 Hm2].
  { eapply handled_trans; [done|]. by apply handled_aside. }
  destruct (Z.eqb_spec result DEVMGR_OK); cbn [negb].
  - apply wp_bind, wp_put_word; [done|rewrite length_take; lia|by apply Forall_take|].
    intros a Hal Hab. apply respond_ok; try done. rewrite length_take in Hal.
    split; [split; [done|lia]|done].
  - do 2 wp_step. destruct (rejected_ok result d2 Hd2) as [H3 Hm3].
    { destruct Ha2 as (_ & -> & _). done. }
    apply refuse_ok; try done. by eapply moves_trans.
Qed.

Lemma start_upgrade_ok i request unset d :
  daemon_ok d → 0 ≤ i < MAX_CLIENTS → request_ok request → Forall is_u8 unset → 4 ≤ len unset →
  wp (start_upgrade i request unset) d (λ _ d', handled [] d d').
Proof.
  intros Hd Hi Hreq Hub Hul. pose proof Hreq as (Hc & Hn & Hl & Hb). unfold start_upgrade.
  unfold DEVMGR_IPC_MAX_PAYLOAD, DEVMGR_UPGRADE_VERSION_MAX in *.
  assert (∀ status, -2147483648 ≤ status < 2147483648 →
    wp (queue_client_response i (request_command request) status None 0) d
    (λ _ d', handled [] d d')) as Hno by (intros; apply refuse_ok; try done; by apply moves_same).
  apply wp_bind.
  destruct (memchr0_total (request_payload request) 0 (request_payload_length request)) as [[m|] E1];
    [lia..| |]; (eapply wp_lift; [exact E1|]); [|by apply Hno].
  apply memchr0_Some in E1 as (p0 & path & r0 & Hp0 & Hz & -> & Hpz & Hlt); [|lia..].
  assert (p0 = []) as -> by (destruct p0; [done|cbn [length] in Hz; lia]). cbn [app] in Hp0.
  destruct (Z.eqb_spec (len path) 0) as [|Hpn]; cbn [orb]; [do 2 wp_step; by apply Hno|].
  destruct (Z.leb_spec (request_payload_length request) (len path + 1)); [do 2 wp_step; by apply Hno|].
  apply wp_bind.
  destruct (memchr0_total (request_payload request) (len path + 1)
    (request_payload_length request - (len path + 1))) as [[m|] E2];
    [lia..| |]; (eapply wp_lift; [exact E2|]); [|by apply Hno].
  apply memchr0_Some in E2 as (p & version & r & Hp & Hoff & -> & Hvz & _); [|lia..].
  destruct (Z.eqb_spec (len version) 0); cbn [orb]; [by apply Hno|].
  destruct (Z.ltb_spec 31 (len version)); [by apply Hno|].
  wp_step. unfold id. destruct (negb _ || _); cbn [orb]; [by apply Hno|].
  destruct (devmgr_upgrade_active (upgrade d)) eqn:Ha; [by apply Hno|].
  eapply (submit_upgrade_ok i request _ _ unset path p version r); try done; [by exists r0|lia].
Qed.

(** ** Requests for the device *)

Lemma requested_handled d d' :
  daemon_ok d → requested d d' → upgrade d' = upgrade d → handled [] d d'.
Proof.
  intros [_ Hl] (Hb & Hm & Hf & Hv & Hs) Hu. split; [|done]. split; [done|]. by eapply linked_session.
Qed.

(** A request is passed on, or the client is told why not. *)
Lemma forward_ok i request unset d :
  daemon_ok d → devmgr_upgrade_active (upgrade d) = false → 0 ≤ i < MAX_CLIENTS → request_ok request →
  wp (now ← monotonic_ns;
      '(result, frame) ← begin_request (request_command request) DEVMGR_FRAME_ACK_REQUIRED
         (Some (request_payload request)) (u16 (request_payload_length request)) request_policy now unset;
      if negb (result =? DEVMGR_OK) then queue_client_response i (request_command request) result None 0
      else
      result ← queue_frame frame;
      if negb (result =? DEVMGR_OK)
      then cancel_request;; queue_client_response i (request_command request) result None 0
      else modify (λ d, d <| active_client := i |>);; mret DEVMGR_OK) d (λ _ d', handled [] d d').
Proof.
  intros Hd Ha Hi (Hc & Hn & Hl & Hb). unfold DEVMGR_IPC_MAX_PAYLOAD in *.
  rewrite u16_id by (unfold is_u16; lia). apply wp_bind, wp_monotonic_ns. intros now k Hnow Hk.
  destruct (kern_ok d k Hd Hk) as [H1 Hm1].
  set (d1 := d <| kern := k |>) in *. change (upgrade d) with (upgrade d1) in Ha. clearbody d1.
  apply wp_bind, begin_request_ok; try done; [apply H1|lia|unfold DEVMGR_PROTOCOL_MAX_PAYLOAD; lia|..].
  - intros _. change (negb (DEVMGR_ERROR_BUSY =? DEVMGR_OK)) with true. cbv iota. by apply refuse_ok.
  - intros f Hp Hf H2. change (negb (DEVMGR_OK =? DEVMGR_OK)) with false. cbv iota.
    set (d2 := with_request d1 f request_policy now) in *.
    assert (requested d1 d2) as Hr2.
    { split; [done|]. split; [|done]. apply begun_moves; [done|].
      rewrite (view_request_frame _ _ _ _ : view f = _). apply driver_other; [done| |done|by apply Forall_take|].
      - cbn. destruct (upgrade_running _) eqn:Hr; [|done]. by rewrite running_active in Ha.
      - cbn [w_payload]. rewrite length_take. unfold DEVMGR_PROTOCOL_MAX_PAYLOAD. lia. }
    apply wp_bind. eapply wp_mono; [by apply (queue_pending_ok f d2)|].
    intros result d3 (Hr3 & Hu3 & Hs3 & Hres).
    pose proof (requested_trans _ _ _ Hr2 Hr3) as Hr.
    destruct (negb _).
    + apply wp_bind. eapply wp_mono; [apply cancel_request_ok, Hr|].
      intros _ d4 (H4 & Hm4 & Hu4 & Hf4 & Hv4 & Hst4).
      destruct (requested_handled d1 d4 H1) as [Hd4 Hm]; [by eapply requested_trans|by rewrite Hu4, Hu3|].
      apply refuse_ok; try done. by eapply moves_trans.
    + do 2 wp_step. destruct (requested_handled d1 d3 H1 Hr Hu3) as [Hd3 Hm3].
      eapply handled_trans; [done|]. eapply handled_trans; [done|]. apply drop_active_ok; [done|lia].
Qed.

Lemma start_request_ok i request unset unset_frame d :
  daemon_ok d → 0 ≤ i < MAX_CLIENTS → request_ok request → Forall is_u8 unset → 4 ≤ len unset →
  wp (start_request i request unset unset_frame) d (λ _ d', handled [] d d').
Proof.
  intros Hd Hi Hreq Hub Hul. unfold start_request.
  assert (is_u8 (request_command request)) as Hc by apply Hreq.
  destruct (_ =? DEVMGR_IPC_GET_TELEMETRY); [by apply get_telemetry_ok|].
  destruct (_ =? DEVMGR_IPC_UPGRADE_STATUS); [by apply upgrade_status_ok|].
  destruct (_ =? DEVMGR_IPC_UPGRADE); [by apply start_upgrade_ok|].
  wp_step. unfold id.
  assert (∀ status, -2147483648 ≤ status < 2147483648 →
    wp (queue_client_response i (request_command request) status None 0) d
    (λ _ d', handled [] d d')) as Hno by (intros; apply refuse_ok; try done; by apply moves_same).
  destruct (devmgr_upgrade_active (upgrade d)) eqn:Ha; [by apply Hno|].
  do 3 (destruct (_ && _); [by apply Hno|]). destruct (_ <=? _); [by apply Hno|].
  by apply forward_ok.
Qed.

(** ** Bytes from a client *)

(** The locals a handler finds on its stack. *)
Definition stack_ok (l : locals) : Prop :=
  Forall is_u8 (unset_bytes l) ∧ 4 ≤ len (unset_bytes l) ∧
  len (request_payload (unset_request l)) = DEVMGR_IPC_MAX_PAYLOAD ∧
  Forall is_u8 (request_payload (unset_request l)) ∧ locals_ok (unset_parser l).

Lemma set_client_ok i c c' d :
  daemon_ok d → clients d !! Z.to_nat i = Some c → client_ok c' → client_fd c' = client_fd c →
  handled [] d (d <| clients := <[Z.to_nat i := c']> (clients d) |>).
Proof. intros Hd Hi Hc Hf. apply handled_aside; [done| |done]. by eapply base_set_client; [apply Hd|..]. Qed.

Lemma close_ok i d0 d :
  moves [] d0 d → daemon_ok d → 0 ≤ i < MAX_CLIENTS → wp (close_client i) d (λ _ d', handled [] d0 d').
Proof.
  intros Hm Hd Hi. eapply wp_mono; [apply close_client_ok; [apply Hd|done]|].
  intros _ d' [H1 H2]. eapply handled_trans; [done|]. by apply handled_aside.
Qed.

Lemma decoded_request_ok data length unset :
  Forall is_u8 data → 0 ≤ length ≤ len data →
  len (request_payload unset) = DEVMGR_IPC_MAX_PAYLOAD → Forall is_u8 (request_payload unset) →
  ∃ result request, devmgr_ipc_decode_request data length unset = Some (result, request) ∧
    -2147483648 ≤ result < 2147483648 ∧ (result = DEVMGR_OK → request_ok request).
Proof.
  intros Hb Hl Hu Hub. rewrite ipc_decode_request_spec by done. do 2 eexists. split; [done|].
  set (w := take _ _). assert (Forall is_u8 w) as Hw by by apply Forall_take.
  split; [unfold ipc_verdict; repeat case_match; done|]. intros Hv. rewrite Hv.
  by apply accepted_request_ok.
Qed.

Lemma client_received_ok i stack d :
  daemon_ok d → 0 ≤ i < MAX_CLIENTS → stack_ok stack →
  wp (client_received i stack) d (λ _ d', handled [] d d').
Proof.
  intros Hd Hi (Hub & Hul & Hrl & Hrb & _). unfold client_received.
  apply wp_bind, wp_get_client; [apply Hd|done|]. intros c Ec Hc. apply wp_bind.
  pose proof Hc as ((Hil & Hib & Hin & Hie) & Hco).
  apply wp_mono with (P := λ _ d', handled [] d d').
  - destruct (_ && _); [|wp_step; split; [done|by apply moves_same]]. apply wp_bind.
    eapply wp_lift; [apply get_le32_field; [done|done|rewrite Hil; done]|].
    pose proof (field_range _ 4 4 Hib ltac:(lia)) as Hf. set (n := field (client_input c) 4 4) in *.
    destruct (Z.ltb_spec DEVMGR_IPC_MAX_PAYLOAD n).
    + apply wp_bind. eapply wp_mono; [apply refuse_ok; [by apply moves_same|done..]|]. intros ? d' H'. by wp_step.
    + unfold set_client. do 2 wp_step. eapply set_client_ok; [done|done| |done].
      split; [|done]. do 3 (split; [done|]). right. cbn.
      unfold INPUT_SIZE, DEVMGR_IPC_REQUEST_HEADER_SIZE, DEVMGR_IPC_MAX_PAYLOAD in *. lia.
  - intros [result|] d1 [H1 Hm1]; [by wp_step|].
    apply wp_bind, wp_get_client; [apply H1|done|]. clear c Ec Hc Hil Hib Hin Hie Hco.
    intros c Ec ((Hil & Hib & Hin & Hie) & _). destruct (_ && _); [|by wp_step].
    destruct (decoded_request_ok (client_input c) (input_size c) (unset_request stack))
      as (result & request & E & Hres & Hreq); [done|lia|done|done|].
    apply wp_bind. eapply wp_lift; [exact E|]. cbv iota. apply wp_bind.
    apply wp_mono with (P := λ _ d', handled [] d d'); [|intros r d2 H2; by wp_step].
    destruct (Z.eqb_spec result DEVMGR_OK) as [Hr|]; cbn [negb]; [|by apply refuse_ok].
    eapply wp_mono; [apply start_request_ok; auto|]. intros ? d2 H2. by eapply handled_trans.
Qed.

(** More bytes in the input buffer. *)
Lemma received_client_ok c bytes :
  client_ok c → Forall is_u8 bytes → input_size c + len bytes ≤ INPUT_SIZE →
  client_ok (c <| client_input := splice (client_input c) (input_size c) bytes |>
               <| input_size := input_size c + len bytes |>).
Proof.
  intros ((Hil & Hib & Hin & Hie) & Hco) Hb Hl. split; [|done]. cbn.
  split; [rewrite length_splice; lia|]. split; [by apply splice_Forall|]. split; [lia|done].
Qed.

Lemma handle_client_input_ok script i stack d0 d :
  moves [] d0 d → daemon_ok d → 0 ≤ i < MAX_CLIENTS → stack_ok stack →
  Exists read_ends script → Forall read_ok script →
  wp (handle_client_input script i stack) d (λ _ d', handled [] d0 d').
Proof.
  intros Hm Hd Hi Hst Hs Hok. revert d Hm Hd.
  induction script as [|o script IH]; intros d Hm Hd; [by apply Exists_nil in Hs|].
  apply Forall_cons in Hok as [Ho Hok]. apply Exists_cons in Hs.
  cbn [handle_client_input]. apply wp_bind, wp_get_client; [apply Hd|done|]. intros c Ec Hc.
  assert (wp (close_client i;; mret DEVMGR_OK) d (λ _ d', handled [] d0 d')) as Hclose.
  { apply wp_bind. eapply wp_mono; [by apply close_ok|]. intros ? d' H'. by wp_step. }
  destruct o as [available|e]; cycle 1.
  { destruct e; try done; [|by wp_step]. apply IH; try done.
    destruct Hs as [Hs|]; [|done]. cbn in Hs. by rewrite bool_decide_false in Hs by naive_solver. }
  set (bytes := delivered _ _). destruct (Z.ltb_spec 0 (len bytes)) as [Hlt|]; [|done].
  pose proof Hc as ((Hil & _ & Hin & _) & _).
  change (DEVMGR_IPC_REQUEST_HEADER_SIZE + DEVMGR_IPC_MAX_PAYLOAD) with INPUT_SIZE in bytes.
  assert (input_size c + len bytes ≤ INPUT_SIZE) as Hfit
    by (unfold bytes, delivered; rewrite length_take; lia).
  apply wp_bind. eapply wp_lift; [apply mem_write_ok; lia|]. unfold set_client. wp_step.
  set (c1 := c <| client_input := _ |> <| input_size := _ |>).
  destruct (set_client_ok i c c1 d) as [H1 Hm1]; [done|done| |done|].
  { apply received_client_ok; [done|by apply Forall_take|done]. }
  apply wp_bind. eapply wp_mono; [by apply client_received_ok|]. intros [result|] d2 H2.
  - wp_step. eapply handled_trans; [|done]. by eapply moves_trans.
  - destruct H2 as [H2 Hm2]. apply IH; try done; [|by do 2 (eapply moves_trans; [|done])].
    destruct Hs as [Hs|]; [|done]. cbn in Hs. apply bool_decide_unpack in Hs as ->.
    unfold bytes, delivered in Hlt. rewrite take_nil in Hlt. cbn in Hlt. lia.
Qed.

Lemma client_output_loop_ok fuel script i d0 d :
  moves [] d0 d → daemon_ok d → 0 ≤ i < MAX_CLIENTS → (length script ≤ fuel)%nat →
  Exists write_ends script →
  wp (client_output_loop fuel script i) d (λ _ d', handled [] d0 d').
Proof.
  intros Hm Hd Hi. revert script d Hm Hd. induction fuel as [|fuel IH]; intros script d Hm Hd Hf Hs.
  { destruct script; [by apply Exists_nil in Hs|cbn in Hf; lia]. }
  cbn [client_output_loop]. apply wp_bind, wp_get_client; [apply Hd|done|]. intros c Ec Hc.
  destruct (Z.ltb_spec (output_offset c) (output_size c)) as [Hlt|]; cbn [negb]; [|by wp_step].
  destruct script as [|o script]; [by apply Exists_nil in Hs|]. apply Exists_cons in Hs. cbn in Hf.
  pose proof Hc as (Hin & Hol & Hob & Ho & Hoz).
  apply wp_bind. eapply wp_lift; [apply mem_read_ok; lia|].
  assert (wp (close_client i;; mret false) d (λ _ d', handled [] d0 d')) as Hclose.
  { apply wp_bind. eapply wp_mono; [by apply close_ok|]. intros ? d' H'. by wp_step. }
  destruct o as [n|e]; [|by destruct e; try done; wp_step].
  set (bytes := slice _ _ _). assert (len bytes = output_size c - output_offset c) as Hlb
    by (apply len_slice; lia).
  destruct (Z.ltb_spec 0 (taken n (len bytes))) as [Hn|]; [|done]. unfold taken in *.
  unfold trace_reply, set_client. do 2 wp_step.
  set (c1 := c <| output_offset := _ |>).
  destruct (set_client_ok i c c1 d) as [H1 Hm1]; [done|done| |done|].
  { split; [done|]. cbn. split_and!; try done; lia. }
  apply IH; [by eapply moves_trans|done|lia|].
  destruct Hs as [Hs|]; [|done]. cbn in Hs. apply Is_true_true, Z.leb_le in Hs. lia.
Qed.

Lemma handle_client_output_ok script i d0 d :
  moves [] d0 d → daemon_ok d → 0 ≤ i < MAX_CLIENTS → Exists write_ends script →
  wp (handle_client_output script i) d (λ _ d', handled [] d0 d').
Proof.
  intros Hm Hd Hi Hs. unfold handle_client_output. apply wp_bind.
  eapply wp_mono; [by apply client_output_loop_ok|]. intros finished d1 [H1 Hm1]. apply wp_bind.
  apply wp_mono with (P := λ _ d', handled [] d0 d'); [|intros ? d' H'; by wp_step].
  destruct finished; [|by wp_step]. apply wp_bind, wp_get_client; [apply H1|done|]. intros c _ _.
  destruct (close_after_write c); [by apply close_ok|by wp_step].
Qed.

(** ** New clients *)

Definition accept_ok (o : open_outcome) : Prop :=
  match o with Opened fd => 0 ≤ fd | OpenError _ => True end.

Lemma zero_client_ok fd : client_ok (zero_client <| client_fd := fd |>).
Proof. repeat split; try done; try apply zeros_Forall. by left. Qed.

(** A connection that is accepted and closed at once. *)
Lemma turned_away_ok fd d :
  daemon_ok d →
  handled [] d (d <| worker := (worker d) <| ws_log := (ws_log (worker d) ++ [Acquired (Fd fd)]) ++
                                                       [Released (Fd fd)] |> |>).
Proof.
  intros Hd. apply handled_aside; [done| |done]. destruct Hd as [Hd _]. open_base Hd. keep_base.
  destruct Hwo as [[efd Hw] Hr]. split; [|done]. exists efd.
  pose proof (worker_acquire efd (Fd fd) _ _ _ Hw (reflexivity _)) as Hw1.
  exact (worker_release efd (Fd fd) _ _ _ Hw1 (reflexivity _)).
Qed.

(** A connection that gets a slot. *)
Lemma admitted_ok fd i d c :
  daemon_ok d → 0 ≤ fd → clients d !! i = Some c → client_fd c < 0 →
  handled [] d (d <| worker := (worker d) <| ws_log := ws_log (worker d) ++ [Acquired (Fd fd)] |> |>
                  <| clients := <[i := zero_client <| client_fd := fd |>]> (clients d) |>).
Proof.
  intros Hd Hfd Hi Hc. apply handled_aside; [done| |done]. destruct Hd as [Hd _]. open_base Hd. keep_base.
  - apply clients_insert; [done|apply zero_client_ok].
  - destruct Hwo as [[efd Hw] Hr]. split; [|done]. exists efd. eapply worker_acquire; [exact Hw|].
    unfold daemon_resources. cbn [clients firmware signal_fd timer_fd epoll_fd listen_fd transport upd].
    rewrite app_comm_cons. apply Permutation_app_tail.
    pose proof (client_resources_insert _ _ _ (zero_client <| client_fd := fd |>) Hi) as Hp.
    unfold fd_resources at 1 in Hp. rewrite (proj2 (Z.leb_gt 0 _)) in Hp by done. cbn [app] in Hp.
    rewrite Hp. unfold fd_resources. cbn [client_fd upd]. by rewrite (proj2 (Z.leb_le 0 fd)).
Qed.

Lemma free_client_Some cs i :
  free_client cs = Some i → ∃ c, cs !! Z.to_nat i = Some c ∧ client_fd c < 0 ∧ 0 ≤ i < len cs.
Proof.
  unfold free_client. destruct (list_find _ cs) as [[j c]|] eqn:E; [|done]. intros [= <-].
  apply list_find_Some in E as (E & Hc & _). exists c. rewrite Nat2Z.id. split; [done|].
  split; [done|]. apply lookup_lt_Some in E. lia.
Qed.

Lemma accept_clients_ok script d0 d :
  moves [] d0 d → daemon_ok d → Exists open_ends script → Forall accept_ok script →
  wp (accept_clients script) d (λ _ d', handled [] d0 d').
Proof.
  intros Hm Hd Hs Hok. revert d Hm Hd.
  induction script as [|o script IH]; intros d Hm Hd; [by apply Exists_nil in Hs|].
  apply Forall_cons in Hok as [Ho Hok]. apply Exists_cons in Hs.
  assert (open_ends o = false → Exists open_ends script) as Hs'
    by (intros E; destruct Hs as [Hs|]; [by rewrite E in Hs|done]).
  cbn [accept_clients]. destruct o as [fd|e]; [|destruct e; by wp_step || by apply IH; [apply Hs'|..]].
  unfold log. do 2 wp_step. destruct (free_client (clients _)) as [i|] eqn:Ef; cycle 1.
  { wp_step. destruct (turned_away_ok fd d Hd) as [H1 Hm1].
    apply IH; [by apply Hs'|done|by eapply moves_trans|done]. }
  apply free_client_Some in Ef as (c & Ec & Hc & Hi). cbn in Ec, Hi.
  assert (0 ≤ i < MAX_CLIENTS) as Hi' by (destruct Hd as [([Hl _] & _) _]; lia).
  destruct (admitted_ok fd (Z.to_nat i) d c) as [H1 Hm1]; [done..|].
  unfold set_client. wp_step. apply wp_bind, wp_epoll_update. intros result k _ Hk.
  match goal with |- wp _ (?d1 <| kern := k |>) _ => destruct (kern_ok d1 k H1 Hk) as [H2 Hm2] end.
  assert (moves [] d0 _) as Hm3 by (eapply moves_trans; [|exact Hm2]; by eapply moves_trans).
  apply wp_bind. apply wp_mono with (P := λ _ d', handled [] d0 d').
  - destruct (negb _); [by apply close_ok|by wp_step].
  - intros _ d2 [Hd2 Hm4]. apply IH; [by apply Hs'|done..].
Qed.

(** ** One event *)

Definition event_ok (e : epoll_event) : Prop :=
  Exists open_ends (ev_accepts e) ∧ Forall accept_ok (ev_accepts e) ∧
  Exists read_ends (ev_reads e) ∧ Forall read_ok (ev_reads e) ∧
  Exists write_ends (ev_writes e) ∧ stack_ok (ev_stack e).

Lemma handle_client_ok e i d :
  daemon_ok d → event_ok e → 0 ≤ i < MAX_CLIENTS → wp (handle_client e i) d (λ _ d', handled [] d d').
Proof.
  intros Hd (_ & _ & Hr & Hrok & Hw & Hst) Hi. unfold handle_client. apply wp_bind.
  assert (handled [] d d) as [_ Hm] by (split; [done|by apply moves_same]).
  apply wp_mono with (P := λ _ d', handled [] d d').
  { destruct (has _ _); [by apply handle_client_input_ok|by wp_step]. }
  intros result d1 [H1 Hm1]. apply wp_bind, wp_get_client; [apply H1|done|]. intros c _ _. apply wp_bind.
  apply wp_mono with (P := λ _ d', handled [] d d').
  { destruct (_ && _ && _); [by apply handle_client_output_ok|by wp_step]. }
  intros result2 d2 [H2 Hm2]. apply wp_bind, wp_get_client; [apply H2|done|]. intros c2 _ _. apply wp_bind.
  apply wp_mono with (P := λ _ d', handled [] d d'); [|intros _ d3 H3; by wp_step].
  destruct (_ && _); [by apply close_ok|by wp_step].
Qed.

Lemma handle_transport_ok e d :
  daemon_ok d → event_ok e → wp (handle_transport e) d (λ _ d', served d d').
Proof.
  intros Hd (_ & _ & Hr & Hrok & Hw & Hst). unfold handle_transport. apply wp_bind.
  assert (served d d) as Hs by (split; [done|reflexivity]).
  apply wp_mono with (P := λ _ d', served d d').
  { destruct (has _ _); [by apply flush_transport_ok|by wp_step]. }
  intros result d1 H1. apply wp_bind. apply wp_mono with (P := λ _ d', served d d'); [|intros ? d2 H2; by wp_step].
  destruct (_ && _); [|by wp_step]. apply read_loop_ok; try done. apply Hst.
Qed.

(** Every handler returns, keeps the invariant, and moves as the driver does. *)
Lemma handle_event_ok e d :
  daemon_ok d → event_ok e → wp (handle_event e) d (λ _ d', served d d').
Proof.
  intros Hd He. pose proof He as (Ha & Haok & Hr & Hrok & Hw & Hst). unfold handle_event. wp_step. unfold id.
  assert (∀ m : M Z, wp m d (λ _ d', handled [] d d') → wp m d (λ _ d', served d d')) as Hh.
  { intros m Hm. eapply wp_mono; [exact Hm|]. intros ? d' H'. by apply served_handled. }
  destruct (_ =? listen_fd d); [apply Hh, accept_clients_ok; try done; by apply moves_same|].
  destruct (_ =? signal_fd d).
  { apply Hh. do 2 wp_step. apply handled_aside; [done| |done]. destruct Hd as [Hd _]. open_base Hd. by keep_base. }
  destruct (_ =? devmgr_worker_get_event_fd _); [by apply Hh, handle_worker_completion_ok|].
  destruct (_ =? timer_fd d); [by apply Hh, handle_timer_ok|].
  destruct (_ =? devmgr_transport_get_fd _); [by apply handle_transport_ok|].
  unfold client_of. destruct (list_find _ (clients d)) as [[i c]|] eqn:E; cycle 1.
  { wp_step. split; [done|reflexivity]. }
  apply list_find_Some in E as (E & _). apply lookup_lt_Some in E.
  apply Hh, handle_client_ok; try done. destruct Hd as [([Hl _] & _) _]. lia.
Qed.
