(* ===== verification/DaemonRun.v ===== *)
(** * The daemon from start to end

    Setting up, the event loop interleaved with the worker's thread, and the
    clean-up: what holds in every state the process can reach. *)

From stdpp Require Import gmap.
From S2P Require Import Prelude Crc32 RingBuffer Frame Parser Session Ipc Upgrade Driver Os Transport.
From S2P Require Import Firmware Worker Daemon DaemonSafety DaemonClients.

(** ** The run *)

(** Where devmgr_daemon_run is, with its [result]: at the condition of the outer
    loop, among the events of one wake-up, in pthread_join, or at its end;
    [again] is what the clean-up closed once more. *)
Inductive daemon_phase :=
  | Looping (result : Z)
  | Handling (events : list epoll_event) (result : Z)
  | Stopping (joining : bool) (again : list resource) (result : Z)
  | Stopped (again : list resource) (result : Z).

(** How often close is interrupted before it ends. *)
Fixpoint interruptions (script : list close_outcome) : option nat :=
  match script with
  | [] => None
  | CloseError EINTR :: script => S <$> interruptions script
  | _ :: _ => Some 0%nat
  end.

(** devmgr_transport_close repeats an interrupted close, on a descriptor that is
    closed already. *)
Definition reclosed (t : devmgr_transport) (script : list close_outcome) : option (list resource) :=
  if 0 <=? transport_fd t
  then n ← interruptions script; Some (replicate n (Fd (transport_fd t)))
  else Some [].

(** The loop and the clean-up, interleaved with the worker's thread.  The
    kernel's part: what an event finds is as [event_ok] says. *)
Inductive daemon_step : daemon_phase * daemon → daemon_phase * daemon → Prop :=
  | daemon_wait d outcome :
      running d = true →
      (∀ events, outcome = Ready events → Forall event_ok events) →
      daemon_step (Looping DEVMGR_OK, d)
        (match outcome with
         | WaitError EINTR => Looping DEVMGR_OK
         | WaitError _ => Looping DEVMGR_ERROR_IO
         | Ready events => Handling events DEVMGR_OK
         end, d)
  | daemon_event e events d result d' :
      handle_event e d = Some (result, d') →
      daemon_step (Handling (e :: events) DEVMGR_OK, d) (Handling events result, d')
  | daemon_batch_done events result d :
      events = [] ∨ result ≠ DEVMGR_OK →
      daemon_step (Handling events result, d) (Looping result, d)
  | daemon_leave result d script again joining d' :
      result ≠ DEVMGR_OK ∨ running d = false → reclosed (transport d) script = Some again →
      cleanup_stop script d = Some (joining, d') →
      daemon_step (Looping result, d) (Stopping joining again result, d')
  | daemon_finish joining again result d d' :
      (joining = true → ws_thread (worker d) = Exited) →
      cleanup_finish joining d = Some (tt, d') →
      daemon_step (Stopping joining again result, d) (Stopped again result, d')
  | daemon_thread phase d ws :
      thread_step (worker d) ws → daemon_step (phase, d) (phase, d <| worker := ws |>).

(** devmgr_daemon_run with a NULL in its configuration returns at once. *)
Definition config_valid (config : devmgr_daemon_config) : bool :=
  match device_path config, config_socket_path config with
  | Some _, Some _ => true
  | _, _ => false
  end.

(** What the kernel promises to setup_context: descriptors are not negative, an
    interrupted open is not interrupted forever, and no frame has been sent. *)
Definition opens_ok (o : open_outcome) : Prop :=
  match o with Opened fd => 0 ≤ fd | OpenError _ => True end.

Definition setup_ok (config : devmgr_daemon_config) (env : setup_env) (k : kernel) : Prop :=
  config_valid config = true ∧
  (∀ path, config_socket_path config = Some path → ∃ str, holds_string path str) ∧
  fds_ok (line_open (setup_line env)) ∧ is_Some (open_retry (line_open (setup_line env))) ∧
  Forall opens_ok [listener_socket (setup_listener env); setup_epoll env; setup_timer env; setup_signal env] ∧
  line_trace k = ([], [], []) ∧ k_line k = [].

Inductive daemon_reachable (config : devmgr_daemon_config) (env : setup_env) (k : kernel)
    : daemon_phase * daemon → Prop :=
  | daemon_booted unset result d :
      daemon_boot config env unset (blank_context config k) = Some (result, d) →
      daemon_reachable config env k (Looping result, d)
  | daemon_stepped s s' :
      daemon_reachable config env k s → daemon_step s s' → daemon_reachable config env k s'.

(** ** What the process owns *)

(** Everything acquired is [rest], or the worker's if there is one. *)
Definition accounted (ws : worker_system) (rest : list resource) : Prop :=
  ws_reactor ws = Running ∧ (∃ fd, worker_inv fd rest ws) ∨
  (ws_reactor ws = Destroyed ∧ ws_thread ws = Exited) ∧ initialized (ws_worker ws) = false ∧
  holds (ws_log ws) rest.

Lemma accounted_perm ws rest rest' : accounted ws rest → rest ≡ₚ rest' → accounted ws rest'.
Proof.
  intros [(Hr & fd & Hw)|(Hr & Hi & Hh)] Hp; [left|right].
  - split; [done|]. exists fd. by eapply worker_inv_perm.
  - split; [done|]. split; [done|]. by eapply holds_perm.
Qed.

Lemma accounted_log ws l rest rest' :
  accounted ws rest →
  (∀ log own, holds log (own ++ rest) → holds (log ++ l) (own ++ rest')) →
  accounted (ws <| ws_log := ws_log ws ++ l |>) rest'.
Proof.
  intros [(Hr & fd & Hw)|(Hr & Hi & Hh)] Hl; [left|right].
  - split; [done|]. exists fd. eapply worker_inv_log; [done|]. intros own. apply Hl.
  - split; [done|]. split; [done|]. by apply (Hl _ []).
Qed.

Lemma accounted_acquire ws fd rest :
  accounted ws rest → accounted (ws <| ws_log := ws_log ws ++ [Acquired (Fd fd)] |>) (Fd fd :: rest).
Proof.
  intros H. eapply accounted_log; [done|]. intros log own Hh.
  eapply holds_perm; [by apply holds_acquired|]. apply Permutation_middle.
Qed.

Lemma accounted_release ws fd rest :
  accounted ws (Fd fd :: rest) → accounted (ws <| ws_log := ws_log ws ++ [Released (Fd fd)] |>) rest.
Proof.
  intros H. eapply accounted_log; [done|]. intros log own Hh. apply holds_released.
  eapply holds_perm; [done|]. symmetry. apply Permutation_middle.
Qed.

(** What is known of the process even if setting up failed. *)
Definition weak_ok (d : daemon) : Prop :=
  clients_ok (clients d) ∧ image_ok (firmware d) ∧ accounted (worker d) (daemon_resources d).

Lemma base_weak d : base_ok d → weak_ok d.
Proof.
  intros H. open_base H. split; [done|]. split; [done|]. left. by destruct Hwo.
Qed.

(** ** Clean-up *)

Definition gone (c : daemon_client) : Prop := client_fd c < 0.

(** Only clients, log and calls changed. *)
Definition keeps_rest (d d' : daemon) : Prop :=
  signal_fd d' = signal_fd d ∧ timer_fd d' = timer_fd d ∧ epoll_fd d' = epoll_fd d ∧
  listen_fd d' = listen_fd d ∧ transport d' = transport d ∧ firmware d' = firmware d ∧
  socket_path d' = socket_path d.

Lemma client_gone_ok i d :
  weak_ok d → 0 ≤ i < MAX_CLIENTS →
  wp (close_client i) d (λ _ d', weak_ok d' ∧ keeps_rest d d' ∧
    ∃ c, gone c ∧ clients d' = <[Z.to_nat i := c]> (clients d)).
Proof.
  intros (Hc & Him & Ha) Hi. unfold close_client. apply wp_bind, wp_get_client; [done..|].
  intros c Ec Hcok. apply wp_bind.
  apply wp_mono with (P := λ _ d', weak_ok d' ∧ keeps_rest d d' ∧
    ∃ c, gone c ∧ clients d' = <[Z.to_nat i := c]> (clients d)).
  - destruct (Z.leb_spec 0 (client_fd c)) as [Hfd|Hfd].
    + apply wp_bind, wp_epoll_ctl. intros failed k Hk. unfold log, set_client. do 2 wp_step.
      split; [|split; [done|by exists (c <| client_fd := -1 |>)]].
      split; [by apply clients_insert|]. split; [done|]. apply accounted_release.
      eapply accounted_perm; [exact Ha|]. unfold daemon_resources.
      cbn [clients firmware signal_fd timer_fd epoll_fd listen_fd transport upd].
      rewrite app_comm_cons. apply Permutation_app_tail.
      pose proof (client_resources_insert _ _ _ (c <| client_fd := -1 |>) Ec) as Hp.
      unfold fd_resources in Hp at 1. rewrite (proj2 (Z.leb_le 0 _)) in Hp by done. by symmetry.
    + wp_step. split; [done|]. split; [done|]. exists c. split; [done|]. by rewrite list_insert_id.
  - intros _ d1 (H1 & Hk & Hg). wp_step. by destruct (_ =? i); wp_step.
Qed.

Lemma close_clients_ok n d (i : nat) :
  weak_ok d → Z.of_nat (i + n) = MAX_CLIENTS → Forall gone (take i (clients d)) →
  wp (close_clients n (Z.of_nat i)) d (λ _ d', weak_ok d' ∧ keeps_rest d d' ∧ Forall gone (clients d')).
Proof.
  revert i d. induction n as [|n IH]; intros i d Hd Hn Hg; cbn [close_clients].
  { wp_step. split; [done|]. split; [done|]. rewrite take_ge in Hg; [done|].
    destruct Hd as [[Hl _] _]. lia. }
  apply wp_bind. eapply wp_mono; [apply client_gone_ok; [done|lia]|].
  intros _ d1 (H1 & Hk1 & c & Hc & Ec). rewrite Nat2Z.id in Ec.
  replace (Z.of_nat i + 1) with (Z.of_nat (S i)) by lia.
  eapply wp_mono; [apply IH; [done|lia|]|].
  - rewrite Ec. destruct Hd as [[Hl _] _]. rewrite (take_S_r _ i c) by (apply list_lookup_insert_eq; lia).
    rewrite take_insert_ge by lia. apply Forall_app. by split; [|constructor].
  - intros _ d2 (H2 & Hk2 & Hg2). split; [done|]. split; [|done].
    unfold keeps_rest in *. destruct Hk1 as (? & ? & ? & ? & ? & ? & ?), Hk2 as (? & ? & ? & ? & ? & ? & ?).
    split_and!; congruence.
Qed.

Lemma gone_resources cs : Forall gone cs → client_resources cs = [].
Proof.
  unfold client_resources. induction 1 as [|c cs Hc _ IH]; [done|]. cbn. rewrite IH, app_nil_r.
  unfold fd_resources. by rewrite (proj2 (Z.leb_gt 0 _)).
Qed.

(** [rest] is left, and image and line are as they were. *)
Definition left_over (rest : list resource) (f : devmgr_firmware_image) (t : devmgr_transport)
    (d : daemon) : Prop :=
  accounted (worker d) rest ∧ firmware d = f ∧ transport d = t.

Lemma close_fd_ok fd rest f t d :
  left_over (fd_resources fd ++ rest) f t d → wp (close_fd fd) d (λ _, left_over rest f t).
Proof.
  unfold close_fd, fd_resources, log. intros (H & Hf & Ht). destruct (0 <=? fd); wp_step; [|done].
  split; [|done]. by apply accounted_release.
Qed.

Lemma close_retry_spec fd script n :
  interruptions script = Some n →
  close_retry fd script = Some (Released (Fd fd) :: map Released (replicate n (Fd fd))).
Proof.
  revert n. induction script as [|[|[]] script IH]; intros n E; cbn in *; try done; try by injection E as <-.
  destruct (interruptions script) as [m|]; [|done]. injection E as <-. by rewrite (IH m eq_refl).
Qed.

Lemma transport_close_ok t script again ws rest :
  reclosed t script = Some again → accounted ws (fd_resources (transport_fd t) ++ rest) →
  ∃ t' first, devmgr_transport_close t script = Some (t', first ++ map Released again) ∧
    accounted (ws <| ws_log := ws_log ws ++ first |>) rest.
Proof.
  unfold devmgr_transport_close, fd_resources, reclosed. intros Hs H. destruct (0 <=? transport_fd t).
  - destruct (interruptions script) as [n|] eqn:En; [|done]. injection Hs as <-.
    rewrite (close_retry_spec _ _ _ En). exists (t <| transport_fd := -1 |>), [Released (Fd (transport_fd t))].
    split; [done|]. by apply accounted_release.
  - injection Hs as <-. exists t, []. split; [done|]. rewrite app_nil_r. by destruct ws.
Qed.

(** After cleanup_stop only the image and the worker are left. *)
Definition stopping_ok (joining : bool) (d : daemon) : Prop :=
  image_ok (firmware d) ∧
  if joining
  then ws_reactor (worker d) = Joining ∧ ∃ fd, worker_inv fd (image_resources (firmware d)) (worker d)
  else initialized (ws_worker (worker d)) = false ∧ ws_thread (worker d) = Exited ∧
       holds (ws_log (worker d)) (image_resources (firmware d)).

(** [P] holds but for the closes of [again] in the log. *)
Definition with_log (d : daemon) (l : list os_event) : daemon :=
  d <| worker := (worker d) <| ws_log := l |> |>.

Definition apart (again : list resource) (P : daemon → Prop) (d : daemon) : Prop :=
  ∃ l1 l2, ws_log (worker d) = l1 ++ map Released again ++ l2 ∧ P (with_log d (l1 ++ l2)).

(** The worker is told to stop, if there is one. *)
Lemma stop_worker_ok again l d :
  ws_log (worker d) = l ++ map Released again → image_ok (firmware d) →
  accounted ((worker d) <| ws_log := l |>) (image_resources (firmware d)) →
  wp (ws ← gets worker;
      let '(w, joining) := worker_destroy_stop (ws_worker ws) in
      if joining then modify (λ d, d <| worker := stopping ws w |>);; mret true else mret false) d
    (λ joining, apart again (stopping_ok joining)).
Proof.
  intros Hl Him Ha. wp_step. destruct Ha as [(Hr & fd & Hw)|(Hr & Hi & Hh)].
  - destruct (inv_alive _ _ _ Hw) as [Hini _]; [by rewrite Hr|]. cbn in Hini.
    assert (∃ w, worker_destroy_stop (ws_worker (worker d)) = (w, true)) as [w Ew]
      by (unfold worker_destroy_stop; rewrite Hini; by eexists). rewrite Ew. cbv iota.
    do 2 wp_step. exists l, []. rewrite !app_nil_r. split; [done|]. split; [done|]. split; [done|].
    exists fd. exact (step_stop_inv _ _ _ _ Hw Hr Ew).
  - cbn in Hi. assert (worker_destroy_stop (ws_worker (worker d)) = (ws_worker (worker d), false)) as ->
      by (unfold worker_destroy_stop; by rewrite Hi). cbv iota. wp_step.
    exists l, []. rewrite !app_nil_r. split; [done|]. split; [done|]. split; [done|]. by split; [apply Hr|].
Qed.

Lemma cleanup_stop_ok script again d :
  weak_ok d → reclosed (transport d) script = Some again →
  wp (cleanup_stop script) d (λ joining, apart again (stopping_ok joining)).
Proof.
  intros Hd Hs. unfold cleanup_stop. apply wp_bind.
  eapply wp_mono; [by apply (close_clients_ok _ d 0)|].
  intros _ d1 ((_ & Him & Ha) & (_ & _ & _ & _ & Etr & _) & Hg). rewrite <- Etr in Hs.
  wp_step. unfold id. unfold daemon_resources in Ha. rewrite gone_resources in Ha by done. cbn [app] in Ha.
  apply accounted_perm with (rest' := fd_resources (signal_fd d1) ++ fd_resources (timer_fd d1) ++
    fd_resources (epoll_fd d1) ++ fd_resources (listen_fd d1) ++ fd_resources (transport_fd (transport d1)) ++
    image_resources (firmware d1)) in Ha.
  2: { by rewrite Permutation_app_comm, <- !(assoc_L (++)). }
  assert (left_over _ (firmware d1) (transport d1) d1) as Hl by by split. clear Ha.
  do 4 (apply wp_bind; eapply wp_mono; [eapply close_fd_ok; exact Hl|]; clear Hl;
        let d' := fresh "d" in intros ? d' Hl).
  destruct Hl as (Ha & Hf & Ht).
  destruct (transport_close_ok (transport d1) script again (worker d4) _ Hs Ha) as (t & first & E & Ha').
  apply wp_bind. eapply wp_lift; [exact E|]. cbv iota. unfold log. do 2 wp_step.
  rewrite <- Hf in Ha', Him. apply (stop_worker_ok again (ws_log (worker d4) ++ first)); [|done..].
  cbn. by rewrite (assoc_L (++)).
Qed.

(** The rest of the clean-up leaves nothing. *)
Definition stopped_ok (d : daemon) : Prop :=
  ws_thread (worker d) = Exited ∧ holds (ws_log (worker d)) [] ∧ firmware d = no_image.

Lemma cleanup_finish_ok joining again d :
  apart again (stopping_ok joining) d → (joining = true → ws_thread (worker d) = Exited) →
  wp (cleanup_finish joining) d (λ _, apart again stopped_ok).
Proof.
  intros (l1 & l2 & El & Him & H) Hj. unfold cleanup_finish. apply wp_bind.
  apply wp_mono with (P := λ _ d', image_ok (firmware d') ∧ ws_thread (worker d') = Exited ∧
    ∃ l2, ws_log (worker d') = l1 ++ map Released again ++ l2 ∧
      holds (l1 ++ l2) (image_resources (firmware d'))).
  - destruct joining; cycle 1.
    { destruct H as (_ & Hx & Hh). wp_step. split; [done|]. split; [done|]. by exists l2. }
    destruct H as (Hr & fd & Hw). wp_step.
    destruct (worker_destroy_finish (ws_worker (worker d))) as [w events] eqn:E. wp_step. split; [done|].
    split; [by apply Hj|]. exists (l2 ++ events). cbn. rewrite El, <- !(assoc_L (++)). split; [done|].
    pose proof (inv_resources _ _ _ (step_join_inv _ _ _ _ _ Hw Hr (Hj eq_refl) E)) as Hres.
    rewrite decide_True in Hres by done. cbn in Hres. by rewrite (assoc_L (++)).
  - intros _ d1 (Hi & Hx & l2' & El' & Hh). apply wp_bind, wp_close_firmware. wp_step.
    assert (apart again stopped_ok (without_image d1)) as Hd.
    { exists l1, (l2' ++ (devmgr_firmware_close (firmware d1)).2). cbn. rewrite El', <- !(assoc_L (++)).
      split; [done|]. split; [done|]. split; [|done]. cbn. rewrite (assoc_L (++)).
      apply holds_close; [done|by rewrite app_nil_r]. }
    destruct (socket_path _); [unfold set_path|]; by wp_step.
Qed.

(** ** Setting up *)

(** What setup_context does not touch, beside descriptors, session and parser;
    [rest] is what the process owns so far. *)
Definition pristine (rest : list resource) (d : daemon) : Prop :=
  clients d = replicate (Z.to_nat MAX_CLIENTS) (zero_client <| client_fd := -1 |>) ∧
  active_client d = -1 ∧
  (transport_output d = zeros DEVMGR_PROTOCOL_MAX_FRAME ∧ transport_output_size d = 0 ∧
   transport_output_offset d = 0 ∧ line_trace (kern d) = ([], [], []) ∧ k_line (kern d) = []) ∧
  (latest_telemetry d = zeros 16 ∧ latest_telemetry_length d = 0) ∧
  (firmware d = no_image ∧ upgrade d = devmgr_upgrade_init ∧ upgrade_operation_id d = 0) ∧
  pending_upgrade_version d = zeros 32 ∧ accounted (worker d) rest.

(** What the descriptors of the context stand for. *)
Definition fds_of (d : daemon) : list resource :=
  fd_resources (signal_fd d) ++ fd_resources (timer_fd d) ++ fd_resources (epoll_fd d) ++
  fd_resources (listen_fd d) ++ fd_resources (transport_fd (transport d)).

Lemma pristine_weak d : pristine (fds_of d) d → weak_ok d.
Proof.
  intros (Hc & _ & _ & _ & (Hf & _) & _ & Ha). split; [|split].
  - rewrite Hc. split; [done|]. apply Forall_replicate, zero_client_ok.
  - by rewrite Hf.
  - unfold daemon_resources. rewrite Hf, gone_resources; [done|]. rewrite Hc. by apply Forall_replicate.
Qed.

Lemma zeros_version_ok : version_ok (zeros 32).
Proof. split; [done|]. split; [apply zeros_Forall|]. exists [], (zeros 31). by split. Qed.

Lemma pristine_ok d :
  pristine (fds_of d) d → session_ok (session d) → session_state (session d) ≠ DEVMGR_DEVICE_UPGRADING →
  parser_ready (parser d) → ws_reactor (worker d) = Running → daemon_ok d.
Proof.
  intros Hp Hs Hst Hpa Hr. pose proof (pristine_weak d Hp) as (Hc & Him & Ha).
  destruct Hp as (_ & Hac & (Hto & Hts & Hof & Hkf & Hkl) & (Htl & Htn) & (Hf & Hu & Hid) & Hv & _).
  apply idle_ok; [|by rewrite Hu..|done|done]. keep_base.
  - by rewrite Hac.
  - rewrite Hto, Hts, Hof. unfold output_ok. injection Hkf as -> _ _. rewrite Hkl. split_and!; try done. apply zeros_Forall.
  - rewrite Htl, Htn. split; [done|]. split; [apply zeros_Forall|by left].
  - rewrite Hv. apply zeros_version_ok.
  - by rewrite Hid.
  - destruct Ha as [(_ & fd & Hw)|([Hd _] & _)]; [|by rewrite Hd in Hr]. split; [by exists fd|done].
Qed.

(** The descriptors and the parts that are set up one by one. *)
Definition parts (d : daemon) : Z * Z * Z * Z * devmgr_transport * devmgr_session * devmgr_parser * reactor_pc :=
  (signal_fd d, timer_fd d, epoll_fd d, listen_fd d, transport d, session d, parser d, ws_reactor (worker d)).

Lemma log_acquired_ok fd rest d (Q : unit → daemon → Prop) :
  pristine rest d → 0 ≤ fd →
  (∀ d', pristine (fd_resources fd ++ rest) d' → parts d' = parts d → Q tt d') →
  wp (log [Acquired (Fd fd)]) d Q.
Proof.
  intros (? & ? & ? & ? & ? & ? & Ha) Hfd HQ. unfold log. wp_step. apply HQ; [|done].
  unfold fd_resources. rewrite (proj2 (Z.leb_le 0 fd)) by done.
  do 6 (split; [done|]). by apply accounted_acquire.
Qed.

Lemma log_released_ok fd rest d (Q : unit → daemon → Prop) :
  pristine (fd_resources fd ++ rest) d → 0 ≤ fd →
  (∀ d', pristine rest d' → parts d' = parts d → Q tt d') →
  wp (log [Released (Fd fd)]) d Q.
Proof.
  intros (? & ? & ? & ? & ? & ? & Ha) Hfd HQ. unfold log. wp_step. apply HQ; [|done].
  unfold fd_resources in Ha. rewrite (proj2 (Z.leb_le 0 fd)) in Ha by done.
  do 6 (split; [done|]). by apply accounted_release.
Qed.

Lemma open_fd_ok outcome rest d (Q : Z → daemon → Prop) :
  pristine rest d → opens_ok outcome →
  (∀ fd d', pristine (fd_resources fd ++ rest) d' → parts d' = parts d → Q fd d') →
  wp (open_fd outcome) d Q.
Proof.
  intros Hp Ho HQ. destruct outcome as [fd|e]; cbn [open_fd].
  - apply wp_bind, (log_acquired_ok fd rest); [done..|]. intros d' H1 H2. wp_step. by apply HQ.
  - wp_step. by apply HQ.
Qed.

Lemma create_listener_ok path str env rest d (Q : Z → daemon → Prop) :
  pristine rest d → holds_string path str → opens_ok (listener_socket env) →
  (∀ fd d', pristine (fd_resources fd ++ rest) d' → parts d' = parts d → Q fd d') →
  wp (create_listener path env) d Q.
Proof.
  intros Hp Hs Ho HQ. unfold create_listener. apply wp_bind. eapply wp_lift; [by apply strlen_holds|].
  destruct (Z.eqb_spec (len str) 0); cbn [orb]; [wp_step; by apply HQ|].
  destruct (Z.leb_spec SUN_PATH_SIZE (len str)) as [|Hlt]; [wp_step; by apply HQ|].
  wp_step. apply wp_bind. apply wp_mono with (P := λ _ d', pristine rest d' ∧ parts d' = parts d).
  { destruct (lstat_fails env); [by wp_step|]. destruct (k_path (kern d)); try by wp_step.
    destruct (unlink_fails env); [by wp_step|]. unfold set_path. by do 2 wp_step. }
  intros cleared d1 [Hp1 Hd1]. destruct cleared; cbn [negb]; [|wp_step; by apply HQ].
  destruct (listener_socket env) as [fd|]; [|wp_step; by apply HQ].
  apply wp_bind, (log_acquired_ok fd rest); [done..|]. intros d2 Hp2 Hd2.
  pose proof (holds_string_bound _ _ Hs). unfold SUN_PATH_SIZE in *. apply wp_bind.
  eapply wp_lift; [apply memcpy_ok; rewrite ?len_zeros; lia|]. apply wp_bind.
  apply wp_mono with (P := λ _ d', pristine (fd_resources fd ++ rest) d' ∧ parts d' = parts d).
  { destruct (bind_fails env); unfold set_path; wp_step; (split; [done|by rewrite <- Hd1, <- Hd2]). }
  intros _ d3 [Hp3 Hd3]. destruct (_ || _ || _); [|wp_step; by apply HQ].
  apply wp_bind, (log_released_ok fd rest); [done..|]. intros d4 Hp4 Hd4. unfold set_path. do 2 wp_step.
  apply HQ; [done|]. by rewrite <- Hd3, <- Hd4.
Qed.

Lemma worker_init_cases env :
  let '(result, w, events) := devmgr_worker_init env in
  (result = DEVMGR_OK → worker_inv (eventfd_result env) [] (mk_worker_system w Fetching Running 0 events [] [] false)) ∧
  (result ≠ DEVMGR_OK → initialized w = false ∧ holds events []).
Proof.
  pose proof (worker_start_inv env) as H. unfold worker_start in H.
  destruct (devmgr_worker_init env) as [[result w] events] eqn:E. split; [done|]. intros Hr.
  unfold devmgr_worker_init in E.
  destruct (mutex_init_fails env); [by simplify_eq; split; [|exists []]|].
  destruct (cond_init_fails env); [by simplify_eq; split; [|exists []]|]. cbv zeta in E.
  destruct (_ <? 0); [by simplify_eq; split; [|exists []]|].
  destruct (thread_create_fails env); [|by simplify_eq].
  simplify_eq. split; [done|]. exists []. split; [|done]. cbn.
  rewrite decide_True by done. cbn. by rewrite !decide_True.
Qed.

Lemma start_worker_ok env d (Q : Z → daemon → Prop) :
  pristine [] d → worker d = no_worker →
  (∀ result d', pristine [] d' → (result = DEVMGR_OK → ws_reactor (worker d') = Running) →
     signal_fd d' = signal_fd d → timer_fd d' = timer_fd d → epoll_fd d' = epoll_fd d →
     listen_fd d' = listen_fd d → transport d' = transport d → session d' = session d → Q result d') →
  wp (start_worker env) d Q.
Proof.
  intros (? & ? & ? & ? & ? & ? & _) Hw HQ. unfold start_worker.
  pose proof (worker_init_cases env) as Hc.
  destruct (devmgr_worker_init env) as [[result w] events]. destruct Hc as [Hok Hbad].
  unfold log. do 3 wp_step. rewrite Hw. apply HQ; try done.
  - do 6 (split; [done|]). cbn -[no_worker]. destruct (Z.eqb_spec result DEVMGR_OK) as [E|E].
    + left. split; [done|]. exists (eventfd_result env). by apply Hok.
    + destruct (Hbad E) as [Hi Hh]. by right.
  - intros ->. done.
Qed.

Lemma open_transport_ok config env rest d (Q : Z → daemon → Prop) :
  pristine rest d → transport_fd (transport d) = -1 → fds_ok (line_open env) →
  is_Some (open_retry (line_open env)) → is_Some (config_path config) →
  (∀ result d', pristine (fd_resources (transport_fd (transport d')) ++ rest) d' →
     parts d' = (signal_fd d, timer_fd d, epoll_fd d, listen_fd d, transport d', session d, parser d,
                 ws_reactor (worker d)) →
     Q result d') →
  wp (open_transport config env) d Q.
Proof.
  intros (? & ? & ? & ? & ? & ? & Ha) Ht Hf Ho Hp HQ. unfold open_transport. wp_step. apply wp_bind.
  destruct (transport_open_spec (transport d) config env Hf Ho Hp)
    as (result & t & attributes & events & E & _ & _ & Hheld).
  eapply wp_lift; [exact E|]. cbv iota. unfold log. do 3 wp_step. apply HQ; [|done].
  do 6 (split; [done|]). eapply accounted_log; [exact Ha|]. intros l own (rs & Hl & Hperm).
  exists (transport_resources t ++ rs). rewrite held_app, Hl. cbn [mbind option_bind]. rewrite Hheld.
  split; [done|]. rewrite Hperm. cbn. by rewrite Permutation_app_swap_app.
Qed.

Lemma add_all_ok fds rest d (Q : bool → daemon → Prop) :
  pristine rest d →
  (∀ failed d', pristine rest d' → parts d' = parts d → Q failed d') → wp (add_all fds) d Q.
Proof.
  intros Hp. revert d Hp. induction fds as [|fd fds IH]; intros d Hp HQ; cbn [add_all]; [wp_step; by apply HQ|].
  apply wp_bind, wp_epoll_update. intros result k _ (_ & Hkl & _ & _ & Hkf).
  assert (pristine rest (d <| kern := k |>)) as Hp1.
  { destruct Hp as (? & ? & (? & ? & ? & ? & ?) & ? & ? & ? & ?). do 2 (split; [done|]).
    split; [cbn; rewrite Hkf, Hkl; done|]. done. }
  destruct (negb _); [wp_step; by apply HQ|]. by apply IH.
Qed.

Lemma blank_pristine config k :
  line_trace k = ([], [], []) → k_line k = [] → pristine [] (blank_context config k).
Proof.
  intros Hf Hl. do 2 (split; [done|]). split; [by split_and!|]. do 3 (split; [done|]).
  right. split_and!; try done. by exists [].
Qed.

(** What holds when setting up returns. *)
Definition set_up (result : Z) (d : daemon) : Prop :=
  weak_ok d ∧
  (result = DEVMGR_OK → daemon_ok d ∧ session d = devmgr_session_init ∧ upgrade d = devmgr_upgrade_init ∧
                        line_trace (kern d) = ([], [], [])).

Lemma setup_failed d result : pristine (fds_of d) d → result ≠ DEVMGR_OK → set_up result d.
Proof. intros Hp Hr. split; [by apply pristine_weak|done]. Qed.

Lemma setup_done d result :
  pristine (fds_of d) d → session d = devmgr_session_init → parser_ready (parser d) →
  ws_reactor (worker d) = Running → set_up result d.
Proof.
  intros Hp Hs Hpa Hr. split; [by apply pristine_weak|]. intros _. split_and!; [|done|apply Hp..].
  apply pristine_ok; try done; rewrite Hs; [apply session_init_ok|done].
Qed.

Lemma open_descriptors_ok path str env d :
  pristine (fds_of d) d → signal_fd d = -1 → timer_fd d = -1 → epoll_fd d = -1 → listen_fd d = -1 →
  holds_string path str →
  Forall opens_ok [listener_socket (setup_listener env); setup_epoll env; setup_timer env; setup_signal env] →
  session d = devmgr_session_init → parser_ready (parser d) → ws_reactor (worker d) = Running →
  wp (open_descriptors path env) d set_up.
Proof.
  intros Hp E1 E2 E3 E4 Hstr [Hol [Hoe [Hot [Hos _]%Forall_cons]%Forall_cons]%Forall_cons]%Forall_cons Hs Hpa Hr.
  unfold open_descriptors, fds_of in *. rewrite E1, E2, E3, E4 in Hp. change (fd_resources (-1)) with (@nil resource) in Hp.
  cbn [app] in Hp.
  apply wp_bind, (create_listener_ok path str _ _ _ _ Hp Hstr Hol). intros lfd d1 Hp1 Q1. wp_step.
  apply wp_bind. eapply open_fd_ok; [exact Hp1|exact Hoe|]. intros efd d2 Hp2 Q2. wp_step.
  apply wp_bind. eapply open_fd_ok; [exact Hp2|exact Hot|]. intros tfd d3 Hp3 Q3. wp_step.
  apply wp_bind. eapply open_fd_ok; [exact Hp3|exact Hos|]. intros sfd d4 Hp4 Q4. do 2 wp_step. unfold id.
  unfold parts in Q1, Q2, Q3, Q4. cbn in Q1, Q2, Q3, Q4. simplify_eq.
  set (d5 := d4 <| signal_fd := sfd |>).
  assert (pristine (fds_of d5) d5 ∧ session d5 = devmgr_session_init ∧ parser d5 = parser d ∧
          ws_reactor (worker d5) = Running) as (Hp5 & Hs5 & Hpa5 & Hr5).
  { split; [|cbn; split_and!; congruence]. unfold d5, fds_of. cbn.
    replace (listen_fd d4) with (listen_fd d2) by congruence.
    replace (epoll_fd d4) with (epoll_fd d3) by congruence.
    replace (transport d4) with (transport d) by congruence. exact Hp4. }
  clearbody d5. destruct (_ || _ || _ || _ || _); [wp_step; by apply setup_failed|].
  apply wp_bind, (add_all_ok _ _ _ _ Hp5). intros failed d6 Hp6 Q6. wp_step.
  unfold parts in Q6. simplify_eq. apply setup_done; [|congruence..].
  unfold fds_of in *. congruence.
Qed.

(** Setting up returns; if it fails all that was acquired is known, and if it
    succeeds the loop can start. *)
Lemma setup_context_ok config env k :
  setup_ok config env k → wp (setup_context config env) (blank_context config k) set_up.
Proof.
  intros (Hv & Hpath & Hfds & Hopen & Hops & Hkf & Hkl).
  unfold config_valid in Hv. destruct (device_path config) as [device|] eqn:Edev; [|done].
  destruct (config_socket_path config) as [path|] eqn:Esock; [|done].
  destruct (Hpath path eq_refl) as [str Hstr].
  pose proof (blank_pristine config k Hkf Hkl) as Hp0. unfold setup_context.
  destruct (sigprocmask_fails env); [wp_step; by apply setup_failed|]. wp_step.
  apply wp_bind, start_worker_ok; [done|done|]. intros result d1 Hp1 Hrun E1 E2 E3 E4 E5 E6.
  cbn in E1, E2, E3, E4, E5, E6.
  assert (fds_of d1 = []) as Hd1 by (unfold fds_of; by rewrite E1, E2, E3, E4, E5).
  destruct (Z.eqb_spec result DEVMGR_OK) as [->|]; cbn [negb];
    [|wp_step; apply setup_failed; [by rewrite Hd1|done]].
  destruct parser_init_idle as (p & -> & Hidle & _). wp_step. cbn [negb Z.eqb DEVMGR_OK].
  apply wp_bind. eapply open_transport_ok; [exact Hp1|cbn; by rewrite E5|done..|by rewrite Edev|].
  intros result d2 Hp2 Q2. unfold parts in Q2. cbn in Q2. simplify_eq.
  assert (fds_of d2 = fd_resources (transport_fd (transport d2)) ++ []) as Hd2.
  { unfold fds_of. rewrite app_nil_r. replace (signal_fd d2) with (-1) by congruence.
    replace (timer_fd d2) with (-1) by congruence. replace (epoll_fd d2) with (-1) by congruence.
    by replace (listen_fd d2) with (-1) by congruence. }
  rewrite <- Hd2 in Hp2. destruct (negb _); [wp_step; by apply setup_failed|].
  apply wp_bind. eapply wp_lift; [exact Esock|].
  apply (open_descriptors_ok path str); try done; try congruence; [by apply parser_idle_ready|].
  rewrite Hrun in *; congruence.
Qed.

(** ** The handshake *)

Definition handshake_frame : wire_frame := mk_wire DEVMGR_MSG_PING DEVMGR_FRAME_ACK_REQUIRED 1 [].

Lemma start_handshake_ok unset d :
  daemon_ok d → session d = devmgr_session_init → line_trace (kern d) = ([], [], []) →
  wp (start_handshake unset) d (λ result d', handled [] d d' ∧
    (result = DEVMGR_OK → k_frames (kern d') = [handshake_frame])).
Proof.
  intros Hd Hs Hk. unfold start_handshake.
  assert (upgrade_running (upgrade d) = false) as Hr.
  { destruct (upgrade_running _) eqn:Hr; [|done]. destruct Hd as [_ Hl]. unfold linked in Hl.
    by rewrite Hr, Hs in Hl; destruct Hl. }
  pose proof Hd as [Hb Hl]. unfold linked in Hl. rewrite Hr in Hl.
  set (d1 := in_state DEVMGR_DEVICE_HANDSHAKING (in_state DEVMGR_DEVICE_CONNECTING d)).
  assert (handled [] d d1) as [H1 Hm1].
  { split; [|by apply moves_same]. split; [by do 2 apply in_state_ok|]. unfold linked. cbn. rewrite Hr.
    destruct Hl as (? & ? & ?). by split_and!. }
  apply wp_bind. exists DEVMGR_OK, (in_state DEVMGR_DEVICE_CONNECTING d).
  split; [unfold session_transition, on_part, in_state; by rewrite Hs|]. apply wp_bind.
  exists DEVMGR_OK, d1. split; [unfold session_transition, on_part, d1, in_state; cbn; by rewrite Hs|].
  change (DEVMGR_OK =? DEVMGR_OK) with true. cbv iota.
  apply wp_bind, wp_bind, wp_monotonic_ns. intros now k Hnow Hk1.
  destruct (kern_ok d1 k H1 Hk1) as [H2 Hm2]. set (d2 := d1 <| kern := k |>) in *.
  change (begin_request DEVMGR_MSG_PING DEVMGR_FRAME_ACK_REQUIRED None 0 handshake_policy now unset)
    with (begin_request DEVMGR_MSG_PING DEVMGR_FRAME_ACK_REQUIRED (Some []) 0 handshake_policy now unset).
  pose proof (moves_trans [] d d1 d2 Hm1 Hm2) as Hm.
  apply begin_request_ok; try done; [apply H2|..].
  { intros Hp. change (pending_active (session_pending (session d)) = true) in Hp. by rewrite Hs in Hp. }
  intros f Hp Hf H3. cbv iota. change (DEVMGR_OK =? DEVMGR_OK) with true. cbv iota.
  set (d3 := with_request d2 f handshake_policy now) in *.
  assert (upgrade_running (upgrade d2) = false) as Hr2 by done.
  assert (view f = handshake_frame) as Hv.
  { unfold f. rewrite view_request_frame. change (next_sequence (session d2)) with (next_sequence (session d)).
    by rewrite Hs. }
  assert (moves [] d2 d3) as Hm3.
  { apply begun_moves; [done|]. rewrite (view_request_frame _ _ _ _ : view f = _). by apply driver_other. }
  eapply wp_mono; [apply wp_and; [by apply (queue_pending_ok f d3)|by apply queue_frame_ok]|].
  intros result d4 [(Hr4 & Hu4 & _) [_ Hq]].
  assert (daemon_ok d3) as Hd3 by (split; [done|by eapply linked_session; [apply H2|..]]).
  split.
  - eapply handled_trans; [exact Hm|]. eapply handled_trans; [exact Hm3|].
    by apply requested_handled.
  - intros ->. destruct Hq as [[[=] _]|[_ (_ & _ & _ & _ & _ & E)]]. injection E as -> _ _. rewrite Hv. cbn.
    change (k_frames (kern d3)) with (k_frames k). destruct Hk1 as [-> _]. change (kern d1) with (kern d).
    by injection Hk as -> _ _.
Qed.

(** ** The whole run *)

Definition phase_ok (s : daemon_phase * daemon) : Prop :=
  let '(phase, d) := s in
  match phase with
  | Looping result => weak_ok d ∧ (result = DEVMGR_OK → daemon_ok d)
  | Handling events result => daemon_ok d ∧ Forall event_ok events
  | Stopping joining again _ => apart again (stopping_ok joining) d
  | Stopped again _ => apart again stopped_ok d
  end.

Lemma boot_ok config env k unset :
  setup_ok config env k →
  wp (daemon_boot config env unset) (blank_context config k) (λ result d,
    phase_ok (Looping result, d) ∧
    (result = DEVMGR_OK → k_frames (kern d) = [handshake_frame] ∧
       ∃ d0, driver_of d0 = mk_driver None 1 devmgr_upgrade_init ∧ line_trace (kern d0) = ([], [], []) ∧
             moves [] d0 d)).
Proof.
  intros Hs. unfold daemon_boot. apply wp_bind. eapply wp_mono; [by apply setup_context_ok|].
  intros result d [Hw Hok]. destruct (Z.eqb_spec result DEVMGR_OK) as [->|]; [|by wp_step].
  destruct (Hok eq_refl) as (Hd & Hse & Hu & Hk). eapply wp_mono; [by apply start_handshake_ok|].
  intros result d' [[Hd' Hdr] Hf]. split; [split; [apply base_weak, Hd'|done]|]. intros Hr.
  split; [by apply Hf|]. exists d. split; [|done]. unfold driver_of. by rewrite Hse, Hu.
Qed.

Lemma thread_base d ws : base_ok d → thread_step (worker d) ws → base_ok (d <| worker := ws |>).
Proof.
  intros Hd Ht. open_base Hd. keep_base. destruct Hwo as [[fd Hw] Hr].
  destruct (thread_step_keeps _ _ Ht) as (_ & _ & Hk). split; [|cbn; congruence].
  exists fd. by eapply thread_step_inv.
Qed.

Lemma thread_not_exited ws ws' : thread_step ws ws' → ws_thread ws ≠ Exited.
Proof. intros [-> |?? -> |????? -> |? -> |?? ->]; done. Qed.

Lemma thread_weak d ws : weak_ok d → thread_step (worker d) ws → weak_ok (d <| worker := ws |>).
Proof.
  intros (Hc & Hi & Ha) Ht. split; [done|]. split; [done|].
  destruct Ha as [(Hr & fd & Hw)|([_ Hx] & _)]; [|by destruct (thread_not_exited _ _ Ht)].
  destruct (thread_step_keeps _ _ Ht) as (_ & _ & Hk). left. split; [cbn; congruence|].
  exists fd. by eapply thread_step_inv.
Qed.

(** The thread adds to the log and does not look at it. *)
Lemma thread_step_log s s' :
  thread_step s s' →
  ∃ events, ws_log s' = ws_log s ++ events ∧
    ∀ l, thread_step (s <| ws_log := l |>) (s' <| ws_log := l ++ events |>).
Proof.
  destruct s. destruct 1 as [Ht|w pc Ht E|id path env result log Ht He E|result Ht|script c Ht E].
  - exists []. rewrite app_nil_r. split; [done|]. intros l. rewrite app_nil_r.
    exact (thread_spurious_wakeup (mk_worker_system _ _ _ _ l _ _ _) Ht).
  - exists []. rewrite app_nil_r. split; [done|]. intros l. rewrite app_nil_r.
    exact (thread_fetch (mk_worker_system _ _ _ _ l _ _ _) w pc Ht E).
  - exists log. split; [done|]. intros l. exact (thread_validate (mk_worker_system _ _ _ _ l _ _ _) id path env result log Ht He E).
  - exists []. rewrite app_nil_r. split; [done|]. intros l. rewrite app_nil_r.
    exact (thread_publish (mk_worker_system _ _ _ _ l _ _ _) result Ht).
  - exists []. rewrite app_nil_r. split; [done|]. intros l. rewrite app_nil_r.
    exact (thread_notify (mk_worker_system _ _ _ _ l _ _ _) script c Ht E).
Qed.

Lemma thread_phase phase d ws :
  phase_ok (phase, d) → thread_step (worker d) ws → phase_ok (phase, d <| worker := ws |>).
Proof.
  intros H Ht. destruct phase as [result|events result|joining again result|again result]; cbn in H |- *.
  - destruct H as [Hw Hd]. split; [by apply thread_weak|]. intros Hr. destruct (Hd Hr) as [Hb Hl].
    split; [by apply thread_base|done].
  - destruct H as [[Hb Hl] He]. split; [|done]. split; [by apply thread_base|done].
  - destruct H as (l1 & l2 & El & Hi & H). destruct joining; [|destruct (thread_not_exited _ _ Ht); apply H].
    destruct H as (Hr & fd & Hw). destruct (thread_step_keeps _ _ Ht) as (_ & _ & Hk).
    destruct (thread_step_log _ _ Ht) as (events & Ev & Hl). exists l1, (l2 ++ events).
    cbn. rewrite Ev, El, <- !(assoc_L (++)). split; [done|]. split; [done|]. split; [cbn in *; congruence|].
    exists fd. cbn. rewrite (assoc_L (++)). exact (thread_step_inv _ _ _ _ Hw (Hl (l1 ++ l2))).
  - destruct H as (l1 & l2 & _ & Hx & _). by destruct (thread_not_exited _ _ Ht).
Qed.

Lemma wp_elim {A} (m : M A) d Q a d' : wp m d Q → m d = Some (a, d') → Q a d'.
Proof. intros (a' & d'' & E & H) E'. rewrite E in E'. by simplify_eq. Qed.

Lemma phase_step s s' : phase_ok s → daemon_step s s' → phase_ok s'.
Proof.
  intros H Hstep. destruct Hstep as [d outcome Hrun Hev|e events d result d' E|events result d _|
    result d script again joining d' _ Hc E|joining again result d d' Hx E|phase d ws Ht].
  - destruct H as [Hw Hd]. specialize (Hd eq_refl).
    destruct outcome as [[]|events]; cbn; try (by split). split; [done|by apply Hev].
  - destruct H as [Hd [He Hes]%Forall_cons]. split; [|done].
    eapply (wp_elim (handle_event e) d (λ _ d', daemon_ok d')); [|exact E].
    eapply wp_mono; [by apply handle_event_ok|]. by intros ?? [].
  - destruct H as [Hd _]. split; [apply base_weak, Hd|done].
  - destruct H as [Hw _]. exact (wp_elim _ _ _ _ _ (cleanup_stop_ok script again d Hw Hc) E).
  - exact (wp_elim _ _ _ _ _ (cleanup_finish_ok joining again d H Hx) E).
  - by apply thread_phase.
Qed.

Lemma reachable_ok config env k s :
  setup_ok config env k → daemon_reachable config env k s → phase_ok s.
Proof.
  intros Hs. induction 1 as [unset result d E|s s' _ IH Hstep]; [|by eapply phase_step].
  exact (proj1 (wp_elim _ _ _ _ _ (boot_ok config env k unset Hs) E)).
Qed.

(** ** Properties *)

(** C3: the daemon never gets stuck.  Whatever the system calls report and
    whatever bytes arrive on the line and the sockets, setting up, every event
    handler and both halves of the clean-up return: no read or write outside
    an array, no NULL dereference, no endless loop (unless a call is interrupted
    forever, or bytes or connections keep coming within one event). *)
Theorem daemon_never_stuck config env k :
  setup_ok config env k →
  (∀ unset, is_Some (daemon_boot config env unset (blank_context config k))) ∧
  (∀ e events d, daemon_reachable config env k (Handling (e :: events) DEVMGR_OK, d) →
     is_Some (handle_event e d)) ∧
  (∀ result script d, daemon_reachable config env k (Looping result, d) →
     is_Some (interruptions script) → is_Some (cleanup_stop script d)) ∧
  (∀ joining again result d, daemon_reachable config env k (Stopping joining again result, d) →
     (joining = true → ws_thread (worker d) = Exited) → is_Some (cleanup_finish joining d)).
Proof.
  intros Hs. split_and!.
  - intros unset. destruct (boot_ok config env k unset Hs) as (r & d & E & _). eauto.
  - intros e events d [Hd [He _]%Forall_cons]%reachable_ok; [|done].
    destruct (handle_event_ok e d Hd He) as (r & d' & E & _). eauto.
  - intros result script d [Hw _]%reachable_ok [n Hn]; [|done].
    assert (∃ again, reclosed (transport d) script = Some again) as [again Hc]
      by (unfold reclosed; rewrite Hn; destruct (0 <=? _); by eexists).
    destruct (cleanup_stop_ok script again d Hw Hc) as (r & d' & E & _). eauto.
  - intros joining again result d H%reachable_ok Hx; [|done].
    destruct (cleanup_finish_ok joining again d H Hx) as (r & d' & E & _). eauto.
Qed.

(** What the worker owns while it is initialised. *)
Definition worker_resources (ws : worker_system) : list resource :=
  if initialized (ws_worker ws)
  then own_resources (event_fd (ws_worker ws)) ++ thread_resources (ws_thread ws) ++ mailbox_resources (ws_worker ws)
  else [].

(** What the process should hold: the descriptors in the context, the image and
    what the worker has; from the clean-up on the image and the worker's; at
    the end nothing. *)
Definition owned (phase : daemon_phase) (d : daemon) : list resource :=
  match phase with
  | Looping _ | Handling _ _ => worker_resources (worker d) ++ daemon_resources d
  | Stopping _ _ _ => worker_resources (worker d) ++ image_resources (firmware d)
  | Stopped _ _ => []
  end.

Definition repeated (phase : daemon_phase) : list resource :=
  match phase with Stopping _ again _ | Stopped again _ => again | _ => [] end.

Lemma inv_worker_resources fd rest ws :
  worker_inv fd rest ws → ws_reactor ws ≠ Destroyed → holds (ws_log ws) (worker_resources ws ++ rest).
Proof.
  intros H Hd. destruct (inv_alive _ _ _ H Hd) as [Hi He]. pose proof (inv_resources _ _ _ H) as Hr.
  rewrite decide_False in Hr by done. unfold worker_resources. by rewrite Hi, He.
Qed.

Lemma accounted_holds ws rest : accounted ws rest → holds (ws_log ws) (worker_resources ws ++ rest).
Proof.
  intros [(Hr & fd & Hw)|(_ & Hi & Hh)]; [eapply inv_worker_resources; [done|by rewrite Hr]|].
  unfold worker_resources. by rewrite Hi.
Qed.

Lemma phase_owned phase d :
  phase_ok (phase, d) →
  ∃ l1 l2, ws_log (worker d) = l1 ++ map Released (repeated phase) ++ l2 ∧ holds (l1 ++ l2) (owned phase d).
Proof.
  destruct phase as [result|events result|joining again result|again result]; cbn.
  - intros [(_ & _ & Ha) _]. exists (ws_log (worker d)), []. rewrite !app_nil_r. split; [done|].
    by apply accounted_holds.
  - intros [[Hb _] _]. destruct (base_weak d Hb) as (_ & _ & Ha). exists (ws_log (worker d)), [].
    rewrite !app_nil_r. split; [done|]. by apply accounted_holds.
  - intros (l1 & l2 & El & _ & H). exists l1, l2. split; [done|]. destruct joining.
    + destruct H as (Hr & fd & Hw). apply (inv_worker_resources fd) in Hw; [done|]. by rewrite Hr.
    + destruct H as (Hi & _ & Hh). unfold worker_resources. cbn in Hi. by rewrite Hi.
  - intros (l1 & l2 & El & _ & Hh & _). by exists l1, l2.
Qed.

(** C5: the daemon accounts for all it holds and leaks nothing.  At every moment
    of every run the log of acquisitions and releases, without the repeated
    closes of the line, replays without a release of something not held, and
    what is then held is exactly what the context and the worker account for:
    the descriptors of the clients, the listener, epoll, timer, signals and the
    line, the firmware image, the worker's eventfd, mutex and condition and the
    image on its way from the worker.  When devmgr_daemon_run returns, after
    success or any failure, all of it has been released.  The only thing ever
    closed twice is the descriptor of the line, once more for every time its
    close was interrupted; if it was not, nothing is. *)
Theorem daemon_no_leak config env k phase d :
  setup_ok config env k → daemon_reachable config env k (phase, d) →
  (∃ l1 l2, ws_log (worker d) = l1 ++ map Released (repeated phase) ++ l2 ∧
     holds (l1 ++ l2) (owned phase d)) ∧
  (repeated phase = [] → holds (ws_log (worker d)) (owned phase d)) ∧
  (∀ result, phase = Stopped [] result → held (ws_log (worker d)) [] = Some []).
Proof.
  intros Hs Hr%reachable_ok; [|done]. apply phase_owned in Hr.
  assert (repeated phase = [] → holds (ws_log (worker d)) (owned phase d)) as Hn.
  { intros E. destruct Hr as (l1 & l2 & El & Hh). by rewrite El, E. }
  split; [done|]. split; [done|]. intros result ->.
  destruct (Hn eq_refl) as (rs & -> & Hp). by apply Permutation_nil_r in Hp as ->.
Qed.

(** C9: what goes out on the line.  In the loop the bytes written so far and the
    rest of the output buffer are the encodings of the frames that were queued,
    whole, in order and without anything in between. *)
Theorem daemon_line config env k events result d :
  setup_ok config env k → daemon_reachable config env k (Handling events result, d) →
  concat (map encode_wire (k_frames (kern d))) =
    k_line (kern d) ++ slice (transport_output d) (transport_output_offset d)
                         (transport_output_size d - transport_output_offset d).
Proof. intros Hs [[(_ & _ & Hou & _) _] _]%reachable_ok; [|done]. apply Hou. Qed.

(** C10: while an upgrade talks to the device its image stays mapped.  Between two
    events an upgrade is running exactly when the session is UPGRADING; then the
    image it reads is the one the worker validated, open and with its CRC, and
    otherwise no image is open. *)
Theorem daemon_image_mapped config env k events result d :
  setup_ok config env k → daemon_reachable config env k (Handling events result, d) →
  (session_state (session d) = DEVMGR_DEVICE_UPGRADING ↔ upgrade_running (upgrade d) = true) ∧
  if upgrade_running (upgrade d) then
    ∃ bytes version, image_data (firmware d) = Some bytes ∧ upgrade_ok bytes version (upgrade d) ∧
      image_crc (upgrade d) = crc_of bytes ∧ image_ok (firmware d)
  else firmware d = no_image.
Proof.
  intros Hs [[Hb Hl] _]%reachable_ok; [|done]. assert (image_ok (firmware d)) as Hi by apply Hb.
  unfold linked in Hl. destruct (upgrade_running (upgrade d)); [|naive_solver].
  destruct Hl as (Hst & bytes & version & Hu & Hf & Hc). split; [done|]. by exists bytes, version.
Qed.

(** The phases of the event loop. *)
Definition in_loop (phase : daemon_phase) : bool :=
  match phase with Looping _ | Handling _ _ => true | _ => false end.

Lemma loop_drives phase d phase' d' :
  phase_ok (phase, d) → daemon_step (phase, d) (phase', d') → in_loop phase' = true → drives d d'.
Proof.
  intros Hd Hstep Hin.
  inversion Hstep as [d0 o|e es d0 r d1 E|es r d0 _|r d0 sc ag j d1 _ _ E|j ag r d0 d1 _ E|p d0 ws Ht]; simplify_eq; try done.
  - destruct Hd as [Hd [He _]%Forall_cons]. exact (proj2 (wp_elim _ _ _ _ _ (handle_event_ok e d Hd He) E)).
  - exists [], []. cbn. rewrite !app_nil_r. split; [constructor|done].
Qed.

(** C4: the daemon is a driver.  Every step of the loop, of any handler or of the
    worker's thread, is a run of [driver_step] on the pending request, the next
    sequence number and the upgrade.  The frames that run emits are the frames
    queued for the line, the requests it begins those the session began, and the
    answers it takes are among the frames the parser delivered, in their order. *)
Theorem daemon_refines_driver config env k phase d phase' d' :
  setup_ok config env k → daemon_reachable config env k (phase, d) →
  daemon_step (phase, d) (phase', d') → in_loop phase' = true →
  ∃ ls fs, driver_run (driver_of d) ls (driver_of d') ∧
    k_frames (kern d') = k_frames (kern d) ++ omap emits ls ∧
    map strip (k_requests (kern d')) = map strip (k_requests (kern d)) ++ omap begins ls ∧
    k_heard (kern d') = k_heard (kern d) ++ fs ∧ omap receives ls `sublist_of` fs.
Proof. intros Hs Hr%reachable_ok Hstep Hin; [|done]. by eapply loop_drives. Qed.

(** ** A session played from start to end *)

(** What happens next: an event, or a step of the worker's thread, with what
    the file system shows it. *)
Inductive act := Event (e : epoll_event) | Thread (env : firmware_env).

Fixpoint play (acts : list act) (d : daemon) : option (Z * daemon) :=
  match acts with
  | [] => Some (DEVMGR_OK, d)
  | Event e :: acts =>
      guard (running d = true);;
      '(result, d) ← handle_event e d;
      if result =? DEVMGR_OK then play acts d
      else match acts with [] => Some (result, d) | _ => None end
  | Thread env :: acts => ws ← thread_run env (worker d); play acts (d <| worker := ws |>)
  end.

Definition act_ok (a : act) : Prop :=
  match a with Event e => event_ok e | Thread env => firmware_env_ok env end.

(** A play is a run: every event comes alone. *)
Lemma play_reachable config env k acts d result d' :
  daemon_reachable config env k (Looping DEVMGR_OK, d) → Forall act_ok acts →
  play acts d = Some (result, d') → daemon_reachable config env k (Looping result, d').
Proof.
  revert d. induction acts as [|a acts IH]; intros d Hd Hok E; [by simplify_eq/=|].
  apply Forall_cons in Hok as [Ha Hok]. destruct a as [e|fenv]; cbn [play] in E.
  - case_guard as Hrun; [|done]. cbn in E. destruct (handle_event e d) as [[r d1]|] eqn:Ee; [|done]. cbn in E.
    assert (daemon_reachable config env k (Looping r, d1)) as H1.
    { eapply daemon_stepped; [eapply daemon_stepped; [eapply daemon_stepped; [exact Hd|]|]|].
      - apply (daemon_wait d (Ready [e])); [done|]. intros events [= <-]. by constructor.
      - by apply daemon_event.
      - apply daemon_batch_done. by left. }
    destruct (Z.eqb_spec r DEVMGR_OK) as [->|]; [by eapply IH|]. destruct acts; by simplify_eq.
  - destruct (thread_run fenv (worker d)) as [ws|] eqn:Et; [|done]. cbn in E.
    apply (IH (d <| worker := ws |>)); [|done|done].
    eapply daemon_stepped; [exact Hd|]. apply daemon_thread. by eapply thread_run_step.
Qed.

Definition sample_config : devmgr_daemon_config := mk_daemon_config (Some [100; 0]) (Some [115; 0]).

Definition sample_setup : setup_env :=
  mk_setup_env false (mk_init_env false false 4 false)
    (mk_line_env [OpenError EINTR; Opened 5] (Some (mk_termios 0 0 0 0 0 0 0 0)) false false false)
    (mk_listener_env false false (Opened 6) false false false)
    (Opened 7) (Opened 8) (Opened 9) false.

(** A clock that stands still for a while and then jumps ahead. *)
Definition sample_kernel (n : nat) : kernel :=
  mk_kernel (λ i, Some (if (i <? n)%nat then 0 else 100, 0)) (λ _, false) 0 ∅ NoFile [] [] [] [] [].

Lemma sample_setup_ok n : setup_ok sample_config sample_setup (sample_kernel n).
Proof.
  split; [done|]. split.
  { intros path [= <-]. exists [115], []. split; [done|]. by repeat constructor. }
  split; [by repeat constructor|]. split; [by eexists|]. split; [by repeat constructor|done].
Qed.

Definition sample_stack : locals :=
  mk_stack (zeros 64) zero_frame (mk_ipc_request 0 0 (zeros DEVMGR_IPC_MAX_PAYLOAD))
    (mk_validation 0 0 no_image) (mk_locals (zeros 12) (zeros DEVMGR_PROTOCOL_MAX_FRAME) zero_frame).

Lemma sample_stack_ok : stack_ok sample_stack.
Proof. do 9 (split; [done || apply zeros_Forall|]). apply zeros_Forall. Qed.

(** A cue of the play: bytes or a connection at a descriptor, or the worker. *)
Inductive cue := At (fd flags : Z) (accepted : list Z) (bytes : list Z) | Work.

Definition cue_act (c : cue) : act :=
  match c with
  | At fd flags accepted bytes =>
      Event (mk_event fd flags (map Opened accepted ++ [OpenError EAGAIN]) [Read bytes; ReadError EAGAIN]
               [Wrote 5000; WriteError EAGAIN] sample_stack)
  | Work => Thread sample_firmware_env
  end.

Definition cue_ok (c : cue) : bool :=
  match c with
  | At _ _ accepted bytes =>
      forallb (λ fd, 0 <=? fd) accepted && forallb (λ b, (0 <=? b) && (b <? 256)) bytes
  | Work => true
  end.

Lemma cue_act_ok c : cue_ok c = true → act_ok (cue_act c).
Proof.
  destruct c as [fd flags accepted bytes|]; [|intros _; apply sample_firmware_env_ok].
  cbn [cue_ok]. intros [Ha Hb]%andb_true_iff.
  assert (Forall is_u8 bytes) as Hbytes.
  { apply Forall_forall. intros b Hin. rewrite forallb_forall in Hb.
    apply list_elem_of_In, Hb, andb_true_iff in Hin as [?%Z.leb_le ?%Z.ltb_lt]. unfold is_u8. lia. }
  assert (Forall accept_ok (map Opened accepted)) as Hacc.
  { apply Forall_forall. intros o Ho. apply list_elem_of_fmap in Ho as (x & -> & Hin).
    rewrite forallb_forall in Ha. by apply list_elem_of_In, Ha, Z.leb_le in Hin. }
  split; [apply Exists_app; right; by left|].
  split; [apply Forall_app; by split; [|repeat constructor]|].
  split; [right; by left|]. split; [by repeat constructor|].
  split; [right; by left|]. apply sample_stack_ok.
Qed.

(** The device answers request [sequence] with words; what is queued is sent. *)
Definition answered (sequence : Z) (words : list Z) : list cue :=
  [At 5 EPOLLIN [] (encode_wire (mk_wire DEVMGR_MSG_ACK DEVMGR_FRAME_RESPONSE sequence
                                   (concat (map (le_bytes 4) words))))].

Definition sent : list cue := [At 5 EPOLLOUT [] []].

(** Handshake, a client that asks for an upgrade, validation, first request. *)
Definition upgrade_begins : list cue :=
  sent ++ answered 1 [] ++ [At 6 EPOLLIN [10] []] ++
  [At 10 EPOLLIN [] (ipc_message DEVMGR_IPC_UPGRADE [] [102; 0; 49; 0])] ++
  replicate 4 Work ++ [At 4 EPOLLIN [] []] ++ sent.

(** Bootloader, begin, the only chunk, end, verify, activate, reboot. *)
Definition upgrade_goes_on : list cue :=
  answered 2 [] ++ sent ++ answered 3 [7; 0] ++ sent ++ answered 4 [3] ++ sent ++ answered 5 [] ++ sent ++
  answered 6 [crc_of [1; 2; 3]] ++ sent ++ answered 7 [] ++ sent ++ answered 8 [].

Definition play_after (booted : option (Z * daemon)) (cues : list cue) : option (Z * daemon) :=
  '(result, d) ← booted; if result =? DEVMGR_OK then play (map cue_act cues) d else None.

Definition booted (k : kernel) : option (Z * daemon) :=
  daemon_boot sample_config sample_setup zero_frame (blank_context sample_config k).

(** A play whose outcome was computed. *)
Definition comes_to (b : option (Z * daemon)) (cues : list cue) (P : Z → daemon → bool) : bool :=
  forallb cue_ok cues && match play_after b cues with Some (r, d) => P r d | None => false end.

Lemma comes_to_reachable config env k unset b cues P :
  b = daemon_boot config env unset (blank_context config k) → comes_to b cues P = true →
  ∃ result d, P result d = true ∧ daemon_reachable config env k (Looping result, d).
Proof.
  intros Eb [Hok H]%andb_true_iff. unfold play_after in H.
  destruct b as [[r d0]|]; [|done]. cbn in H.
  destruct (Z.eqb_spec r DEVMGR_OK) as [->|]; [|done].
  destruct (play _ d0) as [[r d]|] eqn:Ep; [|done]. exists r, d. split; [done|].
  eapply play_reachable; [exact (daemon_booted _ _ _ _ _ _ (eq_sym Eb))| |exact Ep].
  apply Forall_forall. intros a Ha. apply list_elem_of_fmap in Ha as (c & -> & Hin).
  apply cue_act_ok. rewrite forallb_forall in Hok. by apply Hok, list_elem_of_In.
Qed.

Lemma sample_comes_to k cues P :
  comes_to (booted k) cues P = true →
  ∃ result d, P result d = true ∧ daemon_reachable sample_config sample_setup k (Looping result, d).
Proof. intros H. apply (comes_to_reachable _ _ _ zero_frame (booted k) cues); [|exact H]. by unfold booted. Qed.

(** In the middle of an upgrade, with an event to come. *)
Lemma upgrading_state e :
  event_ok e → ∃ d, daemon_reachable sample_config sample_setup (sample_kernel 1000) (Handling [e] DEVMGR_OK, d) ∧
    upgrade_running (upgrade d) = true ∧ transport_output_size d = 0.
Proof.
  intros He. destruct (sample_comes_to (sample_kernel 1000) upgrade_begins (λ r d, (r =? DEVMGR_OK) && running d &&
    upgrade_running (upgrade d) && (transport_output_size d =? 0))) as (r & d & H & Hr);
    [by vm_compute|].
  rewrite !andb_true_iff in H. destruct H as [[[->%Z.eqb_eq Hrun] Hu] Ho%Z.eqb_eq].
  exists d. split; [|done]. eapply daemon_stepped; [exact Hr|].
  apply (daemon_wait d (Ready [e])); [done|]. intros events [= <-]. by constructor.
Qed.

(** The end of the process, if the thread has only to notice that it should stop. *)
Definition shut_down (d : daemon) : option daemon :=
  '(joining, d) ← cleanup_stop [Closed] d;
  ws ← thread_run sample_firmware_env (worker d);
  '(_, d) ← cleanup_finish joining (d <| worker := ws |>);
  match ws_thread ws with Exited => Some d | _ => None end.

Lemma shut_down_reachable config env k result d d' :
  daemon_reachable config env k (Looping result, d) → result ≠ DEVMGR_OK ∨ running d = false →
  shut_down d = Some d' → daemon_reachable config env k (Stopped [] result, d').
Proof.
  intros Hd Hr E. unfold shut_down in E.
  destruct (cleanup_stop [Closed] d) as [[joining d1]|] eqn:E1; [|done]. cbn [mbind option_bind] in E.
  destruct (thread_run sample_firmware_env (worker d1)) as [ws|] eqn:E2; [|done]. cbn [mbind option_bind] in E.
  destruct (cleanup_finish joining _) as [[[] d2]|] eqn:E3; [|done]. cbn [mbind option_bind] in E.
  destruct (ws_thread ws) eqn:Hx; try done. simplify_eq.
  eapply daemon_stepped; [eapply daemon_stepped; [eapply daemon_stepped; [exact Hd|]|]|].
  - eapply (daemon_leave result d [Closed] []); [exact Hr| |exact E1]. unfold reclosed. by destruct (0 <=? _).
  - eapply daemon_thread, thread_run_step; [apply sample_firmware_env_ok|exact E2].
  - by apply daemon_finish.
Qed.

Lemma sample_stops k cues (P : Z → daemon → bool) :
  comes_to (booted k) cues (λ r d, (negb (r =? DEVMGR_OK) || negb (running d)) &&
    match shut_down d with Some d => P r d | None => false end) = true →
  ∃ result d, P result d = true ∧ daemon_reachable sample_config sample_setup k (Stopped [] result, d).
Proof.
  intros (r & d & H & Hr)%sample_comes_to. apply andb_true_iff in H as [Hend H].
  destruct (shut_down d) as [d'|] eqn:E; [|done]. exists r, d'. split; [done|].
  eapply shut_down_reachable; [done| |done].
  destruct (Z.eqb_spec r DEVMGR_OK); [right|by left]. by destruct (running d).
Qed.

(** ** Witnesses *)

(** A whole upgrade, then a signal. *)
Lemma daemon_no_leak_witness :
  ∃ result d, (upgrade_state (upgrade d) = DEVMGR_UPGRADE_COMPLETE ∧ result = DEVMGR_OK) ∧
    held (ws_log (worker d)) [] = Some [].
Proof.
  destruct (sample_stops (sample_kernel 1000) (upgrade_begins ++ upgrade_goes_on ++ [At 9 EPOLLIN [] []])
    (λ r d, bool_decide (upgrade_state (upgrade d) = DEVMGR_UPGRADE_COMPLETE ∧ r = DEVMGR_OK)))
    as (r & d & H & Hr); [by vm_compute|].
  exists r, d. split; [exact (bool_decide_eq_true_1 _ H)|].
  exact (proj2 (proj2 (daemon_no_leak _ _ _ _ d (sample_setup_ok 1000) Hr)) r eq_refl).
Defined.

Definition sample_event : epoll_event :=
  mk_event 8 EPOLLIN [OpenError EAGAIN] [ReadError EAGAIN] [WriteError EAGAIN] sample_stack.

Lemma sample_event_ok : event_ok sample_event.
Proof. do 5 (split; [first [by left | by repeat constructor]|]). apply sample_stack_ok. Qed.

(** An event in the middle of an upgrade, and a clean-up whose close is interrupted. *)
Lemma daemon_never_stuck_witness :
  is_Some (daemon_boot sample_config sample_setup zero_frame (blank_context sample_config (sample_kernel 1000))) ∧
  (∃ d, upgrade_running (upgrade d) = true ∧ is_Some (handle_event sample_event d)) ∧
  (∃ d, upgrade_running (upgrade d) = true ∧ is_Some (cleanup_stop [CloseError EINTR; Closed] d)).
Proof.
  destruct (daemon_never_stuck sample_config sample_setup (sample_kernel 1000) (sample_setup_ok 1000))
    as (Hboot & Hevent & Hstop & _).
  split; [apply Hboot|]. split.
  - destruct (upgrading_state sample_event sample_event_ok) as (d & Hr & Hu & _). exists d. split; [done|].
    exact (Hevent _ _ d Hr).
  - destruct (sample_comes_to (sample_kernel 1000) upgrade_begins (λ _ d, upgrade_running (upgrade d)))
      as (r & d & Hu & Hr); [by vm_compute|]. exists d. split; [done|]. apply (Hstop r _ d Hr). by eexists.
Defined.

Lemma daemon_line_witness :
  ∃ d, transport_output_size d = 0 ∧
    concat (map encode_wire (k_frames (kern d))) = k_line (kern d) ++
      slice (transport_output d) (transport_output_offset d) (transport_output_size d - transport_output_offset d).
Proof.
  destruct (upgrading_state sample_event sample_event_ok) as (d & Hr & _ & Ho). exists d. split; [done|].
  exact (daemon_line _ _ _ _ _ d (sample_setup_ok 1000) Hr).
Defined.

Lemma daemon_image_mapped_witness :
  ∃ d, upgrade_running (upgrade d) = true ∧ session_state (session d) = DEVMGR_DEVICE_UPGRADING.
Proof.
  destruct (upgrading_state sample_event sample_event_ok) as (d & Hr & Hu & _). exists d. split; [done|].
  by apply (daemon_image_mapped _ _ _ _ _ d (sample_setup_ok 1000) Hr).
Defined.

Lemma daemon_refines_driver_witness :
  ∃ d d' ls fs, upgrade_running (upgrade d) = true ∧ driver_run (driver_of d) ls (driver_of d') ∧
    k_frames (kern d') = k_frames (kern d) ++ omap emits ls ∧
    map strip (k_requests (kern d')) = map strip (k_requests (kern d)) ++ omap begins ls ∧
    k_heard (kern d') = k_heard (kern d) ++ fs ∧ omap receives ls `sublist_of` fs.
Proof.
  destruct (upgrading_state sample_event sample_event_ok) as (d & Hr & Hu & _).
  destruct (reachable_ok _ _ _ _ (sample_setup_ok 1000) Hr) as [Hd _].
  destruct (handle_event_ok sample_event d Hd sample_event_ok) as (r & d' & E & _).
  destruct (daemon_refines_driver _ _ _ _ d _ d' (sample_setup_ok 1000) Hr (daemon_event _ _ _ _ _ E) eq_refl)
    as (ls & fs & H). by exists d, d', ls, fs.
Defined.

(** ** What can go wrong *)

(** An answer that arrives while a repetition of its request is still in the
    output buffer ends the daemon in the middle of an upgrade: the next
    request finds the buffer busy, and the error leaves the loop. *)
Theorem daemon_late_answer_fatal :
  ∃ d, daemon_reachable sample_config sample_setup (sample_kernel 13) (Looping DEVMGR_ERROR_BUSY, d) ∧
    upgrade_running (upgrade d) = true ∧ upgrade_result d = DEVMGR_OK.
Proof.
  destruct (sample_comes_to (sample_kernel 13) (upgrade_begins ++ [At 8 EPOLLIN [] []] ++ answered 2 [])
    (λ r d, (r =? DEVMGR_ERROR_BUSY) && upgrade_running (upgrade d) && (upgrade_result d =? DEVMGR_OK)))
    as (r & d & H & Hr); [by vm_compute|].
  rewrite !andb_true_iff in H. destruct H as [[->%Z.eqb_eq Hu] Hres%Z.eqb_eq]. by exists d.
Qed.

(** A clock that advances ten seconds with every call. *)
Definition ticking_kernel (path : path_kind) : kernel :=
  mk_kernel (λ i, Some (Z.of_nat i * 10, 0)) (λ _, false) 0 ∅ path [] [] [] [] [].

(** A client sends a request and hangs up; the device does not answer.  When the
    repetitions are used up no client is there to be told, and the timeout
    ends the daemon. *)
Theorem daemon_abandoned_request_fatal :
  ∃ d, daemon_reachable sample_config sample_setup (ticking_kernel NoFile) (Looping DEVMGR_ERROR_TIMEOUT, d) ∧
    session_state (session d) = DEVMGR_DEVICE_READY.
Proof.
  destruct (sample_comes_to (ticking_kernel NoFile)
    (sent ++ answered 1 [] ++ [At 6 EPOLLIN [10] []; At 10 EPOLLIN [] (ipc_message DEVMGR_MSG_PING [] [])] ++
     sent ++ [At 10 EPOLLIN [] []; At 8 EPOLLIN [] []] ++ sent ++ [At 8 EPOLLIN [] []] ++ sent ++
     [At 8 EPOLLIN [] []])
    (λ r d, (r =? DEVMGR_ERROR_TIMEOUT) && bool_decide (session_state (session d) = DEVMGR_DEVICE_READY)))
    as (r & d & H & Hr); [by vm_compute|].
  rewrite !andb_true_iff in H. destruct H as [->%Z.eqb_eq Hs]. exists d. split; [done|].
  exact (bool_decide_eq_true_1 _ Hs).
Qed.

Lemma failed_start_stops config env k unset b (P : Z → daemon → bool) :
  b = daemon_boot config env unset (blank_context config k) →
  (match b with
   | Some (r, d) => negb (r =? DEVMGR_OK) && match shut_down d with Some d => P r d | None => false end
   | None => false
   end) = true →
  ∃ result d, daemon_reachable config env k (Stopped [] result, d) ∧ result ≠ DEVMGR_OK ∧ P result d = true.
Proof.
  intros Eb H. destruct b as [[r d]|]; [|done]. apply andb_true_iff in H as [Hr H].
  destruct (shut_down d) as [d'|] eqn:E; [|done]. destruct (Z.eqb_spec r DEVMGR_OK) as [|Hn]; [done|].
  exists r, d'. split; [|done]. eapply shut_down_reachable; [|by left|exact E].
  exact (daemon_booted _ _ _ _ _ _ (eq_sym Eb)).
Qed.

(** A file at the socket's path that is not a socket makes setting up fail, and
    then the clean-up removes it. *)
Theorem daemon_removes_foreign_file :
  ∃ result d, daemon_reachable sample_config sample_setup (ticking_kernel OtherFile) (Stopped [] result, d) ∧
    result ≠ DEVMGR_OK ∧ k_path (kern d) = NoFile.
Proof.
  destruct (failed_start_stops sample_config sample_setup (ticking_kernel OtherFile) zero_frame
    (booted (ticking_kernel OtherFile)) (λ _ d, bool_decide (k_path (kern d) = NoFile)))
    as (r & d & Hr & Hn & H); [by unfold booted|by vm_compute|].
  exists r, d. split; [done|]. split; [done|]. exact (bool_decide_eq_true_1 _ H).
Qed.
