(* ===== verification/Devctl.v ===== *)
(** * The command-line client: apps/devctl/main.c

    One request over the daemon's socket, the report of its response and, for an
    upgrade, the polls until it ends.  What printf would write is a [report] that
    carries the arguments of the call; the socket is a script of outcomes, and
    [ex_buffer] and [ex_response] are the uninitialised locals of one exchange. *)

From S2P Require Import Prelude Frame Ipc Upgrade Os Cli Daemon.

(** ** One exchange with the daemon *)

Record exchange_env := mk_exchange_env {
  ex_socket : open_outcome;
  ex_receive_timeout_fails : bool;
  ex_send_timeout_fails : bool;
  ex_connect_fails : bool;
  ex_writes : list write_outcome;
  ex_reads : list read_outcome;
  ex_buffer : list Z;
  ex_response : devmgr_ipc_response;
}.

(** [sent] collects the bytes the kernel has taken. *)
Fixpoint write_all (script : list write_outcome) (data : list Z) (length offset : Z) (sent : list Z)
    : option (Z * list Z) :=
  if offset <? length then
    match script with
    | [] => None
    | Wrote n :: script =>
        let count := taken n (length - offset) in
        if 0 <? count then
          bytes ← mem_read data offset count;
          write_all script data length (offset + count) (sent ++ bytes)
        else Some (DEVMGR_ERROR_IO, sent)
    | WriteError EINTR :: script => write_all script data length offset sent
    | WriteError _ :: _ => Some (DEVMGR_ERROR_IO, sent)
    end
  else Some (DEVMGR_OK, sent).

(** Into [data + base]; the results are the status, the array and the rest of the
    script. *)
Fixpoint read_all (script : list read_outcome) (data : list Z) (base length offset : Z)
    : option (Z * list Z * list read_outcome) :=
  if offset <? length then
    match script with
    | [] => None
    | Read bytes :: script =>
        let bytes := delivered bytes (length - offset) in
        if 0 <? len bytes then
          data ← mem_write data (base + offset) bytes;
          read_all script data base length (offset + len bytes)
        else Some (DEVMGR_ERROR_DISCONNECTED, data, script)
    | ReadError EINTR :: script => read_all script data base length offset
    | ReadError _ :: script => Some (DEVMGR_ERROR_IO, data, script)
    end
  else Some (DEVMGR_OK, data, script).

(** The descriptor, or -1, and what was opened and closed. *)
Definition connect_socket (path : list Z) (env : exchange_env) : option (Z * list os_event) :=
  length ← strlen path 0;
  if (length =? 0) || (SUN_PATH_SIZE <=? length) then Some (-1, [])
  else
  match ex_socket env with
  | OpenError _ => Some (-1, [])
  | Opened fd =>
      if ex_receive_timeout_fails env || ex_send_timeout_fails env then
        Some (-1, [Acquired (Fd fd); Released (Fd fd)])
      else
      address ← memcpy (zeros SUN_PATH_SIZE) 0 path 0 (length + 1);
      if ex_connect_fails env then Some (-1, [Acquired (Fd fd); Released (Fd fd)])
      else Some (fd, [Acquired (Fd fd)])
  end.

(** The part of [exchange] that reads the response. *)
Definition receive_response (script : list read_outcome) (buffer : list Z)
    (response : devmgr_ipc_response) : option (Z * devmgr_ipc_response) :=
  '(result, buffer, script) ← read_all script buffer 0 DEVMGR_IPC_RESPONSE_HEADER_SIZE 0;
  if negb (result =? DEVMGR_OK) then Some (result, response)
  else
  payload_length ← devmgr_get_le32 buffer 8;
  if DEVMGR_IPC_MAX_PAYLOAD <? payload_length then Some (DEVMGR_ERROR_LIMIT, response)
  else
  '(result, buffer, _) ← read_all script buffer DEVMGR_IPC_RESPONSE_HEADER_SIZE payload_length 0;
  if negb (result =? DEVMGR_OK) then Some (result, response)
  else devmgr_ipc_decode_response buffer (DEVMGR_IPC_RESPONSE_HEADER_SIZE + payload_length) response.

(** The payload of the request, zero where it is not copied. *)
Definition payload_copy (payload : option (list Z)) (payload_length : Z) : option (list Z) :=
  if payload_length =? 0 then Some (zeros DEVMGR_IPC_MAX_PAYLOAD)
  else memcpy (zeros DEVMGR_IPC_MAX_PAYLOAD) 0 (default [] payload) 0 payload_length.

(** The status, the response, the bytes sent and the descriptors. *)
Definition exchange (path : list Z) (command : Z) (payload : option (list Z)) (payload_length : Z)
    (env : exchange_env) : option (Z * devmgr_ipc_response * list Z * list os_event) :=
  let response := ex_response env in
  if (DEVMGR_IPC_MAX_PAYLOAD <? payload_length) ||
     (bool_decide (payload = None) && negb (payload_length =? 0)) then
    Some (DEVMGR_ERROR_INVALID, response, [], [])
  else
  bytes ← payload_copy payload payload_length;
  '(fd, log) ← connect_socket path env;
  if fd <? 0 then Some (DEVMGR_ERROR_IO, response, [], log)
  else
  let request := mk_ipc_request command payload_length bytes in
  '(result, buffer, length) ← devmgr_ipc_encode_request request (ex_buffer env)
     (DEVMGR_IPC_RESPONSE_HEADER_SIZE + DEVMGR_IPC_MAX_PAYLOAD) 0;
  '(result, sent) ← (if result =? DEVMGR_OK then write_all (ex_writes env) buffer length 0 []
                     else Some (result, []));
  '(result, response) ← (if result =? DEVMGR_OK then receive_response (ex_reads env) buffer response
                         else Some (result, response));
  Some (result, response, sent, log ++ [Released (Fd fd)]).

(** ** Reports *)

Inductive report :=
  | CommandFailed (reason : string)
  | RoundTrip (elapsed_ns : Z)
  | DeviceInfo (id : Z) (model hardware firmware bootloader serial : list Z)
  | MalformedInfo
  | Health (millicelsius millivolt flags : Z)
  | Stats (rx tx errors : Z)
  | TelemetryStarted (ms : Z)
  | TelemetryStopped
  | Telemetry (millicelsius millivolt uptime sample : Z)
  | UpgradeOperation (id : Z)
  | UpgradeStatus (id : Z) (state result : string) (offset total : Z)
  | StatusFailed (reason : string)
  | Progress (state : string) (percent offset total : Z)
  | UpgradeDone
  | UpgradeFailed (reason : string)
  | Usage
  | BadInterval
  | NoFirmware
  | TooLong
  | BadOperation
  | IpcFailed (reason : string).

(** The string at [*offset], as a position in [payload], and the new offset. *)
Definition next_string (payload : list Z) (length offset : Z) : option (option Z * Z) :=
  if length <=? offset then Some (None, offset)
  else
  found ← memchr0 payload offset (length - offset);
  match found with
  | None => Some (None, offset)
  | Some n => Some (Some offset, offset + n + 1)
  end.

Definition upgrade_states : list devmgr_upgrade_state :=
  [DEVMGR_UPGRADE_IDLE; DEVMGR_UPGRADE_VALIDATING; DEVMGR_UPGRADE_ENTER_BOOTLOADER; DEVMGR_UPGRADE_BEGIN;
   DEVMGR_UPGRADE_TRANSFER; DEVMGR_UPGRADE_RECOVER; DEVMGR_UPGRADE_END; DEVMGR_UPGRADE_VERIFY;
   DEVMGR_UPGRADE_ACTIVATE; DEVMGR_UPGRADE_REBOOT; DEVMGR_UPGRADE_COMPLETE; DEVMGR_UPGRADE_ERROR].

(** [devmgr_upgrade_state_string] on a byte that need not be a state. *)
Definition state_string (code : Z) : string :=
  match List.find (λ st, upgrade_state_code st =? code) upgrade_states with
  | Some st => devmgr_upgrade_state_string st
  | None => "UNKNOWN"%string
  end.

(** The five strings of a device's description. *)
Definition info_report (payload : list Z) (length : Z) : option report :=
  id ← devmgr_get_le32 payload 0;
  '(model, offset) ← next_string payload length 4;
  '(hardware, offset) ← next_string payload length offset;
  '(firmware, offset) ← next_string payload length offset;
  '(bootloader, offset) ← next_string payload length offset;
  '(serial, _) ← next_string payload length offset;
  match model, hardware, firmware, bootloader, serial with
  | Some model, Some hardware, Some firmware, Some bootloader, Some serial =>
      model ← c_string payload model;
      hardware ← c_string payload hardware;
      firmware ← c_string payload firmware;
      bootloader ← c_string payload bootloader;
      serial ← c_string payload serial;
      Some (DeviceInfo id model hardware firmware bootloader serial)
  | _, _, _, _, _ => Some MalformedInfo
  end.

Definition print_response (command : Z) (response : devmgr_ipc_response) (elapsed_ns : Z)
    : option (list report) :=
  let payload := response_payload response in
  let length := response_payload_length response in
  if negb (response_status response =? DEVMGR_OK) then
    Some [CommandFailed (devmgr_status_string (response_status response))]
  else if command =? DEVMGR_MSG_PING then Some [RoundTrip elapsed_ns]
  else if (command =? DEVMGR_MSG_GET_INFO) && (4 <=? length) then
    r ← info_report payload length; Some [r]
  else if (command =? DEVMGR_MSG_GET_HEALTH) && (length =? 12) then
    t ← devmgr_get_le32 payload 0; v ← devmgr_get_le32 payload 4; f ← devmgr_get_le32 payload 8;
    Some [Health (i32 t) v f]
  else if (command =? DEVMGR_MSG_GET_STATS) && (length =? 12) then
    rx ← devmgr_get_le32 payload 0; tx ← devmgr_get_le32 payload 4; e ← devmgr_get_le32 payload 8;
    Some [Stats rx tx e]
  else if (command =? DEVMGR_MSG_START_TELEMETRY) && (length =? 4) then
    ms ← devmgr_get_le32 payload 0; Some [TelemetryStarted ms]
  else if command =? DEVMGR_MSG_STOP_TELEMETRY then Some [TelemetryStopped]
  else if (command =? DEVMGR_IPC_GET_TELEMETRY) && (length =? 16) then
    t ← devmgr_get_le32 payload 0; v ← devmgr_get_le32 payload 4; u ← devmgr_get_le32 payload 8;
    n ← devmgr_get_le32 payload 12;
    Some [Telemetry (i32 t) v u n]
  else if (command =? DEVMGR_IPC_UPGRADE) && (length =? 4) then
    id ← devmgr_get_le32 payload 0; Some [UpgradeOperation id]
  else if (command =? DEVMGR_IPC_UPGRADE_STATUS) && (length =? 20) then
    state ← load payload 4;
    offset ← devmgr_get_le32 payload 12;
    total ← devmgr_get_le32 payload 16;
    id ← devmgr_get_le32 payload 0;
    result ← devmgr_get_le32 payload 8;
    Some [UpgradeStatus id (state_string state) (devmgr_status_string (i32 result)) offset total]
  else Some [].

(** ** Waiting for an upgrade *)

Definition percentage (offset total : Z) : Z := if total =? 0 then 0 else u32 (offset * 100 / total).

(** The loop of [wait_for_upgrade], one element of [polls] per turn: the exit
    status, or [None] if after these polls it goes on, what was printed, and the
    descriptors.  The pause between two polls only takes time. *)
Fixpoint wait_loop (polls : list exchange_env) (path operation_payload : list Z)
    (operation_id previous_state previous_offset : Z)
    : option (option Z * list report * list os_event) :=
  match polls with
  | [] => Some (None, [], [])
  | env :: polls =>
      '(result, response, _, log) ← exchange path DEVMGR_IPC_UPGRADE_STATUS (Some operation_payload) 4 env;
      let payload := response_payload response in
      let failed := Some (Some 1, [StatusFailed (devmgr_status_string
          (if negb (result =? DEVMGR_OK) then result else response_status response))], log) in
      if negb (result =? DEVMGR_OK) || negb (response_status response =? DEVMGR_OK) ||
         negb (response_payload_length response =? 20) then failed
      else
      id ← devmgr_get_le32 payload 0;
      if negb (id =? operation_id) then failed
      else
      state ← load payload 4;
      operation_result ← devmgr_get_le32 payload 8;
      offset ← devmgr_get_le32 payload 12;
      total ← devmgr_get_le32 payload 16;
      let changed := negb (state =? previous_state) || negb (offset =? previous_offset) in
      let printed := if changed then [Progress (state_string state) (percentage offset total) offset total]
                     else [] in
      if state =? upgrade_state_code DEVMGR_UPGRADE_COMPLETE then
        Some (Some 0, printed ++ [UpgradeDone], log)
      else if state =? upgrade_state_code DEVMGR_UPGRADE_ERROR then
        Some (Some 1, printed ++ [UpgradeFailed (devmgr_status_string (i32 operation_result))], log)
      else
      '(status, reports, log') ← wait_loop polls path operation_payload operation_id state offset;
      Some (status, printed ++ reports, log ++ log')
  end.

(** [unset]: the four bytes of the local array. *)
Definition wait_for_upgrade (path : list Z) (started : devmgr_ipc_response) (unset : list Z)
    (polls : list exchange_env) : option (option Z * list report * list os_event) :=
  if negb (response_status started =? DEVMGR_OK) || negb (response_payload_length started =? 4) then
    Some (Some 1, [], [])
  else
  operation_id ← devmgr_get_le32 (response_payload started) 0;
  operation_payload ← devmgr_put_le32 unset 0 operation_id;
  wait_loop polls path operation_payload operation_id (upgrade_state_code DEVMGR_UPGRADE_IDLE) UINT32_MAX.

(** ** The command line *)

Definition devctl_options : list cli_option :=
  [mk_option (chars "socket") true 115; mk_option (chars "help") false 104].

Fixpoint devctl_scan (results : list opt_result) (socket : list Z) : list Z + Z :=
  match results with
  | [] => inl socket
  | Opt 115 (Some arg) :: results => devctl_scan results arg
  | Opt 104 _ :: _ => inr 0
  | _ :: _ => inr 2
  end.

(** What the operands ask for: a request, or an error and the exit status. *)
Inductive selection := Quit (status : Z) (reason : report) | Send (command : Z) (payload : list Z) (length : Z).

(** The commands without arguments. *)
Definition select_plain (command : Z) (operands : list (list Z)) (payload : list Z) : option selection :=
  match operands with [] => Some (Send command payload 0) | _ => Some (Quit 2 Usage) end.

Definition select_telemetry (operands : list (list Z)) (payload : list Z) : option selection :=
  match operands with
  | _ :: _ :: _ => Some (Quit 2 Usage)
  | _ =>
      let '(interval, rest) := match operands with a :: _ => strtoul a | [] => (1000, []) end in
      if negb (bool_decide (rest = [])) || (interval <? 100) || (60000 <? interval) then
        Some (Quit 2 BadInterval)
      else
      payload ← devmgr_put_le32 payload 0 (u32 interval);
      Some (Send DEVMGR_MSG_START_TELEMETRY payload 4)
  end.

(** [realpath] resolves a path, as a string that is shorter than PATH_MAX. *)
Definition select_upgrade (realpath : list Z → option (list Z)) (operands : list (list Z))
    (payload : list Z) : option selection :=
  match operands with
  | [] => Some (Quit 2 NoFirmware)
  | file :: rest =>
      match realpath file with
      | None => Some (Quit 2 NoFirmware)
      | Some resolved =>
          let version := match rest with v :: _ => v | [] => chars "1.1.0" end in
          let path_length := len resolved + 1 in
          let version_length := len version + 1 in
          if DEVMGR_IPC_MAX_PAYLOAD <? path_length + version_length then Some (Quit 2 TooLong)
          else
          payload ← memcpy payload 0 (resolved ++ [0]) 0 path_length;
          payload ← memcpy payload path_length (version ++ [0]) 0 version_length;
          Some (Send DEVMGR_IPC_UPGRADE payload (path_length + version_length))
      end
  end.

Definition select_status (operands : list (list Z)) (payload : list Z) : option selection :=
  match operands with
  | [a] =>
      let '(operation, rest) := strtoul a in
      if (operation =? 0) || (UINT32_MAX <? operation) || negb (bool_decide (rest = [])) then
        Some (Quit 2 BadOperation)
      else
      payload ← devmgr_put_le32 payload 0 (u32 operation);
      Some (Send DEVMGR_IPC_UPGRADE_STATUS payload 4)
  | _ => Some (Quit 2 Usage)
  end.

Definition select_command (realpath : list Z → option (list Z)) (operands : list (list Z))
    (payload : list Z) : option selection :=
  match operands with
  | [] => Some (Quit 2 Usage)
  | word :: rest =>
      let plain command := select_plain command rest payload in
      let says w := bool_decide (word = chars w) in
      if (2 <? len rest) then Some (Quit 2 Usage)
      else if says "ping"%string then plain DEVMGR_MSG_PING
      else if says "info"%string then plain DEVMGR_MSG_GET_INFO
      else if says "health"%string then plain DEVMGR_MSG_GET_HEALTH
      else if says "stats"%string then plain DEVMGR_MSG_GET_STATS
      else if says "telemetry-start"%string then select_telemetry rest payload
      else if says "telemetry-stop"%string then plain DEVMGR_MSG_STOP_TELEMETRY
      else if says "telemetry"%string then plain DEVMGR_IPC_GET_TELEMETRY
      else if says "upgrade"%string then select_upgrade realpath rest payload
      else if says "upgrade-status"%string then select_status rest payload
      else Some (Quit 2 Usage)
  end.

(** What [main] meets: the user, the file system, the clock before and after the
    request, its locals, the request and the polls. *)
Record devctl_env := mk_devctl_env {
  dc_uid : Z;
  dc_realpath : list Z → option (list Z);
  dc_before : Z * Z;
  dc_after : Z * Z;
  dc_payload : list Z;
  dc_operation : list Z;
  dc_exchange : exchange_env;
  dc_polls : list exchange_env;
}.

Definition elapsed_ns (before after : Z * Z) : Z :=
  let elapsed := u64 (u64 (after.1 - before.1) * 1000000000) in
  if before.2 <=? after.2 then u64 (elapsed + (after.2 - before.2)) else u64 (elapsed - (before.2 - after.2)).

(** The exit status, or [None] if the program still polls, what was printed, and
    the descriptors. *)
Definition devctl_main (args : list (list Z)) (env : devctl_env)
    : option (option Z * list report * list os_event) :=
  let '(results, operands) := getopt_long devctl_options args in
  match devctl_scan results (default_socket (dc_uid env)) with
  | inr status => Some (Some status, [Usage], [])
  | inl socket =>
      let path := socket ++ [0] in
      selected ← select_command (dc_realpath env) operands (dc_payload env);
      match selected with
      | Quit status reason => Some (Some status, [reason], [])
      | Send command payload length =>
          '(result, response, _, log) ← exchange path command (Some payload) length (dc_exchange env);
          if negb (result =? DEVMGR_OK) then Some (Some 1, [IpcFailed (devmgr_status_string result)], log)
          else
          printed ← print_response command response (elapsed_ns (dc_before env) (dc_after env));
          if (command =? DEVMGR_IPC_UPGRADE) && (response_status response =? DEVMGR_OK) then
            '(status, reports, log') ← wait_for_upgrade path response (dc_operation env) (dc_polls env);
            Some (status, printed ++ reports, log ++ log')
          else Some (Some (if response_status response =? DEVMGR_OK then 0 else 1), printed, log)
      end
  end.

(** ** The exchange *)

(** The kernel takes at least [n] bytes, in pieces. *)
Fixpoint takes (script : list write_outcome) (n : Z) : Prop :=
  n ≤ 0 ∨
  match script with
  | [] => False
  | Wrote k :: script => 0 < k ∧ takes script (n - k)
  | WriteError e :: script => e = EINTR ∧ takes script n
  end.

(** The kernel delivers exactly [bytes], in pieces. *)
Fixpoint brings (script : list read_outcome) (bytes : list Z) : Prop :=
  match script with
  | [] => bytes = []
  | Read piece :: script => piece ≠ [] ∧ ∃ rest, bytes = piece ++ rest ∧ brings script rest
  | ReadError e :: script => e = EINTR ∧ bytes ≠ [] ∧ brings script bytes
  end.

Lemma write_all_takes script data n offset sent :
  takes script (n - offset) → 0 ≤ offset ≤ n → n ≤ len data →
  write_all script data n offset sent = Some (DEVMGR_OK, sent ++ slice data offset (n - offset)).
Proof.
  revert offset sent. induction script as [|o script IH]; intros offset sent Ht Ho Hn; cbn [write_all].
  - destruct (Z.ltb_spec offset n); [cbn in Ht; lia|]. replace (n - offset) with 0 by lia.
    by rewrite slice_nil, app_nil_r.
  - destruct (Z.ltb_spec offset n); [|by replace (n - offset) with 0 by lia; rewrite slice_nil, app_nil_r].
    cbn [takes] in Ht. destruct Ht as [|Ht]; [lia|]. destruct o as [k|e]; [|destruct Ht as [-> Ht]; by apply IH].
    destruct Ht as [Hk Ht]. unfold taken. destruct (Z.lt_ge_cases k (n - offset)).
    + rewrite Z.min_l by lia. zreduce. rewrite mem_read_ok by lia. run_stmt.
      rewrite IH by (try lia; by replace (n - (offset + k)) with (n - offset - k) by lia).
      rewrite <- (assoc_L (++)), <- slice_split by lia. by replace (k + (n - (offset + k))) with (n - offset) by lia.
    + rewrite Z.min_r by lia. zreduce. rewrite mem_read_ok by lia. run_stmt.
      destruct script; cbn [write_all]; zreduce; done.
Qed.

Lemma write_all_total script data n offset sent :
  Exists write_ends script → 0 ≤ offset → n ≤ len data →
  ∃ result sent', write_all script data n offset sent = Some (result, sent').
Proof.
  intros Hs. revert offset sent. induction script as [|o script IH]; intros offset sent Ho Hn;
    [by apply Exists_nil in Hs|]. cbn [write_all]. destruct (Z.ltb_spec offset n); [|by eauto].
  apply Exists_cons in Hs. destruct o as [k|[]]; try (by eauto).
  - unfold taken. destruct (Z.ltb_spec 0 (Z.min k (n - offset))); [|by eauto].
    rewrite mem_read_ok by lia. run_stmt. apply IH; [|lia..].
    destruct Hs as [Hs|]; [|done]. cbn in Hs. apply Is_true_true, Z.leb_le in Hs. lia.
  - apply IH; [|lia..]. destruct Hs as [Hs|]; [|done]. cbn in Hs. by rewrite bool_decide_false in Hs by naive_solver.
Qed.

Lemma splice_next (data x y : list Z) off :
  0 ≤ off → off + len x + len y ≤ len data →
  splice (splice data off x) (off + len x) y = splice data off (x ++ y).
Proof.
  intros H0 Hl. destruct (take_drop_at data off) as (p & r & -> & -> & Hr); [lia|].
  rewrite length_app in *. rewrite !splice_app by (rewrite ?length_drop, ?length_app; lia).
  rewrite length_app, drop_drop. by rewrite <- !(assoc_L (++)).
Qed.

Lemma read_all_brings script rest data base bytes offset :
  brings script bytes → 0 ≤ base → 0 ≤ offset → base + offset + len bytes ≤ len data →
  read_all (script ++ rest) data base (offset + len bytes) offset =
    Some (DEVMGR_OK, splice data (base + offset) bytes, rest).
Proof.
  revert data bytes offset. induction script as [|o script IH]; intros data bytes offset Hb H0 Ho Hl.
  - cbn in Hb. subst bytes. cbn [app length] in *. rewrite Z.add_0_r. unfold splice. cbn [app length].
    rewrite Nat.add_0_r, take_drop. destruct rest; cbn [read_all]; by zreduce.
  - destruct o as [piece|e]; cbn [brings app read_all] in *.
    + destruct Hb as (Hne & more & -> & Hb). rewrite length_app in *. rewrite Nat2Z.inj_add in *.
      assert (0 < len piece) by (destruct piece; [done|cbn; lia]). zreduce. unfold delivered.
      rewrite take_ge by lia. zreduce. rewrite mem_write_ok by lia. run_stmt.
      replace (offset + (len piece + len more)) with (offset + len piece + len more) by lia.
      rewrite IH; [|done|lia|lia|rewrite length_splice; lia]. do 3 f_equal.
      replace (base + (offset + len piece)) with (base + offset + len piece) by lia. apply splice_next; lia.
    + destruct Hb as (-> & Hne & Hb). destruct (Z.ltb_spec offset (offset + len bytes)) as [|Hz]; [by apply IH|].
      destruct bytes; [done|cbn in Hz; lia].
Qed.

(** Whatever happens, the array keeps its size; a script that ends still does
    after a successful call. *)
Lemma read_all_total script data base n offset :
  Exists read_ends script → Forall read_ok script → Forall is_u8 data →
  0 ≤ base → 0 ≤ offset → base + n ≤ len data →
  ∃ result data' script', read_all script data base n offset = Some (result, data', script') ∧
    len data' = len data ∧ Forall is_u8 data' ∧ Forall read_ok script' ∧
    (result = DEVMGR_OK → Exists read_ends script').
Proof.
  intros Hs Hr. revert data offset. induction script as [|o script IH]; intros data offset Hd Hb Ho Hn;
    [by apply Exists_nil in Hs|]. cbn [read_all].
  destruct (Z.ltb_spec offset n); [|by do 3 eexists]. apply Exists_cons in Hs. apply Forall_cons in Hr as [Hro Hr].
  destruct o as [bytes|[]]; try (by do 3 eexists; split; [done|]).
  - unfold delivered. set (piece := take (Z.to_nat (n - offset)) bytes).
    assert (len piece ≤ n - offset) by (unfold piece; rewrite length_take; lia).
    assert (Forall is_u8 piece) as Hp by by apply Forall_take.
    destruct (Z.ltb_spec 0 (len piece)); [|by do 3 eexists; split; [done|]].
    rewrite mem_write_ok by lia. run_stmt.
    destruct (IH ltac:(destruct Hs as [Hs|]; [|done]; cbn in Hs; apply bool_decide_unpack in Hs; subst bytes;
      unfold piece in *; rewrite take_nil in *; cbn in *; lia) Hr (splice data (base + offset) piece) (offset + len piece))
      as (r & d & s & E & Hl & H'); [by apply splice_Forall|done|lia|rewrite length_splice; lia|].
    exists r, d, s. split; [done|]. rewrite Hl, length_splice by lia. done.
  - apply IH; try done. destruct Hs as [Hs|]; [|done]. cbn in Hs. by rewrite bool_decide_false in Hs by naive_solver.
Qed.

Definition exchange_env_ok (env : exchange_env) : Prop :=
  match ex_socket env with Opened fd => 0 ≤ fd | OpenError _ => True end ∧
  Exists write_ends (ex_writes env) ∧ Exists read_ends (ex_reads env) ∧ Forall read_ok (ex_reads env) ∧
  len (ex_buffer env) = 4108 ∧ Forall is_u8 (ex_buffer env) ∧ response_ok (ex_response env).

Lemma receive_total script buffer response :
  Exists read_ends script → Forall read_ok script → Forall is_u8 buffer → len buffer = 4108 →
  response_ok response →
  ∃ result response', receive_response script buffer response = Some (result, response') ∧
    response_ok response'.
Proof.
  intros Hs Hr Hb Hl Hok. unfold receive_response, DEVMGR_IPC_RESPONSE_HEADER_SIZE.
  destruct (read_all_total script buffer 0 12 0) as (r1 & b1 & s1 & -> & Hl1 & Hb1 & Hr1 & He1); [done..|lia|lia|lia|].
  run_stmt. cbv beta iota. destruct (Z.eqb_spec r1 DEVMGR_OK) as [->|]; cbn [negb]; [|by eauto].
  rewrite get_le32_field by (try lia; done). run_stmt. pose proof (field_range b1 8 4 Hb1 ltac:(lia)) as Hf.
  unfold DEVMGR_IPC_MAX_PAYLOAD. destruct (Z.ltb_spec 4096 (field b1 8 4)); [by eauto|].
  destruct (read_all_total s1 b1 12 (field b1 8 4) 0) as (r2 & b2 & s2 & -> & Hl2 & Hb2 & _); [by auto|done..|lia|lia|lia|].
  run_stmt. cbv beta iota. destruct (Z.eqb_spec r2 DEVMGR_OK) as [->|]; cbn [negb]; [|by eauto].
  pose proof Hok as (_ & _ & _ & Hlp & Hbp).
  rewrite ipc_decode_response_spec by (done || lia). cbv zeta. do 2 eexists. split; [done|].
  destruct (Z.eqb_spec (ipc_verdict (take (Z.to_nat (12 + field b1 8 4)) b2) 12) DEVMGR_OK) as [Hv|]; [|done].
  apply accepted_response_ok; [by apply Forall_take|done..].
Qed.

(** A path the kernel accepts. *)
Definition path_ok (path : list Z) : Prop := ∃ p, holds_string path p.

Lemma connect_total path env :
  path_ok path → exchange_env_ok env →
  ∃ fd log, connect_socket path env = Some (fd, log) ∧
    (fd < 0 ∧ holds log [] ∨ 0 ≤ fd ∧ log = [Acquired (Fd fd)]).
Proof.
  intros [p Hp] (Hfd & _). unfold connect_socket, SUN_PATH_SIZE. erewrite strlen_holds by done. run_stmt.
  destruct (Z.eqb_spec (len p) 0), (Z.leb_spec 108 (len p)); cbn [orb];
    try (do 2 eexists; split; [done|]; left; split; [lia|apply holds_nil]).
  destruct (ex_socket env) as [fd|]; [|do 2 eexists; split; [done|]; left; split; [lia|apply holds_nil]].
  destruct (_ || _); [do 2 eexists; split; [done|]; left; split; [lia|by apply holds_open_close]|].
  pose proof (holds_string_bound _ _ Hp). rewrite memcpy_ok by (rewrite ?len_zeros; lia). run_stmt.
  destruct (ex_connect_fails env); do 2 eexists; (split; [done|]); [left; split; [lia|by apply holds_open_close]|by right].
Qed.

Lemma payload_copy_ok command payload n :
  is_u8 command → 0 ≤ n ≤ len payload → n ≤ 4096 → Forall is_u8 payload →
  ∃ bytes, payload_copy (Some payload) n = Some bytes ∧ request_ok (mk_ipc_request command n bytes) ∧
    request_bytes (mk_ipc_request command n bytes) = slice payload 0 n.
Proof.
  intros Hc Hn Hm Hb. unfold payload_copy, DEVMGR_IPC_MAX_PAYLOAD. cbn [default].
  destruct (Z.eqb_spec n 0) as [->|].
  - eexists. split; [done|]. split; [|done]. split; [done|]. split; [done|]. split; [by apply len_zeros|apply zeros_Forall].
  - rewrite memcpy_ok by (rewrite ?len_zeros; unfold id; lia). eexists. split; [done|].
    pose proof (len_slice payload 0 n ltac:(lia) ltac:(lia) ltac:(lia)) as Hs. unfold id. split.
    + split; [done|]. cbn. unfold DEVMGR_IPC_MAX_PAYLOAD. split; [lia|].
      rewrite length_splice by (rewrite ?len_zeros; lia). split; [by apply len_zeros|]. auto with devmgr.
    + unfold request_bytes. cbn. rewrite <- Hs at 2. apply slice_splice_same; rewrite ?len_zeros; lia.
Qed.

Lemma length_overwrite (a p : list Z) : len p ≤ len a → len (overwrite a p) = len a.
Proof. intros. unfold overwrite. rewrite length_app, length_drop. lia. Qed.

Lemma encoded_request_facts r :
  request_ok r → Forall is_u8 (encoded_request r) ∧ len (encoded_request r) = 8 + request_payload_length r.
Proof.
  intros Hr. destruct (request_bytes_facts r Hr) as [Hl Hb]. split; [apply ipc_message_Forall; [apply Hr|done]|].
  unfold encoded_request. rewrite length_ipc_message, Hl. cbn. lia.
Qed.

Lemma exchange_total path command payload n env :
  path_ok path → exchange_env_ok env → is_u8 command → 0 ≤ n ≤ len payload → Forall is_u8 payload →
  ∃ result response sent log, exchange path command (Some payload) n env = Some (result, response, sent, log) ∧
    response_ok response ∧ holds log [].
Proof.
  intros Hp He Hc Hn Hb. pose proof He as (_ & Hw & Hr & Hro & Hl & Hbb & Hok).
  unfold exchange, DEVMGR_IPC_MAX_PAYLOAD. rewrite bool_decide_false by done. rewrite andb_false_l, orb_false_r.
  destruct (Z.ltb_spec 4096 n); [do 4 eexists; split; [done|]; split; [done|apply holds_nil]|].
  destruct (payload_copy_ok command payload n) as (bytes & -> & Hreq & _); [done..|]. run_stmt.
  set (request := mk_ipc_request command n bytes) in *.
  destruct (connect_total path env Hp He) as (fd & log & -> & Hlog). run_stmt. cbv beta iota.
  destruct (Z.ltb_spec fd 0) as [|Hfd];
    [do 4 eexists; split; [done|]; split; [done|]; destruct Hlog as [[_ ?]|[? _]]; [done|lia]|].
  destruct Hlog as [[? _]|[_ ->]]; [lia|]. cbv zeta. destruct (encoded_request_facts request Hreq) as [Heb Hel].
  rewrite ipc_encode_request_spec by (try done; cbn; unfold DEVMGR_IPC_RESPONSE_HEADER_SIZE; lia).
  run_stmt. cbv beta iota. change (DEVMGR_OK =? DEVMGR_OK) with true. cbv iota.
  set (buffer := overwrite (ex_buffer env) (encoded_request request)).
  assert (len buffer = 4108) as Hbl by (unfold buffer; rewrite length_overwrite; [done|cbn in *; lia]).
  assert (Forall is_u8 buffer) as Hb8 by by apply overwrite_Forall.
  destruct (write_all_total (ex_writes env) buffer (len (encoded_request request)) 0 []) as (r1 & sent & ->);
    [done|lia|cbn in *; lia|]. run_stmt. cbv beta iota.
  destruct (r1 =? DEVMGR_OK).
  - destruct (receive_total (ex_reads env) buffer (ex_response env)) as (r2 & response & -> & Hok'); [done..|].
    run_stmt. cbv beta iota. do 4 eexists. split; [done|]. split; [done|apply holds_open_close].
  - run_stmt. do 4 eexists. split; [done|]. split; [done|apply holds_open_close].
Qed.

(** The daemon accepts the connection, takes the request and answers [r]. *)
Definition answers (env : exchange_env) (fd request_size : Z) (r : devmgr_ipc_response) : Prop :=
  ex_socket env = Opened fd ∧ 0 ≤ fd ∧ ex_receive_timeout_fails env = false ∧
  ex_send_timeout_fails env = false ∧ ex_connect_fails env = false ∧
  takes (ex_writes env) request_size ∧
  (∃ head tail rest, ex_reads env = head ++ tail ++ rest ∧
     brings head (take 12 (encoded_response r)) ∧ brings tail (response_bytes r)) ∧
  len (ex_buffer env) = 4108 ∧ Forall is_u8 (ex_buffer env) ∧ response_ok (ex_response env).

Lemma encoded_response_split r :
  response_ok r → encoded_response r = take 12 (encoded_response r) ++ response_bytes r ∧
    len (take 12 (encoded_response r)) = 12 ∧ Forall is_u8 (encoded_response r).
Proof.
  intros Hr. destruct (response_bytes_facts r Hr) as [Hl Hb].
  assert (len (encoded_response r) = 12 + len (response_bytes r)) as Hlen
    by (unfold encoded_response; rewrite length_ipc_message; cbn; lia).
  split; [|split; [rewrite length_take; lia|apply ipc_message_Forall; [apply Hr|done]]].
  rewrite <- (take_drop 12 (encoded_response r)) at 1. f_equal.
Qed.

Lemma receive_answered head tail rest buffer r response :
  response_ok r → response_ok response → len buffer = 4108 → Forall is_u8 buffer →
  brings head (take 12 (encoded_response r)) → brings tail (response_bytes r) →
  ∃ r', receive_response (head ++ tail ++ rest) buffer response = Some (DEVMGR_OK, r') ∧ r' ≡ r.
Proof.
  intros Hr Hok Hl Hb Hh Ht. destruct (encoded_response_split r Hr) as (Ew & Hl12 & Hw8).
  destruct (response_bytes_facts r Hr) as [Hlp Hbp]. pose proof Hr as (Hc & Hst & Hn & _).
  unfold DEVMGR_IPC_MAX_PAYLOAD in Hn. set (w := encoded_response r) in *.
  unfold receive_response, DEVMGR_IPC_RESPONSE_HEADER_SIZE.
  pose proof (read_all_brings head (tail ++ rest) buffer 0 (take 12 w) 0 Hh) as E1. rewrite Hl12 in E1.
  change (0 + 12) with 12 in E1.
  rewrite E1 by lia. run_stmt. cbv beta iota. change (DEVMGR_OK =? DEVMGR_OK) with true. cbn [negb].
  set (b1 := splice buffer (0 + 0) (take 12 w)).
  assert (b1 = take 12 w ++ drop 12 buffer) as Eb1.
  { unfold b1, splice. cbn [Z.add]. change (Z.to_nat 0) with 0%nat. rewrite take_0. cbn [app].
    by replace (0 + length (take 12 w))%nat with 12%nat by lia. }
  destruct (response_fields (response_command r) (u32 (response_status r)) (response_bytes r))
    as (_ & _ & F3 & F4 & F8 & F12); [done|apply u32_range|unfold is_u32; lia|].
  change (ipc_message _ _ _) with w in F3, F4, F8, F12.
  assert (field b1 8 4 = len (response_bytes r)) as Ef.
  { rewrite <- F8. unfold field. rewrite Eb1, slice_app_l by lia. by f_equal. }
  assert (Forall is_u8 b1) as Hb1 by (by apply splice_Forall; [|apply Forall_take]).
  assert (len b1 = 4108) as Hlb1 by (unfold b1; rewrite length_splice; lia).
  rewrite get_le32_field, Ef by (done || lia). run_stmt. unfold DEVMGR_IPC_MAX_PAYLOAD. zreduce.
  pose proof (read_all_brings tail rest b1 12 (response_bytes r) 0 Ht) as E2. rewrite Z.add_0_l in E2.
  rewrite E2 by lia. run_stmt. cbv beta iota. change (DEVMGR_OK =? DEVMGR_OK) with true. cbn [negb].
  assert (len w = 12 + len (response_bytes r)) as Hlw by (rewrite Ew at 1; rewrite length_app; lia).
  assert (take (Z.to_nat (12 + len (response_bytes r))) (splice b1 (12 + 0) (response_bytes r)) = w) as Etw.
  { rewrite Eb1, splice_app by (rewrite ?length_drop; lia). rewrite <- Ew.
    rewrite take_app_le, take_ge by lia. done. }
  pose proof Hok as (_ & _ & _ & Hlo & Hbo).
  rewrite ipc_decode_response_spec by (try apply splice_Forall; rewrite ?length_splice; done || lia).
  cbv zeta. rewrite Etw.
  assert (ipc_verdict w 12 = DEVMGR_OK) as ->
    by (apply response_verdict; [done|apply u32_range|unfold DEVMGR_IPC_MAX_PAYLOAD; lia]).
  eexists. split; [done|]. rewrite Hlw, F3, F4. replace (12 + len (response_bytes r) - 12) with (len (response_bytes r)) by lia.
  rewrite F12. split; [done|]. split; [by apply i32_u32|]. apply overwrite_facts; [done..|].
  unfold DEVMGR_IPC_MAX_PAYLOAD. lia.
Qed.

(** C35: one exchange with a daemon that answers.  However the kernel cuts the two
    messages into pieces, the daemon receives the encoding of the request, the
    client returns the response, and the socket is closed. *)
Theorem exchange_answered path p command payload n env fd r :
  holds_string path p → 0 < len p < SUN_PATH_SIZE → is_u8 command → 0 ≤ n ≤ len payload → n ≤ 4096 →
  Forall is_u8 payload → response_ok r → answers env fd (8 + n) r →
  ∃ r', exchange path command (Some payload) n env =
      Some (DEVMGR_OK, r', ipc_message command [] (slice payload 0 n), [Acquired (Fd fd); Released (Fd fd)]) ∧
    r' ≡ r.
Proof.
  intros Hp Hlp Hc Hn Hm Hb Hr (Es & Hfd & E1 & E2 & E3 & Hw & (head & tail & rest & Er & Hh & Ht) & Hl & Hb8 & Hok).
  unfold exchange, DEVMGR_IPC_MAX_PAYLOAD. rewrite bool_decide_false by done. rewrite andb_false_l, orb_false_r. zreduce.
  destruct (payload_copy_ok command payload n) as (bytes & -> & Hreq & Ebytes); [done..|]. run_stmt.
  set (request := mk_ipc_request command n bytes) in *.
  unfold connect_socket. erewrite strlen_holds by done. run_stmt. unfold SUN_PATH_SIZE in *. zreduce. rewrite Es, E1, E2, E3. cbn [orb].
  pose proof (holds_string_bound _ _ Hp). rewrite memcpy_ok by (rewrite ?len_zeros; lia). run_stmt. run_stmt. cbv beta iota zeta. zreduce.
  destruct (encoded_request_facts request Hreq) as [Heb Hel].
  rewrite ipc_encode_request_spec by (try done; cbn; unfold DEVMGR_IPC_RESPONSE_HEADER_SIZE; lia).
  run_stmt. cbv beta iota. change (DEVMGR_OK =? DEVMGR_OK) with true. cbv iota.
  set (buffer := overwrite (ex_buffer env) (encoded_request request)).
  assert (len buffer = 4108) as Hbl by (unfold buffer; rewrite length_overwrite; [done|cbn in *; lia]).
  rewrite write_all_takes by (try (rewrite Z.sub_0_r, Hel; done); cbn in *; lia). run_stmt. cbv beta iota.
  change (DEVMGR_OK =? DEVMGR_OK) with true. cbv iota. rewrite Er.
  destruct (receive_answered head tail rest buffer r (ex_response env)) as (r' & -> & Hr'); [done|done|done|by apply overwrite_Forall|done|done|].
  run_stmt. cbv beta iota. exists r'. split; [|done]. cbn [app]. do 3 f_equal. rewrite Z.sub_0_r.
  unfold buffer. rewrite slice_0, take_overwrite. unfold encoded_request. by rewrite Ebytes.
Qed.

(** ** The whole program *)

Lemma terminated_path (s : list Z) : path_ok (s ++ [0]).
Proof.
  induction s as [|c s (p & r & E & Hp)]; [by exists [], []|]. destruct (decide (c = 0)) as [->|].
  - exists [], (s ++ [0]). done.
  - exists (c :: p), r. cbn. rewrite E. split; [done|by constructor].
Qed.

(** A poll that is answered, and the operation goes on. *)
Definition unfinished (path : list Z) (id : Z) (env : exchange_env) : Prop :=
  ∃ response sent log,
    exchange path DEVMGR_IPC_UPGRADE_STATUS (Some (le_bytes 4 id)) 4 env = Some (DEVMGR_OK, response, sent, log) ∧
    response_status response = DEVMGR_OK ∧ response_payload_length response = 20 ∧
    field (response_payload response) 0 4 = id ∧
    ∃ state, response_payload response !! 4%nat = Some state ∧
      state ≠ upgrade_state_code DEVMGR_UPGRADE_COMPLETE ∧ state ≠ upgrade_state_code DEVMGR_UPGRADE_ERROR.

(** How waiting can turn out: done, failed, or not over. *)
Definition outcome_ok (exit : option Z) (reports : list report) (waiting : Prop) : Prop :=
  match exit with
  | Some status => status = 0 ∧ UpgradeDone ∈ reports ∨ status = 1 ∧ UpgradeDone ∉ reports
  | None => UpgradeDone ∉ reports ∧ waiting
  end.

Lemma wait_loop_total polls path id st off :
  path_ok path → Forall exchange_env_ok polls →
  ∃ exit reports log, wait_loop polls path (le_bytes 4 id) id st off = Some (exit, reports, log) ∧
    outcome_ok exit reports (Forall (unfinished path id) polls) ∧ holds log [].
Proof.
  intros Hp He. revert st off. induction He as [|env polls Henv He IH]; intros st off; cbn [wait_loop].
  { do 3 eexists. split; [done|]. split; [|apply holds_nil]. split; [set_solver|done]. }
  destruct (exchange_total path DEVMGR_IPC_UPGRADE_STATUS (le_bytes 4 id) 4 env)
    as (result & response & sent & log & E & Hok & Hlog);
    [done..|rewrite length_le_bytes; lia|auto with devmgr|]. rewrite E. run_stmt. cbv beta iota zeta.
  match goal with |- context [Some (Some 1, ?l, log)] =>
    assert (∃ exit reports log0, Some (Some 1, l, log) = Some (exit, reports, log0) ∧
      outcome_ok exit reports (Forall (unfinished path id) (env :: polls)) ∧ holds log0 []) as Hfail
      by (do 3 eexists; split; [done|]; split; [|done]; right; split; [done|set_solver]) end.
  destruct (Z.eqb_spec result DEVMGR_OK) as [->|]; [|done].
  destruct (Z.eqb_spec (response_status response) DEVMGR_OK) as [Hst|]; [|done].
  destruct (Z.eqb_spec (response_payload_length response) 20) as [Hlen|]; [|done]. cbn [negb orb].
  destruct Hok as (_ & _ & _ & Hpl & Hpb). unfold DEVMGR_IPC_MAX_PAYLOAD in Hpl.
  rewrite !get_le32_field by (done || lia).
  destruct (load_ok (response_payload response) 4) as (state & -> & Estate); [lia|].
  run_stmt. destruct (Z.eqb_spec (field (response_payload response) 0 4) id) as [Hid|]; [|done]. cbn [negb].
  clear Hfail. do 4 run_stmt.
  match goal with |- context [if ?c then [Progress ?a ?b ?o ?t] else []] =>
    set (printed := if c then [Progress a b o t] else []) end.
  assert (UpgradeDone ∉ printed) as Hpr by (unfold printed; case_match; set_solver).
  clearbody printed.
  destruct (Z.eqb_spec state (upgrade_state_code DEVMGR_UPGRADE_COMPLETE)) as [|Hn1];
    [do 3 eexists; split; [done|]; split; [left; split; [done|set_solver]|done]|].
  destruct (Z.eqb_spec state (upgrade_state_code DEVMGR_UPGRADE_ERROR)) as [|Hn2];
    [do 3 eexists; split; [done|]; split; [right; split; [done|set_solver]|done]|].
  destruct (IH state (field (response_payload response) 12 4)) as (exit & reports & log' & -> & Hx & Hlog').
  run_stmt. cbv beta iota. do 3 eexists. split; [done|]. split; [|by apply holds_app].
  destruct exit as [status|]; cbn in Hx |- *.
  - destruct Hx as [[-> ?]|[-> ?]]; [left|right]; (split; [done|set_solver]).
  - destruct Hx as [Hx Hall]. split; [set_solver|]. constructor; [|done].
    exists response, sent, log. do 4 (split; [done|]). by exists state.
Qed.

Lemma next_string_total payload length offset :
  0 ≤ offset → length ≤ len payload →
  ∃ v offset', next_string payload length offset = Some (v, offset') ∧ 0 ≤ offset' ∧
    (∀ o, v = Some o → is_Some (c_string payload o)).
Proof.
  intros H0 Hl. unfold next_string. destruct (Z.leb_spec length offset).
  { do 2 eexists. by split; [done|]. }
  destruct (memchr0_total payload offset (length - offset)) as [found E]; [lia..|]. rewrite E. run_stmt.
  destruct found as [m|]; do 2 eexists; (split; [done|]); [|done].
  apply memchr0_Some in E as (p & s & r & -> & -> & -> & Hs & _); [|lia..].
  split; [lia|]. intros o [= <-]. eexists. by apply c_string_at.
Qed.

Lemma info_report_total payload length :
  Forall is_u8 payload → len payload = 4096 → length ≤ 4096 →
  ∃ r, info_report payload length = Some r ∧ r ≠ UpgradeDone.
Proof.
  intros Hb Hl Hn. unfold info_report. rewrite get_le32_field by (done || lia). run_stmt.
  destruct (next_string_total payload length 4) as (v1 & o1 & -> & H1 & C1); [lia..|]. run_stmt. cbv beta iota.
  destruct (next_string_total payload length o1) as (v2 & o2 & -> & H2 & C2); [lia..|]. run_stmt. cbv beta iota.
  destruct (next_string_total payload length o2) as (v3 & o3 & -> & H3 & C3); [lia..|]. run_stmt. cbv beta iota.
  destruct (next_string_total payload length o3) as (v4 & o4 & -> & H4 & C4); [lia..|]. run_stmt. cbv beta iota.
  destruct (next_string_total payload length o4) as (v5 & o5 & -> & H5 & C5); [lia..|]. run_stmt. cbv beta iota.
  destruct v1 as [v1|], v2 as [v2|], v3 as [v3|], v4 as [v4|], v5 as [v5|]; try (by eauto).
  destruct (C1 v1 eq_refl) as [s1 ->], (C2 v2 eq_refl) as [s2 ->], (C3 v3 eq_refl) as [s3 ->],
    (C4 v4 eq_refl) as [s4 ->], (C5 v5 eq_refl) as [s5 ->]. do 5 run_stmt. by eauto.
Qed.

Lemma print_total command response elapsed :
  response_ok response →
  ∃ reports, print_response command response elapsed = Some reports ∧ UpgradeDone ∉ reports.
Proof.
  intros (_ & _ & Hn & Hl & Hb). unfold DEVMGR_IPC_MAX_PAYLOAD in *. unfold print_response.
  destruct (load_u8 (response_payload response) 4 Hb ltac:(lia)) as (state & -> & _).
  rewrite !get_le32_field by (done || lia).
  destruct (info_report_total (response_payload response) (response_payload_length response)) as (r & -> & Hr); [done|done|lia|].
  repeat (case_match; [eexists; split; [reflexivity|set_solver]|]). eexists. split; [done|]. set_solver.
Qed.

Definition selection_ok (sel : selection) : Prop :=
  match sel with
  | Quit status r => status = 2 ∧ r ≠ UpgradeDone
  | Send command payload n => is_u8 command ∧ 0 ≤ n ≤ len payload ∧ Forall is_u8 payload
  end.

Section Select.
Context (payload : list Z) (Hl : len payload = 4096) (Hb : Forall is_u8 payload).

Lemma put_word_ok v : ∃ p, devmgr_put_le32 payload 0 v = Some p ∧ len p = 4096 ∧ Forall is_u8 p.
Proof.
  rewrite put_le32_spec by lia. eexists. split; [done|].
  rewrite length_splice by (rewrite ?length_le_bytes; lia). split; [done|]. auto with devmgr.
Qed.

Lemma select_plain_total command operands :
  is_u8 command → ∃ sel, select_plain command operands payload = Some sel ∧ selection_ok sel.
Proof.
  intros Hc. unfold select_plain. destruct operands; eexists; (split; [done|]); [|done].
  split; [done|]. split; [lia|done].
Qed.

Lemma select_telemetry_total operands :
  ∃ sel, select_telemetry operands payload = Some sel ∧ selection_ok sel.
Proof.
  unfold select_telemetry. destruct operands as [|a [|b operands]]; [..|by eexists].
  - cbn. destruct (put_word_ok (u32 1000)) as (p & E & Hp & Hp8). rewrite E. eexists. split; [done|].
    split; [done|]. split; [lia|done].
  - destruct (strtoul a) as [v rest]. destruct (_ || _ || _); [by eexists|].
    destruct (put_word_ok (u32 v)) as (p & -> & Hp & Hp8). eexists. split; [done|].
    split; [done|]. split; [lia|done].
Qed.

Lemma select_status_total operands :
  ∃ sel, select_status operands payload = Some sel ∧ selection_ok sel.
Proof.
  unfold select_status. destruct operands as [|a [|b operands]]; [by eexists| |by eexists].
  destruct (strtoul a) as [v rest]. destruct (_ || _ || _); [by eexists|].
  destruct (put_word_ok (u32 v)) as (p & -> & Hp & Hp8). eexists. split; [done|].
  split; [done|]. split; [lia|done].
Qed.

(** The payload of an upgrade: the path and the version, each terminated. *)
Lemma upgrade_payload path version :
  len path + len version + 2 ≤ 4096 → Forall is_u8 path → Forall is_u8 version →
  ∃ p1 p, memcpy payload 0 (path ++ [0]) 0 (len path + 1) = Some p1 ∧
    memcpy p1 (len path + 1) (version ++ [0]) 0 (len version + 1) = Some p ∧
    len p = 4096 ∧ Forall is_u8 p ∧
    slice p 0 (len path + 1 + (len version + 1)) = path ++ [0] ++ version ++ [0].
Proof.
  intros Hn Hp Hv. assert (∀ l : list Z, len (l ++ [0]) = len l + 1) as Hz by (intros; rewrite length_app; cbn; lia).
  assert (∀ l, Forall is_u8 l → Forall is_u8 (l ++ [0])) as Hz8
    by (intros; apply Forall_app; split; [done|by repeat constructor]).
  rewrite memcpy_ok by (rewrite ?Hz; lia). rewrite <- (Hz path), slice_all. eexists _, _. split; [done|].
  rewrite memcpy_ok by (rewrite ?length_splice by (rewrite ?Hz; lia); rewrite ?Hz; lia). rewrite <- (Hz version), slice_all. split; [done|].
  pose proof (splice_next payload (path ++ [0]) (version ++ [0]) 0) as E. rewrite Z.add_0_l in E.
  rewrite E by (rewrite ?Hz; lia). assert (len ((path ++ [0]) ++ version ++ [0]) = len path + 1 + (len version + 1)) as Hlen
    by (rewrite length_app, Nat2Z.inj_add, !Hz; lia).
  split; [rewrite length_splice; [done|lia..]|]. split; [apply splice_Forall; [done|apply Forall_app; auto]|].
  rewrite !Hz, <- Hlen, slice_splice_same by lia. by rewrite <- (assoc_L (++)).
Qed.

Lemma select_upgrade_total realpath operands :
  (∀ f r, realpath f = Some r → Forall is_u8 r) → Forall (Forall is_u8) operands →
  ∃ sel, select_upgrade realpath operands payload = Some sel ∧ selection_ok sel.
Proof.
  intros Hreal Hop. unfold select_upgrade. destruct operands as [|file rest]; [by eexists|].
  destruct (realpath file) as [path|] eqn:Er; [|by eexists]. apply Hreal in Er. cbv zeta.
  set (version := match rest with v :: _ => v | [] => chars "1.1.0" end).
  assert (Forall is_u8 version) as Hv.
  { apply Forall_cons in Hop as [_ Hop]. unfold version. destruct rest; [by vm_compute; repeat constructor|].
    by apply Forall_cons in Hop as [? _]. }
  unfold DEVMGR_IPC_MAX_PAYLOAD. destruct (Z.ltb_spec 4096 (len path + 1 + (len version + 1))); [by eexists|].
  destruct (upgrade_payload path version) as (p1 & p & -> & E2 & Hp & Hp8 & _); [lia|done..|]. run_stmt. rewrite E2. run_stmt.
  eexists. split; [done|]. split; [done|]. split; [lia|done].
Qed.

Lemma select_total realpath operands :
  (∀ f r, realpath f = Some r → Forall is_u8 r) → Forall (Forall is_u8) operands →
  ∃ sel, select_command realpath operands payload = Some sel ∧ selection_ok sel.
Proof.
  intros Hreal Hop. destruct operands as [|word rest]; [by eexists|]. cbn [select_command].
  apply Forall_cons in Hop as [_ Hop]. cbv zeta.
  repeat (case_match; [first [by eexists | by apply select_plain_total | apply select_telemetry_total
    | apply select_status_total | by apply select_upgrade_total]|]). by eexists.
Qed.
End Select.

Definition devctl_env_ok (env : devctl_env) : Prop :=
  (∀ f r, dc_realpath env f = Some r → Forall is_u8 r) ∧
  len (dc_payload env) = 4096 ∧ Forall is_u8 (dc_payload env) ∧
  len (dc_operation env) = 4 ∧ Forall is_u8 (dc_operation env) ∧
  exchange_env_ok (dc_exchange env) ∧ Forall exchange_env_ok (dc_polls env).

Lemma wait_for_upgrade_total path started unset polls :
  path_ok path → response_ok started → len unset = 4 → Forall exchange_env_ok polls →
  ∃ exit reports log, wait_for_upgrade path started unset polls = Some (exit, reports, log) ∧
    outcome_ok exit reports
      (response_payload_length started = 4 ∧
       Forall (unfinished path (field (response_payload started) 0 4)) polls) ∧ holds log [].
Proof.
  intros Hp (_ & _ & _ & Hpl & Hpb) Hu He. unfold wait_for_upgrade, DEVMGR_IPC_MAX_PAYLOAD in *.
  destruct (negb (_ =? DEVMGR_OK));
    [do 3 eexists; split; [done|]; split; [right; split; [done|set_solver]|apply holds_nil]|]. cbn [orb].
  destruct (Z.eqb_spec (response_payload_length started) 4); cbn [negb];
    [|do 3 eexists; split; [done|]; split; [right; split; [done|set_solver]|apply holds_nil]].
  rewrite get_le32_field by (done || lia). run_stmt. set (id := field _ 0 4). rewrite put_le32_spec by lia. run_stmt.
  assert (splice unset 0 (le_bytes 4 id) = le_bytes 4 id) as ->.
  { unfold splice. cbn [Z.to_nat]. rewrite take_0, drop_ge by (pose proof (length_le_bytes 4 id); lia).
    by rewrite app_nil_r. }
  destruct (wait_loop_total polls path id (upgrade_state_code DEVMGR_UPGRADE_IDLE) UINT32_MAX)
    as (exit & reports & log & -> & Hx & Hl); [done..|].
  exists exit, reports, log. split; [done|]. split; [|done]. destruct exit; [done|]. destruct Hx. by split.
Qed.

(** The daemon accepted an upgrade, and has answered every poll since with a
    state that is not final. *)
Definition still_waiting (env : devctl_env) : Prop :=
  ∃ path payload n started sent log,
    exchange path DEVMGR_IPC_UPGRADE (Some payload) n (dc_exchange env) = Some (DEVMGR_OK, started, sent, log) ∧
    response_status started = DEVMGR_OK ∧ response_payload_length started = 4 ∧
    Forall (unfinished path (field (response_payload started) 0 4)) (dc_polls env).

(** C36: how the client ends, whatever it is called with and whatever the kernel
    and the daemon do: no invalid access, every socket closed, and it exits with
    the status 0, 1 or 2, unless it waits for an upgrade.  That goes on only
    as long as the daemon, having accepted the upgrade, answers every poll with
    a state other than COMPLETE and ERROR: there is no timeout for the whole
    operation.  An upgrade is reported as done only with the status 0. *)
Theorem devctl_returns args env :
  Forall (Forall is_u8) args → devctl_env_ok env →
  ∃ exit reports log, devctl_main args env = Some (exit, reports, log) ∧ holds log [] ∧
    match exit with
    | Some status => (status = 0 ∨ status = 1 ∨ status = 2) ∧ (UpgradeDone ∈ reports → status = 0)
    | None => UpgradeDone ∉ reports ∧ still_waiting env
    end.
Proof.
  intros Ha (Hreal & Hpl & Hp8 & Hol & Ho8 & He & Hpolls). unfold devctl_main.
  pose proof (getopt_operands devctl_options args) as Hsub.
  destruct (getopt_long devctl_options args) as [results operands].
  destruct (devctl_scan results _) as [socket|status] eqn:Es; cycle 1.
  { do 3 eexists. split; [done|]. split; [apply holds_nil|]. split; [|set_solver].
    clear -Es. revert Es. generalize (default_socket (dc_uid env)). induction results as [|o results IH]; [done|].
    intros socket. cbn. repeat case_match; try (by apply IH); intros [= <-]; auto. }
  destruct (select_total (dc_payload env) Hpl Hp8 (dc_realpath env) operands Hreal) as (sel & -> & Hsel).
  { apply Forall_forall. intros x Hx'. rewrite Forall_forall in Ha. by apply Ha, Hsub. }
  run_stmt. destruct sel as [status r|command payload n]; cbn in Hsel.
  { destruct Hsel as [-> Hr]. do 3 eexists. split; [done|]. split; [apply holds_nil|]. split; [by auto|set_solver]. }
  destruct Hsel as (Hc & Hn & Hb). pose proof (terminated_path socket) as Hpath.
  destruct (exchange_total (socket ++ [0]) command payload n (dc_exchange env)) as (result & response & sent & log & E & Hok & Hlog);
    [done..|]. rewrite E. run_stmt. cbv beta iota.
  destruct (Z.eqb_spec result DEVMGR_OK) as [->|]; cbn [negb];
    [|do 3 eexists; split; [done|]; split; [done|]; split; [by auto|set_solver]].
  destruct (print_total command response (elapsed_ns (dc_before env) (dc_after env)) Hok) as (printed & -> & Hpr). run_stmt.
  destruct (Z.eqb_spec command DEVMGR_IPC_UPGRADE) as [->|], (Z.eqb_spec (response_status response) DEVMGR_OK) as [Est|];
    cbn [andb]; try (do 3 eexists; split; [done|]; split; [done|]; split; [by auto|set_solver]).
  destruct (wait_for_upgrade_total (socket ++ [0]) response (dc_operation env) (dc_polls env))
    as (exit & reports & log' & -> & Hx & Hlog'); [done..|]. run_stmt. cbv beta iota.
  do 3 eexists. split; [done|]. split; [by apply holds_app|]. destruct exit as [status|]; cbn in Hx.
  - split; [naive_solver|]. set_solver.
  - destruct Hx as (Hx & Hlen & Hall). split; [set_solver|]. by exists (socket ++ [0]), payload, n, response, sent, log.
Qed.

(** ** Instances *)

Definition pong : devmgr_ipc_response := mk_ipc_response DEVMGR_MSG_PING DEVMGR_OK 2 (zeros 4096).

Definition sample_exchange : exchange_env :=
  mk_exchange_env (Opened 3) false false false [Wrote 3; WriteError EINTR; Wrote 100; WriteError EIO]
    [Read (take 5 (encoded_response pong)); ReadError EINTR; Read (drop 5 (take 12 (encoded_response pong)));
     Read [0]; Read [0]; Read []] (zeros 4108) blank_response.

Lemma pong_ok : response_ok pong.
Proof. split_and!; try done. apply zeros_Forall. Qed.

Lemma sample_exchange_ok : exchange_env_ok sample_exchange.
Proof.
  split; [done|]. split; [by do 3 right; left|]. split; [by do 5 right; left|].
  split; [|split; [done|]; split; [apply zeros_Forall|apply blank_response_ok]].
  assert (Forall is_u8 (encoded_response pong)) as Hw by apply (encoded_response_split pong pong_ok).
  repeat constructor; cbn; auto using Forall_take, Forall_drop; by repeat constructor.
Qed.

Lemma exchange_answered_witness :
  ∃ r', exchange (literal "/s") DEVMGR_MSG_PING (Some (zeros 4096)) 0 sample_exchange =
      Some (DEVMGR_OK, r', ipc_message DEVMGR_MSG_PING [] [], [Acquired (Fd 3); Released (Fd 3)]) ∧ r' ≡ pong.
Proof.
  apply (exchange_answered (literal "/s") (chars "/s") DEVMGR_MSG_PING (zeros 4096) 0 sample_exchange 3 pong);
    [by apply literal_holds|done|done|done|done|apply zeros_Forall|apply pong_ok|].
  do 5 (split; [done|]). split; [cbn; intuition lia|]. split; [|split; [done|]; split; [apply zeros_Forall|apply blank_response_ok]].
  exists (take 3 (ex_reads sample_exchange)), (take 2 (drop 3 (ex_reads sample_exchange))), [Read []].
  split; [done|]. split.
  - split; [done|]. exists (drop 5 (take 12 (encoded_response pong))). split; [by vm_compute|].
    split; [done|]. split; [done|]. split; [done|]. exists []. by split; [vm_compute|].
  - split; [done|]. exists [0]. split; [by vm_compute|]. split; [done|]. by exists [].
Defined.

Definition sample_devctl : devctl_env :=
  mk_devctl_env 1000 (λ _, None) (0, 0) (0, 5) (zeros 4096) (zeros 4) sample_exchange
    [mk_exchange_env (Opened 3) false false true [WriteError EIO] [Read []] (zeros 4108) blank_response].

Lemma devctl_returns_witness :
  ∃ exit reports log, devctl_main [chars "ping"] sample_devctl = Some (exit, reports, log) ∧ holds log [] ∧
    match exit with
    | Some status => (status = 0 ∨ status = 1 ∨ status = 2) ∧ (UpgradeDone ∈ reports → status = 0)
    | None => UpgradeDone ∉ reports ∧ still_waiting sample_devctl
    end.
Proof.
  apply (devctl_returns [chars "ping"]).
  - repeat constructor; cbn; by repeat constructor.
  - split; [done|]. split; [done|]. split; [apply zeros_Forall|]. split; [done|]. split; [apply zeros_Forall|].
    split; [apply sample_exchange_ok|]. constructor; [|done].
    split; [done|]. split; [by left|]. split; [by left|]. split; [by repeat constructor|]. split; [done|].
    split; [apply zeros_Forall|apply blank_response_ok].
Defined.
