(* ===== verification/Device.v ===== *)
(** * What a device promises to an upgrade

    The contract between the host's upgrade and any device that implements the
    firmware-update requests, whatever its state looks like inside.  The
    simulator and the STM32 bootloader are instances of it; the end-to-end
    theorem about upgrades assumes nothing else of the device. *)

From S2P Require Import Prelude Crc32 Frame.

(** The firmware slot: the transfer under way, the bytes received and the
    version the device runs. *)
Record slot := mk_slot {
  slot_session : Z;
  slot_size : Z;
  slot_crc : Z;
  slot_version : list Z;
  slot_flash : list Z;
  slot_offset : Z;
  slot_open : bool;
  slot_verified : bool;
  slot_running : list Z;
}.

#[export] Instance eta_slot : Eta slot := λ s,
  mk_slot (slot_session s) (slot_size s) (slot_crc s) (slot_version s) (slot_flash s)
          (slot_offset s) (slot_open s) (slot_verified s) (slot_running s).

(** An answer to [req] of its own type, carrying [payload]. *)
Definition ack (req : wire_frame) (payload : list Z) : wire_frame :=
  mk_wire (w_type req) DEVMGR_FRAME_RESPONSE (w_sequence req) payload.

Definition is_nack (req resp : wire_frame) : Prop :=
  w_type resp = DEVMGR_MSG_NACK ∧ w_sequence resp = w_sequence req ∧ wire_ok resp.

(** The request that starts a transfer. *)
Definition begin_payload (size crc chunk : Z) (version rest : list Z) : list Z :=
  le_bytes 4 size ++ le_bytes 4 crc ++ le_bytes 2 chunk ++ version ++ 0 :: rest.

(** The fields of a request of [n] bytes at the start of the array [a]. *)
Lemma field_u32 l off : Forall is_u8 l → is_u32 (field l off 4).
Proof. intros. by apply (field_range l off 4). Qed.

Lemma word_view a : Forall is_u8 a → 4 ≤ len a → slice a 0 4 = le_bytes 4 (field a 0 4).
Proof. intros. by rewrite le32_field by (done || lia). Qed.

Lemma data_view a n :
  Forall is_u8 a → 8 ≤ n ≤ len a →
  slice a 0 n = le_bytes 4 (field a 0 4) ++ le_bytes 4 (field a 4 4) ++ slice a 8 (n - 8).
Proof.
  intros Ha Hn. rewrite !le32_field by (done || lia).
  replace n with (4 + (4 + (n - 8))) at 1 by lia. by rewrite !slice_split by lia.
Qed.

Lemma begin_view a n p v r :
  Forall is_u8 a → n ≤ len a → a = p ++ v ++ 0 :: r → len p = 10 → len v < n - 10 →
  slice a 0 n = begin_payload (field a 0 4) (field a 4 4) (field a 8 2) v
                  (slice a (11 + len v) (n - 11 - len v)).
Proof.
  intros Ha Hn Ep Hp Hv. unfold begin_payload.
  rewrite !le32_field, le16_field by (done || lia).
  replace n with (4 + (4 + (2 + (len v + (1 + (n - 11 - len v)))))) at 1 by lia.
  rewrite !slice_split by lia. do 3 f_equal. f_equal.
  - rewrite Ep. apply slice_middle; lia.
  - replace (slice a _ 1) with [0]; [simpl; do 2 f_equal; lia|].
    rewrite Ep, (assoc_L (++)). symmetry. apply slice_middle with (r := r) (x := [0]); [|done].
    rewrite length_app. lia.
Qed.

(** The session number after [x], which is never 0. *)
Lemma next_session_id x :
  let id := u32 (x + 1) in is_u32 (if id =? 0 then 1 else id) ∧ (if id =? 0 then 1 else id) ≠ 0.
Proof. cbv zeta. pose proof (u32_range (x + 1)). by destruct (Z.eqb_spec (u32 (x + 1)) 0). Qed.

(** [slot_step s req resp s']: the device may answer [req] with [resp]. *)
Inductive slot_step (s : slot) (req : wire_frame) : wire_frame → slot → Prop :=
  | slot_refuse resp : is_nack req resp → slot_step s req resp s
  | slot_other resp :
      ¬ (DEVMGR_MSG_FW_BEGIN ≤ w_type req ≤ DEVMGR_MSG_REBOOT) →
      w_sequence resp = w_sequence req → slot_step s req resp s
  | slot_begin size crc chunk version rest id flash :
      w_type req = DEVMGR_MSG_FW_BEGIN →
      w_payload req = begin_payload size crc chunk version rest →
      is_u32 size → is_u32 crc → Forall (λ b, b ≠ 0) version → is_u32 id → id ≠ 0 →
      len flash = size →
      slot_step s req (ack req (le_bytes 4 id ++ le_bytes 4 0))
        (mk_slot id size crc version flash 0 true false (slot_running s))
  | slot_erase_failed resp size crc chunk version rest flash :
      (* the flash of a transfer that cannot be resumed may be damaged *)
      w_type req = DEVMGR_MSG_FW_BEGIN → is_nack req resp →
      w_payload req = begin_payload size crc chunk version rest →
      is_u32 size → is_u32 crc → Forall (λ b, b ≠ 0) version →
      ¬ (slot_open s = true ∧ size = slot_size s ∧ crc = slot_crc s ∧ version = slot_version s) →
      length flash = length (slot_flash s) →
      slot_step s req resp (s <| slot_flash := flash |>)
  | slot_resume size crc chunk version rest :
      w_type req = DEVMGR_MSG_FW_BEGIN →
      w_payload req = begin_payload size crc chunk version rest →
      is_u32 size → is_u32 crc → Forall (λ b, b ≠ 0) version → slot_open s = true →
      size = slot_size s → crc = slot_crc s → version = slot_version s →
      slot_step s req (ack req (le_bytes 4 (slot_session s) ++ le_bytes 4 (slot_offset s))) s
  | slot_write data :
      w_type req = DEVMGR_MSG_FW_DATA → slot_open s = true →
      w_payload req = le_bytes 4 (slot_session s) ++ le_bytes 4 (slot_offset s) ++ data →
      slot_offset s + len data ≤ slot_size s →
      slot_step s req (ack req (le_bytes 4 (slot_offset s + len data)))
        (s <| slot_flash := splice (slot_flash s) (slot_offset s) data |>
           <| slot_offset := slot_offset s + len data |>)
  | slot_write_failed resp flash :
      (* what is behind the bytes received so far may be damaged *)
      w_type req = DEVMGR_MSG_FW_DATA → is_nack req resp → slot_open s = true →
      length flash = length (slot_flash s) →
      take (Z.to_nat (slot_offset s)) flash = take (Z.to_nat (slot_offset s)) (slot_flash s) →
      slot_step s req resp (s <| slot_flash := flash |>)
  | slot_repeat off data :
      w_type req = DEVMGR_MSG_FW_DATA → slot_open s = true →
      w_payload req = le_bytes 4 (slot_session s) ++ le_bytes 4 off ++ data →
      0 ≤ off → off + len data ≤ slot_offset s → slice (slot_flash s) off (len data) = data →
      slot_step s req (ack req (le_bytes 4 (slot_offset s))) s
  | slot_status :
      w_type req = DEVMGR_MSG_FW_STATUS → w_payload req = le_bytes 4 (slot_session s) →
      slot_step s req (ack req (le_bytes 4 (slot_session s) ++ le_bytes 4 (slot_offset s))) s
  | slot_end open :
      w_type req = DEVMGR_MSG_FW_END → slot_offset s = slot_size s →
      slot_step s req (ack req []) (s <| slot_open := slot_open s && open |>)
  | slot_verify :
      w_type req = DEVMGR_MSG_FW_VERIFY → crc_of (slot_flash s) = slot_crc s →
      slot_step s req (ack req (le_bytes 4 (slot_crc s))) (s <| slot_verified := true |>)
  | slot_activate :
      w_type req = DEVMGR_MSG_FW_ACTIVATE → slot_verified s = true →
      slot_step s req (ack req []) (s <| slot_running := slot_version s |>)
  | slot_reboot open verified :
      w_type req = DEVMGR_MSG_REBOOT →
      slot_step s req (ack req []) 
        (s <| slot_open := slot_open s && open |> <| slot_verified := slot_verified s && verified |>).

Lemma slot_step_sequence s req resp s' : slot_step s req resp s' → w_sequence resp = w_sequence req.
Proof. destruct 1; unfold is_nack in *; naive_solver. Qed.

(** What holds of a slot between requests. *)
Definition slot_ok (s : slot) : Prop :=
  is_u32 (slot_session s) ∧ is_u32 (slot_crc s) ∧ 0 ≤ slot_offset s ∧ is_u32 (slot_size s) ∧
  (slot_open s = true → slot_session s ≠ 0 ∧ slot_offset s ≤ slot_size s ∧
                        len (slot_flash s) = slot_size s).

(** A device: its states, the answers it may give, and the slot it keeps. *)
Class UpdateDevice (D : Type) := {
  device_ok : D → Prop;
  device_slot : D → slot;
  device_step : D → wire_frame → wire_frame → D → Prop;
  device_slot_ok d : device_ok d → slot_ok (device_slot d);
  device_answers d req : device_ok d → wire_ok req → ∃ resp d', device_step d req resp d';
  device_refines d req resp d' :
    device_ok d → wire_ok req → device_step d req resp d' →
    device_ok d' ∧ wire_ok resp ∧ slot_step (device_slot d) req resp (device_slot d');
}.
