(* ===== verification/Stm32Protocol.v ===== *)
(** * Device-side codec: firmware/stm32f103/common/protocol.h and protocol.c

    The frame codec of the STM32 reference port is a second implementation of
    the wire format; it is proved to agree with the host's, byte for byte and
    verdict for verdict. *)

From S2P Require Import Prelude Crc32 Frame.

(** ** The code *)

Definition STM32_DEVMGR_MAGIC : Z := 0x4D44.
Definition STM32_DEVMGR_VERSION : Z := 1.
Definition STM32_DEVMGR_HEADER_SIZE : Z := 12.
Definition STM32_DEVMGR_CRC_SIZE : Z := 4.
Definition STM32_DEVMGR_MAX_PAYLOAD : Z := 4096.

Definition STM32_MSG_PING : Z := 0x01.
Definition STM32_MSG_GET_INFO : Z := 0x02.
Definition STM32_MSG_ENTER_BOOTLOADER : Z := 0x10.
Definition STM32_MSG_FW_BEGIN : Z := 0x11.
Definition STM32_MSG_FW_DATA : Z := 0x12.
Definition STM32_MSG_FW_STATUS : Z := 0x13.
Definition STM32_MSG_FW_END : Z := 0x14.
Definition STM32_MSG_FW_VERIFY : Z := 0x15.
Definition STM32_MSG_FW_ACTIVATE : Z := 0x16.
Definition STM32_MSG_REBOOT : Z := 0x17.
Definition STM32_MSG_NACK : Z := 0x81.
Definition STM32_FRAME_RESPONSE : Z := 0x01.

(** [sv_payload] is the array the payload pointer points into, from there on. *)
Record stm32_frame_view := mk_view {
  sv_type : Z;
  sv_flags : Z;
  sv_sequence : Z;
  sv_payload : list Z;
  sv_payload_length : Z;
}.

Definition stm32_put_le16 (output : list Z) (off value : Z) : option (list Z) :=
  output ← store output off (u8 value);
  store output (off + 1) (u8 (Z.shiftr value 8)).

Definition stm32_put_le32 (output : list Z) (off value : Z) : option (list Z) :=
  output ← store output off (u8 value);
  output ← store output (off + 1) (u8 (Z.shiftr value 8));
  output ← store output (off + 2) (u8 (Z.shiftr value 16));
  store output (off + 3) (u8 (Z.shiftr value 24)).

Definition stm32_get_le16 (input : list Z) (off : Z) : option Z :=
  b0 ← load input off;
  b1 ← load input (off + 1);
  Some (u16 (Z.lor b0 (Z.shiftl b1 8))).

Definition stm32_get_le32 (input : list Z) (off : Z) : option Z :=
  b0 ← load input off;
  b1 ← load input (off + 1);
  b2 ← load input (off + 2);
  b3 ← load input (off + 3);
  Some (Z.lor (Z.lor (Z.lor b0 (Z.shiftl b1 8)) (Z.shiftl b2 16)) (Z.shiftl b3 24)).

Definition stm32_crc_bit (crc : Z) : Z :=
  let mask := u32 (0 - Z.land crc 1) in
  Z.lxor (Z.shiftr crc 1) (Z.land 0xEDB88320 mask).

(** The loop over [index], with [n] iterations left. *)
Fixpoint stm32_crc_loop (bytes : list Z) (index : Z) (n : nat) (crc : Z) : option Z :=
  match n with
  | O => Some crc
  | S n' =>
      b ← load bytes index;
      stm32_crc_loop bytes (index + 1) n' (Nat.iter 8 stm32_crc_bit (Z.lxor crc b))
  end.

Definition stm32_crc32 (data : list Z) (length : Z) : option Z :=
  crc ← stm32_crc_loop data 0 (Z.to_nat length) 0xFFFFFFFF;
  Some (Z.lxor crc 0xFFFFFFFF).

Definition stm32_frame_decode (data : list Z) (length : Z) (frame : stm32_frame_view)
    : option (Z * stm32_frame_view) :=
  if length <? STM32_DEVMGR_HEADER_SIZE + STM32_DEVMGR_CRC_SIZE then Some (-1, frame)
  else
  magic ← stm32_get_le16 data 0;
  version ← load data 2;
  reserved ← load data 5;
  if negb (magic =? STM32_DEVMGR_MAGIC) || negb (version =? STM32_DEVMGR_VERSION) ||
     negb (reserved =? 0) then Some (-2, frame)
  else
  payload_length ← stm32_get_le16 data 10;
  if (STM32_DEVMGR_MAX_PAYLOAD <? payload_length) ||
     negb (length =? STM32_DEVMGR_HEADER_SIZE + payload_length + STM32_DEVMGR_CRC_SIZE)
  then Some (-3, frame)
  else
  expected ← stm32_get_le32 data (STM32_DEVMGR_HEADER_SIZE + payload_length);
  crc ← stm32_crc32 data (STM32_DEVMGR_HEADER_SIZE + payload_length);
  if negb (crc =? expected) then Some (-4, frame)
  else
  type ← load data 3;
  flags ← load data 4;
  sequence ← stm32_get_le32 data 6;
  Some (0, mk_view type flags sequence (drop (Z.to_nat STM32_DEVMGR_HEADER_SIZE) data)
                   payload_length).

Definition stm32_frame_encode (type flags sequence : Z) (payload : option (list Z))
    (payload_length : Z) (output : list Z) (capacity encoded_length : Z)
    : option (Z * list Z * Z) :=
  let total := STM32_DEVMGR_HEADER_SIZE + payload_length + STM32_DEVMGR_CRC_SIZE in
  if (match payload with None => negb (payload_length =? 0) | Some _ => false end) ||
     (STM32_DEVMGR_MAX_PAYLOAD <? payload_length) || (capacity <? total)
  then Some (-1, output, encoded_length)
  else
  output ← stm32_put_le16 output 0 STM32_DEVMGR_MAGIC;
  output ← store output 2 STM32_DEVMGR_VERSION;
  output ← store output 3 type;
  output ← store output 4 flags;
  output ← store output 5 0;
  output ← stm32_put_le32 output 6 sequence;
  output ← stm32_put_le16 output 10 payload_length;
  output ← (if negb (payload_length =? 0)
            then payload ← payload;
                 memcpy output STM32_DEVMGR_HEADER_SIZE payload 0 payload_length
            else Some output);
  crc ← stm32_crc32 output (STM32_DEVMGR_HEADER_SIZE + payload_length);
  output ← stm32_put_le32 output (STM32_DEVMGR_HEADER_SIZE + payload_length) crc;
  Some (0, output, total).

(** ** Agreement with the host *)

Lemma u8_low v : u8 v = u8 (Z.land v 255).
Proof.
  unfold u8. change 255 with (Z.ones 8). rewrite Z.land_ones by lia.
  change (2 ^ 8) with 256. by rewrite Z.mod_mod by lia.
Qed.

Lemma stm32_put_le16_eq output off value :
  stm32_put_le16 output off value = devmgr_put_le16 output off value.
Proof. unfold stm32_put_le16, devmgr_put_le16. by rewrite (u8_low value). Qed.

Lemma stm32_put_le32_eq output off value :
  stm32_put_le32 output off value = devmgr_put_le32 output off value.
Proof.
  unfold stm32_put_le32, devmgr_put_le32.
  by rewrite (u8_low value), (u8_low (Z.shiftr value 8)), (u8_low (Z.shiftr value 16)).
Qed.

Lemma stm32_crc_bits crc n : Nat.iter n stm32_crc_bit crc = crc32_bits n crc.
Proof.
  change stm32_crc_bit with crc32_bit. revert crc. induction n as [|n IH]; intros crc; [done|].
  rewrite crc32_bits_S, <- IH. clear IH. induction n as [|n IH]; [done|]. cbn. by f_equal.
Qed.

Lemma stm32_crc_loop_eq bytes index n crc :
  stm32_crc_loop bytes index n crc = crc32_loop bytes index n crc.
Proof.
  revert index crc. induction n as [|n IH]; intros index crc; [done|].
  cbn [stm32_crc_loop crc32_loop]. destruct (load bytes index) as [b|]; cbn [mbind option_bind];
    [|reflexivity]. by rewrite stm32_crc_bits, IH.
Qed.

Lemma stm32_crc32_eq data length : stm32_crc32 data length = devmgr_crc32 (Some data) length.
Proof. unfold stm32_crc32. rewrite stm32_crc_loop_eq. done. Qed.

(** The optional copy of the payload. *)
Lemma copy_payload (p r payload : list Z) n :
  len p = 12 → 0 ≤ n ≤ len payload → n ≤ len r →
  (if negb (n =? 0)
   then payload ← Some payload; memcpy (p ++ r) STM32_DEVMGR_HEADER_SIZE payload 0 n
   else Some (p ++ r)) = Some ((p ++ take (Z.to_nat n) payload) ++ drop (Z.to_nat n) r).
Proof.
  intros Hp Hn Hr. destruct (Z.eqb_spec n 0) as [->|]; cbn [negb].
  - cbn. by rewrite drop_0, app_nil_r.
  - run_stmt. unfold memcpy, STM32_DEVMGR_HEADER_SIZE. rewrite mem_read_ok by lia. run_stmt.
    rewrite slice_0, mem_write_app by (rewrite ?length_take; lia).
    rewrite length_take. do 3 f_equal. lia.
Qed.

(** The encoder writes the wire format. *)
Lemma stm32_encode_spec type flags seq payload n output capacity el :
  is_u8 type → is_u8 flags → is_u32 seq → Forall is_u8 payload →
  0 ≤ n ≤ len payload → n ≤ STM32_DEVMGR_MAX_PAYLOAD → 16 + n ≤ capacity ≤ len output →
  let w := encode_wire (mk_wire type flags seq (take (Z.to_nat n) payload)) in
  stm32_frame_encode type flags seq (Some payload) n output capacity el =
    Some (0, w ++ drop (length w) output, 16 + n).
Proof.
  intros ? ? ? Hp Hn Hmax Hcap w.
  assert (Hb : Forall is_u8 (take (Z.to_nat n) payload)) by by apply Forall_take.
  assert (Hl : len (take (Z.to_nat n) payload) = n) by (rewrite length_take; lia).
  unfold stm32_frame_encode, STM32_DEVMGR_MAX_PAYLOAD, STM32_DEVMGR_HEADER_SIZE,
    STM32_DEVMGR_CRC_SIZE in *.
  zreduce. change output with ([] ++ output) at 1.
  assert (is_u16 n) by (unfold is_u16; lia).
  rewrite stm32_put_le16_eq, put_le16_app by (done || len_solve). run_stmt.
  do 4 (rewrite store_app by len_solve; run_stmt).
  rewrite stm32_put_le32_eq, put_le32_app by (done || len_solve). run_stmt.
  rewrite stm32_put_le16_eq, put_le16_app by (done || len_solve). run_stmt.
  pose proof copy_payload as Hcopy. unfold STM32_DEVMGR_HEADER_SIZE in Hcopy.
  rewrite Hcopy by len_solve. clear Hcopy. run_stmt.
  set (v := mk_wire type flags seq (take (Z.to_nat n) payload)) in *.
  match goal with |- context [stm32_crc32 (?p ++ _)] => assert (p = encode_body v) as -> end.
  { unfold encode_body. cbn [w_type w_flags w_sequence w_payload v].
    rewrite Hl, <- !(assoc_L (++)). done. }
  rewrite !drop_drop.
  assert (length (encode_body v) = Z.to_nat (12 + n)) as Hlb by (rewrite length_encode_body; cbn; lia).
  rewrite stm32_crc32_eq, devmgr_crc32_spec by len_solve.
  rewrite take_app_length' by lia. run_stmt.
  assert (wire_ok v) as Hv by (split_and!; cbn; auto; unfold DEVMGR_PROTOCOL_MAX_PAYLOAD; lia).
  rewrite stm32_put_le32_eq, put_le32_app
    by (done || len_solve || by apply crc_of_u32, encode_body_Forall).
  run_stmt. rewrite drop_drop. unfold w, encode_wire.
  replace (12 + n + 4) with (16 + n) by lia. do 4 f_equal.
  rewrite length_app, length_le_bytes, Hlb. f_equal. lia.
Qed.

(** The device accepts what the host accepts, and reads the same. *)
Lemma stm32_decode_spec data length frame :
  Forall is_u8 data → 0 ≤ length ≤ len data →
  let '(status, w) := decode_wire (take (Z.to_nat length) data) in
  ∃ status' frame',
    stm32_frame_decode data length frame = Some (status', frame') ∧
    (status' = 0 ↔ status = DEVMGR_OK) ∧
    (status = DEVMGR_OK → frame' = mk_view (w_type w) (w_flags w) (w_sequence w)
                                     (drop 12 data) (len (w_payload w))) ∧
    (status ≠ DEVMGR_OK → frame' = frame).
Proof.
  intros Hd Hlen.
  destruct (take_drop_at data length) as (w & rest & -> & -> & _); [lia|].
  rewrite Nat2Z.id, take_app_length. pose proof Hd as [Hw Hr]%Forall_app.
  rewrite length_app in Hlen.
  assert (Hfail : ∀ (status status' : Z) v, status ≠ DEVMGR_OK → status' ≠ 0 →
    let '(status, v) := (status, v) in
    ∃ status0 frame', Some (status', frame) = Some (status0, frame') ∧
      (status0 = 0 ↔ status = DEVMGR_OK) ∧
      (status = DEVMGR_OK → frame' = mk_view (w_type v) (w_flags v) (w_sequence v)
                                       (drop 12 (w ++ rest)) (len (w_payload v))) ∧
      (status ≠ DEVMGR_OK → frame' = frame)) by (intros; do 2 eexists; by repeat split).
  unfold decode_wire, stm32_frame_decode, STM32_DEVMGR_HEADER_SIZE,
    STM32_DEVMGR_CRC_SIZE, STM32_DEVMGR_VERSION. change (12 + 4) with 16.
  change stm32_get_le16 with devmgr_get_le16. change stm32_get_le32 with devmgr_get_le32.
  destruct (Z.ltb_spec (len w) 16); [by apply Hfail|].
  rewrite (get_le16_field _ 0) by (done || len_solve). run_stmt.
  rewrite !load_field by (done || len_solve). do 2 run_stmt.
  rewrite !field_prefix by lia. change DEVMGR_PROTOCOL_MAGIC with STM32_DEVMGR_MAGIC.
  destruct (negb _ || negb _ || negb _); [by apply Hfail|].
  rewrite (get_le16_field _ 10) by (done || len_solve). run_stmt.
  rewrite field_prefix by lia. pose proof (field_range w 10 2 Hw ltac:(lia)).
  set (n := field w 10 2) in *. change DEVMGR_PROTOCOL_MAX_PAYLOAD with STM32_DEVMGR_MAX_PAYLOAD.
  destruct (Z.ltb_spec STM32_DEVMGR_MAX_PAYLOAD n); [by apply Hfail|]. cbn [orb].
  replace (12 + n + 4) with (16 + n) by lia.
  destruct (Z.eqb_spec (len w) (16 + n)) as [Hlw|]; [|by apply Hfail]. cbn [negb].
  rewrite (get_le32_field _ (12 + n)) by (done || len_solve). run_stmt.
  rewrite field_prefix by lia. rewrite stm32_crc32_eq, devmgr_crc32_spec by len_solve. run_stmt.
  rewrite take_app_le, <- slice_0 by lia. destruct (negb _); [by apply Hfail|].
  do 2 run_stmt. rewrite (get_le32_field _ 6) by (done || len_solve). run_stmt.
  rewrite !field_prefix by lia. do 2 eexists. split; [done|]. split; [done|]. split; [|done].
  intros _. cbn -[slice]. rewrite len_slice by lia. done.
Qed.

(** The payload follows the header. *)
Lemma decode_wire_payload data n w :
  Forall is_u8 data → decode_wire (take n data) = (DEVMGR_OK, w) →
  ∃ rest, drop 12 data = w_payload w ++ rest.
Proof.
  intros Hd [E _]%decode_wire_inv; [|by apply Forall_take].
  exists (le_bytes 4 (crc_of (encode_body w)) ++ drop n data).
  rewrite <- (take_drop n data) at 1. rewrite E. unfold encode_wire, encode_body.
  set (c := le_bytes 4 (crc_of _)). by rewrite <- !(assoc_L (++)).
Qed.

(** ** Properties *)

(** C40: the device and the host speak the same language: on any buffer the
    device's decoder accepts exactly what the host's accepts and reads the same
    type, flags, sequence number and payload. *)
Theorem stm32_decode_agrees data length frame g :
  Forall is_u8 data → 0 ≤ length ≤ len data → frame_ok g →
  ∃ status g' status' frame',
    devmgr_frame_decode data length g = Some (status, g') ∧
    stm32_frame_decode data length frame = Some (status', frame') ∧
    (status' = 0 ↔ status = DEVMGR_OK) ∧
    (status = DEVMGR_OK →
       sv_type frame' = frame_type g' ∧ sv_flags frame' = frame_flags g' ∧
       sv_sequence frame' = frame_sequence g' ∧
       slice (sv_payload frame') 0 (sv_payload_length frame') = w_payload (view g')).
Proof.
  intros Hd Hlen Hg.
  pose proof (frame_decode_spec data length g Hd Hlen ltac:(apply Hg)) as Hh.
  pose proof (stm32_decode_spec data length frame Hd Hlen) as Hs.
  destruct (decode_wire (take (Z.to_nat length) data)) as [status w] eqn:E.
  destruct Hs as (status' & frame' & Es & Hiff & Hok & _).
  do 4 eexists. split; [exact Hh|]. split; [exact Es|]. split; [done|].
  intros ->. rewrite Z.eqb_refl, view_fill. rewrite (Hok eq_refl). cbn -[slice].
  repeat (split; [done|]). apply decode_wire_payload in E as (rest & Ed); [|done].
  by rewrite Ed, slice_prefix.
Qed.

Definition unset_view : stm32_frame_view := mk_view 0 0 0 [] 0.

Lemma stm32_decode_agrees_witness :
  ∃ status g' status' frame',
    devmgr_frame_decode sample_wire 20 zero_frame = Some (status, g') ∧
    stm32_frame_decode sample_wire 20 unset_view = Some (status', frame') ∧
    (status' = 0 ↔ status = DEVMGR_OK) ∧
    (status = DEVMGR_OK →
       sv_type frame' = frame_type g' ∧ sv_flags frame' = frame_flags g' ∧
       sv_sequence frame' = frame_sequence g' ∧
       slice (sv_payload frame') 0 (sv_payload_length frame') = w_payload (view g')).
Proof.
  apply (stm32_decode_agrees sample_wire 20 unset_view zero_frame).
  - apply sample_wire_Forall.
  - done.
  - apply zero_frame_ok.
Defined.

(** The device and the host write the same bytes for the same frame. *)
Theorem stm32_encode_agrees f output capacity el :
  frame_ok f → 16 + frame_payload_length f ≤ capacity ≤ len output →
  ∃ output' n,
    devmgr_frame_encode f output capacity el = Some (DEVMGR_OK, output', n) ∧
    stm32_frame_encode (frame_type f) (frame_flags f) (frame_sequence f) (Some (frame_payload f))
      (frame_payload_length f) output capacity el = Some (0, output', n).
Proof.
  intros Hf Hcap. pose proof Hf as (? & ? & ? & Hn & Hl & Hb).
  rewrite frame_encode_spec by done. do 2 eexists. split; [done|].
  unfold DEVMGR_PROTOCOL_MAX_PAYLOAD in *.
  rewrite stm32_encode_spec by (done || unfold STM32_DEVMGR_MAX_PAYLOAD; lia).
  rewrite length_encode_wire, len_view_payload by done. rewrite <- slice_0. done.
Qed.

