(* ===== verification/Stm32Update.v ===== *)
(** * Bootloader update: firmware/stm32f103/bootloader/update.h and update.c,
    and the request handler of firmware/stm32f103/application/device_app.c

    The flash driver is not part of the repository: its six operations are a
    parameter, and [FlashDriver] states what the update relies on. *)

From S2P Require Import Prelude Crc32 Frame Device Stm32Protocol.

(** ** The code *)

(** struct stm32_flash_ops, for a flash context of type [C]: each operation
    returns its status and the context after the call; [read] also returns the
    bytes it stored. *)
Record stm32_flash_ops (C : Type) := mk_flash_ops {
  flash_erase : C → Z → Z * C;
  flash_write : C → Z → list Z → Z * C;
  flash_read : C → Z → Z → Z * list Z * C;
  flash_crc32 : C → Z → Z * C;
  flash_activate : C → Z → Z → list Z → Z * C;
  flash_reboot : C → C;
}.
Arguments flash_erase {C}.
Arguments flash_write {C}.
Arguments flash_read {C}.
Arguments flash_crc32 {C}.
Arguments flash_activate {C}.
Arguments flash_reboot {C}.
Arguments mk_flash_ops {C}.

Inductive stm32_update_state :=
  | STM32_UPDATE_IDLE
  | STM32_UPDATE_RECEIVING
  | STM32_UPDATE_TRANSFERRED
  | STM32_UPDATE_VERIFIED.

#[export] Instance stm32_update_state_eq_dec : EqDecision stm32_update_state.
Proof. solve_decision. Defined.

Record stm32_update_context (C : Type) := mk_update {
  update_flash : stm32_flash_ops C;
  flash_context : C;
  update_state : stm32_update_state;
  update_session_id : Z;
  update_image_size : Z;
  update_image_crc : Z;
  next_offset : Z;
  update_chunk_size : Z;
  update_pending_version : list Z;
}.
Arguments mk_update {C}.
Arguments update_flash {C}.
Arguments flash_context {C}.
Arguments update_state {C}.
Arguments update_session_id {C}.
Arguments update_image_size {C}.
Arguments update_image_crc {C}.
Arguments next_offset {C}.
Arguments update_chunk_size {C}.
Arguments update_pending_version {C}.

#[export] Instance eta_update C : Eta (stm32_update_context C) := λ u,
  mk_update (update_flash u) (flash_context u) (update_state u) (update_session_id u)
    (update_image_size u) (update_image_crc u) (next_offset u) (update_chunk_size u)
    (update_pending_version u).

Definition NACK_INVALID_STATE : Z := 2.
Definition NACK_INVALID_PAYLOAD : Z := 3.
Definition NACK_OFFSET : Z := 5.
Definition NACK_STORAGE : Z := 6.
Definition NACK_VERIFY : Z := 7.

(** Where a response goes: the array, its capacity and [*response_length]. *)
Record response_buffer := mk_response {
  rb_bytes : list Z;
  rb_capacity : Z;
  rb_length : Z;
}.

Definition respond (request : stm32_frame_view) (type : Z) (payload : option (list Z))
    (payload_length : Z) (out : response_buffer) : option (Z * response_buffer) :=
  '(result, bytes, n) ← stm32_frame_encode type STM32_FRAME_RESPONSE (sv_sequence request) payload
                          payload_length (rb_bytes out) (rb_capacity out) (rb_length out);
  Some (result, mk_response bytes (rb_capacity out) n).

(** [unset] stands for the indeterminate bytes of a local array. *)
Definition nack (request : stm32_frame_view) (error : Z) (unset : list Z) (out : response_buffer)
    : option (Z * response_buffer) :=
  payload ← stm32_put_le16 (take 2 unset) 0 error;
  respond request STM32_MSG_NACK (Some payload) 2 out.

Section Code.
Context {C : Type}.

(** [flash] is [None] when the table or one of its six entries is NULL. *)
Definition stm32_update_init (flash : option (stm32_flash_ops C)) (context : C)
    (update : stm32_update_context C) : Z * stm32_update_context C :=
  match flash with
  | None => (-1, update)
  | Some flash => (0, mk_update flash context STM32_UPDATE_IDLE 1 0 0 0 0 (zeros 32))
  end.

(** The loop of duplicate_matches, with its fuel: the result and the context. *)
Fixpoint duplicate_loop (fuel : nat) (flash : stm32_flash_ops C) (context : C)
    (offset : Z) (data : list Z) (data_offset length checked : Z) : option (bool * C) :=
  if negb (checked <? length) then Some (true, context)
  else match fuel with
  | O => None
  | S fuel =>
      let remaining := u16 (length - checked) in
      let count := if remaining <? 32 then remaining else 32 in
      let '(status, scratch, context) := flash_read flash context (u32 (offset + checked)) count in
      if negb (status =? 0) then Some (false, context)
      else
      equal ← memcmp_eq scratch 0 data (data_offset + checked) count;
      if negb equal then Some (false, context)
      else duplicate_loop fuel flash context offset data data_offset length (u16 (checked + count))
  end.

Definition duplicate_matches (update : stm32_update_context C) (offset : Z) (data : list Z)
    (data_offset length : Z) : option (bool * stm32_update_context C) :=
  '(r, context) ← duplicate_loop (Z.to_nat length) (update_flash update) (flash_context update)
                    offset data data_offset length 0;
  Some (r, update <| flash_context := context |>).

Definition handle_begin (update : stm32_update_context C) (request : stm32_frame_view)
    (unset : list Z) (out : response_buffer)
    : option (Z * stm32_update_context C * response_buffer) :=
  let refuse (update : stm32_update_context C) code :=
    '(result, out) ← nack request code unset out; Some (result, update, out) in
  let accept (update : stm32_update_context C) second :=
    payload ← stm32_put_le32 (take 8 unset) 0 (update_session_id update);
    payload ← stm32_put_le32 payload 4 second;
    '(result, out) ← respond request (sv_type request) (Some payload) 8 out;
    Some (result, update, out) in
  if sv_payload_length request <? 11 then refuse update NACK_INVALID_PAYLOAD
  else
  size ← stm32_get_le32 (sv_payload request) 0;
  crc ← stm32_get_le32 (sv_payload request) 4;
  chunk ← stm32_get_le16 (sv_payload request) 8;
  end_ ← memchr0 (sv_payload request) 10 (sv_payload_length request - 10);
  let version_length := default 0 end_ in
  if (size =? 0) || (chunk =? 0) || (version_length =? 0) || (32 <=? version_length) then
    refuse update NACK_INVALID_PAYLOAD
  else
  same ← (if bool_decide (update_state update = STM32_UPDATE_RECEIVING) &&
             (size =? update_image_size update) && (crc =? update_image_crc update)
          then strcmp_eq (sv_payload request) 10 (update_pending_version update) 0
          else Some false);
  if (same : bool) then accept update (next_offset update)
  else
  let '(status, context) := flash_erase (update_flash update) (flash_context update) size in
  let update := update <| flash_context := context |> in
  if negb (status =? 0) then refuse update NACK_STORAGE
  else
  let id := u32 (update_session_id update + 1) in
  let id := if id =? 0 then 1 else id in
  version ← memcpy (update_pending_version update) 0 (sv_payload request) 10 (version_length + 1);
  accept (update <| update_session_id := id |> <| update_image_size := size |>
                 <| update_image_crc := crc |> <| update_chunk_size := chunk |>
                 <| next_offset := 0 |> <| update_pending_version := version |>
                 <| update_state := STM32_UPDATE_RECEIVING |>) 0.

Definition handle_data (update : stm32_update_context C) (request : stm32_frame_view)
    (unset : list Z) (out : response_buffer)
    : option (Z * stm32_update_context C * response_buffer) :=
  let refuse (update : stm32_update_context C) code :=
    '(result, out) ← nack request code unset out; Some (result, update, out) in
  let acknowledge (update : stm32_update_context C) :=
    payload ← stm32_put_le32 (take 4 unset) 0 (next_offset update);
    '(result, out) ← respond request (sv_type request) (Some payload) 4 out;
    Some (result, update, out) in
  if negb (bool_decide (update_state update = STM32_UPDATE_RECEIVING)) ||
     (sv_payload_length request <=? 8) then refuse update NACK_INVALID_STATE
  else
  id ← stm32_get_le32 (sv_payload request) 0;
  if negb (id =? update_session_id update) then refuse update NACK_INVALID_STATE
  else
  offset ← stm32_get_le32 (sv_payload request) 4;
  let data_length := u16 (sv_payload_length request - 8) in
  if (update_chunk_size update <? data_length) || (update_image_size update <? offset) ||
     (u32 (update_image_size update - offset) <? data_length) then refuse update NACK_OFFSET
  else if offset <? next_offset update then
    if next_offset update <? u32 (offset + data_length) then refuse update NACK_OFFSET
    else
    '(matches, update) ← duplicate_matches update offset (sv_payload request) 8 data_length;
    if negb matches then refuse update NACK_OFFSET else acknowledge update
  else if offset =? next_offset update then
    data ← mem_read (sv_payload request) 8 data_length;
    let '(status, context) := flash_write (update_flash update) (flash_context update) offset data in
    let update := update <| flash_context := context |> in
    if negb (status =? 0) then refuse update NACK_STORAGE
    else acknowledge (update <| next_offset := u32 (next_offset update + data_length) |>)
  else refuse update NACK_OFFSET.

Definition stm32_update_handle (update : stm32_update_context C) (request : stm32_frame_view)
    (unset : list Z) (out : response_buffer)
    : option (Z * stm32_update_context C * response_buffer) :=
  let refuse (update : stm32_update_context C) code :=
    '(result, out) ← nack request code unset out; Some (result, update, out) in
  let confirm (update : stm32_update_context C) payload length :=
    '(result, out) ← respond request (sv_type request) payload length out;
    Some (result, update, out) in
  let type := sv_type request in
  if type =? STM32_MSG_ENTER_BOOTLOADER then confirm update None 0
  else if type =? STM32_MSG_FW_BEGIN then handle_begin update request unset out
  else if type =? STM32_MSG_FW_DATA then handle_data update request unset out
  else if type =? STM32_MSG_FW_STATUS then
    if negb (sv_payload_length request =? 4) then refuse update NACK_INVALID_STATE
    else
    id ← stm32_get_le32 (sv_payload request) 0;
    if negb (id =? update_session_id update) then refuse update NACK_INVALID_STATE
    else
    payload ← stm32_put_le32 (take 8 unset) 0 (update_session_id update);
    payload ← stm32_put_le32 payload 4 (next_offset update);
    confirm update (Some payload) 8
  else if type =? STM32_MSG_FW_END then
    if negb (bool_decide (update_state update = STM32_UPDATE_RECEIVING)) ||
       negb (next_offset update =? update_image_size update) then refuse update NACK_OFFSET
    else confirm (update <| update_state := STM32_UPDATE_TRANSFERRED |>) None 0
  else if type =? STM32_MSG_FW_VERIFY then
    if negb (bool_decide (update_state update = STM32_UPDATE_TRANSFERRED)) then
      refuse update NACK_VERIFY
    else
    let '(crc, context) := flash_crc32 (update_flash update) (flash_context update)
                             (update_image_size update) in
    let update := update <| flash_context := context |> in
    if negb (crc =? update_image_crc update) then refuse update NACK_VERIFY
    else
    payload ← stm32_put_le32 (take 8 unset) 0 (update_image_crc update);
    confirm (update <| update_state := STM32_UPDATE_VERIFIED |>) (Some payload) 4
  else if type =? STM32_MSG_FW_ACTIVATE then
    if negb (bool_decide (update_state update = STM32_UPDATE_VERIFIED)) then
      refuse update NACK_INVALID_STATE
    else
    let '(status, context) := flash_activate (update_flash update) (flash_context update)
                                (update_image_size update) (update_image_crc update)
                                (update_pending_version update) in
    let update := update <| flash_context := context |> in
    if negb (status =? 0) then refuse update NACK_INVALID_STATE
    else confirm update None 0
  else if type =? STM32_MSG_REBOOT then
    '(result, update, out) ← confirm update None 0;
    Some (result,
          (if result =? 0
           then update <| flash_context := flash_reboot (update_flash update) (flash_context update) |>
           else update), out)
  else refuse update NACK_INVALID_PAYLOAD.

End Code.

(** ** The application *)

(** The identification of the reference port: the device number and five strings. *)
Definition stm32_info : list Z :=
  [0x30; 0x4D; 0x49; 0x53;
   83; 84; 77; 51; 50; 45; 82; 69; 70; 0;
   72; 87; 45; 49; 46; 48; 0;
   49; 46; 48; 46; 48; 0;
   66; 76; 45; 49; 46; 48; 46; 48; 0;
   82; 69; 70; 48; 48; 48; 48; 48; 48; 48; 49; 0].

Definition stm32_application_handle (request : stm32_frame_view) (unset : list Z)
    (out : response_buffer) : option (Z * response_buffer) :=
  if sv_type request =? STM32_MSG_PING then
    respond request (sv_type request) (Some (sv_payload request)) (sv_payload_length request) out
  else if sv_type request =? STM32_MSG_GET_INFO then
    respond request (sv_type request) (Some stm32_info) (len stm32_info) out
  else
  error ← stm32_put_le16 (take 2 unset) 0 1;
  respond request STM32_MSG_NACK (Some error) 2 out.

(** ** What the flash driver promises *)

(** [flash_bytes] is the update area of [capacity] bytes, [flash_running] the
    version that runs.  A failed erase may leave anything in the area, a failed
    write anything from its offset on; a failed activation changes nothing. *)
Class FlashDriver {C : Type} (flash : stm32_flash_ops C) (capacity : Z) := {
  flash_ok : C → Prop;
  flash_bytes : C → list Z;
  flash_running : C → list Z;
  flash_area c : flash_ok c → len (flash_bytes c) = capacity;
  erase_law c n status c' :
    flash_ok c → flash_erase flash c n = (status, c') →
    flash_ok c' ∧ flash_running c' = flash_running c ∧ (status = 0 → n ≤ capacity);
  write_law c off data status c' :
    flash_ok c → 0 ≤ off → off + len data ≤ capacity → Forall is_u8 data →
    flash_write flash c off data = (status, c') →
    flash_ok c' ∧ flash_running c' = flash_running c ∧
    (status = 0 → flash_bytes c' = splice (flash_bytes c) off data) ∧
    take (Z.to_nat off) (flash_bytes c') = take (Z.to_nat off) (flash_bytes c);
  read_law c off n status bytes c' :
    flash_ok c → 0 ≤ off → 0 ≤ n → off + n ≤ capacity →
    flash_read flash c off n = (status, bytes, c') →
    flash_ok c' ∧ flash_bytes c' = flash_bytes c ∧ flash_running c' = flash_running c ∧
    (status = 0 → bytes = slice (flash_bytes c) off n);
  crc_law c n crc c' :
    flash_ok c → 0 ≤ n ≤ capacity → flash_crc32 flash c n = (crc, c') →
    flash_ok c' ∧ flash_bytes c' = flash_bytes c ∧ flash_running c' = flash_running c ∧
    crc = crc_of (take (Z.to_nat n) (flash_bytes c));
  activate_law c size crc version str status c' :
    flash_ok c → holds_string version str →
    flash_activate flash c size crc version = (status, c') →
    flash_ok c' ∧ flash_bytes c' = flash_bytes c ∧
    flash_running c' = (if status =? 0 then str else flash_running c);
  reboot_law c :
    flash_ok c →
    flash_ok (flash_reboot flash c) ∧ flash_bytes (flash_reboot flash c) = flash_bytes c ∧
    flash_running (flash_reboot flash c) = flash_running c;
}.

(** ** Responses *)

(** What a request view says. *)
Definition request_wire (request : stm32_frame_view) : wire_frame :=
  mk_wire (sv_type request) (sv_flags request) (sv_sequence request)
          (slice (sv_payload request) 0 (sv_payload_length request)).

Definition request_view_ok (request : stm32_frame_view) : Prop :=
  is_u8 (sv_type request) ∧ is_u8 (sv_flags request) ∧ is_u32 (sv_sequence request) ∧
  Forall is_u8 (sv_payload request) ∧
  0 ≤ sv_payload_length request ≤ len (sv_payload request) ∧
  sv_payload_length request ≤ STM32_DEVMGR_MAX_PAYLOAD.

(** Room for any response of the update. *)
Definition buffer_ok (out : response_buffer) : Prop :=
  24 ≤ rb_capacity out ≤ len (rb_bytes out).

Definition unset_ok (unset : list Z) : Prop := 8 ≤ len unset ∧ Forall is_u8 unset.

(** The buffer holds the encoding of [resp]. *)
Definition answered_with (resp : wire_frame) (out : response_buffer) : Prop :=
  wire_ok resp ∧ rb_length out = len (encode_wire resp) ∧
  slice (rb_bytes out) 0 (rb_length out) = encode_wire resp.

(** The response fits the buffer, or nothing is written. *)
Lemma respond_or_fail request type payload n out :
  is_u32 (sv_sequence request) → is_u8 type → Forall is_u8 payload → 0 ≤ n ≤ len payload →
  n ≤ STM32_DEVMGR_MAX_PAYLOAD → rb_capacity out ≤ len (rb_bytes out) →
  let resp := mk_wire type STM32_FRAME_RESPONSE (sv_sequence request) (take (Z.to_nat n) payload) in
  if len (encode_wire resp) <=? rb_capacity out then
    ∃ out', respond request type (Some payload) n out = Some (0, out') ∧ answered_with resp out'
  else respond request type (Some payload) n out = Some (-1, out).
Proof.
  intros Hseq Ht Hp Hn Hm Hb resp. unfold respond.
  assert (Hl : len (take (Z.to_nat n) payload) = n) by (rewrite length_take; lia).
  assert (Hw : len (encode_wire resp) = 16 + n) by (rewrite length_encode_wire; cbn; lia).
  rewrite Hw. destruct (Z.leb_spec (16 + n) (rb_capacity out)).
  - rewrite stm32_encode_spec by (done || lia). run_stmt. cbv iota. eexists. split; [done|].
    unfold STM32_DEVMGR_MAX_PAYLOAD in Hm.
    split; [|cbn [rb_length rb_bytes]; split; [done|by apply slice_prefix]].
    split; [done|]. split; [done|]. split; [done|]. split; [by apply Forall_take|].
    cbn. unfold DEVMGR_PROTOCOL_MAX_PAYLOAD. lia.
  - unfold stm32_frame_encode, STM32_DEVMGR_HEADER_SIZE, STM32_DEVMGR_CRC_SIZE.
    rewrite (proj2 (Z.ltb_lt (rb_capacity out) (12 + n + 4))) by lia.
    rewrite !orb_true_r. run_stmt. by destruct out.
Qed.

Lemma respond_spec request type payload n out :
  request_view_ok request → is_u8 type → Forall is_u8 payload → 0 ≤ n ≤ len payload → n ≤ 8 →
  buffer_ok out →
  ∃ out', respond request type (Some payload) n out = Some (0, out') ∧
    answered_with (mk_wire type STM32_FRAME_RESPONSE (sv_sequence request)
                     (take (Z.to_nat n) payload)) out'.
Proof.
  intros (_ & _ & ? & _) Ht Hp Hn Hn8 Hb. unfold buffer_ok in *.
  pose proof (respond_or_fail request type payload n out) as Hr. cbv zeta in Hr.
  rewrite length_encode_wire in Hr. cbn [w_payload] in Hr. rewrite length_take in Hr.
  rewrite (proj2 (Z.leb_le _ _)) in Hr by lia.
  apply Hr; (done || unfold STM32_DEVMGR_MAX_PAYLOAD; lia).
Qed.

Lemma encode_empty type flags seq output capacity el :
  stm32_frame_encode type flags seq None 0 output capacity el =
  stm32_frame_encode type flags seq (Some []) 0 output capacity el.
Proof. done. Qed.

Lemma respond_empty request type out :
  request_view_ok request → is_u8 type → buffer_ok out →
  ∃ out', respond request type None 0 out = Some (0, out') ∧
    answered_with (mk_wire type STM32_FRAME_RESPONSE (sv_sequence request) []) out'.
Proof.
  intros. unfold respond. rewrite encode_empty.
  by apply (respond_spec request type [] 0 out).
Qed.

Lemma put_half unset v :
  unset_ok unset → is_u16 v → stm32_put_le16 (take 2 unset) 0 v = Some (le_bytes 2 v).
Proof.
  intros [Hu _] Hv. rewrite stm32_put_le16_eq. change (take 2 unset) with ([] ++ take 2 unset).
  rewrite put_le16_app by (done || rewrite length_take; lia).
  rewrite drop_ge, app_nil_r by (rewrite length_take; lia). done.
Qed.

Lemma nack_response request error unset out :
  request_view_ok request → is_u16 error → unset_ok unset → buffer_ok out →
  ∃ resp out', nack request error unset out = Some (0, out') ∧ answered_with resp out' ∧
    is_nack (request_wire request) resp.
Proof.
  intros Hr He Hu Hb. unfold nack. rewrite put_half by done. run_stmt.
  destruct (respond_spec request STM32_MSG_NACK (le_bytes 2 error) 2 out) as (out' & E & Ha);
    [done..|apply le_bytes_Forall|by rewrite length_le_bytes|done|done|].
  do 2 eexists. split; [exact E|]. split; [exact Ha|]. split; [done|]. split; [done|]. apply Ha.
Qed.

Lemma put_word unset n v :
  unset_ok unset → is_u32 v → (4 ≤ n ≤ 8)%nat →
  stm32_put_le32 (take n unset) 0 v = Some (le_bytes 4 v ++ drop 4 (take n unset)).
Proof.
  intros [Hu _] Hv Hn. rewrite stm32_put_le32_eq. change (take n unset) with ([] ++ take n unset) at 1.
  by rewrite put_le32_app by (done || rewrite length_take; lia).
Qed.

Lemma put_words unset v1 v2 :
  unset_ok unset → is_u32 v1 → is_u32 v2 →
  (payload ← stm32_put_le32 (take 8 unset) 0 v1; stm32_put_le32 payload 4 v2) =
  Some (le_bytes 4 v1 ++ le_bytes 4 v2).
Proof.
  intros Hu H1 H2. rewrite put_word by (done || lia). run_stmt. destruct Hu as [Hu _].
  rewrite stm32_put_le32_eq, put_le32_app
    by (done || rewrite ?length_le_bytes, ?length_drop, ?length_take; lia).
  rewrite drop_ge, app_nil_r by (rewrite length_drop, length_take; lia). done.
Qed.

(** ** Each handler keeps the contract of the slot *)

Section Contract.
Context {C : Type} (flash : stm32_flash_ops C) (capacity : Z) `{!FlashDriver flash capacity}.

(** The state between requests. *)
Definition stm_ok (u : stm32_update_context C) : Prop :=
  update_flash u = flash ∧ flash_ok (flash_context u) ∧
  is_u32 (update_session_id u) ∧ update_session_id u ≠ 0 ∧ is_u32 (update_image_crc u) ∧
  is_u32 (update_image_size u) ∧ update_image_size u ≤ capacity ∧
  0 ≤ next_offset u ≤ update_image_size u ∧ version_ok (update_pending_version u).

Definition stm_image (u : stm32_update_context C) : list Z :=
  take (Z.to_nat (update_image_size u)) (flash_bytes (flash_context u)).

Definition stm_slot (u : stm32_update_context C) : slot :=
  mk_slot (update_session_id u) (update_image_size u) (update_image_crc u)
    (string_of (update_pending_version u)) (stm_image u) (next_offset u)
    (bool_decide (update_state u = STM32_UPDATE_RECEIVING))
    (bool_decide (update_state u = STM32_UPDATE_VERIFIED)) (flash_running (flash_context u)).

Lemma len_stm_image u : stm_ok u → len (stm_image u) = update_image_size u.
Proof.
  intros (_ & Hf & _ & _ & _ & Hs & Hc & _). unfold stm_image, is_u32 in *.
  rewrite length_take. pose proof (flash_area _ Hf). lia.
Qed.

Lemma stm_slot_ok u : stm_ok u → slot_ok (stm_slot u).
Proof.
  intros Hu. pose proof (len_stm_image u Hu).
  destruct Hu as (_ & _ & ? & ? & ? & ? & _ & ? & _). split_and!; cbn; try done; try lia.
Qed.

Lemma flash_changed u c' : stm_ok u → flash_ok c' → stm_ok (u <| flash_context := c' |>).
Proof. intros (? & ? & Hrest) ?. done. Qed.

(** A call that leaves the flash as it was. *)
Lemma same_flash u c' :
  stm_ok u → flash_ok c' → flash_bytes c' = flash_bytes (flash_context u) →
  flash_running c' = flash_running (flash_context u) →
  stm_ok (u <| flash_context := c' |>) ∧ stm_slot (u <| flash_context := c' |>) = stm_slot u.
Proof.
  intros Hu Hok Hbytes Hrun. split; [exact (flash_changed u c' Hu Hok)|].
  unfold stm_slot, stm_image. cbn. by rewrite Hbytes, Hrun.
Qed.

(** The state in which a transfer begins. *)
Lemma begun_state u c' id size crc chunk version v :
  stm_ok u → flash_ok c' → is_u32 id → id ≠ 0 → is_u32 size → size ≤ capacity → is_u32 crc →
  version_ok version → string_of version = v →
  let u' := u <| flash_context := c' |> <| update_session_id := id |> <| update_image_size := size |>
              <| update_image_crc := crc |> <| update_chunk_size := chunk |> <| next_offset := 0 |>
              <| update_pending_version := version |> <| update_state := STM32_UPDATE_RECEIVING |> in
  stm_ok u' ∧ len (stm_image u') = size ∧
  stm_slot u' = mk_slot id size crc v (stm_image u') 0 true false (flash_running c').
Proof.
  intros (? & _) ??? Hsize ???? u'. pose proof (proj1 Hsize).
  assert (stm_ok u') as Hu' by by repeat (split; [done|]).
  split; [done|]. split; [by rewrite len_stm_image|]. by subst v.
Qed.

(** The comparison of a repeated block with the flash. *)
Lemma duplicate_loop_spec fuel c offset data doff n checked :
  flash_ok c → 0 ≤ checked ≤ n → (Z.to_nat (n - checked) ≤ fuel)%nat → is_u16 n →
  0 ≤ offset → is_u32 (offset + n) → offset + n ≤ capacity → 0 ≤ doff → doff + n ≤ len data →
  ∃ r c', duplicate_loop fuel flash c offset data doff n checked = Some (r, c') ∧
    flash_ok c' ∧ flash_bytes c' = flash_bytes c ∧ flash_running c' = flash_running c ∧
    (r = true → slice (flash_bytes c) (offset + checked) (n - checked) =
                slice data (doff + checked) (n - checked)).
Proof.
  revert c checked. induction fuel as [|fuel IH]; intros c checked Hc Hk Hf Hn Ho Ho32 Hcap Hd Hdn;
    cbn [duplicate_loop]; (destruct (Z.ltb_spec checked n); cbn [negb]).
  { lia. }
  1, 3: replace checked with n by lia; rewrite Z.sub_diag, !slice_nil; by exists true, c.
  unfold is_u32, is_u16 in *. rewrite u16_id by (unfold is_u16; lia).
  set (count := if n - checked <? 32 then _ else _).
  assert (0 < count ≤ n - checked) as Hcount by (unfold count; ztests; lia).
  rewrite u32_id by (unfold is_u32; lia).
  destruct (flash_read flash c (offset + checked) count) as [[status bytes] c1] eqn:Er.
  destruct (read_law c (offset + checked) count _ _ _ Hc ltac:(lia) ltac:(lia) ltac:(lia) Er)
    as (Hc1 & Hb1 & Hr1 & Hok).
  destruct (Z.eqb_spec status 0) as [Es|]; cbn [negb]; [|by exists false, c1].
  rewrite (Hok Es). pose proof (flash_area _ Hc).
  unfold memcmp_eq. rewrite !mem_read_ok by (rewrite ?len_slice; lia). do 3 run_stmt.
  case_bool_decide as Eq; cbn [negb]; [|by exists false, c1].
  rewrite u16_id by (unfold is_u16; lia).
  destruct (IH c1 (checked + count)) as (r & c2 & E & Hc2 & Hb2 & Hr2 & Hm); try (done || lia).
  exists r, c2. split; [exact E|]. split; [done|]. split; [congruence|]. split; [congruence|].
  intros Hr. specialize (Hm Hr). rewrite Hb1 in Hm.
  replace (n - checked) with (count + (n - (checked + count))) by lia.
  rewrite !slice_split by lia. rewrite <- !Z.add_assoc, Hm.
  f_equal. rewrite <- Eq, (slice_0 (slice _ _ _)), take_ge; [done|]. rewrite length_slice; lia.
Qed.

(** The request is answered, and the answer is one the contract allows. *)
Definition handled (u : stm32_update_context C) (request : stm32_frame_view)
    (outcome : option (Z * stm32_update_context C * response_buffer)) : Prop :=
  ∃ u' out' resp, outcome = Some (0, u', out') ∧ answered_with resp out' ∧ stm_ok u' ∧
    slot_step (stm_slot u) (request_wire request) resp (stm_slot u').

Section Handlers.
Context (u : stm32_update_context C) (request : stm32_frame_view) (unset : list Z).
Context (out : response_buffer).
Context (Hu : stm_ok u) (Hr : request_view_ok request) (Hx : unset_ok unset) (Hb : buffer_ok out).

Lemma handled_nack u' code :
  is_u16 code → stm_ok u' →
  (∀ resp, is_nack (request_wire request) resp →
     slot_step (stm_slot u) (request_wire request) resp (stm_slot u')) →
  handled u request ('(result, out) ← nack request code unset out; Some (result, u', out)).
Proof.
  intros Hc Hu' Hstep.
  destruct (nack_response request code unset out) as (resp & out' & -> & Ha & Hn); [done..|].
  run_stmt. exists u', out', resp. auto.
Qed.

Lemma handled_kept u' code :
  stm_ok u' → stm_slot u' = stm_slot u → is_u16 code →
  handled u request ('(result, out) ← nack request code unset out; Some (result, u', out)).
Proof. intros ? Hslot ?. apply handled_nack; [done..|]. intros. rewrite Hslot. by apply slot_refuse. Qed.

Lemma handled_refuse code :
  is_u16 code →
  handled u request ('(result, out) ← nack request code unset out; Some (result, u, out)).
Proof. intros. by apply handled_kept. Qed.

Lemma handled_ack u' payload rest n :
  stm_ok u' → Forall is_u8 (payload ++ rest) → n = len payload → n ≤ 8 →
  slot_step (stm_slot u) (request_wire request) (ack (request_wire request) payload)
            (stm_slot u') →
  handled u request
    ('(result, out) ← respond request (sv_type request) (Some (payload ++ rest)) n out;
     Some (result, u', out)).
Proof.
  intros Hu' Hp -> Hn Hstep.
  destruct (respond_spec request (sv_type request) (payload ++ rest) (len payload) out)
    as (out' & -> & Ha); [done|apply Hr|done|rewrite length_app; lia|done|done|].
  run_stmt. do 3 eexists. split; [done|]. split; [exact Ha|]. split; [done|].
  rewrite Nat2Z.id, take_app_length. done.
Qed.

Lemma handled_empty u' :
  stm_ok u' →
  slot_step (stm_slot u) (request_wire request) (ack (request_wire request) []) (stm_slot u') →
  handled u request
    ('(result, out) ← respond request (sv_type request) None 0 out; Some (result, u', out)).
Proof.
  intros Hu' Hstep.
  destruct (respond_empty request (sv_type request) out) as (out' & -> & Ha); [done|apply Hr|done|].
  run_stmt. do 3 eexists. split; [done|]. by split; [exact Ha|].
Qed.

Lemma handled_words u' v1 v2 :
  stm_ok u' → is_u32 v1 → is_u32 v2 →
  slot_step (stm_slot u) (request_wire request)
    (ack (request_wire request) (le_bytes 4 v1 ++ le_bytes 4 v2)) (stm_slot u') →
  handled u request
    (payload ← stm32_put_le32 (take 8 unset) 0 v1;
     payload ← stm32_put_le32 payload 4 v2;
     '(result, out) ← respond request (sv_type request) (Some payload) 8 out;
     Some (result, u', out)).
Proof.
  intros Hu' H1 H2 Hstep. pose proof (put_words unset v1 v2 Hx H1 H2) as E.
  rewrite put_word in E by (done || lia). rewrite put_word by (done || lia).
  run_stmt. cbn [mbind option_bind] in E. rewrite E. run_stmt.
  rewrite <- (app_nil_r (le_bytes 4 v1 ++ le_bytes 4 v2)).
  apply handled_ack; [done| |by rewrite length_app, !length_le_bytes|done|done].
  rewrite app_nil_r. apply Forall_app; auto with devmgr.
Qed.

(** The fields of the request. *)
Lemma request_field32 off :
  0 ≤ off → off + 4 ≤ sv_payload_length request →
  stm32_get_le32 (sv_payload request) off = Some (field (sv_payload request) off 4).
Proof.
  intros. destruct Hr as (_ & _ & _ & ? & ? & _).
  change stm32_get_le32 with devmgr_get_le32. apply get_le32_field; (done || lia).
Qed.

Lemma handle_status_spec :
  sv_type request = STM32_MSG_FW_STATUS →
  handled u request (stm32_update_handle u request unset out).
Proof.
  intros Ht. unfold stm32_update_handle. rewrite Ht. cbn -[stm32_get_le32 nack respond].
  destruct (Z.eqb_spec (sv_payload_length request) 4) as [El|]; [|by apply handled_refuse].
  cbn [negb]. rewrite request_field32 by lia. run_stmt.
  destruct (Z.eqb_spec (field (sv_payload request) 0 4) (update_session_id u)) as [E|];
    [|by apply handled_refuse]. cbn [negb].
  pose proof Hu as (_ & _ & ? & _ & _ & ? & _ & ? & _). rewrite <- Ht.
  apply handled_words; [done|done|unfold is_u32 in *; lia|].
  apply slot_status; [done|]. cbn [request_wire w_payload stm_slot slot_session]. rewrite El, <- E.
  destruct Hr as (_ & _ & _ & ? & ? & _). apply word_view; [done|lia].
Qed.

Lemma handle_end_spec :
  sv_type request = STM32_MSG_FW_END →
  handled u request (stm32_update_handle u request unset out).
Proof.
  intros Ht. unfold stm32_update_handle. rewrite Ht. cbn -[nack respond].
  case_bool_decide as Es; [|by apply handled_refuse]. cbn [negb orb].
  destruct (Z.eqb_spec (next_offset u) (update_image_size u)) as [E|]; [|by apply handled_refuse].
  cbn [negb]. rewrite <- Ht. apply handled_empty; [done|].
  pose proof (slot_end (stm_slot u) (request_wire request) false Ht E) as Hstep.
  rewrite andb_false_r in Hstep. unfold stm_slot in *. cbn in Hstep |- *. by rewrite !Es in Hstep |- *.
Qed.

Lemma handle_verify_spec :
  sv_type request = STM32_MSG_FW_VERIFY →
  handled u request (stm32_update_handle u request unset out).
Proof.
  intros Ht. pose proof Hu as (Hfl & Hfo & _ & _ & Hcrc & [Hsz _] & Hcap & _).
  unfold stm32_update_handle. rewrite Ht. cbn -[nack respond stm32_put_le32].
  case_bool_decide as Es; [|by apply handled_refuse]. cbn [negb].
  destruct (flash_crc32 _ _ _) as [crc c'] eqn:Ec. rewrite Hfl in Ec.
  destruct (crc_law _ _ _ _ Hfo (conj Hsz Hcap) Ec) as (Hok & Hbytes & Hrun & ->).
  destruct (same_flash u c' Hu Hok Hbytes Hrun) as [Hu' Hslot].
  change (take (Z.to_nat (update_image_size u)) _) with (stm_image u).
  destruct (Z.eqb_spec (crc_of (stm_image u)) (update_image_crc u)) as [E|]; cycle 1.
  { by apply (handled_kept _ _ Hu' Hslot). }
  cbn [negb]. rewrite put_word by (done || lia). run_stmt. rewrite <- Ht.
  apply handled_ack; [done| |done..|].
  { destruct Hx. apply Forall_app; split; [auto with devmgr|]. by apply Forall_drop, Forall_take. }
  pose proof (slot_verify (stm_slot u) (request_wire request) Ht E) as Hstep.
  unfold stm_slot, stm_image in *. cbn in Hstep |- *. by rewrite Hbytes, Hrun, !Es in *.
Qed.

Lemma handle_activate_spec :
  sv_type request = STM32_MSG_FW_ACTIVATE →
  handled u request (stm32_update_handle u request unset out).
Proof.
  intros Ht. pose proof Hu as (Hfl & Hfo & _ & _ & _ & _ & _ & _ & (_ & _ & v & Hv)).
  unfold stm32_update_handle. rewrite Ht. cbn -[nack respond].
  case_bool_decide as Es; [|by apply handled_refuse]. cbn [negb].
  destruct (flash_activate _ _ _ _ _) as [status c'] eqn:Ec. rewrite Hfl in Ec.
  destruct (activate_law _ _ _ _ v _ _ Hfo Hv Ec) as (Hok & Hbytes & Hrun).
  destruct (Z.eqb_spec status 0); cycle 1.
  { destruct (same_flash u c' Hu Hok Hbytes Hrun) as [Hu' Hslot].
    by apply (handled_kept _ _ Hu' Hslot). }
  cbn [negb]. rewrite <- Ht. apply handled_empty; [exact (flash_changed u c' Hu Hok)|].
  pose proof (slot_activate (stm_slot u) (request_wire request) Ht) as Hstep.
  unfold stm_slot, stm_image in *. cbn in Hstep |- *.
  rewrite (string_of_holds _ v Hv), !Es in Hstep. rewrite (string_of_holds _ v Hv), Hbytes, Hrun, !Es.
  by apply Hstep.
Qed.

Lemma handle_reboot_spec :
  sv_type request = STM32_MSG_REBOOT →
  handled u request (stm32_update_handle u request unset out).
Proof.
  intros Ht. pose proof Hu as (Hfl & Hfo & _).
  destruct (reboot_law _ Hfo) as (Hok & Hbytes & Hrun).
  destruct (same_flash u _ Hu Hok Hbytes Hrun) as [Hu' Hslot].
  unfold stm32_update_handle. rewrite Ht. cbn -[nack respond].
  destruct (respond_empty request STM32_MSG_REBOOT out) as (out' & -> & Ha); [done..|].
  cbn [mbind option_bind].
  replace (flash_reboot (update_flash u) _) with (flash_reboot flash (flash_context u))
    by by rewrite Hfl.
  do 3 eexists. split; [reflexivity|]. split; [exact Ha|]. split; [exact Hu'|].
  cbn in Hslot |- *. rewrite Hslot.
  pose proof (slot_reboot (stm_slot u) (request_wire request) true true Ht) as Hstep.
  rewrite !andb_true_r in Hstep. unfold ack in Hstep. cbn [request_wire w_type] in Hstep.
  by rewrite Ht in Hstep.
Qed.

(** The end of the DATA handler, from a state [u'] that took the data. *)
Lemma handle_data_ack u' :
  stm_ok u' →
  slot_step (stm_slot u) (request_wire request)
    (ack (request_wire request) (le_bytes 4 (next_offset u'))) (stm_slot u') →
  handled u request
    (payload ← stm32_put_le32 (take 4 unset) 0 (next_offset u');
     '(result, out) ← respond request (sv_type request) (Some payload) 4 out;
     Some (result, u', out)).
Proof.
  intros Hu' Hstep. pose proof Hu' as (_ & _ & _ & _ & _ & ? & _ & ? & _). unfold is_u32 in *.
  rewrite put_word by (done || unfold is_u32; lia). run_stmt.
  apply handled_ack; [done| |done..]. destruct Hx.
  apply Forall_app; split; [auto with devmgr|]. by apply Forall_drop, Forall_take.
Qed.

(** What the flash holds after a block is written behind the bytes received. *)
Lemma write_image c' data :
  next_offset u + len data ≤ update_image_size u →
  flash_bytes c' = splice (flash_bytes (flash_context u)) (next_offset u) data →
  take (Z.to_nat (update_image_size u)) (flash_bytes c') =
  splice (stm_image u) (next_offset u) data.
Proof.
  intros Hn ->. pose proof Hu as (_ & Hfo & _ & _ & _ & ? & ? & ? & _).
  pose proof (len_stm_image u Hu). pose proof (flash_area _ Hfo). unfold stm_image, is_u32 in *.
  apply list_eq. intros i. destruct (decide (i < Z.to_nat (update_image_size u))%nat) as [Hi|].
  - rewrite lookup_take_lt, !lookup_splice by lia. repeat case_decide; try done.
    by rewrite lookup_take_lt by lia.
  - rewrite !lookup_ge_None_2; [done|..]; rewrite ?length_take, ?length_splice; lia.
Qed.

(** A repeated block. *)
Lemma handle_repeat_spec off n :
  update_state u = STM32_UPDATE_RECEIVING → sv_type request = STM32_MSG_FW_DATA →
  w_payload (request_wire request) =
    le_bytes 4 (update_session_id u) ++ le_bytes 4 off ++ slice (sv_payload request) 8 n →
  is_u16 n → 0 ≤ off → off + n ≤ next_offset u → 8 + n ≤ len (sv_payload request) →
  handled u request
    ('(matches, update) ← duplicate_matches u off (sv_payload request) 8 n;
     if negb matches
     then '(result, out) ← nack request NACK_OFFSET unset out; Some (result, update, out)
     else payload ← stm32_put_le32 (take 4 unset) 0 (next_offset update);
          '(result, out) ← respond request (sv_type request) (Some payload) 4 out;
          Some (result, update, out)).
Proof.
  intros Es Ht Hw Hn Hoff Hle Hl. unfold duplicate_matches.
  pose proof Hu as (Hfl & Hfo & _ & _ & _ & ? & ? & ? & _). rewrite Hfl. unfold is_u32, is_u16 in *.
  destruct (duplicate_loop_spec (Z.to_nat n) (flash_context u) off (sv_payload request) 8 n 0)
    as (r & c' & -> & Hok & Hbytes & Hrun & Hm); unfold is_u16, is_u32; try (done || lia).
  cbn [mbind option_bind]. destruct (same_flash u c' Hu Hok Hbytes Hrun) as [Hu' Hslot].
  destruct r; cbn [negb]; [|by apply (handled_kept _ _ Hu' Hslot)].
  apply (handle_data_ack _ Hu'). rewrite Hslot.
  specialize (Hm eq_refl). rewrite !Z.add_0_r, !Z.sub_0_r in Hm.
  assert (len (slice (sv_payload request) 8 n) = n) as Hdn by (rewrite len_slice; lia).
  apply (slot_repeat (stm_slot u) _ off (slice (sv_payload request) 8 n)); cbn -[slice];
    [done|by rewrite Es|done|lia|lia|].
  rewrite Hdn, <- Hm. unfold stm_image. by rewrite <- slice_0, slice_slice by lia.
Qed.

(** The next block. *)
Lemma handle_write_spec n :
  update_state u = STM32_UPDATE_RECEIVING → sv_type request = STM32_MSG_FW_DATA →
  w_payload (request_wire request) =
    le_bytes 4 (update_session_id u) ++ le_bytes 4 (next_offset u) ++
    slice (sv_payload request) 8 n →
  is_u16 n → next_offset u + n ≤ update_image_size u → 8 + n ≤ len (sv_payload request) →
  handled u request
    (data ← mem_read (sv_payload request) 8 n;
     let '(status, context) := flash_write (update_flash u) (flash_context u) (next_offset u) data in
     let update := u <| flash_context := context |> in
     if negb (status =? 0)
     then '(result, out) ← nack request NACK_STORAGE unset out; Some (result, update, out)
     else
     let update := update <| next_offset := u32 (next_offset update + n) |> in
     payload ← stm32_put_le32 (take 4 unset) 0 (next_offset update);
     '(result, out) ← respond request (sv_type request) (Some payload) 4 out;
     Some (result, update, out)).
Proof.
  intros Es Ht Hw Hn Hle Hl. unfold is_u16 in *. rewrite mem_read_ok by lia. run_stmt.
  pose proof Hu as (Hfl & Hfo & ? & ? & ? & Hsz & Hcap & ? & Hpv). unfold is_u32 in Hsz.
  set (data := slice (sv_payload request) 8 n) in *.
  assert (len data = n) as Hdn by (unfold data; rewrite len_slice; lia).
  assert (Forall is_u8 data) as Hdb by (apply slice_Forall, Hr).
  destruct (flash_write _ _ _ _) as [status c'] eqn:Ew. rewrite Hfl in Ew.
  destruct (write_law _ (next_offset u) data _ _ Hfo ltac:(lia) ltac:(lia) Hdb Ew)
    as (Hok & Hrun & Hwr & Hkeep).
  pose proof (flash_changed u c' Hu Hok) as Hu'. cbv zeta.
  destruct (Z.eqb_spec status 0) as [E|]; cbn [negb].
  - pose proof (write_image c' data ltac:(lia) (Hwr E)) as Himg.
    assert (u32 (next_offset u + n) = next_offset u + len data) as Eu
      by (rewrite u32_id; unfold is_u32; lia).
    apply (handle_data_ack (u <| flash_context := c' |> <| next_offset := u32 (next_offset u + n) |>)).
    + destruct Hu' as (? & ? & ? & ? & ? & ? & ? & ? & ?). cbn in *. rewrite Eu.
      repeat (split; [done|]). split; [cbn; lia|done].
    + pose proof (slot_write (stm_slot u) (request_wire request) data Ht) as Hstep.
      unfold stm_slot in *. cbn -[splice ack] in Hstep |- *. unfold stm_image at 2. cbn -[splice ack].
      rewrite Himg, Eu, Hrun, !Es in *. apply Hstep; [done|done|lia].
  - apply (handled_nack (u <| flash_context := c' |>)); [done|done|]. intros resp Hnack.
    pose proof (slot_write_failed (stm_slot u) (request_wire request) resp
                  (stm_image (u <| flash_context := c' |>)) Ht Hnack) as Hstep.
    unfold stm_slot in *. cbn in Hstep |- *. rewrite Hrun. apply Hstep; [by rewrite Es|..].
    + apply Nat2Z.inj. by rewrite !len_stm_image.
    + unfold stm_image. cbn. rewrite !take_take, !Nat.min_l by lia. done.
Qed.

Lemma handle_data_spec :
  sv_type request = STM32_MSG_FW_DATA → handled u request (handle_data u request unset out).
Proof.
  intros Ht. pose proof Hu as (_ & _ & _ & _ & _ & Hsz & _ & Ho & _).
  pose proof Hr as (_ & _ & _ & Hpb & Hpl & Hpm). unfold STM32_DEVMGR_MAX_PAYLOAD in Hpm.
  unfold handle_data. cbv zeta.
  case_bool_decide as Es; [|by apply handled_refuse]. cbn [negb orb].
  destruct (Z.leb_spec (sv_payload_length request) 8); [by apply handled_refuse|].
  rewrite (request_field32 0) by lia. run_stmt.
  destruct (Z.eqb_spec (field (sv_payload request) 0 4) (update_session_id u)) as [E|];
    [|by apply handled_refuse]. cbn [negb].
  rewrite (request_field32 4) by lia. run_stmt.
  pose proof (data_view (sv_payload request) (sv_payload_length request) Hpb ltac:(lia)) as Hw.
  rewrite E in Hw. pose proof (field_u32 (sv_payload request) 4 Hpb) as Hou.
  set (off := field (sv_payload request) 4 4) in *.
  rewrite (u16_id (sv_payload_length request - 8)) by (unfold is_u16; lia).
  set (n := sv_payload_length request - 8) in *. unfold is_u32 in *.
  destruct (Z.ltb_spec (update_chunk_size u) n); [by apply handled_refuse|].
  destruct (Z.ltb_spec (update_image_size u) off); [by apply handled_refuse|].
  rewrite (u32_id (update_image_size u - off)) by (unfold is_u32; lia).
  destruct (Z.ltb_spec (update_image_size u - off) n); [by apply handled_refuse|]. cbn [orb].
  destruct (Z.ltb_spec off (next_offset u)).
  - rewrite u32_id by (unfold is_u32; lia).
    destruct (Z.ltb_spec (next_offset u) (off + n)); [by apply handled_refuse|].
    apply handle_repeat_spec; (done || unfold is_u16; lia).
  - destruct (Z.eqb_spec off (next_offset u)) as [Eo|]; [|by apply handled_refuse].
    rewrite Eo in *. apply handle_write_spec; (done || unfold is_u16; lia).
Qed.

(** The test for a transfer that can be resumed. *)
Lemma stm_begin_resumes p v r size crc :
  sv_payload request = p ++ v ++ 0 :: r → 10 = len p → Forall (λ x, x ≠ 0) v →
  ∃ same : bool,
    (if bool_decide (update_state u = STM32_UPDATE_RECEIVING) &&
        (size =? update_image_size u) && (crc =? update_image_crc u)
     then strcmp_eq (sv_payload request) 10 (update_pending_version u) 0
     else Some false) = Some same ∧
    (same = true ↔
       slot_open (stm_slot u) = true ∧ size = slot_size (stm_slot u) ∧
       crc = slot_crc (stm_slot u) ∧ v = slot_version (stm_slot u)).
Proof.
  intros Ep Hp Hv. pose proof Hu as (_ & _ & _ & _ & _ & _ & _ & _ & (_ & _ & w & Hw)).
  cbn [stm_slot slot_open slot_size slot_crc slot_version]. rewrite (string_of_holds _ w Hw).
  destruct (bool_decide (update_state u = _)); [|exists false; naive_solver]. cbn [andb].
  destruct (Z.eqb_spec size (update_image_size u)) as [<-|]; [|exists false; naive_solver].
  destruct (Z.eqb_spec crc (update_image_crc u)) as [<-|]; [|exists false; naive_solver].
  exists (bool_decide (v = w)). unfold strcmp_eq.
  rewrite (c_string_holds _ w Hw), Ep, (c_string_at p v r 10) by done. split; [done|].
  rewrite bool_decide_eq_true. naive_solver.
Qed.

Lemma handle_begin_spec :
  sv_type request = STM32_MSG_FW_BEGIN → handled u request (handle_begin u request unset out).
Proof.
  intros Ht. pose proof Hu as (Hfl & Hfo & Hid & _ & _ & Hsz & Hcap & Ho & (Hpvl & Hpvb & _)).
  pose proof Hr as (_ & _ & _ & Hpb & Hpl & _).
  unfold handle_begin. cbv zeta.
  destruct (Z.ltb_spec (sv_payload_length request) 11); [by apply handled_refuse|].
  rewrite (request_field32 0), (request_field32 4) by lia. do 2 run_stmt.
  change stm32_get_le16 with devmgr_get_le16. rewrite get_le16_field by (done || lia). run_stmt.
  pose proof (field_u32 (sv_payload request) 0 Hpb) as Hsu.
  pose proof (field_u32 (sv_payload request) 4 Hpb) as Hcu.
  destruct (memchr0_total (sv_payload request) 10 (sv_payload_length request - 10)) as [m Em]; [lia..|].
  rewrite Em. run_stmt.
  destruct m as [m|]; cycle 1.
  { cbn [default from_option]. rewrite Z.eqb_refl, !orb_true_r. by apply handled_refuse. }
  apply memchr0_Some in Em as (p & v & r & Ep & Hp & -> & Hv & Hm); [|lia..].
  pose proof (begin_view _ (sv_payload_length request) p v r Hpb ltac:(lia) Ep ltac:(lia) Hm) as Hview.
  cbn [default from_option]. change (id (len v)) with (len v).
  match goal with |- context [if ?b then _ else _] => destruct b eqn:G end; [by apply handled_refuse|].
  apply orb_false_iff in G as [_ Hv32%Z.leb_gt].
  set (size := field (sv_payload request) 0 4) in *. set (crc := field (sv_payload request) 4 4) in *.
  destruct (stm_begin_resumes p v r size crc Ep Hp Hv) as (same & -> & Hsame). run_stmt.
  destruct same.
  { destruct (proj1 Hsame eq_refl) as (Hopen & Es & Ec & Ev).
    apply handled_words; [done|done|unfold is_u32 in *; lia|].
    by eapply (slot_resume (stm_slot u) (request_wire request)). }
  destruct (flash_erase _ _ _) as [status c'] eqn:Ee. rewrite Hfl in Ee.
  destruct (erase_law _ _ _ _ Hfo Ee) as (Hok & Hrun & Hfits).
  pose proof (flash_changed u c' Hu Hok) as Hu'.
  destruct (Z.eqb_spec status 0) as [E|]; cbn [negb]; cycle 1.
  { apply (handled_nack (u <| flash_context := c' |>)); [done|done|]. intros resp Hnack.
    pose proof (slot_erase_failed (stm_slot u) (request_wire request) resp size crc _ v _
                  (stm_image (u <| flash_context := c' |>)) Ht Hnack Hview Hsu Hcu Hv) as Hstep.
    unfold stm_slot in *. cbn in Hstep |- *. rewrite Hrun. apply Hstep; [by rewrite <- Hsame|].
    apply Nat2Z.inj. by rewrite !len_stm_image. }
  rewrite memcpy_ok by (cbn; rewrite ?Hpvl; lia). run_stmt. rewrite Ep, slice_terminated by lia. rewrite <- Ep.
  destruct (next_session_id (update_session_id u)) as [Hi Hi0]. cbv zeta in Hi, Hi0.
  assert (Forall is_u8 v) as Hvb by (rewrite Ep, !Forall_app in Hpb; by destruct Hpb as (_ & ? & _)).
  destruct (version_copy (update_pending_version u) v) as [Hpv Hstr]; [done..|].
  destruct (begun_state u c' _ size crc (field (sv_payload request) 8 2) _ v Hu Hok Hi Hi0 Hsu
              (Hfits E) Hcu Hpv Hstr) as (Hu1 & Hflash & Hslot).
  pose proof (slot_begin (stm_slot u) (request_wire request) size crc _ v _ _ _ Ht Hview Hsu Hcu Hv
                Hi Hi0 Hflash) as Hstep.
  cbn [slot_running stm_slot] in Hstep. rewrite <- Hrun, <- Hslot in Hstep.
  by apply handled_words.
Qed.

(** Every request. *)
Lemma update_handle_spec : handled u request (stm32_update_handle u request unset out).
Proof.
  destruct (decide (sv_type request = STM32_MSG_FW_STATUS)); [by apply handle_status_spec|].
  destruct (decide (sv_type request = STM32_MSG_FW_END)); [by apply handle_end_spec|].
  destruct (decide (sv_type request = STM32_MSG_FW_VERIFY)); [by apply handle_verify_spec|].
  destruct (decide (sv_type request = STM32_MSG_FW_ACTIVATE)); [by apply handle_activate_spec|].
  destruct (decide (sv_type request = STM32_MSG_REBOOT)); [by apply handle_reboot_spec|].
  unfold stm32_update_handle. cbv zeta.
  destruct (Z.eqb_spec (sv_type request) STM32_MSG_ENTER_BOOTLOADER) as [Ht|].
  { apply handled_empty; [done|]. apply slot_other; [|done].
    cbn [request_wire w_type]. rewrite Ht. by intros [H _]. }
  destruct (Z.eqb_spec (sv_type request) STM32_MSG_FW_BEGIN); [by apply handle_begin_spec|].
  destruct (Z.eqb_spec (sv_type request) STM32_MSG_FW_DATA); [by apply handle_data_spec|].
  repeat match goal with
  | H : sv_type request ≠ ?x |- context [sv_type request =? ?x] => rewrite (proj2 (Z.eqb_neq _ _) H)
  end. by apply handled_refuse.
Qed.

End Handlers.

(** What a request on the wire looks like to the handler. *)
Definition wire_request (req : wire_frame) : stm32_frame_view :=
  mk_view (w_type req) (w_flags req) (w_sequence req) (w_payload req) (len (w_payload req)).

Lemma wire_request_ok req : wire_ok req → request_view_ok (wire_request req).
Proof.
  intros (? & ? & ? & ? & ?). split_and!; try done; cbn; [lia..|].
  unfold STM32_DEVMGR_MAX_PAYLOAD, DEVMGR_PROTOCOL_MAX_PAYLOAD in *. lia.
Qed.

Lemma request_wire_request req : request_wire (wire_request req) = req.
Proof. destruct req. unfold request_wire. cbn -[slice]. by rewrite slice_all. Qed.

Lemma answered_inj resp1 resp2 out :
  answered_with resp1 out → answered_with resp2 out → resp1 = resp2.
Proof.
  intros (H1 & _ & E1) (H2 & _ & E2). apply decode_encode_wire in H1, H2. congruence.
Qed.

(** The bootloader implements the contract of an updatable device. *)
Definition stm_step (u : stm32_update_context C) (req resp : wire_frame)
    (u' : stm32_update_context C) : Prop :=
  ∃ request unset out out',
    request_view_ok request ∧ request_wire request = req ∧ unset_ok unset ∧ buffer_ok out ∧
    stm32_update_handle u request unset out = Some (0, u', out') ∧ answered_with resp out'.

Lemma stm_answers u req : stm_ok u → wire_ok req → ∃ resp u', stm_step u req resp u'.
Proof.
  intros Hu Hreq. pose proof (wire_request_ok req Hreq) as Hr.
  destruct (update_handle_spec u (wire_request req) (zeros 8) (mk_response (zeros 24) 24 0))
    as (u' & out' & resp & E & Ha & _); [done|done|split; [done|apply zeros_Forall]|done|].
  exists resp, u'. do 4 eexists. split; [exact Hr|]. split; [apply request_wire_request|].
  split; [|split; [|split; [exact E|done]]]; [split; [done|apply zeros_Forall]|done].
Qed.

Lemma stm_refines u req resp u' :
  stm_ok u → stm_step u req resp u' →
  stm_ok u' ∧ wire_ok resp ∧ slot_step (stm_slot u) req resp (stm_slot u').
Proof.
  intros Hu (request & unset & out & out' & Hr & <- & Hx & Hb & E & Ha).
  destruct (update_handle_spec u request unset out) as (u1 & out1 & resp1 & E1 & Ha1 & Hu1 & Hs);
    [done..|]. rewrite E in E1. injection E1 as -> ->.
  rewrite (answered_inj resp resp1 out1) by done. split; [done|]. split; [apply Ha1|done].
Qed.

#[export] Instance stm32_device : UpdateDevice (stm32_update_context C) := {|
  device_ok := stm_ok;
  device_slot := stm_slot;
  device_step := stm_step;
  device_slot_ok := stm_slot_ok;
  device_answers := stm_answers;
  device_refines u req resp u' Hu _ := stm_refines u req resp u' Hu;
|}.

End Contract.

(** ** Properties *)

(** C8: on a flash driver that keeps its promises, the bootloader answers every
    request, well-formed or not, with a response frame, keeps its invariant, and
    takes a step that the contract of an updatable device allows. *)
Theorem stm32_update_contract {C} (flash : stm32_flash_ops C) capacity
    `{!FlashDriver flash capacity} u request unset out :
  stm_ok flash capacity u → request_view_ok request → unset_ok unset → buffer_ok out →
  ∃ u' out' resp,
    stm32_update_handle u request unset out = Some (0, u', out') ∧ answered_with resp out' ∧
    stm_ok flash capacity u' ∧
    slot_step (stm_slot flash capacity u) (request_wire request) resp (stm_slot flash capacity u').
Proof. intros. by apply update_handle_spec. Qed.

(** A flash driver over an array, for the witnesses. *)
Record ram_flash := mk_ram { ram_bytes : list Z; ram_version : list Z }.

Definition ram_ops (capacity : Z) : stm32_flash_ops ram_flash :=
  mk_flash_ops
    (λ c n, if n <=? capacity then (0, mk_ram (replicate (Z.to_nat capacity) 255) (ram_version c))
            else (-1, c))
    (λ c off data, (0, mk_ram (splice (ram_bytes c) off data) (ram_version c)))
    (λ c off n, (0, slice (ram_bytes c) off n, c))
    (λ c n, (crc_of (take (Z.to_nat n) (ram_bytes c)), c))
    (λ c size crc version, (0, mk_ram (ram_bytes c) (string_of version)))
    (λ c, c).

#[export] Instance ram_driver (capacity : Z) : FlashDriver (ram_ops capacity) capacity.
Proof.
  refine {| flash_ok c := len (ram_bytes c) = capacity; flash_bytes := ram_bytes;
            flash_running := ram_version |}; cbn -[splice slice].
  - done.
  - intros c n status c' Hc. destruct (Z.leb_spec n capacity); intros [= <- <-]; cbn; [|done].
    split; [|done]. rewrite length_replicate. lia.
  - intros c off data status c' Hc ??? [= <- <-]. cbn -[splice]. rewrite length_splice by lia.
    split; [done|]. split; [done|]. split; [done|].
    unfold splice. rewrite take_app_length' by (rewrite length_take; lia). done.
  - by intros c off n status bytes c' Hc ??? [= <- <- <-].
  - by intros c n crc c' Hc ? [= <- <-].
  - intros c size crc version str status c' Hc Hs [= <- <-]. cbn. by rewrite (string_of_holds _ str).
  - done.
Defined.

Definition fresh_update : stm32_update_context ram_flash :=
  (stm32_update_init (Some (ram_ops 64)) (mk_ram (zeros 64) [49]) (mk_update (ram_ops 64)
    (mk_ram [] []) STM32_UPDATE_IDLE 0 0 0 0 0 [])).2.

Lemma fresh_update_ok : stm_ok (ram_ops 64) 64 fresh_update.
Proof.
  repeat (split; [done|]). split; [apply zeros_Forall|]. exists []. exists (zeros 31). done.
Qed.

Lemma stm32_update_contract_witness :
  let begin := wire_request (mk_wire STM32_MSG_FW_BEGIN 0 1 (begin_payload 1 (crc_of [65]) 1 [50] [])) in
  let out := mk_response (zeros 24) 24 0 in
  ∃ u' out' resp,
    stm32_update_handle fresh_update begin (zeros 8) out = Some (0, u', out') ∧
    answered_with resp out' ∧ stm_ok (ram_ops 64) 64 u' ∧
    slot_step (stm_slot (ram_ops 64) 64 fresh_update) (request_wire begin) resp
              (stm_slot (ram_ops 64) 64 u').
Proof.
  apply (stm32_update_contract (ram_ops 64) 64 fresh_update).
  - apply fresh_update_ok.
  - apply wire_request_ok. vm_compute. by repeat constructor.
  - split; [done|apply zeros_Forall].
  - done.
Defined.

(** The handler on a list of requests; the types of the responses. *)
Fixpoint update_all {C} (u : stm32_update_context C) (requests : list wire_frame)
    : option (stm32_update_context C * list Z) :=
  match requests with
  | [] => Some (u, [])
  | req :: requests =>
      '(_, u, out) ← stm32_update_handle u (wire_request req) (zeros 8) (mk_response (zeros 24) 24 0);
      type ← load (rb_bytes out) 3;
      '(u, types) ← update_all u requests;
      Some (u, type :: types)
  end.

Lemma update_all_ends {C B} (u : stm32_update_context C) requests types (view : _ → B) b :
  (λ '(u', types'), (types', view u')) <$> update_all u requests = Some (types, b) →
  ∃ u', update_all u requests = Some (u', types) ∧ view u' = b.
Proof.
  destruct (update_all u requests) as [[u' types']|]; cbn; [|done]. intros [= <- <-]. eauto.
Qed.

(** A transfer of the one-byte image 65, version 2, up to its verification. *)
Definition verified_transfer : list wire_frame :=
  [mk_wire STM32_MSG_FW_BEGIN 2 1 (begin_payload 1 (crc_of [65]) 1 [50] []);
   mk_wire STM32_MSG_FW_DATA 2 2 (le_bytes 4 2 ++ le_bytes 4 0 ++ [65]);
   mk_wire STM32_MSG_FW_END 2 3 (le_bytes 4 2);
   mk_wire STM32_MSG_FW_VERIFY 2 4 (le_bytes 4 2)].

(** The retry of a verification whose answer was lost is refused: the
    bootloader keeps no cached answer and VERIFY is not accepted twice. *)
Theorem stm32_verify_retry_refused :
  ∃ u, update_all fresh_update (verified_transfer ++ [mk_wire STM32_MSG_FW_VERIFY 6 4 (le_bytes 4 2)]) =
    Some (u, map w_type verified_transfer ++ [STM32_MSG_NACK]) ∧
  update_state u = STM32_UPDATE_VERIFIED.
Proof. apply update_all_ends. vm_compute. reflexivity. Qed.

(** The driver of [ram_ops] whose erase of four bytes or more fails after it
    wiped the area. *)
Definition worn_ops (capacity : Z) : stm32_flash_ops ram_flash :=
  let good := ram_ops capacity in
  mk_flash_ops
    (λ c n, if n <? 4 then flash_erase good c n
            else (-1, mk_ram (replicate (Z.to_nat capacity) 255) (ram_version c)))
    (flash_write good) (flash_read good) (flash_crc32 good) (flash_activate good)
    (flash_reboot good).

Definition after_failed_erase : list wire_frame :=
  verified_transfer ++
  [mk_wire STM32_MSG_FW_BEGIN 2 5 (begin_payload 5 (crc_of [1]) 1 [51] []);
   mk_wire STM32_MSG_FW_ACTIVATE 2 6 (le_bytes 4 2)].

(** A verified transfer survives the failed erase of the next one: the
    bootloader then activates an image that no longer has the verified CRC. *)
Theorem stm32_failed_erase_activates :
  ∃ u, update_all (fresh_update <| update_flash := worn_ops 64 |>) after_failed_erase =
    Some (u, map w_type verified_transfer ++ [STM32_MSG_NACK; STM32_MSG_FW_ACTIVATE]) ∧
  ram_version (flash_context u) = [50] ∧ crc_of (take 1 (ram_bytes (flash_context u))) ≠ crc_of [65].
Proof.
  destruct (update_all_ends (fresh_update <| update_flash := worn_ops 64 |>) after_failed_erase
              (map w_type verified_transfer ++ [STM32_MSG_NACK; STM32_MSG_FW_ACTIVATE])
              (λ u, (ram_version (flash_context u),
                     crc_of (take 1 (ram_bytes (flash_context u))) =? crc_of [65]))
              ([50], false)) as (u & E & [= Hv Hc]); [vm_compute; reflexivity|].
  exists u. split; [exact E|]. split; [exact Hv|by apply Z.eqb_neq].
Qed.

(** The application answers a ping with its payload, an identification
    request with the identification and anything else with NACK 1; when the
    response does not fit it reports the error and sends nothing. *)
Theorem stm32_application_answers request unset out :
  request_view_ok request → unset_ok unset → rb_capacity out ≤ len (rb_bytes out) →
  let resp := if sv_type request =? STM32_MSG_PING
              then ack (request_wire request) (w_payload (request_wire request))
              else if sv_type request =? STM32_MSG_GET_INFO then ack (request_wire request) stm32_info
              else mk_wire STM32_MSG_NACK STM32_FRAME_RESPONSE (sv_sequence request) (le_bytes 2 1) in
  if len (encode_wire resp) <=? rb_capacity out then
    ∃ out', stm32_application_handle request unset out = Some (0, out') ∧ answered_with resp out'
  else stm32_application_handle request unset out = Some (-1, out).
Proof.
  intros Hr Hx Hc. pose proof Hr as (Ht & _ & _ & Hp & Hl & Hm). unfold stm32_application_handle.
  destruct (Z.eqb_spec (sv_type request) STM32_MSG_PING).
  { pose proof (respond_or_fail request (sv_type request) (sv_payload request)
                  (sv_payload_length request) out) as Hout.
    rewrite <- slice_0 in Hout. apply Hout; (done || apply Hr). }
  destruct (Z.eqb_spec (sv_type request) STM32_MSG_GET_INFO).
  { pose proof (respond_or_fail request (sv_type request) stm32_info (len stm32_info) out) as Hout.
    rewrite Nat2Z.id, firstn_all in Hout. apply Hout; try (done || apply Hr).
    by repeat constructor. }
  rewrite put_half by done. run_stmt.
  pose proof (respond_or_fail request STM32_MSG_NACK (le_bytes 2 1) 2 out) as Hout.
  apply Hout; try (done || apply Hr). apply le_bytes_Forall.
Qed.

