(* ===== verification/Simulator.v ===== *)
(** * Simulated device: simulator/device/simulator.h and simulator.c

    The device end of the protocol: a parser whose callback answers requests,
    keeps a firmware slot in memory and injects faults. *)

From S2P Require Import Prelude Crc32 RingBuffer Frame Parser Os Firmware Device.
From Stdlib Require Import QArith_base.

#[local] Open Scope Z_scope.

(** ** State *)

(** [started_ns] is the started_at timestamp in nanoseconds; the rates are the
    finite doubles of the configuration, as the rationals they denote. *)
Record simulator_state := mk_simulator {
  master_fd : Z;
  sim_parser : devmgr_parser;
  started_ns : Z;
  rx_frames : Z;
  tx_frames : Z;
  sim_errors : Z;
  device_id : Z;
  temperature_millic : Z;
  voltage_mv : Z;
  telemetry_interval_ms : Z;
  telemetry_samples : Z;
  next_telemetry_ns : Z;
  telemetry_enabled : bool;
  flash : option (list Z);
  flash_size : Z;
  expected_firmware_crc : Z;
  firmware_offset : Z;
  firmware_session_id : Z;
  firmware_chunk_size : Z;
  firmware_version : list Z;
  pending_version : list Z;
  bootloader_active : bool;
  firmware_upgrading : bool;
  firmware_verified : bool;
  sim_running : bool;
  drop_rate : Q;
  corrupt_rate : Q;
  response_delay_ms : Z;
  disconnect_at_percent : Z;
  outage_until_ns : Z;
  outage_injected : bool;
  fail_verify : bool;
  random_state : Z;
}.

#[export] Instance eta_simulator : Eta simulator_state := λ s,
  mk_simulator (master_fd s) (sim_parser s) (started_ns s) (rx_frames s) (tx_frames s) (sim_errors s)
    (device_id s) (temperature_millic s) (voltage_mv s) (telemetry_interval_ms s)
    (telemetry_samples s) (next_telemetry_ns s) (telemetry_enabled s) (flash s) (flash_size s)
    (expected_firmware_crc s) (firmware_offset s) (firmware_session_id s)
    (firmware_chunk_size s) (firmware_version s) (pending_version s) (bootloader_active s)
    (firmware_upgrading s) (firmware_verified s) (sim_running s) (drop_rate s) (corrupt_rate s)
    (response_delay_ms s) (disconnect_at_percent s) (outage_until_ns s) (outage_injected s)
    (fail_verify s) (random_state s).

Record simulator_config := mk_sim_config {
  config_drop_rate : Q;
  config_corrupt_rate : Q;
  config_response_delay_ms : Z;
  config_disconnect_at_percent : Z;
  config_fail_verify : bool;
  config_random_seed : Z;
}.

(** ** Fault injection *)

(** The random number is [value / 2^32], exact in a double. *)
Definition simulator_random (s : simulator_state) : Z * simulator_state :=
  let value := random_state s in
  let value := Z.lxor value (u32 (Z.shiftl value 13)) in
  let value := Z.lxor value (Z.shiftr value 17) in
  let value := Z.lxor value (u32 (Z.shiftl value 5)) in
  (value, s <| random_state := value |>).

(** [simulator_random(simulator) < rate] for the number [value / 2^32]. *)
Definition random_below (value : Z) (rate : Q) : bool :=
  value * Zpos (Qden rate) <? Qnum rate * 4294967296.

(** The write loop: each call of write with its outcome and, after EAGAIN,
    whether poll found the descriptor writable; [sent] are the bytes written. *)
Fixpoint write_loop (script : list (write_outcome * bool)) (encoded : list Z)
    (length offset : Z) (sent : list Z) : option (Z * list Z) :=
  if negb (offset <? length) then Some (DEVMGR_OK, sent)
  else match script with
  | [] => None
  | (Wrote n, _) :: script =>
      let count := taken n (length - offset) in
      if 0 <? count then
        bytes ← mem_read encoded offset count;
        write_loop script encoded length (offset + count) (sent ++ bytes)
      else Some (DEVMGR_ERROR_IO, sent)
  | (WriteError EINTR, _) :: script => write_loop script encoded length offset sent
  | (WriteError EAGAIN, true) :: script => write_loop script encoded length offset sent
  | (WriteError _, _) :: _ => Some (DEVMGR_ERROR_IO, sent)
  end.

(** What one call of write_frame meets: the clock, the uninitialised local
    array and the outcomes of its writes. *)
Record write_env := mk_write_env {
  env_now_ns : Z;
  env_encoded : list Z;
  env_script : list (write_outcome * bool);
}.

(** The status, the simulator and the bytes put on the wire.  The configured
    delay before the writes takes time and changes nothing else. *)
Definition write_frame (s : simulator_state) (frame : devmgr_frame) (env : write_env)
    : option (Z * simulator_state * list Z) :=
  if env_now_ns env <? outage_until_ns s then Some (DEVMGR_OK, s, [])
  else
  let '(value, s) := simulator_random s in
  if random_below value (drop_rate s) then Some (DEVMGR_OK, s, [])
  else
  '(result, encoded, length) ← devmgr_frame_encode frame (env_encoded env)
                                 DEVMGR_PROTOCOL_MAX_FRAME 0;
  if negb (result =? DEVMGR_OK) then Some (result, s, [])
  else
  let '(value, s) := simulator_random s in
  encoded ← (if random_below value (corrupt_rate s) && (DEVMGR_PROTOCOL_HEADER_SIZE <? length)
             then b ← load encoded DEVMGR_PROTOCOL_HEADER_SIZE;
                  store encoded DEVMGR_PROTOCOL_HEADER_SIZE (Z.lxor b 0x40)
             else Some encoded);
  '(result, sent) ← write_loop (env_script env) encoded length 0 [];
  if negb (result =? DEVMGR_OK) then Some (result, s, sent)
  else Some (DEVMGR_OK, s <| tx_frames := u64 (tx_frames s + 1) |>, sent).

(** ** Requests *)

(** The payload and [*offset] after put_string. *)
Definition put_string (payload : list Z) (capacity offset : Z) (value : list Z)
    : option (list Z * Z) :=
  n ← strlen value 0;
  let length := n + 1 in
  if (offset <=? capacity) && (length <=? capacity - offset) then
    payload ← memcpy payload offset value 0 length;
    Some (payload, offset + length)
  else Some (payload, offset).

(** The response a handler starts from: the request's type and sequence. *)
Definition blank_response (request : devmgr_frame) : devmgr_frame :=
  zero_frame <| frame_type := frame_type request |> <| frame_flags := DEVMGR_FRAME_RESPONSE |>
             <| frame_sequence := frame_sequence request |>.

(** [response.type = NACK; put_le16(response.payload, code); payload_length = 2] *)
Definition nack (response : devmgr_frame) (code : Z) : option devmgr_frame :=
  payload ← devmgr_put_le16 response.(frame_payload) 0 code;
  Some (response <| frame_type := DEVMGR_MSG_NACK |> <| frame_payload := payload |>
                 <| frame_payload_length := 2 |>).

(** A response that carries 32-bit words. *)
Fixpoint put_words (payload : list Z) (offset : Z) (words : list Z) : option (list Z) :=
  match words with
  | [] => Some payload
  | w :: words => payload ← devmgr_put_le32 payload offset w; put_words payload (offset + 4) words
  end.

Definition words_response (response : devmgr_frame) (words : list Z) : option devmgr_frame :=
  payload ← put_words response.(frame_payload) 0 words;
  Some (response <| frame_payload := payload |> <| frame_payload_length := 4 * len words |>).

Definition handle_info (s : simulator_state) (response : devmgr_frame) : option devmgr_frame :=
  let capacity := DEVMGR_PROTOCOL_MAX_PAYLOAD in
  payload ← devmgr_put_le32 response.(frame_payload) 0 (device_id s);
  '(payload, offset) ← put_string payload capacity 4 (literal "STM32-SIM");
  '(payload, offset) ← put_string payload capacity offset (literal "HW-1.0");
  '(payload, offset) ← put_string payload capacity offset (firmware_version s);
  '(payload, offset) ← put_string payload capacity offset (literal "BL-1.0.0");
  '(payload, offset) ← put_string payload capacity offset (literal "SIM00000001");
  Some (response <| frame_payload := payload |> <| frame_payload_length := u16 offset |>).

Definition handle_start_telemetry (s : simulator_state) (request response : devmgr_frame)
    (now_ns : Z) : option (simulator_state * devmgr_frame) :=
  if negb (request.(frame_payload_length) =? 4) then
    response ← nack response 3; Some (s, response)
  else
  interval ← devmgr_get_le32 request.(frame_payload) 0;
  let s := s <| telemetry_interval_ms := interval |> in
  if (telemetry_interval_ms s <? 100) || (60000 <? telemetry_interval_ms s) then
    response ← nack response 3; Some (s, response)
  else
  let s := s <| telemetry_enabled := true |>
             <| next_telemetry_ns := u64 (now_ns + telemetry_interval_ms s * 1000000) |> in
  response ← words_response response [telemetry_interval_ms s];
  Some (s, response).

(** [malloc] gives the bytes of a new block of the requested size, or NULL. *)
Definition handle_fw_begin (s : simulator_state) (request response : devmgr_frame)
    (malloc : Z → option (list Z)) : option (simulator_state * devmgr_frame) :=
  let payload := request.(frame_payload) in
  if negb (bootloader_active s) || (request.(frame_payload_length) <? 11) then
    response ← nack response 2; Some (s, response)
  else
  size ← devmgr_get_le32 payload 0;
  crc ← devmgr_get_le32 payload 4;
  chunk ← devmgr_get_le16 payload 8;
  version_end ← memchr0 payload 10 (request.(frame_payload_length) - 10);
  let version_length := default 0 version_end in
  if (size =? 0) || (DEVMGR_FIRMWARE_MAX_SIZE <? size) || (chunk =? 0) ||
     (DEVMGR_PROTOCOL_MAX_PAYLOAD - 8 <? chunk) || (version_length =? 0) ||
     (32 <=? version_length) then
    response ← nack response 3; Some (s, response)
  else
  same ← (if firmware_upgrading s && (flash_size s =? size) &&
             (expected_firmware_crc s =? crc) && (firmware_chunk_size s =? chunk)
          then strcmp_eq (pending_version s) 0 payload 10 else Some false);
  if (same : bool) then
    response ← words_response response [firmware_session_id s; firmware_offset s];
    Some (s, response)
  else
  match malloc size with
  | None => response ← nack response 6; Some (s, response)
  | Some new_flash =>
      let id := u32 (firmware_session_id s + 1) in
      let id := if id =? 0 then 1 else id in
      version ← memcpy (pending_version s) 0 payload 10 (version_length + 1);
      let s := s <| flash := Some new_flash |> <| flash_size := size |>
                 <| expected_firmware_crc := crc |> <| firmware_chunk_size := chunk |>
                 <| firmware_offset := 0 |> <| firmware_session_id := id |>
                 <| pending_version := version |> <| firmware_upgrading := true |>
                 <| firmware_verified := false |> in
      response ← words_response response [firmware_session_id s; firmware_offset s];
      Some (s, response)
  end.

Definition handle_fw_data (s : simulator_state) (request response : devmgr_frame) (now_ns : Z)
    : option (simulator_state * devmgr_frame) :=
  let payload := request.(frame_payload) in
  let refuse code := response ← nack response code; Some (s, response) in
  let acknowledge (s : simulator_state) :=
    response ← words_response response [firmware_offset s];
    let s := if negb (outage_injected s) && (0 <=? disconnect_at_percent s) &&
                negb (flash_size s =? 0) &&
                (disconnect_at_percent s <=? firmware_offset s * 100 / flash_size s)
             then s <| outage_injected := true |>
                    <| outage_until_ns := u64 (now_ns + 6000000000) |>
             else s in
    Some (s, response) in
  if negb (firmware_upgrading s) || (request.(frame_payload_length) <=? 8) then refuse 2
  else
  id ← devmgr_get_le32 payload 0;
  if negb (id =? firmware_session_id s) then refuse 2
  else
  offset_value ← devmgr_get_le32 payload 4;
  let data_length := request.(frame_payload_length) - 8 in
  if (firmware_chunk_size s <? data_length) || (flash_size s <? offset_value) ||
     (flash_size s - offset_value <? data_length) then refuse 5
  else if offset_value <? firmware_offset s then
    bad ← (if firmware_offset s <? offset_value + data_length then Some true
           else image ← flash s;
                equal ← memcmp_eq image offset_value payload 8 data_length;
                Some (negb equal));
    if (bad : bool) then refuse 5 else acknowledge s
  else if offset_value =? firmware_offset s then
    image ← flash s;
    image ← memcpy image offset_value payload 8 data_length;
    acknowledge (s <| flash := Some image |>
                   <| firmware_offset := u32 (firmware_offset s + data_length) |>)
  else refuse 5.

Definition handle_fw_status (s : simulator_state) (request response : devmgr_frame)
    : option devmgr_frame :=
  if negb (firmware_upgrading s) || negb (request.(frame_payload_length) =? 4) then
    nack response 2
  else
  id ← devmgr_get_le32 request.(frame_payload) 0;
  if negb (id =? firmware_session_id s) then nack response 2
  else words_response response [firmware_session_id s; firmware_offset s].

Definition handle_fw_end (s : simulator_state) (request response : devmgr_frame)
    : option devmgr_frame :=
  if negb (firmware_upgrading s) || negb (request.(frame_payload_length) =? 4) then
    nack response 5
  else
  id ← devmgr_get_le32 request.(frame_payload) 0;
  if negb (id =? firmware_session_id s) || negb (firmware_offset s =? flash_size s) then
    nack response 5
  else Some response.

Definition handle_fw_verify (s : simulator_state) (request response : devmgr_frame)
    : option (simulator_state * devmgr_frame) :=
  actual_crc ← match flash s with
               | None => Some 0
               | Some image => devmgr_crc32 (Some image) (flash_size s)
               end;
  let refuse := response ← nack response 7; Some (s, response) in
  if negb (firmware_upgrading s) || negb (request.(frame_payload_length) =? 4) then refuse
  else
  id ← devmgr_get_le32 request.(frame_payload) 0;
  if negb (id =? firmware_session_id s) || fail_verify s ||
     negb (actual_crc =? expected_firmware_crc s) then refuse
  else
  response ← words_response response [actual_crc];
  Some (s <| firmware_verified := true |>, response).

Definition handle_fw_activate (s : simulator_state) (request response : devmgr_frame)
    : option (simulator_state * devmgr_frame) :=
  let refuse := response ← nack response 2; Some (s, response) in
  if negb (firmware_verified s) || negb (request.(frame_payload_length) =? 4) then refuse
  else
  id ← devmgr_get_le32 request.(frame_payload) 0;
  if negb (id =? firmware_session_id s) then refuse
  else
  n ← strlen (pending_version s) 0;
  version ← memcpy (firmware_version s) 0 (pending_version s) 0 (n + 1);
  Some (s <| firmware_version := version |>, response).

(** What one call of on_frame meets: the clock of the handler, the allocator, and the environment of write_frame. *)
Record frame_env := mk_frame_env {
  handler_now_ns : Z;
  env_malloc : Z → option (list Z);
  response_env : write_env;
}.

(** The switch of on_frame. *)
Definition handle_request (s : simulator_state) (request : devmgr_frame) (env : frame_env)
    : option (simulator_state * devmgr_frame) :=
  let response := blank_response request in
  let type := frame_type request in
  if type =? DEVMGR_MSG_PING then
    payload ← memcpy response.(frame_payload) 0 request.(frame_payload) 0
                     request.(frame_payload_length);
    Some (s, response <| frame_payload_length := frame_payload_length request |>
                      <| frame_payload := payload |>)
  else if type =? DEVMGR_MSG_GET_INFO then
    response ← handle_info s response; Some (s, response)
  else if type =? DEVMGR_MSG_GET_HEALTH then
    response ← words_response response [u32 (temperature_millic s); voltage_mv s; 0];
    Some (s, response)
  else if type =? DEVMGR_MSG_GET_STATS then
    response ← words_response response
                 [u32 (rx_frames s); u32 (tx_frames s); u32 (sim_errors s)];
    Some (s, response)
  else if type =? DEVMGR_MSG_START_TELEMETRY then
    handle_start_telemetry s request response (handler_now_ns env)
  else if type =? DEVMGR_MSG_STOP_TELEMETRY then
    Some (s <| telemetry_enabled := false |>, response)
  else if type =? DEVMGR_MSG_ENTER_BOOTLOADER then
    Some (s <| telemetry_enabled := false |> <| bootloader_active := true |>, response)
  else if type =? DEVMGR_MSG_FW_BEGIN then handle_fw_begin s request response (env_malloc env)
  else if type =? DEVMGR_MSG_FW_DATA then handle_fw_data s request response (handler_now_ns env)
  else if type =? DEVMGR_MSG_FW_STATUS then
    response ← handle_fw_status s request response; Some (s, response)
  else if type =? DEVMGR_MSG_FW_END then
    response ← handle_fw_end s request response; Some (s, response)
  else if type =? DEVMGR_MSG_FW_VERIFY then handle_fw_verify s request response
  else if type =? DEVMGR_MSG_FW_ACTIVATE then handle_fw_activate s request response
  else if type =? DEVMGR_MSG_REBOOT then
    Some (s <| bootloader_active := false |> <| firmware_upgrading := false |>
            <| firmware_verified := false |>, response)
  else response ← nack response 1; Some (s, response).

Definition on_frame (request : devmgr_frame) (s : simulator_state) (env : frame_env)
    : option (Z * simulator_state * list Z) :=
  let s := s <| rx_frames := u64 (rx_frames s + 1) |> in
  '(s, response) ← handle_request s request env;
  write_frame s response (response_env env).

(** ** Telemetry, start and main loop *)

Definition emit_telemetry (s : simulator_state) (now_ns : Z) (env : write_env)
    : option (Z * simulator_state * list Z) :=
  let uptime_seconds := u32 (u64 (now_ns - started_ns s) / 1000000000) in
  let wave := telemetry_samples s mod 21 - 10 in
  let s := s <| temperature_millic := 36500 + wave * 25 |>
             <| voltage_mv := 3300 - telemetry_samples s mod 7 |> in
  let sample := telemetry_samples s in
  payload ← put_words (frame_payload zero_frame) 0
              [u32 (temperature_millic s); voltage_mv s; uptime_seconds; sample];
  let s := s <| telemetry_samples := u32 (sample + 1) |>
             <| next_telemetry_ns := u64 (now_ns + telemetry_interval_ms s * 1000000) |> in
  write_frame s (mk_frame DEVMGR_MSG_TELEMETRY DEVMGR_FRAME_RESPONSE 0 16 payload) env.

(** [fd] is the argument master_fd, [started] the clock at the call. *)
Definition simulator_init (simulator : simulator_state) (fd : Z)
    (config : option simulator_config) (started : Z) : option (Z * simulator_state) :=
  if fd <? 0 then Some (DEVMGR_ERROR_INVALID, simulator)
  else
  let c := default (mk_sim_config (0 # 1) (0 # 1) 0 (-1) false 0) config in
  version ← memcpy (zeros 32) 0 (literal "1.0.0") 0 6;
  let '(result, parser) := devmgr_parser_init in
  Some (result,
    mk_simulator fd parser started 0 0 0 0x53494D30 36500 3300 0 0 0 false None 0 0 0 0 0 version
      (zeros 32) false false false true (config_drop_rate c) (config_corrupt_rate c)
      (config_response_delay_ms c) (config_disconnect_at_percent c) 0 false
      (config_fail_verify c)
      (if negb (config_random_seed c =? 0) then config_random_seed c else 0xC0FFEE01)).

Definition simulator_cleanup (s : simulator_state) : simulator_state :=
  s <| flash := None |> <| flash_size := 0 |>.

(** The parser's callback: the simulator, the number of frames handled so far
    (which environment is next) and the bytes sent. *)
Definition sim_callback (envs : nat → frame_env) (request : devmgr_frame)
    (c : simulator_state * nat * list Z) : option (Z * (simulator_state * nat * list Z)) :=
  let '(s, k, out) := c in
  '(result, s, sent) ← on_frame request s (envs k);
  Some (result, (s, S k, out ++ sent)).

(** One iteration of simulator_run: what poll reports, the clock, the
    environment of a telemetry frame and, when input is ready, of the read and
    of the frames it completes. *)
Inductive poll_outcome :=
  | PollFailed (e : errno)
  | PollTimeout
  | PollReady (error readable : bool).

Record iteration := mk_iteration {
  it_poll : poll_outcome;
  it_now_ns : Z;
  it_telemetry : write_env;
  it_read : read_outcome;
  it_locals : drain_locals;
  it_frames : nat → frame_env;
}.

(** [None]: go on with this state, these bytes sent; [Some]: return the status. *)
Definition simulator_step (s : simulator_state) (it : iteration)
    : option (option Z * simulator_state * list Z) :=
  match it_poll it with
  | PollFailed EINTR => Some (None, s, [])
  | PollFailed _ => Some (Some DEVMGR_ERROR_IO, s, [])
  | poll =>
      '(failed, s, out) ←
        (if telemetry_enabled s && (next_telemetry_ns s <=? it_now_ns it) then
           '(result, s, out) ← emit_telemetry s (it_now_ns it) (it_telemetry it);
           Some (negb (result =? DEVMGR_OK), s, out)
         else Some (false, s, []));
      if (failed : bool) then Some (Some DEVMGR_ERROR_IO, s, out)
      else match poll with
      | PollReady true _ => Some (Some DEVMGR_ERROR_IO, s, out)
      | PollReady false true =>
          match it_read it with
          | Read available =>
              let bytes := delivered available 2048 in
              if len bytes =? 0 then Some (None, s, out)
              else
              '(result, parser, c, _) ←
                devmgr_parser_feed (sim_callback (it_frames it)) (sim_parser s) (it_locals it)
                                   (Some bytes) (len bytes) (s, 0%nat, out) 0;
              let '(s, _, out) := c in
              let s := s <| sim_parser := parser |> in
              if negb (result =? DEVMGR_OK)
              then Some (None, s <| sim_errors := u64 (sim_errors s + 1) |>, out)
              else Some (None, s, out)
          | ReadError EOTHER => Some (Some DEVMGR_ERROR_IO, s, out)
          | ReadError _ => Some (None, s, out)
          end
      | _ => Some (None, s, out)
      end
  end.

(** The loop, until a stop is requested: the status and all bytes sent. *)
Fixpoint simulator_run (s : simulator_state) (its : list iteration) (out : list Z)
    : option (Z * simulator_state * list Z) :=
  match its with
  | [] => Some (DEVMGR_OK, s, out)
  | it :: its =>
      if negb (sim_running s) then Some (DEVMGR_OK, s, out)
      else
      '(r, s, sent) ← simulator_step s it;
      match r with
      | None => simulator_run s its (out ++ sent)
      | Some status => Some (status, s, out ++ sent)
      end
  end.

(** ** What the responses say *)

Lemma blank_response_eq request :
  blank_response request =
    request_frame (frame_type request) DEVMGR_FRAME_RESPONSE (frame_sequence request) [].
Proof. by apply request_frame_intro. Qed.

Lemma nack_spec type flags seq code :
  is_u16 code →
  nack (request_frame type flags seq []) code =
    Some (request_frame DEVMGR_MSG_NACK flags seq (le_bytes 2 code)).
Proof.
  intros. unfold nack.
  change (frame_payload (request_frame type flags seq [])) with
    ([] ++ zeros DEVMGR_PROTOCOL_MAX_PAYLOAD).
  rewrite put_le16_zeros by done. run_stmt. done.
Qed.

(** 32-bit words one after the other. *)
Definition word_bytes (words : list Z) : list Z := concat (map (le_bytes 4) words).

Lemma length_word_bytes words : len (word_bytes words) = 4 * len words.
Proof.
  unfold word_bytes. induction words as [|w words IH]; [done|]. cbn [map concat].
  rewrite length_app, length_le_bytes, length_cons. lia.
Qed.

Lemma word_bytes_Forall words : Forall is_u8 (word_bytes words).
Proof. induction words; [constructor|]. apply Forall_app; auto with devmgr. Qed.

#[local] Hint Resolve word_bytes_Forall : devmgr.

Lemma put_words_spec words p off m :
  Forall is_u32 words → off = len p → 4 * len words ≤ m →
  put_words (p ++ zeros m) off words =
    Some ((p ++ word_bytes words) ++ zeros (m - 4 * len words)).
Proof.
  intros Hw. revert p off m. induction Hw as [|w words Hw Hws IH]; intros p off m Hoff Hm.
  - cbn [put_words]. unfold word_bytes. simpl. by rewrite app_nil_r, Z.sub_0_r.
  - rewrite length_cons in *. cbn [put_words]. rewrite put_le32_zeros by (done || lia). run_stmt.
    rewrite IH by (rewrite ?length_app, ?length_le_bytes; lia).
    unfold word_bytes. cbn [map concat]. rewrite <- !(assoc_L (++)). do 5 f_equal. lia.
Qed.

Lemma words_response_spec type flags seq words :
  Forall is_u32 words → len words ≤ 4 →
  words_response (request_frame type flags seq []) words =
    Some (request_frame type flags seq (word_bytes words)).
Proof.
  intros Hw Hn. unfold words_response.
  change (frame_payload (request_frame type flags seq [])) with
    ([] ++ zeros DEVMGR_PROTOCOL_MAX_PAYLOAD) at 1.
  rewrite put_words_spec by (done || unfold DEVMGR_PROTOCOL_MAX_PAYLOAD; simpl; lia).
  run_stmt. f_equal. apply request_frame_intro; [by rewrite length_word_bytes|].
  cbn [app frame_payload upd]. f_equal.
Qed.

Lemma response_ok type seq payload :
  is_u8 type → is_u32 seq → Forall is_u8 payload → len payload ≤ DEVMGR_PROTOCOL_MAX_PAYLOAD →
  frame_ok (request_frame type DEVMGR_FRAME_RESPONSE seq payload).
Proof. intros. by apply request_frame_ok. Qed.

(** ** The invariant *)

Definition slot_state_ok (s : simulator_state) : Prop :=
  is_u32 (flash_size s) ∧ is_u32 (expected_firmware_crc s) ∧ is_u32 (firmware_offset s) ∧
  is_u32 (firmware_session_id s) ∧ version_ok (firmware_version s) ∧
  version_ok (pending_version s) ∧
  (∀ image, flash s = Some image → len image = flash_size s ∧ Forall is_u8 image) ∧
  (firmware_upgrading s = true →
     is_Some (flash s) ∧ firmware_session_id s ≠ 0 ∧ firmware_offset s ≤ flash_size s).

(** [flash_size] is 32 bits wide on the wire and at most 16 MiB. *)
Definition sim_ok (s : simulator_state) : Prop :=
  (is_u32 (device_id s) ∧ is_u32 (random_state s) ∧ is_u32 (telemetry_samples s)) ∧
  is_u32 (voltage_mv s) ∧ slot_state_ok s.

Definition sim_slot (s : simulator_state) : slot :=
  mk_slot (firmware_session_id s) (flash_size s) (expected_firmware_crc s)
    (string_of (pending_version s)) (default [] (flash s)) (firmware_offset s)
    (firmware_upgrading s) (firmware_verified s) (string_of (firmware_version s)).

(** A request is served: the handler returns, the invariant holds again, and
    the response is one the contract of the slot allows. *)
Definition served (s : simulator_state) (f : devmgr_frame)
    (outcome : option (simulator_state * devmgr_frame)) : Prop :=
  ∃ s' r, outcome = Some (s', r) ∧ sim_ok s' ∧ frame_ok r ∧
          slot_step (sim_slot s) (view f) (view r) (sim_slot s').

Lemma served_nack s s' f code :
  frame_ok f → sim_ok s' → sim_slot s' = sim_slot s → is_u16 code →
  served s f (r ← nack (blank_response f) code; Some (s', r)).
Proof.
  intros (? & ? & ? & _) Hs' Hslot Hc. rewrite blank_response_eq, nack_spec by done. run_stmt.
  assert (frame_ok (request_frame DEVMGR_MSG_NACK DEVMGR_FRAME_RESPONSE (frame_sequence f)
                      (le_bytes 2 code))) as Hok
    by (apply response_ok; auto using le_bytes_Forall; rewrite ?length_le_bytes; done).
  do 2 eexists. split; [done|]. split; [done|]. split; [done|]. rewrite Hslot.
  apply slot_refuse. split; [|split]; [done..|by apply view_ok].
Qed.

Lemma served_ack s s' f payload :
  frame_ok f → sim_ok s' → Forall is_u8 payload → len payload ≤ DEVMGR_PROTOCOL_MAX_PAYLOAD →
  slot_step (sim_slot s) (view f) (ack (view f) payload) (sim_slot s') →
  served s f (Some (s', request_frame (frame_type f) DEVMGR_FRAME_RESPONSE (frame_sequence f)
                          payload)).
Proof.
  intros (? & ? & ? & _) Hs' ?? Hstep. do 2 eexists. split; [done|]. split; [done|].
  split; [by apply response_ok|]. by rewrite view_request_frame.
Qed.

Lemma served_words s s' f words :
  frame_ok f → sim_ok s' → Forall is_u32 words → len words ≤ 4 →
  slot_step (sim_slot s) (view f) (ack (view f) (word_bytes words)) (sim_slot s') →
  served s f (r ← words_response (blank_response f) words; Some (s', r)).
Proof.
  intros. rewrite blank_response_eq, words_response_spec by done. run_stmt.
  apply served_ack; auto with devmgr.
  rewrite length_word_bytes. unfold DEVMGR_PROTOCOL_MAX_PAYLOAD. lia.
Qed.

Lemma served_empty s s' f :
  frame_ok f → sim_ok s' → slot_step (sim_slot s) (view f) (ack (view f) []) (sim_slot s') →
  served s f (Some (s', blank_response f)).
Proof. intros. rewrite blank_response_eq. apply served_ack; auto. done. Qed.

(** The fields of a request's payload. *)
Lemma request_le32 f off :
  frame_ok f → 0 ≤ off → off + 4 ≤ DEVMGR_PROTOCOL_MAX_PAYLOAD →
  devmgr_get_le32 (frame_payload f) off = Some (field (frame_payload f) off 4).
Proof. intros (? & ? & ? & ? & Hl & ?) ??. rewrite <- Hl in *. by apply get_le32_field. Qed.

Lemma request_le16 f off :
  frame_ok f → 0 ≤ off → off + 2 ≤ DEVMGR_PROTOCOL_MAX_PAYLOAD →
  devmgr_get_le16 (frame_payload f) off = Some (field (frame_payload f) off 2).
Proof. intros (? & ? & ? & ? & Hl & ?) ??. rewrite <- Hl in *. by apply get_le16_field. Qed.

Lemma view_word f :
  frame_ok f → frame_payload_length f = 4 →
  w_payload (view f) = le_bytes 4 (field (frame_payload f) 0 4).
Proof.
  intros (? & ? & ? & ? & Hl & ?) E. cbn [view w_payload]. rewrite E.
  apply word_view; [done|]. by rewrite Hl.
Qed.

Lemma view_data f :
  frame_ok f → 8 ≤ frame_payload_length f →
  w_payload (view f) =
    le_bytes 4 (field (frame_payload f) 0 4) ++ le_bytes 4 (field (frame_payload f) 4 4) ++
    slice (frame_payload f) 8 (frame_payload_length f - 8).
Proof. intros (? & ? & ? & ? & Hl & ?) E. apply data_view; [done|]. rewrite Hl. lia. Qed.

(** ** Each handler keeps the contract *)

(** The branches that refuse the request. *)
Ltac refuse := cbn [negb orb]; apply served_nack; done.

(** What malloc promises. *)
Definition malloc_ok (malloc : Z → option (list Z)) : Prop :=
  ∀ n b, malloc n = Some b → len b = n ∧ Forall is_u8 b.

Section Handlers.
Context (s : simulator_state) (f : devmgr_frame).
Context (Hs : sim_ok s) (Hf : frame_ok f).

Lemma serve_fw_status :
  frame_type f = DEVMGR_MSG_FW_STATUS →
  served s f (r ← handle_fw_status s f (blank_response f); Some (s, r)).
Proof.
  intros Ht. pose proof Hs as (_ & _ & ? & ? & ? & ? & _). unfold handle_fw_status.
  destruct (firmware_upgrading s) eqn:Hu; [|refuse].
  destruct (Z.eqb_spec (frame_payload_length f) 4); [|refuse]. cbn [negb orb].
  rewrite request_le32 by done. run_stmt.
  destruct (Z.eqb_spec (field (frame_payload f) 0 4) (firmware_session_id s)) as [E|];
    [|refuse]. cbn [negb].
  apply served_words; [done..|by rewrite !Forall_cons|done|].
  unfold word_bytes. cbn [map concat]. rewrite app_nil_r.
  apply slot_status; [done|]. by rewrite view_word, E.
Qed.

Lemma serve_fw_end :
  frame_type f = DEVMGR_MSG_FW_END →
  served s f (r ← handle_fw_end s f (blank_response f); Some (s, r)).
Proof.
  intros Ht. unfold handle_fw_end.
  destruct (firmware_upgrading s) eqn:Hu; [|refuse].
  destruct (Z.eqb_spec (frame_payload_length f) 4); [|refuse]. cbn [negb orb].
  rewrite request_le32 by done. run_stmt.
  destruct (Z.eqb_spec (field (frame_payload f) 0 4) (firmware_session_id s)) as [E|];
    [|refuse]. cbn [negb orb].
  destruct (Z.eqb_spec (firmware_offset s) (flash_size s)); [|refuse].
  cbn [negb]. run_stmt. apply served_empty; [done..|].
  pose proof (slot_end (sim_slot s) (view f) true Ht) as Hstep.
  rewrite andb_true_r in Hstep. by apply Hstep.
Qed.

Lemma serve_fw_verify :
  frame_type f = DEVMGR_MSG_FW_VERIFY →
  served s f (handle_fw_verify s f (blank_response f)).
Proof.
  intros Ht. pose proof Hs as (_ & _ & ? & ? & ? & ? & ? & ? & Hfl & Hup). unfold handle_fw_verify.
  destruct (flash s) as [image|] eqn:Hi; cycle 1.
  { run_stmt. destruct (firmware_upgrading s) eqn:Hu; [|refuse].
    destruct (Hup eq_refl) as [[??] _]. done. }
  destruct (Hfl image eq_refl) as [Hlen Hb].
  rewrite devmgr_crc32_spec by lia. rewrite take_ge by lia. run_stmt.
  destruct (firmware_upgrading s) eqn:Hu; [|refuse].
  destruct (Z.eqb_spec (frame_payload_length f) 4); [|refuse]. cbn [negb orb].
  rewrite request_le32 by done. run_stmt.
  destruct (Z.eqb_spec (field (frame_payload f) 0 4) (firmware_session_id s)) as [E|];
    [|refuse]. cbn [negb orb].
  destruct (fail_verify s); [refuse|]. cbn [orb].
  destruct (Z.eqb_spec (crc_of image) (expected_firmware_crc s)) as [Ec|]; [|refuse].
  cbn [negb]. rewrite Ec.
  apply served_words; [done|done|by rewrite !Forall_cons|done|].
  unfold word_bytes. cbn [map concat]. rewrite app_nil_r.
  apply (slot_verify (sim_slot s)); [done|]. cbn. by rewrite Hi.
Qed.

Lemma serve_fw_activate :
  frame_type f = DEVMGR_MSG_FW_ACTIVATE →
  served s f (handle_fw_activate s f (blank_response f)).
Proof.
  intros Ht. pose proof Hs as (? & ? & ? & ? & ? & ? & Hfv & (Hpl & Hpb & v & Hv) & Hrest).
  unfold handle_fw_activate.
  destruct (firmware_verified s) eqn:Hver; [|refuse].
  destruct (Z.eqb_spec (frame_payload_length f) 4); [|refuse]. cbn [negb orb].
  rewrite request_le32 by done. run_stmt.
  destruct (Z.eqb_spec (field (frame_payload f) 0 4) (firmware_session_id s)) as [E|];
    [|refuse]. cbn [negb].
  pose proof (holds_string_bound _ _ Hv). destruct Hfv as (Hl & Hb & _).
  rewrite (strlen_holds _ v Hv). run_stmt.
  rewrite memcpy_ok by lia. run_stmt. rewrite (holds_string_slice _ v Hv).
  assert (Forall is_u8 v ∧ Forall (λ x, x ≠ 0) v) as [Hvb Hvz].
  { destruct Hv as (r & E' & ?). rewrite E' in Hpb. by apply Forall_app in Hpb as [? _]. }
  destruct (version_copy (firmware_version s) v) as [Hok Hstr]; [done..|lia|].
  apply served_empty; [done| |].
  - split; [done|]. split; [done|]. repeat (split; [done|]). split; [|done]. by split_and!; [..|exists v].
  - unfold sim_slot at 2. cbn -[splice]. rewrite Hstr.
    rewrite (string_of_holds _ v Hv).
    pose proof (slot_activate (sim_slot s) (view f) Ht Hver) as Hstep.
    cbn in Hstep. by rewrite (string_of_holds _ v Hv) in Hstep.
Qed.
(** The end of the DATA handler, from a state [s1] that took the data. *)
Lemma serve_fw_data_ack s1 now_ns :
  sim_ok s1 →
  slot_step (sim_slot s) (view f) (ack (view f) (le_bytes 4 (firmware_offset s1))) (sim_slot s1) →
  served s f
    (response ← words_response (blank_response f) [firmware_offset s1];
     let s2 := if negb (outage_injected s1) && (0 <=? disconnect_at_percent s1) &&
                  negb (flash_size s1 =? 0) &&
                  (disconnect_at_percent s1 <=? firmware_offset s1 * 100 / flash_size s1)
               then s1 <| outage_injected := true |>
                       <| outage_until_ns := u64 (now_ns + 6000000000) |>
               else s1 in
     Some (s2, response)).
Proof.
  intros Hs1 Hstep.
  match goal with |- context [if ?b then ?x else s1] => set (s2 := if b then x else s1) end.
  assert (sim_ok s2 ∧ sim_slot s2 = sim_slot s1) as [Hok2 Hslot2] by (unfold s2; by case_match).
  cbv zeta. apply served_words; [done..| | |].
  - pose proof Hs1 as (_ & _ & _ & _ & ? & _). by rewrite Forall_cons.
  - done.
  - rewrite Hslot2. unfold word_bytes. cbn [map concat]. by rewrite app_nil_r.
Qed.

Lemma serve_fw_data now_ns :
  frame_type f = DEVMGR_MSG_FW_DATA →
  served s f (handle_fw_data s f (blank_response f) now_ns).
Proof.
  intros Ht. pose proof Hs as (? & ? & Hsz & ? & Hoff & ? & ? & ? & Hfl & Hup).
  pose proof Hf as (_ & _ & _ & Hpn & Hpl & Hpb).
  unfold handle_fw_data. cbv zeta.
  destruct (firmware_upgrading s) eqn:Hu; [|refuse]. cbn [negb orb].
  destruct (Hup eq_refl) as [[image Hi] [Hid Hle]]. destruct (Hfl image Hi) as [Hlen Hib].
  destruct (Z.leb_spec (frame_payload_length f) 8); [refuse|].
  rewrite (request_le32 f 0) by done. run_stmt.
  destruct (Z.eqb_spec (field (frame_payload f) 0 4) (firmware_session_id s)) as [E|];
    [|refuse]. cbn [negb].
  rewrite (request_le32 f 4) by done. run_stmt.
  pose proof (view_data f Hf ltac:(lia)) as Hview. rewrite E in Hview.
  pose proof (field_u32 (frame_payload f) 4 Hpb) as Hou.
  set (off := field (frame_payload f) 4 4) in *. set (n := frame_payload_length f - 8) in *.
  set (data := slice (frame_payload f) 8 n) in *.
  unfold is_u32, DEVMGR_PROTOCOL_MAX_PAYLOAD in *.
  assert (len data = n) as Hdn by (unfold data; rewrite len_slice; lia).
  destruct (Z.ltb_spec (firmware_chunk_size s) n); [refuse|].
  destruct (Z.ltb_spec (flash_size s) off); [refuse|].
  destruct (Z.ltb_spec (flash_size s - off) n); [refuse|]. cbn [orb].
  destruct (Z.ltb_spec off (firmware_offset s)).
  - destruct (Z.ltb_spec (firmware_offset s) (off + n)); [run_stmt; refuse|].
    rewrite Hi. run_stmt. unfold memcmp_eq. rewrite !mem_read_ok by lia. do 3 run_stmt.
    case_bool_decide as Heq; cbn [negb]; [|refuse].
    apply serve_fw_data_ack; [done|].
    apply (slot_repeat (sim_slot s) (view f) off data); cbn; [done..|lia|lia|].
    rewrite Hi, Hdn. done.
  - destruct (Z.eqb_spec off (firmware_offset s)) as [Eo|]; [|refuse].
    rewrite Hi. run_stmt. rewrite memcpy_ok by lia. run_stmt. fold data.
    set (s1 := _ <| firmware_offset := _ |>).
    assert (u32 (firmware_offset s + n) = firmware_offset s + len data) as Eu
      by (rewrite u32_id; unfold is_u32; lia).
    apply (serve_fw_data_ack s1).
    + unfold s1, sim_ok, slot_state_ok. cbn -[splice]. rewrite Eu, Hdn. unfold is_u32.
      repeat (split; [done || lia|]). split; [|split; [done|lia]].
      intros ? [= <-]. rewrite length_splice by lia. split; [done|].
      apply splice_Forall; [done|]. by apply slice_Forall.
    + unfold s1. cbn -[splice ack]. rewrite Eu.
      pose proof (slot_write (sim_slot s) (view f) data Ht Hu) as Hstep.
      cbn -[splice ack] in Hstep. rewrite Hi in Hstep. cbn -[splice ack] in Hstep.
      unfold sim_slot. cbn -[splice ack]. rewrite Eo. apply Hstep; [by rewrite <- Eo|lia].
Qed.
(** A FW_BEGIN request with a terminated version. *)
Lemma view_begin p v r :
  frame_payload f = p ++ v ++ 0 :: r → len p = 10 → len v < frame_payload_length f - 10 →
  w_payload (view f) =
    begin_payload (field (frame_payload f) 0 4) (field (frame_payload f) 4 4)
      (field (frame_payload f) 8 2) v
      (slice (frame_payload f) (11 + len v) (frame_payload_length f - 11 - len v)).
Proof.
  intros Ep Hp Hv. pose proof Hf as (_ & _ & _ & Hn & Hl & Hb).
  apply (begin_view _ _ p v r); [done|rewrite Hl; lia|done..].
Qed.

(** The test for a transfer that can be resumed. *)
Lemma begin_resumes p v r size crc chunk :
  frame_payload f = p ++ v ++ 0 :: r → 10 = len p → Forall (λ x, x ≠ 0) v →
  ∃ same : bool,
    (if firmware_upgrading s && (flash_size s =? size) && (expected_firmware_crc s =? crc) &&
        (firmware_chunk_size s =? chunk)
     then strcmp_eq (pending_version s) 0 (frame_payload f) 10 else Some false) = Some same ∧
    (same = true → firmware_upgrading s = true ∧ size = flash_size s ∧
                   crc = expected_firmware_crc s ∧ v = string_of (pending_version s)).
Proof.
  intros Ep Hp Hv. pose proof Hs as (_ & _ & _ & _ & _ & _ & _ & (_ & _ & w & Hw) & _).
  destruct (firmware_upgrading s); [|by exists false]. cbn [andb].
  destruct (Z.eqb_spec (flash_size s) size) as [<-|]; [|by exists false]. cbn [andb].
  destruct (Z.eqb_spec (expected_firmware_crc s) crc) as [<-|]; [|by exists false]. cbn [andb].
  destruct (Z.eqb_spec (firmware_chunk_size s) chunk) as [<-|]; [|by exists false].
  exists (bool_decide (w = v)). unfold strcmp_eq.
  rewrite (c_string_holds _ w Hw), Ep, (c_string_at p v r 10) by done. split; [done|].
  intros <-%bool_decide_eq_true. by rewrite (string_of_holds _ w Hw).
Qed.

Lemma serve_fw_begin malloc :
  frame_type f = DEVMGR_MSG_FW_BEGIN → malloc_ok malloc →
  served s f (handle_fw_begin s f (blank_response f) malloc).
Proof.
  intros Ht Hmalloc. pose proof Hs as (? & ? & Hsz & ? & Hoff & Hid & Hfv & Hpv & Hfl & Hup).
  pose proof Hf as (_ & _ & _ & Hpn & Hpl & Hpb).
  unfold handle_fw_begin. cbv zeta.
  destruct (bootloader_active s); [|refuse]. cbn [negb orb].
  destruct (Z.ltb_spec (frame_payload_length f) 11); [refuse|].
  rewrite (request_le32 f 0), (request_le32 f 4), (request_le16 f 8) by done. do 3 run_stmt.
  unfold DEVMGR_PROTOCOL_MAX_PAYLOAD in Hpn, Hpl.
  pose proof (field_u32 (frame_payload f) 0 Hpb) as Hsu.
  pose proof (field_u32 (frame_payload f) 4 Hpb) as Hcu.
  destruct (memchr0_total (frame_payload f) 10 (frame_payload_length f - 10)) as [m Em]; [lia..|].
  rewrite Em. run_stmt.
  destruct m as [m|]; cycle 1.
  { cbn [default from_option]. rewrite Z.eqb_refl, !orb_true_r. cbn [orb]. refuse. }
  apply memchr0_Some in Em as (p & v & r & Ep & Hp & -> & Hv & Hm); [|lia..].
  pose proof (view_begin p v r Ep ltac:(lia) Hm) as Hview.
  cbn [default from_option]. change (id (len v)) with (len v).
  match goal with |- context [if ?b then _ else _] => destruct b eqn:G end; [refuse|].
  apply orb_false_iff in G as [_ Hv32%Z.leb_gt].
  destruct (begin_resumes p v r (field (frame_payload f) 0 4) (field (frame_payload f) 4 4)
              (field (frame_payload f) 8 2) Ep Hp Hv) as (same & -> & Hsame). run_stmt.
  destruct same.
  { destruct (Hsame eq_refl) as (Hu & Es & Ec & Ev).
    apply served_words; [done..|by rewrite !Forall_cons|done|].
    unfold word_bytes. cbn [map concat]. rewrite app_nil_r.
    by eapply (slot_resume (sim_slot s) (view f)). }
  destruct (malloc _) as [image|] eqn:Em; [|refuse]. destruct (Hmalloc _ _ Em) as [Hbl Hbb].
  destruct Hpv as (Hpvl & Hpvb & _). rewrite memcpy_ok by (rewrite ?Hpvl; lia). run_stmt.
  rewrite Ep, slice_terminated by lia.
  destruct (next_session_id (firmware_session_id s)) as [Hi Hi0]. cbv zeta in Hi, Hi0.
  set (id := if u32 (firmware_session_id s + 1) =? 0 then 1 else _) in *.
  assert (Forall is_u8 v) as Hvb by (rewrite Ep, !Forall_app in Hpb; by destruct Hpb as (_ & ? & _)).
  destruct (version_copy (pending_version s) v) as [Hok Hstr]; [done..|].
  rewrite <- Ep.
  apply served_words; [done| |by rewrite !Forall_cons|done|].
  - repeat (split; [done || by intros ? [= <-]|]). apply Hsu.
  - unfold word_bytes. cbn [map concat]. rewrite app_nil_r. unfold sim_slot at 2.
    cbn -[splice ack begin_payload le_bytes]. rewrite Hstr.
    by eapply (slot_begin (sim_slot s) (view f)).
Qed.
(** The identification strings, each with its terminator. *)
Definition info_payload : list Z :=
  le_bytes 4 (device_id s) ++ literal "STM32-SIM" ++ literal "HW-1.0" ++
  (string_of (firmware_version s) ++ [0]) ++ literal "BL-1.0.0" ++ literal "SIM00000001".

Lemma literal_u8 x : Forall is_u8 (literal x).
Proof.
  apply Forall_app; split; [|by repeat constructor]. apply Forall_fmap, Forall_true. intros c.
  pose proof (Ascii.N_ascii_bounded c). unfold is_u8, compose. lia.
Qed.

Lemma put_string_spec p off value v m :
  holds_string value v → off = len p → len p + m = DEVMGR_PROTOCOL_MAX_PAYLOAD →
  len v + 1 ≤ m →
  put_string (p ++ zeros m) DEVMGR_PROTOCOL_MAX_PAYLOAD off value =
    Some ((p ++ v ++ [0]) ++ zeros (m - (len v + 1)), off + (len v + 1)).
Proof.
  intros Hv -> Hm Hn. unfold put_string. rewrite (strlen_holds _ v Hv). run_stmt. rewrite <- Hm.
  pose proof (holds_string_bound _ _ Hv). zreduce.
  rewrite memcpy_zeros by (done || lia). run_stmt. by rewrite (holds_string_slice _ v Hv).
Qed.

Ltac info_len :=
  rewrite ?length_app, ?length_le_bytes; unfold DEVMGR_PROTOCOL_MAX_PAYLOAD; simpl; lia.

Lemma handle_info_spec :
  handle_info s (blank_response f) =
    Some (request_frame (frame_type f) DEVMGR_FRAME_RESPONSE (frame_sequence f) info_payload) ∧
  Forall is_u8 info_payload ∧ len info_payload < 128.
Proof.
  pose proof Hs as ((Hid & _) & _ & _ & _ & _ & _ & (Hl & Hb & v & Hv) & _).
  pose proof (holds_string_bound _ _ Hv) as Hn. rewrite Hl in Hn.
  assert (Forall is_u8 v) as Hvb.
  { destruct Hv as (r & E & _). rewrite E in Hb. by apply Forall_app in Hb as [? _]. }
  unfold handle_info, info_payload. rewrite (string_of_holds _ v Hv). split; cycle 1.
  { split; [|rewrite !length_app, length_le_bytes; simpl; lia].
    rewrite !Forall_app. split_and!; auto using le_bytes_Forall, literal_u8. by repeat constructor. }
  change (frame_payload (blank_response f)) with ([] ++ zeros DEVMGR_PROTOCOL_MAX_PAYLOAD).
  rewrite put_le32_zeros by done. run_stmt. cbn [app].
  unfold DEVMGR_PROTOCOL_MAX_PAYLOAD at 1.
  do 2 (erewrite put_string_spec; [|by apply literal_holds|info_len..]; run_stmt).
  erewrite put_string_spec; [|exact Hv|info_len..]. run_stmt.
  do 2 (erewrite put_string_spec; [|by apply literal_holds|info_len..]; run_stmt).
  rewrite u16_id by (unfold is_u16; simpl; lia). f_equal. unfold literal.
  apply request_frame_intro; [info_len|].
  cbn [frame_payload upd]. rewrite <- !(assoc_L (++)). do 12 f_equal. info_len.
Qed.
(** Requests that are not about firmware leave the slot alone. *)
Lemma slot_unrelated s' payload :
  sim_slot s' = sim_slot s →
  (frame_type f <? DEVMGR_MSG_FW_BEGIN) || (DEVMGR_MSG_REBOOT <? frame_type f) = true →
  slot_step (sim_slot s) (view f) (ack (view f) payload) (sim_slot s').
Proof.
  intros -> [?%Z.ltb_lt|?%Z.ltb_lt]%orb_true_iff; apply slot_other; try done; cbn; lia.
Qed.

Lemma serve_ping :
  frame_type f = DEVMGR_MSG_PING →
  served s f
    (payload ← memcpy (frame_payload (blank_response f)) 0 (frame_payload f) 0
                      (frame_payload_length f);
     Some (s, (blank_response f) <| frame_payload_length := frame_payload_length f |>
                                 <| frame_payload := payload |>)).
Proof.
  intros Ht. pose proof Hf as (? & ? & ? & Hn & Hl & Hb).
  change (frame_payload (blank_response f)) with ([] ++ zeros DEVMGR_PROTOCOL_MAX_PAYLOAD).
  rewrite memcpy_zeros by (done || lia). run_stmt.
  match goal with |- served _ _ (Some (_, ?r)) =>
    replace r with (request_frame (frame_type f) DEVMGR_FRAME_RESPONSE (frame_sequence f)
                      (slice (frame_payload f) 0 (frame_payload_length f)))
      by (symmetry; apply request_frame_intro; [rewrite len_slice; cbn; lia|done]) end.
  apply served_ack; [done..|by apply slice_Forall|rewrite len_slice; lia|].
  apply slot_unrelated; [done|by rewrite Ht].
Qed.

Lemma serve_start_telemetry now_ns :
  frame_type f = DEVMGR_MSG_START_TELEMETRY →
  served s f (handle_start_telemetry s f (blank_response f) now_ns).
Proof.
  intros Ht. unfold handle_start_telemetry.
  destruct (Z.eqb_spec (frame_payload_length f) 4); [|refuse]. cbn [negb].
  rewrite request_le32 by done. run_stmt. cbv zeta.
  match goal with |- context [if ?b then _ else _] => destruct b end; [refuse|].
  pose proof Hf as (_ & _ & _ & _ & _ & ?).
  apply served_words; [done|done|by rewrite Forall_cons; split; [apply field_u32|]|done|].
  apply slot_unrelated; [done|by rewrite Ht].
Qed.

Lemma serve_request env :
  malloc_ok (env_malloc env) → served s f (handle_request s f env).
Proof.
  intros Hm. pose proof Hs as (? & ? & _). unfold handle_request. cbv zeta.
  destruct (Z.eqb_spec (frame_type f) DEVMGR_MSG_PING) as [Ht|]; [by apply serve_ping|].
  destruct (Z.eqb_spec (frame_type f) DEVMGR_MSG_GET_INFO) as [Ht|].
  { destruct handle_info_spec as (-> & ? & ?). run_stmt.
    apply served_ack; [done..|unfold DEVMGR_PROTOCOL_MAX_PAYLOAD; lia|].
    apply slot_unrelated; [done|by rewrite Ht]. }
  destruct (Z.eqb_spec (frame_type f) DEVMGR_MSG_GET_HEALTH) as [Ht|].
  { apply served_words; [done..|repeat (constructor; [by auto using u32_range|]); constructor|done|].
    apply slot_unrelated; [done|by rewrite Ht]. }
  destruct (Z.eqb_spec (frame_type f) DEVMGR_MSG_GET_STATS) as [Ht|].
  { apply served_words; [done..|repeat (constructor; [by auto using u32_range|]); constructor|done|].
    apply slot_unrelated; [done|by rewrite Ht]. }
  destruct (Z.eqb_spec (frame_type f) DEVMGR_MSG_START_TELEMETRY) as [Ht|];
    [by apply serve_start_telemetry|].
  destruct (Z.eqb_spec (frame_type f) DEVMGR_MSG_STOP_TELEMETRY) as [Ht|].
  { apply served_empty; [done..|]. apply slot_unrelated; [done|by rewrite Ht]. }
  destruct (Z.eqb_spec (frame_type f) DEVMGR_MSG_ENTER_BOOTLOADER) as [Ht|].
  { apply served_empty; [done..|]. apply slot_unrelated; [done|by rewrite Ht]. }
  destruct (Z.eqb_spec (frame_type f) DEVMGR_MSG_FW_BEGIN); [by apply serve_fw_begin|].
  destruct (Z.eqb_spec (frame_type f) DEVMGR_MSG_FW_DATA); [by apply serve_fw_data|].
  destruct (Z.eqb_spec (frame_type f) DEVMGR_MSG_FW_STATUS); [by apply serve_fw_status|].
  destruct (Z.eqb_spec (frame_type f) DEVMGR_MSG_FW_END); [by apply serve_fw_end|].
  destruct (Z.eqb_spec (frame_type f) DEVMGR_MSG_FW_VERIFY); [by apply serve_fw_verify|].
  destruct (Z.eqb_spec (frame_type f) DEVMGR_MSG_FW_ACTIVATE); [by apply serve_fw_activate|].
  destruct (Z.eqb_spec (frame_type f) DEVMGR_MSG_REBOOT) as [Ht|]; [|refuse].
  apply served_empty; [done| |].
  - destruct Hs as (? & ? & ? & ? & ? & ? & ? & ? & ? & _). by repeat (split; [done|]).
  - pose proof (slot_reboot (sim_slot s) (view f) false false Ht) as Hstep.
    cbn -[ack] in Hstep. by rewrite !andb_false_r in Hstep.
Qed.
End Handlers.

(** ** What reaches the wire *)

(** An outcome after which the loop calls write again without progress. *)
Definition retried (o : write_outcome * bool) : bool :=
  match o with
  | (WriteError EINTR, _) | (WriteError EAGAIN, true) => true
  | _ => false
  end.

(** A write that the loop gives up on. *)
Definition failed_write (o : write_outcome * bool) : bool :=
  match o with
  | (Wrote n, _) => n <=? 0
  | _ => negb (retried o)
  end.

(** A script long enough for [n] bytes, even if written one at a time. *)
Definition script_covers (script : list (write_outcome * bool)) (n : Z) : Prop :=
  n ≤ len (filter (λ o, retried o = false) script).

(** The write loop ends; it has sent everything or a proper prefix. *)
Lemma write_loop_spec script encoded length offset sent :
  0 ≤ offset ≤ length → length ≤ len encoded → script_covers script (length - offset) →
  ∃ result n,
    write_loop script encoded length offset sent =
      Some (result, sent ++ slice encoded offset n) ∧ 0 ≤ n ≤ length - offset ∧
    (result = DEVMGR_OK ∧ n = length - offset ∨ result = DEVMGR_ERROR_IO ∧ Exists (λ o, failed_write o = true) script).
Proof.
  revert offset sent. induction script as [|[o ready] script IH]; intros offset sent Ho Hl Hc.
  - unfold script_covers in Hc. cbn in Hc. cbn [write_loop].
    exists DEVMGR_OK, 0. zreduce. rewrite slice_nil, app_nil_r. split; [done|]. split; [lia|left; lia].
  - cbn [write_loop]. destruct (Z.ltb_spec offset length); cbn [negb]; cycle 1.
    { exists DEVMGR_OK, 0. rewrite slice_nil, app_nil_r. split; [done|]. split; [lia|left; lia]. }
    unfold script_covers in *. rewrite filter_cons in Hc.
    assert (Hretry : retried (o, ready) = true →
      ∃ result n,
        write_loop script encoded length offset sent =
          Some (result, sent ++ slice encoded offset n) ∧ 0 ≤ n ≤ length - offset ∧
        (result = DEVMGR_OK ∧ n = length - offset ∨ result = DEVMGR_ERROR_IO ∧ Exists (λ o, failed_write o = true) ((o, ready) :: script))).
    { intros Hr. rewrite decide_False in Hc by by rewrite Hr.
      destruct (IH offset sent) as (result & n & E & Hn & Hres); [done..|]. exists result, n.
      split; [done|]. split; [done|]. destruct Hres as [?|[? ?]]; [by left|right]. split; [done|by right]. }
    assert (Hfail : failed_write (o, ready) = true → ∃ result n,
      Some (DEVMGR_ERROR_IO, sent) = Some (result, sent ++ slice encoded offset n) ∧
      0 ≤ n ≤ length - offset ∧
      (result = DEVMGR_OK ∧ n = length - offset ∨ result = DEVMGR_ERROR_IO ∧ Exists (λ o, failed_write o = true) ((o, ready) :: script))).
    { intros Hf. exists DEVMGR_ERROR_IO, 0. rewrite slice_nil, app_nil_r. split; [done|]. split; [lia|right].
      split; [done|by left]. }
    destruct o as [n|[]]; [|by apply Hretry|destruct ready; [by apply Hretry|by apply Hfail]|by apply Hfail|by apply Hfail].
    unfold taken. destruct (Z.ltb_spec 0 (Z.min n (length - offset))); [|apply Hfail; cbn; apply Z.leb_le; lia].
    set (count := Z.min n (length - offset)) in *. rewrite decide_True in Hc by done.
    rewrite mem_read_ok by lia. run_stmt.
    destruct (IH (offset + count) (sent ++ slice encoded offset count)) as (result & m & -> & Hm & Hr);
      [lia..|cbn in Hc; lia|].
    exists result, (count + m). rewrite slice_split by lia. rewrite <- (assoc_L (++)).
    split; [done|]. split; [lia|]. destruct Hr as [[-> ->]|[-> ?]]; [left; split; [done|lia]|right].
    split; [done|by right].
Qed.

Definition write_env_ok (env : write_env) : Prop :=
  len (env_encoded env) = DEVMGR_PROTOCOL_MAX_FRAME ∧
  script_covers (env_script env) DEVMGR_PROTOCOL_MAX_FRAME.

(** The corruption fault: bit 6 of the first byte after the header. *)
Definition corrupt (l : list Z) : list Z :=
  match l !! 12%nat with Some b => <[12%nat := Z.lxor b 0x40]> l | None => l end.

(** The states that differ in the generator and the transmit counter only. *)
Definition same_device (s s' : simulator_state) : Prop :=
  ∃ r t, is_u32 r ∧ s' = s <| random_state := r |> <| tx_frames := t |>.

Lemma same_device_ok s s' : same_device s s' → sim_ok s → sim_ok s' ∧ sim_slot s' = sim_slot s.
Proof. intros (r & t & ? & ->) ((? & ? & ?) & ? & ?). done. Qed.

Lemma lxor_u8 a b : is_u8 a → is_u8 b → is_u8 (Z.lxor a b).
Proof.
  unfold is_u8. intros Ha Hb. assert (0 ≤ Z.lxor a b) by (apply Z.lxor_nonneg; lia).
  split; [done|]. change 256 with (2 ^ 8). apply Z.bounded_iff_bits_nonneg; [lia..|].
  intros i Hi. rewrite Z.lxor_spec.
  rewrite (proj1 (Z.bounded_iff_bits_nonneg 8 a ltac:(lia) ltac:(lia)) ltac:(lia)) by lia.
  by rewrite (proj1 (Z.bounded_iff_bits_nonneg 8 b ltac:(lia) ltac:(lia)) ltac:(lia)) by lia.
Qed.

Lemma shiftr_u32 a n : is_u32 a → 0 ≤ n → is_u32 (Z.shiftr a n).
Proof.
  unfold is_u32. intros Ha Hn. rewrite Z.shiftr_div_pow2 by done.
  pose proof (Z.pow_pos_nonneg 2 n ltac:(lia) Hn).
  split; [apply Z.div_pos; lia|]. apply Z.div_lt_upper_bound; nia.
Qed.

Lemma simulator_random_spec s :
  is_u32 (random_state s) →
  ∃ v, is_u32 v ∧ simulator_random s = (v, s <| random_state := v |>).
Proof.
  intros. unfold simulator_random. cbv zeta. eexists. split; [|done].
  repeat (apply lxor_u32 || apply u32_range || apply shiftr_u32 || done).
Qed.

(** A rate of 0 never fires; a rate of 1 always does. *)
Lemma random_below_zero v rate : is_u32 v → (Qnum rate ≤ 0)%Z → random_below v rate = false.
Proof. unfold random_below, is_u32. intros. apply Z.ltb_ge. nia. Qed.

Lemma random_below_one v rate :
  is_u32 v → (Zpos (Qden rate) ≤ Qnum rate)%Z → random_below v rate = true.
Proof. unfold random_below, is_u32. intros. apply Z.ltb_lt. nia. Qed.

Lemma corrupt_spec w rest :
  (b ← load (encode_wire w ++ rest) DEVMGR_PROTOCOL_HEADER_SIZE;
   store (encode_wire w ++ rest) DEVMGR_PROTOCOL_HEADER_SIZE (Z.lxor b 0x40)) =
    Some (corrupt (encode_wire w) ++ rest).
Proof.
  pose proof (length_encode_wire w) as Hl. unfold DEVMGR_PROTOCOL_HEADER_SIZE.
  destruct (load_ok (encode_wire w ++ rest) 12) as (b & -> & Hb); [rewrite length_app; lia|].
  run_stmt. rewrite store_ok by (rewrite length_app; lia). f_equal.
  change (Z.to_nat 12) with 12%nat in *. rewrite lookup_app_l in Hb by lia.
  rewrite insert_app_l by lia. unfold corrupt. by rewrite Hb.
Qed.

(** The bytes handed to the write loop. *)
Lemma choose_message w rest (corrupted : bool) :
  (if corrupted && (DEVMGR_PROTOCOL_HEADER_SIZE <? len (encode_wire w))
   then b ← load (encode_wire w ++ rest) DEVMGR_PROTOCOL_HEADER_SIZE;
        store (encode_wire w ++ rest) DEVMGR_PROTOCOL_HEADER_SIZE (Z.lxor b 0x40)
   else Some (encode_wire w ++ rest)) =
  Some ((if corrupted then corrupt (encode_wire w) else encode_wire w) ++ rest).
Proof.
  destruct corrupted; cbn [andb]; [|done].
  pose proof (length_encode_wire w). unfold DEVMGR_PROTOCOL_HEADER_SIZE at 1. zreduce. apply corrupt_spec.
Qed.

(** The faults that are injected into a frame sent at [now_ns]: it is lost in an
    outage or to the first random number, corrupted to the second. *)
Definition lost (s : simulator_state) (now_ns : Z) : bool :=
  (now_ns <? outage_until_ns s) || random_below (simulator_random s).1 (drop_rate s).

Definition corrupted (s : simulator_state) : bool :=
  random_below (simulator_random (simulator_random s).2).1 (corrupt_rate s).

Definition on_wire (s : simulator_state) (w : wire_frame) : list Z :=
  if corrupted s then corrupt (encode_wire w) else encode_wire w.

Lemma length_on_wire s w : len (on_wire s w) = len (encode_wire w).
Proof. unfold on_wire, corrupt. destruct (corrupted s); [|done]. case_match; [by rewrite length_insert|done]. Qed.

(** Without injected faults a frame goes out as it is. *)
Lemma faultless s now_ns w :
  is_u32 (random_state s) → outage_until_ns s ≤ now_ns → (Qnum (drop_rate s) ≤ 0)%Z →
  (Qnum (corrupt_rate s) ≤ 0)%Z → lost s now_ns = false ∧ on_wire s w = encode_wire w.
Proof.
  intros Hr Ho Hd Hc. unfold lost, on_wire, corrupted.
  destruct (simulator_random_spec s Hr) as (v1 & Hv1 & ->). cbn [fst snd].
  destruct (simulator_random_spec (s <| random_state := v1 |>)) as (v2 & Hv2 & ->); [done|]. cbn [fst].
  rewrite !random_below_zero by done. by rewrite (proj2 (Z.ltb_ge _ _)) by done.
Qed.

(** What became of the frame [w]: lost, sent, or cut off by a write that failed. *)
Definition delivery (s : simulator_state) (w : wire_frame) (env : write_env) (result : Z)
    (sent : list Z) : Prop :=
  if lost s (env_now_ns env) then result = DEVMGR_OK ∧ sent = []
  else result = DEVMGR_OK ∧ sent = on_wire s w ∨
       result = DEVMGR_ERROR_IO ∧ sent `prefix_of` on_wire s w ∧
       Exists (λ o, failed_write o = true) (env_script env).

Lemma delivery_result s w env result sent :
  delivery s w env result sent → result = DEVMGR_OK ∨ result = DEVMGR_ERROR_IO.
Proof. unfold delivery. destruct (lost _ _); tauto. Qed.

Lemma write_frame_spec s r env :
  is_u32 (random_state s) → frame_ok r → write_env_ok env →
  ∃ result s' sent,
    write_frame s r env = Some (result, s', sent) ∧ same_device s s' ∧
    delivery s (view r) env result sent.
Proof.
  intros Hr Hf [Hlen Hc]. unfold write_frame, delivery, lost.
  change DEVMGR_PROTOCOL_MAX_FRAME with 4112 in *.
  destruct (Z.ltb_spec (env_now_ns env) (outage_until_ns s)); cbn [orb].
  { do 3 eexists. split; [done|]. split; [exists (random_state s), (tx_frames s); by destruct s|done]. }
  destruct (simulator_random_spec s Hr) as (v1 & Hv1 & E1). rewrite E1. cbn [fst].
  change (drop_rate (s <| random_state := v1 |>)) with (drop_rate s).
  destruct (random_below v1 (drop_rate s)).
  { do 3 eexists. split; [done|]. split; [exists v1, (tx_frames s); by destruct s|done]. }
  rewrite frame_encode_spec by (done || pose proof Hf as (_ & _ & _ & ? & _);
    change DEVMGR_PROTOCOL_MAX_PAYLOAD with 4096 in *; lia).
  run_stmt. cbn [negb Z.eqb DEVMGR_OK].
  destruct (simulator_random_spec (s <| random_state := v1 |>)) as (v2 & Hv2 & E2); [done|]. rewrite E2.
  set (w := view r). set (rest := drop _ _). pose proof (length_encode_wire w) as Hwl.
  assert (16 + len (w_payload w) ≤ 4112) as Hmax.
  { unfold w. rewrite len_view_payload by done. pose proof Hf as (_ & _ & _ & ? & _).
    change DEVMGR_PROTOCOL_MAX_PAYLOAD with 4096 in *. lia. }
  rewrite choose_message. pose proof (length_on_wire s w) as Hl. unfold on_wire, corrupted in *.
  rewrite E1 in *. cbn [snd] in *. rewrite E2 in *. cbn [fst corrupt_rate upd] in *. run_stmt.
  set (m := if random_below v2 (corrupt_rate s) then _ else _) in *.
  destruct (write_loop_spec (env_script env) (m ++ rest) (len (encode_wire w)) 0 [])
    as (result & n & -> & Hn & Hres);
    [lia|rewrite length_app; lia|unfold script_covers in *; lia|].
  rewrite bind_ok. cbv beta iota.
  destruct Hres as [[-> ->]|[-> Hx]]; cbn [negb Z.eqb DEVMGR_OK DEVMGR_ERROR_IO app].
  - do 3 eexists. split; [done|]. split; [by eexists v2, _|]. left. split; [done|].
    by rewrite slice_prefix by lia.
  - do 3 eexists. split; [done|]. split; [exists v2, (tx_frames s); by destruct s|]. right. split; [done|].
    split; [|done]. unfold slice. rewrite drop_0, take_app_le by lia. apply prefix_take.
Qed.

(** ** One frame from end to end *)

Definition frame_env_ok (env : frame_env) : Prop :=
  malloc_ok (env_malloc env) ∧ write_env_ok (response_env env).

Lemma counted_ok s : sim_ok s → sim_ok (s <| rx_frames := u64 (rx_frames s + 1) |>).
Proof. done. Qed.

Lemma on_frame_spec s f env :
  sim_ok s → frame_ok f → frame_env_ok env →
  ∃ s1 r result s' sent,
    handle_request (s <| rx_frames := u64 (rx_frames s + 1) |>) f env = Some (s1, r) ∧
    on_frame f s env = Some (result, s', sent) ∧ sim_ok s1 ∧ sim_ok s' ∧ frame_ok r ∧
    slot_step (sim_slot s) (view f) (view r) (sim_slot s') ∧
    delivery s1 (view r) (response_env env) result sent.
Proof.
  intros Hs Hf [Hm Hw]. unfold on_frame. cbv zeta.
  pose proof (serve_request _ f (counted_ok s Hs) Hf env Hm) as (s1 & r & -> & Hs1 & Hr & Hstep).
  run_stmt. cbv iota.
  destruct (write_frame_spec s1 r (response_env env)) as (result & s' & sent & -> & Hsame & Hres);
    [apply Hs1|done..|].
  destruct (same_device_ok s1 s' Hsame Hs1) as [Hs' Hslot].
  exists s1, r, result, s', sent. do 5 (split; [done|]). by rewrite Hslot.
Qed.

(** Serving one request as a step of the device. *)
Definition sim_device_step (s : simulator_state) (req resp : wire_frame) (s' : simulator_state)
    : Prop :=
  ∃ f env s1 r result sent,
    frame_ok f ∧ view f = req ∧ frame_env_ok env ∧
    handle_request (s <| rx_frames := u64 (rx_frames s + 1) |>) f env = Some (s1, r) ∧
    view r = resp ∧ write_frame s1 r (response_env env) = Some (result, s', sent).

(** A kernel that takes one byte per call, and no memory. *)
Definition slow_env : frame_env :=
  mk_frame_env 0 (λ _, None)
    (mk_write_env 0 (zeros DEVMGR_PROTOCOL_MAX_FRAME)
       (replicate (Z.to_nat DEVMGR_PROTOCOL_MAX_FRAME) (Wrote 1, true))).

Lemma slow_env_ok : frame_env_ok slow_env.
Proof. split; [done|]. split; [by vm_compute|by vm_compute]. Qed.

Lemma sim_slot_ok s : sim_ok s → slot_ok (sim_slot s).
Proof.
  intros (_ & _ & ? & ? & Ho & ? & _ & _ & Hfl & Hup). unfold slot_ok. cbn.
  split; [done|]. split; [done|]. split; [apply Ho|]. split; [done|]. intros Hu.
  destruct (Hup Hu) as ([image Hi] & ? & ?). rewrite Hi. split; [done|]. split; [done|].
  by apply (Hfl image Hi).
Qed.

Lemma sim_device_refines s req resp s' :
  sim_ok s → sim_device_step s req resp s' →
  sim_ok s' ∧ wire_ok resp ∧ slot_step (sim_slot s) req resp (sim_slot s').
Proof.
  intros Hs (f & env & s1 & r & result & sent & Hf & <- & [Hm Hw] & Hh & <- & Hwr).
  pose proof (serve_request _ f (counted_ok s Hs) Hf env Hm) as (s1' & r' & E & Hs1 & Hr & Hstep).
  rewrite Hh in E. injection E as <- <-.
  destruct (write_frame_spec s1 r (response_env env)) as (? & s'' & ? & E' & Hsame & _);
    [apply Hs1|done..|].
  rewrite Hwr in E'. injection E' as <- <- <-.
  destruct (same_device_ok s1 s' Hsame Hs1) as [Hs' ->].
  split; [done|]. split; [by apply view_ok|done].
Qed.

Lemma sim_device_answers s req :
  sim_ok s → wire_ok req → ∃ resp s', sim_device_step s req resp s'.
Proof.
  intros Hs (? & ? & ? & ? & ?). destruct req as [type flags seq payload]. cbn in *.
  assert (frame_ok (request_frame type flags seq payload)) as Hf by by apply request_frame_ok.
  destruct slow_env_ok as [Hm Hw].
  pose proof (serve_request _ _ (counted_ok s Hs) Hf slow_env Hm) as (s1 & r & E & Hs1 & Hr & _).
  destruct (write_frame_spec s1 r (response_env slow_env)) as (result & s' & sent & E' & _);
    [apply Hs1|done..|].
  exists (view r), s', (request_frame type flags seq payload), slow_env, s1, r, result, sent.
  rewrite view_request_frame. by repeat (split; [done|]).
Qed.

#[export] Instance simulator_device : UpdateDevice simulator_state := {|
  device_ok := sim_ok;
  device_slot := sim_slot;
  device_step := sim_device_step;
  device_slot_ok := sim_slot_ok;
  device_answers := sim_device_answers;
  device_refines s req resp s' Hs _ := sim_device_refines s req resp s' Hs;
|}.

(** ** The answer depends on what a request says only *)

Section SameMeaning.
Context (f g : devmgr_frame) (Hf : frame_ok f) (Hg : frame_ok g) (Hfg : f ≡ g).

Lemma same_fields :
  frame_type f = frame_type g ∧ frame_sequence f = frame_sequence g ∧
  frame_payload_length f = frame_payload_length g.
Proof.
  pose proof (len_view_payload f Hf) as Hlf. pose proof (len_view_payload g Hg) as Hlg.
  unfold equiv, frame_equiv in Hfg. rewrite Hfg in Hlf.
  injection Hfg as ? _ ? _. split; [done|]. split; [done|]. by rewrite <- Hlf, <- Hlg.
Qed.

Lemma same_slice off n :
  0 ≤ off → 0 ≤ n → off + n ≤ frame_payload_length f →
  slice (frame_payload f) off n = slice (frame_payload g) off n.
Proof.
  intros. destruct same_fields as (_ & _ & E).
  unfold equiv, frame_equiv in Hfg. injection Hfg as _ _ _ Hp. rewrite <- E in Hp.
  pose proof (f_equal (λ l, slice l off n) Hp) as H'. cbn beta in H'.
  by rewrite !slice_slice in H' by lia.
Qed.

Lemma same_bytes off n :
  0 ≤ off → 0 ≤ n → off + n ≤ frame_payload_length f →
  mem_read (frame_payload f) off n = mem_read (frame_payload g) off n.
Proof.
  intros. pose proof Hf as (_ & _ & _ & ? & Hlf & _). pose proof Hg as (_ & _ & _ & ? & Hlg & _).
  destruct same_fields as (_ & _ & E). rewrite !mem_read_ok by lia. by rewrite same_slice by lia.
Qed.

Lemma same_le32 off :
  0 ≤ off → off + 4 ≤ frame_payload_length f →
  devmgr_get_le32 (frame_payload f) off = devmgr_get_le32 (frame_payload g) off.
Proof.
  intros. pose proof Hf as (_ & _ & _ & ? & Hlf & _).
  rewrite !request_le32 by (done || lia). unfold field. by rewrite same_slice by lia.
Qed.

Lemma same_le16 off :
  0 ≤ off → off + 2 ≤ frame_payload_length f →
  devmgr_get_le16 (frame_payload f) off = devmgr_get_le16 (frame_payload g) off.
Proof.
  intros. pose proof Hf as (_ & _ & _ & ? & Hlf & _).
  rewrite !request_le16 by (done || lia). unfold field. by rewrite same_slice by lia.
Qed.

Lemma same_blank : blank_response f = blank_response g.
Proof. destruct same_fields as (E1 & E2 & _). unfold blank_response. by rewrite E1, E2. Qed.

Lemma same_start_telemetry s r now_ns :
  handle_start_telemetry s f r now_ns = handle_start_telemetry s g r now_ns.
Proof.
  destruct same_fields as (_ & _ & En). unfold handle_start_telemetry. rewrite <- En.
  destruct (Z.eqb_spec (frame_payload_length f) 4); [|done]. by rewrite same_le32 by lia.
Qed.

Lemma same_fw_status s r : handle_fw_status s f r = handle_fw_status s g r.
Proof.
  destruct same_fields as (_ & _ & En). unfold handle_fw_status. rewrite <- En.
  destruct (Z.eqb_spec (frame_payload_length f) 4); [by rewrite same_le32 by lia|].
  by rewrite orb_true_r.
Qed.

Lemma same_fw_end s r : handle_fw_end s f r = handle_fw_end s g r.
Proof.
  destruct same_fields as (_ & _ & En). unfold handle_fw_end. rewrite <- En.
  destruct (Z.eqb_spec (frame_payload_length f) 4); [by rewrite same_le32 by lia|].
  by rewrite orb_true_r.
Qed.

Lemma same_fw_verify s r : handle_fw_verify s f r = handle_fw_verify s g r.
Proof.
  destruct same_fields as (_ & _ & En). unfold handle_fw_verify. rewrite <- En.
  destruct (Z.eqb_spec (frame_payload_length f) 4); [by rewrite same_le32 by lia|].
  by rewrite orb_true_r.
Qed.

Lemma same_fw_activate s r : handle_fw_activate s f r = handle_fw_activate s g r.
Proof.
  destruct same_fields as (_ & _ & En). unfold handle_fw_activate. rewrite <- En.
  destruct (Z.eqb_spec (frame_payload_length f) 4); [by rewrite same_le32 by lia|].
  by rewrite orb_true_r.
Qed.

Lemma same_fw_data s r now_ns : handle_fw_data s f r now_ns = handle_fw_data s g r now_ns.
Proof.
  destruct same_fields as (_ & _ & En). unfold handle_fw_data, memcmp_eq, memcpy. rewrite <- En.
  destruct (Z.leb_spec (frame_payload_length f) 8); [by rewrite !orb_true_r|].
  by rewrite !same_le32, !same_bytes by lia.
Qed.

Lemma same_memchr0 off n :
  0 ≤ off → 0 ≤ n → off + n ≤ frame_payload_length f →
  memchr0 (frame_payload f) off n = memchr0 (frame_payload g) off n.
Proof. intros. unfold memchr0. by rewrite same_bytes by lia. Qed.

Lemma same_string off n m :
  0 ≤ off → 0 ≤ n → off + n ≤ frame_payload_length f →
  memchr0 (frame_payload f) off n = Some (Some m) →
  0 ≤ m < n ∧ c_string (frame_payload f) off = c_string (frame_payload g) off.
Proof.
  intros ??? E. pose proof Hf as (_ & _ & _ & ? & Hlf & _).
  pose proof Hg as (_ & _ & _ & ? & Hlg & _). destruct same_fields as (_ & _ & En).
  pose proof E as Eg. rewrite same_memchr0 in Eg by lia.
  apply memchr0_Some in E as (p & v & r & Ep & -> & -> & Hv & Hm); [|lia..].
  apply memchr0_Some in Eg as (p' & v' & r' & Ep' & Hp' & Hv' & Hvz & _); [|lia..].
  split; [lia|]. pose proof (same_slice (len p) (len v) ltac:(lia) ltac:(lia) ltac:(lia)) as Hs.
  rewrite Ep, Ep' in *. rewrite !c_string_at by done. f_equal.
  by rewrite !slice_middle in Hs by done.
Qed.

Lemma same_fw_begin s r malloc : handle_fw_begin s f r malloc = handle_fw_begin s g r malloc.
Proof.
  pose proof Hf as (_ & _ & _ & ? & Hlf & _).
  destruct same_fields as (_ & _ & En). unfold handle_fw_begin. rewrite <- En.
  destruct (Z.ltb_spec (frame_payload_length f) 11); [by rewrite orb_true_r|].
  rewrite orb_false_r. destruct (negb (bootloader_active s)); [done|].
  destruct (memchr0_total (frame_payload f) 10 (frame_payload_length f - 10)) as [[m|] Em];
    [lia..| |].
  - destruct (same_string 10 (frame_payload_length f - 10) m) as [Hm Hstr]; [lia..|done|].
    rewrite !same_le32, same_le16, same_memchr0 by lia. rewrite same_memchr0 in Em by lia.
    rewrite Em, !request_le32, request_le16 by done. do 8 run_stmt.
    unfold strcmp_eq, memcpy. cbn [default from_option]. change (id m) with m.
    by rewrite Hstr, same_bytes by lia.
  - rewrite !same_le32, same_le16, same_memchr0 by lia. rewrite same_memchr0 in Em by lia.
    rewrite Em, !request_le32, request_le16 by done. do 8 run_stmt.
    cbn [default from_option]. by rewrite Z.eqb_refl, !orb_true_r.
Qed.

Lemma same_request s env : handle_request s f env = handle_request s g env.
Proof.
  destruct same_fields as (Et & _ & En). pose proof Hf as (_ & _ & _ & ? & Hlf & _).
  unfold handle_request. rewrite same_blank, Et, En.
  rewrite same_start_telemetry, same_fw_begin, same_fw_data, same_fw_status, same_fw_end,
    same_fw_verify, same_fw_activate. unfold memcpy. rewrite <- En. by rewrite same_bytes by lia.
Qed.
End SameMeaning.

(** ** The device as the parser's callback *)

Definition sim_handler (envs : nat → frame_env) (w : wire_frame)
    (c : simulator_state * nat * list Z) : Z * (simulator_state * nat * list Z) :=
  default (DEVMGR_ERROR_IO, c)
    (sim_callback envs (request_frame (w_type w) (w_flags w) (w_sequence w) (w_payload w)) c).

Definition callback_inv (c : simulator_state * nat * list Z) : Prop := sim_ok c.1.1.

#[export] Instance sim_callback_spec envs :
  (∀ k, frame_env_ok (envs k)) → Callback (sim_callback envs) (sim_handler envs) callback_inv.
Proof.
  intros Henvs f [[s k] out] Hf Hs. unfold callback_inv in *. cbn [fst] in Hs.
  set (g := request_frame (w_type (view f)) (w_flags (view f)) (w_sequence (view f))
              (w_payload (view f))).
  assert (f ≡ g) as Hfg.
  { change (view f = view g). unfold g. rewrite view_request_frame. by destruct (view f). }
  assert (frame_ok g) as Hg by (destruct (view_ok f Hf) as (? & ? & ? & ? & ?); by apply request_frame_ok).
  assert (sim_callback envs f (s, k, out) = sim_callback envs g (s, k, out)) as E.
  { unfold sim_callback, on_frame. by rewrite (same_request f g). }
  unfold sim_handler. fold g. rewrite <- E. unfold sim_callback.
  destruct (on_frame_spec s f (envs k) Hs Hf (Henvs k)) as (s1 & r & result & s' & sent & _ & -> & _ & Hs' & _).
  done.
Qed.

(** ** The device survives any input *)

Definition sim_live (s : simulator_state) : Prop :=
  sim_ok s ∧ parser_ready (sim_parser s).

Definition iteration_ok (it : iteration) : Prop :=
  write_env_ok (it_telemetry it) ∧ locals_ok (it_locals it) ∧
  (∀ k, frame_env_ok (it_frames it k)) ∧
  match it_read it with Read bytes => Forall is_u8 bytes | ReadError _ => True end.

Lemma emit_telemetry_spec s now_ns env :
  sim_ok s → write_env_ok env →
  ∃ result s' sent,
    emit_telemetry s now_ns env = Some (result, s', sent) ∧ sim_ok s' ∧
    sim_parser s' = sim_parser s ∧ sim_slot s' = sim_slot s ∧
    (result = DEVMGR_OK ∨ result = DEVMGR_ERROR_IO).
Proof.
  intros Hs He. unfold emit_telemetry. cbv zeta. cbn [frame_payload zero_frame].
  change (zeros DEVMGR_PROTOCOL_MAX_PAYLOAD) with ([] ++ zeros DEVMGR_PROTOCOL_MAX_PAYLOAD).
  pose proof (Z.mod_pos_bound (telemetry_samples s) 7 ltac:(lia)).
  destruct Hs as ((? & ? & Hn) & ? & ?).
  assert (is_u32 (3300 - telemetry_samples s mod 7)) by (unfold is_u32; lia).
  rewrite put_words_spec; [|by rewrite !Forall_cons; auto using u32_range|done|done]. run_stmt.
  match goal with |- context [word_bytes ?ws] =>
    rewrite (request_frame_intro _ _ _ (word_bytes ws)) by done end.
  match goal with |- context [write_frame ?s1 ?r env] =>
    destruct (write_frame_spec s1 r env) as (result & s' & sent & -> & Hsame & Hres);
      [done| |done|] end.
  - apply request_frame_ok; auto with devmgr; done.
  - destruct (same_device_ok _ _ Hsame) as [Hs' Hslot].
    { split; [split; [done|split; [done|apply u32_range]]|]. by split. }
    destruct Hsame as (? & ? & _ & ->).
    do 3 eexists. split; [done|]. split; [done|]. split; [done|]. split; [done|]. by eapply delivery_result.
Qed.

(** One iteration of the main loop ends in a live state, whether it returns or not. *)
Lemma simulator_step_spec s it :
  sim_live s → iteration_ok it →
  ∃ r s' out, simulator_step s it = Some (r, s', out) ∧ sim_live s'.
Proof.
  intros [Hs Hp] (Ht & Hl & Hfr & Hrd). unfold simulator_step.
  assert (∃ failed s1 out,
    (if telemetry_enabled s && (next_telemetry_ns s <=? it_now_ns it) then
       '(result, s, out) ← emit_telemetry s (it_now_ns it) (it_telemetry it);
       Some (negb (result =? DEVMGR_OK), s, out)
     else Some (false, s, [])) = Some (failed, s1, out) ∧ sim_live s1)
    as (failed & s1 & out & E & Hs1 & Hp1).
  { destruct (telemetry_enabled s && _); [|exists false, s, []; split; [done|by split]].
    destruct (emit_telemetry_spec s (it_now_ns it) (it_telemetry it) Hs Ht)
      as (result & s' & sent & -> & Hs' & Hp' & _).
    do 3 eexists. split; [done|]. split; [done|]. by rewrite Hp'. }
  destruct (it_poll it) as [[]| |error readable]; try by do 3 eexists.
  - rewrite E. run_stmt. cbv iota. destruct failed; by do 3 eexists.
  - rewrite E. run_stmt. cbv iota. destruct failed; [by do 3 eexists|].
    destruct error; [by do 3 eexists|]. destruct readable; [|by do 3 eexists].
    destruct (it_read it) as [available|[]]; try by do 3 eexists.
    set (bytes := delivered available 2048). cbv zeta.
    assert (Forall is_u8 bytes) as Hbytes by by apply Forall_take.
    destruct (Z.eqb_spec (len bytes) 0); [by do 3 eexists|].
    pose proof (sim_callback_spec (it_frames it) Hfr) as Hcb.
    destruct (parser_feed_ready (sim_callback (it_frames it)) (sim_handler (it_frames it))
      callback_inv (sim_parser s1) (it_locals it) bytes (len bytes) (s1, 0%nat, out) 0)
      as (k & res & es & q' & [[s2 k2] out2] & p' & _ & _ & _ & -> & _ & _ & _ & Hp' & Hs2);
      [done..|lia|].
    run_stmt. cbv iota. destruct (negb _); (do 3 eexists; split; [done|by split]).
Qed.

(** ** Properties *)

Lemma simulator_run_live its s out :
  sim_live s → Forall iteration_ok its →
  ∃ status s' out', simulator_run s its out = Some (status, s', out') ∧ sim_live s'.
Proof.
  intros Hs Hits. revert s out Hs. induction Hits as [|it its Hit _ IH]; intros s out Hs.
  - by do 3 eexists.
  - cbn [simulator_run]. destruct (negb (sim_running s)); [by do 3 eexists|].
    destruct (simulator_step_spec s it Hs Hit) as ([status|] & s' & sent & -> & Hr); run_stmt;
      [by do 3 eexists|by apply IH].
Qed.

Definition config_ok (config : option simulator_config) : Prop :=
  match config with Some c => is_u32 (config_random_seed c) | None => True end.

Lemma simulator_init_live s0 fd config started :
  0 ≤ fd → config_ok config →
  ∃ s, simulator_init s0 fd config started = Some (DEVMGR_OK, s) ∧ sim_live s.
Proof.
  intros Hfd Hc. destruct parser_init_idle as (p & E & Hp & _).
  unfold simulator_init. cbv zeta. zreduce. rewrite memcpy_ok by done. run_stmt. rewrite E. cbv iota.
  eexists. split; [done|]. split; [|by apply parser_idle_ready].
  assert (version_ok (zeros 32)) as Hz.
  { split; [done|]. split; [apply zeros_Forall|]. exists [], (zeros 31). split; [done|constructor]. }
  split; [|split; [done|]].
  - cbn -[zeros]. split; [done|]. split; [|done]. destruct config as [c|]; [|done]. cbn in *.
    by destruct (Z.eqb_spec (config_random_seed c) 0).
  - unfold slot_state_ok. cbn -[zeros splice slice version_ok is_u32]. do 4 (split; [done|]). split; [|by split].
    change (slice (literal "1.0.0") 0 6) with (chars "1.0.0" ++ [0]).
    refine (proj1 (version_copy (zeros 32) (chars "1.0.0") _ (zeros_Forall 32) _ _ _)); try done;
      by repeat (constructor; [done|]).
Qed.

(** C17: a simulated device survives any input: started with any configuration
    and clock, fed any bytes through any sequence of poll, read and write
    outcomes, its main loop makes no invalid access and comes back with a
    status in a state that can go on serving. *)
Theorem simulator_survives s0 fd config started its :
  0 ≤ fd → config_ok config → Forall iteration_ok its →
  ∃ s status s' out,
    simulator_init s0 fd config started = Some (DEVMGR_OK, s) ∧
    simulator_run s its [] = Some (status, s', out) ∧ sim_live s'.
Proof.
  intros Hfd Hc Hits. destruct (simulator_init_live s0 fd config started Hfd Hc) as (s & E & Hs).
  destruct (simulator_run_live its s [] Hs Hits) as (status & s' & out & ? & ?).
  by exists s, status, s', out.
Qed.

(** A read that delivers noise and a request, then a failing read. *)
Definition noisy_iteration : iteration :=
  mk_iteration (PollReady false true) 5 (response_env slow_env) (Read ([0; 68] ++ sample_wire))
    fresh_locals (λ _, slow_env).

Lemma noisy_iteration_ok : iteration_ok noisy_iteration.
Proof.
  split; [apply slow_env_ok|]. split; [apply fresh_locals_ok|]. split; [intros; apply slow_env_ok|].
  apply Forall_app. split; [by repeat (constructor; [done|])|apply sample_wire_Forall].
Qed.

(** The memory of a simulator before simulator_init. *)
Definition unset_simulator : simulator_state :=
  mk_simulator 0 fresh_parser 0 0 0 0 0 0 0 0 0 0 false None 0 0 0 0 0 [] [] false false
    false false (0 # 1) (0 # 1) 0 0 0 false false 0.

Lemma simulator_survives_witness :
  ∃ s status s' out,
    simulator_init unset_simulator 3 None 0 = Some (DEVMGR_OK, s) ∧
    simulator_run s [noisy_iteration] [] = Some (status, s', out) ∧ sim_live s'.
Proof.
  apply (simulator_survives unset_simulator 3 None 0 [noisy_iteration]); [done|done|].
  constructor; [apply noisy_iteration_ok|constructor].
Defined.

(** The injected corruption never passes for a frame. *)
Lemma corrupt_rejected w g :
  wire_ok w → frame_ok g →
  ∃ status g', devmgr_frame_decode (corrupt (encode_wire w)) (len (corrupt (encode_wire w))) g =
    Some (status, g') ∧ status ≠ DEVMGR_OK.
Proof.
  intros Hw Hg. pose proof (length_encode_wire w) as Hl.
  pose proof (encode_wire_Forall w Hw) as Hb. unfold corrupt.
  destruct (lookup_lt_is_Some_2 (encode_wire w) 12) as [b Eb]; [lia|]. rewrite Eb.
  pose proof (take_drop_middle _ _ _ Eb) as Hsplit.
  rewrite insert_take_drop by lia. set (pre := take 12 _) in *. set (post := drop 13 _) in *.
  rewrite <- Hsplit in Hb. apply Forall_app in Hb as [Hpre [Hb Hpost]%Forall_cons].
  assert (is_u8 (Z.lxor b 0x40)) as Hx by by apply lxor_u8.
  assert (Forall is_u8 (pre ++ Z.lxor b 0x40 :: post)) as Hc by by rewrite Forall_app, Forall_cons.
  pose proof (frame_decode_spec _ (len (pre ++ Z.lxor b 0x40 :: post)) g Hc ltac:(lia)
                ltac:(apply Hg)) as Hd.
  destruct (decode_wire _) as [status w'] eqn:E. do 2 eexists. split; [exact Hd|]. intros ->.
  apply decode_wire_inv in E as [El Hw']; [|by apply Forall_take].
  rewrite Nat2Z.id, firstn_all in El.
  pose proof (encode_wire_residue w Hw) as R1. pose proof (encode_wire_residue w' Hw') as R2.
  rewrite <- El in R2. rewrite <- Hsplit in R1.
  assert ([b] = [Z.lxor b 0x40]) as [= Heq].
  { apply (crc_fold_burst DEVMGR_CRC32_INIT pre _ _ post); [done|done|done|by constructor|
      by constructor|done|simpl; lia|]. cbn [app]. congruence. }
  pose proof (f_equal (λ x, Z.testbit x 6) Heq) as Hbit. cbn beta in Hbit.
  rewrite Z.lxor_spec in Hbit. change (Z.testbit 64 6) with true in Hbit. by destruct (Z.testbit b 6).
Qed.

(** Decoding what was put on the wire for a response. *)
Lemma on_wire_decodes s w g :
  wire_ok w → frame_ok g →
  ∃ status g', devmgr_frame_decode (on_wire s w) (len (on_wire s w)) g = Some (status, g') ∧
    if corrupted s then status ≠ DEVMGR_OK else status = DEVMGR_OK ∧ view g' = w.
Proof.
  intros Hw Hg. unfold on_wire. destruct (corrupted s); [by apply corrupt_rejected|].
  pose proof (frame_decode_spec (encode_wire w) (len (encode_wire w)) g
                (encode_wire_Forall _ Hw) ltac:(lia) ltac:(apply Hg)) as Hd.
  rewrite Nat2Z.id, firstn_all, decode_encode_wire in Hd by done.
  do 2 eexists. split; [exact Hd|]. split; [done|]. apply view_fill.
Qed.

(** C7: the device answers every request once.  The handler computes one
    response, which carries the sequence number of the request and obeys the
    contract of the firmware slot; on_frame reports success with nothing sent
    exactly when the configured faults lose the frame (an outage or the drop
    rate), and otherwise puts exactly that response on the wire, or the copy
    that the corruption fault makes of it, or fails with an I/O error after a
    part of it because a write failed.  The receiver's decoder gives back the
    response, and rejects the corrupted copy.  With no fault configured and no
    write failing, the encoding of the response is sent. *)
Theorem simulator_answers s f env g :
  sim_ok s → frame_ok f → frame_env_ok env → frame_ok g →
  ∃ s1 r result s' sent,
    handle_request (s <| rx_frames := u64 (rx_frames s + 1) |>) f env = Some (s1, r) ∧
    on_frame f s env = Some (result, s', sent) ∧ sim_ok s' ∧
    frame_sequence r = frame_sequence f ∧
    slot_step (sim_slot s) (view f) (view r) (sim_slot s') ∧
    (if lost s1 (env_now_ns (response_env env)) then result = DEVMGR_OK ∧ sent = []
     else result = DEVMGR_OK ∧ sent = on_wire s1 (view r) ∨
          result = DEVMGR_ERROR_IO ∧ sent `prefix_of` on_wire s1 (view r) ∧
          Exists (λ o, failed_write o = true) (env_script (response_env env))) ∧
    (∃ status g', devmgr_frame_decode (on_wire s1 (view r)) (len (on_wire s1 (view r))) g = Some (status, g') ∧
       if corrupted s1 then status ≠ DEVMGR_OK else status = DEVMGR_OK ∧ view g' = view r) ∧
    (outage_until_ns s1 ≤ env_now_ns (response_env env) → (Qnum (drop_rate s1) ≤ 0)%Z →
     (Qnum (corrupt_rate s1) ≤ 0)%Z → Forall (λ o, failed_write o = false) (env_script (response_env env)) →
     result = DEVMGR_OK ∧ sent = encode_wire (view r)).
Proof.
  intros Hs Hf He Hg.
  destruct (on_frame_spec s f env Hs Hf He) as (s1 & r & result & s' & sent & Eh & E & Hs1 & Hs' & Hr & Hstep & Hd).
  exists s1, r, result, s', sent. do 3 (split; [done|]).
  split; [apply (slot_step_sequence _ _ _ _ Hstep)|]. do 2 (split; [done|]).
  split; [by apply on_wire_decodes; [apply view_ok|]|]. intros Ho Hdr Hco Hw.
  destruct (faultless s1 (env_now_ns (response_env env)) (view r)) as [Hl Hon]; [apply Hs1|done..|].
  unfold delivery in Hd. rewrite Hl, Hon in Hd. destruct Hd as [?|(_ & _ & Hx)]; [done|].
  apply Exists_exists in Hx as (o & Ho1 & Ho2). rewrite Forall_forall in Hw. by rewrite Hw in Ho2.
Qed.

Definition fresh_simulator : simulator_state :=
  match simulator_init unset_simulator 3 None 0 with
  | Some (_, s) => s
  | None => unset_simulator
  end.

Lemma fresh_simulator_ok : sim_ok fresh_simulator.
Proof.
  destruct (simulator_init_live unset_simulator 3 None 0) as (s & E & Hs & _); [done|done|].
  unfold fresh_simulator. by rewrite E.
Qed.

Lemma simulator_answers_witness :
  ∃ s1 r result s' sent,
    handle_request (fresh_simulator <| rx_frames := u64 (rx_frames fresh_simulator + 1) |>) sample_frame
      slow_env = Some (s1, r) ∧
    on_frame sample_frame fresh_simulator slow_env = Some (result, s', sent) ∧
    result = DEVMGR_OK ∧ sent = encode_wire (view r).
Proof.
  destruct (simulator_answers fresh_simulator sample_frame slow_env zero_frame)
    as (s1 & r & result & s' & sent & Eh & E & _ & _ & _ & _ & _ & H).
  - apply fresh_simulator_ok.
  - apply sample_frame_ok.
  - apply slow_env_ok.
  - apply zero_frame_ok.
  - exists s1, r, result, s', sent. do 2 (split; [done|]).
    assert (match handle_request (fresh_simulator <| rx_frames := u64 (rx_frames fresh_simulator + 1) |>)
              sample_frame slow_env with
            | Some (s1, _) => (outage_until_ns s1 <=? 0) && (Qnum (drop_rate s1) <=? 0) && (Qnum (corrupt_rate s1) <=? 0)
            | None => false
            end = true) as Hb by by vm_compute.
    rewrite Eh in Hb. rewrite !andb_true_iff, !Z.leb_le in Hb. destruct Hb as [[? ?] ?].
    apply H; [done..|]. by apply Forall_replicate.
Defined.

(** ** Verification does not pin the image *)

(** The handlers on a list of requests; the types of the responses. *)
Fixpoint handle_all (s : simulator_state) (env : frame_env) (requests : list devmgr_frame)
    : option (simulator_state * list Z) :=
  match requests with
  | [] => Some (s, [])
  | f :: requests =>
      '(s, r) ← handle_request s f env;
      '(s, types) ← handle_all s env requests;
      Some (s, frame_type r :: types)
  end.

(** BEGIN of a one-byte image, VERIFY before any data, then the data. *)
Definition early_verify : list devmgr_frame :=
  let request type payload := request_frame type DEVMGR_FRAME_ACK_REQUIRED 1 payload in
  [request DEVMGR_MSG_ENTER_BOOTLOADER [];
   request DEVMGR_MSG_FW_BEGIN (begin_payload 1 (crc_of [65]) 1 [50] []);
   request DEVMGR_MSG_FW_VERIFY (le_bytes 4 1);
   request DEVMGR_MSG_FW_DATA (le_bytes 4 1 ++ le_bytes 4 0 ++ [66]);
   request DEVMGR_MSG_FW_ACTIVATE (le_bytes 4 1)].

(** The simulator accepts FW_VERIFY before the transfer is complete and
    keeps its verdict when data arrives afterwards: if the fresh block happens
    to hold the right bytes, an image with another CRC is activated. *)
Theorem simulator_verify_not_final :
  ∃ s image,
    handle_all fresh_simulator (mk_frame_env 0 (λ _, Some [65]) (response_env slow_env)) early_verify =
      Some (s, map frame_type early_verify) ∧
    flash s = Some image ∧ firmware_offset s = flash_size s ∧
    string_of (firmware_version s) = [50] ∧ crc_of image ≠ expected_firmware_crc s.
Proof.
  do 2 eexists. split; [vm_compute; reflexivity|]. split; [vm_compute; reflexivity|]. split; [vm_compute; reflexivity|].
  split; [vm_compute; reflexivity|]. by vm_compute.
Qed.
