(* ===== verification/DeviceSim.v ===== *)
(** * The simulator's entry point: apps/device-sim/main.c

    The command line, the pseudo-terminal and the life of one simulator.  The
    numbers are read by [strtoul] and [strtol] of Cli.v; [strtod] is an argument of
    the definitions, and the theorems hold whatever it returns.  A stop signal is
    the end of the list of iterations. *)

From S2P Require Import Prelude Parser Os Cli Transport Simulator.
From Stdlib Require Import QArith_base.

#[local] Open Scope Z_scope.

Definition INT_MAX : Z := 2147483647.
Definition INT_MIN : Z := -2147483648.

(** ** The command line *)

(** A double: the rational it denotes, or an infinity or NaN. *)
Inductive double := Finite (q : Q) | NotFinite.

(** struct simulator_config while the options are read: the rates are doubles. *)
Record sim_options := mk_sim_options {
  opt_drop_rate : double;
  opt_corrupt_rate : double;
  opt_delay_ms : Z;
  opt_disconnect : Z;
  opt_fail_verify : bool;
  opt_seed : Z;
}.

#[export] Instance eta_sim_options : Eta sim_options := λ o,
  mk_sim_options (opt_drop_rate o) (opt_corrupt_rate o) (opt_delay_ms o) (opt_disconnect o)
    (opt_fail_verify o) (opt_seed o).

Definition initial_options : sim_options := mk_sim_options (Finite (0 # 1)) (Finite (0 # 1)) 0 (-1) false 0.

Definition device_sim_options : list cli_option :=
  [mk_option (chars "drop-rate") true 100; mk_option (chars "corrupt-rate") true 99;
   mk_option (chars "delay-ms") true 108; mk_option (chars "disconnect-at-percent") true 120;
   mk_option (chars "fail-verify") false 118; mk_option (chars "seed") true 115;
   mk_option (chars "help") false 104].

(** [end == optarg || *end != 0]: there is no number or something follows it. *)
Definition not_a_number (optarg rest : list Z) : bool :=
  bool_decide (rest = optarg) || negb (bool_decide (rest = [])).

(** The value of a rate, [None] if it is not between 0 and 1. *)
Definition checked_rate (d : double) : option Q :=
  match d with
  | Finite q => if (Qnum q <? 0) || (Zpos (Qden q) <? Qnum q) then None else Some q
  | NotFinite => None
  end.

Section CommandLine.
(** The value and the characters from [end] on. *)
Context (strtod : list Z → double * list Z).

(** The body of the switch for an option that takes a number: the configuration
    and the characters from [end] on, [None] for return 2. *)
Definition number_option (option : Z) (optarg : list Z) (config : sim_options)
    : Datatypes.option (sim_options * list Z) :=
  if option =? 100 then
    let '(value, rest) := strtod optarg in Some (config <| opt_drop_rate := value |>, rest)
  else if option =? 99 then
    let '(value, rest) := strtod optarg in Some (config <| opt_corrupt_rate := value |>, rest)
  else if option =? 108 then
    let '(value, rest) := strtoul optarg in
    if UINT32_MAX <? value then None else Some (config <| opt_delay_ms := value |>, rest)
  else if option =? 120 then
    let '(value, rest) := strtol optarg in
    if (value <? INT_MIN) || (INT_MAX <? value) then None
    else Some (config <| opt_disconnect := value |>, rest)
  else if option =? 115 then
    let '(value, rest) := strtoul optarg in
    if UINT32_MAX <? value then None else Some (config <| opt_seed := value |>, rest)
  else None.

(** The loop over the options: the configuration, or the exit status. *)
Fixpoint device_sim_scan (results : list opt_result) (config : sim_options) : sim_options + Z :=
  match results with
  | [] => inl config
  | Opt option argument :: results =>
      if option =? 118 then device_sim_scan results (config <| opt_fail_verify := true |>)
      else if option =? 104 then inr 0
      else match argument with
      | Some optarg =>
          match number_option option optarg config with
          | Some (config, rest) =>
              if not_a_number optarg rest then inr 2 else device_sim_scan results config
          | None => inr 2
          end
      | None => inr 2
      end
  | BadOption :: _ => inr 2
  end.

(** The configuration a command line stands for, or the exit status. *)
Definition device_sim_config (args : list (list Z)) : simulator_config + Z :=
  let '(results, operands) := getopt_long device_sim_options args in
  match device_sim_scan results initial_options with
  | inr status => inr status
  | inl c =>
      match operands, checked_rate (opt_drop_rate c), checked_rate (opt_corrupt_rate c) with
      | [], Some drop, Some corrupt =>
          if (60000 <? opt_delay_ms c) || (opt_disconnect c <? -1) || (100 <? opt_disconnect c) then inr 2
          else inl (mk_sim_config drop corrupt (opt_delay_ms c) (opt_disconnect c) (opt_fail_verify c) (opt_seed c))
      | _, _, _ => inr 2
      end
  end.

(** ** The program *)

(** What it writes: the name of the terminal on stdout, or a message in the log
    with the text of a status. *)
Inductive sim_output :=
  | SimUsage
  | PtyName (path : list Z)
  | PtyFailed (status : string)
  | SimStopped (status : string).

(** [ds_simulator] and [ds_slave_path] are the locals of main. *)
Record device_sim_env := mk_device_sim_env {
  ds_simulator : simulator_state;
  ds_slave_path : list Z;
  ds_pty : pty_env;
  ds_started : Z;
  ds_iterations : list iteration;
}.

(** The exit status, the output, the bytes sent to the terminal and the log. *)
Definition device_sim_main (args : list (list Z)) (env : device_sim_env)
    : option (Z * list sim_output * list Z * list os_event) :=
  match device_sim_config args with
  | inr status => Some (status, if status =? 0 then [SimUsage] else [], [], [])
  | inl config =>
      '(result, master_fd, slave_path, log) ← devmgr_pty_create (ds_slave_path env) 256 (-1) (ds_pty env);
      if negb (result =? DEVMGR_OK) then Some (1, [PtyFailed (devmgr_status_string result)], [], log)
      else
      name ← c_string slave_path 0;
      '(result, simulator) ← simulator_init (ds_simulator env) master_fd (Some config) (ds_started env);
      '(result, simulator, sent) ←
        (if result =? DEVMGR_OK then simulator_run simulator (ds_iterations env) []
         else Some (result, simulator, []));
      let simulator := simulator_cleanup simulator in
      let log := log ++ [Released (Fd master_fd)] in
      if negb (result =? DEVMGR_OK)
      then Some (1, [PtyName name; SimStopped (devmgr_status_string result)], sent, log)
      else Some (0, [PtyName name], sent, log)
  end.
End CommandLine.

(** ** Correctness *)

Definition rate_ok (q : Q) : Prop := 0 ≤ Qnum q ≤ Zpos (Qden q).

(** What the options can set: rates between 0 and 1 and, for the point of the
    disconnection, -1 (the default: none) to 100. *)
Definition in_range (c : simulator_config) : Prop :=
  rate_ok (config_drop_rate c) ∧ rate_ok (config_corrupt_rate c) ∧
  0 ≤ config_response_delay_ms c ≤ 60000 ∧ -1 ≤ config_disconnect_at_percent c ≤ 100 ∧
  is_u32 (config_random_seed c).

Lemma checked_rate_ok d q : checked_rate d = Some q ↔ d = Finite q ∧ rate_ok q.
Proof.
  unfold rate_ok. destruct d as [q'|]; cbn; [|naive_solver].
  destruct (Z.ltb_spec (Qnum q') 0), (Z.ltb_spec (Zpos (Qden q')) (Qnum q')); cbn; split; intros Hq;
    naive_solver lia.
Qed.

Lemma digits_nonneg s v : 0 ≤ v → 0 ≤ (digits s v).1.
Proof.
  revert v. induction s as [|c s IH]; intros v Hv; [done|]. cbn. destruct (is_digit c) eqn:E; [|done].
  unfold is_digit in E. apply andb_prop in E as [?%Z.leb_le _]. apply IH. lia.
Qed.

Lemma scan_number_nonneg s negative v rest : scan_number s = Some (negative, v, rest) → 0 ≤ v.
Proof.
  unfold scan_number. destruct (skip is_space s) as [|c t]; [done|].
  set (p := if c =? 45 then _ else _). destruct p as [neg u]. destruct u as [|c' u]; [done|].
  destruct (is_digit c'); [|done]. pose proof (digits_nonneg (c' :: u) 0).
  destruct (digits (c' :: u) 0). intros [= _ <- _]. cbn in *. lia.
Qed.

Lemma strtoul_u64 s : is_u64 (strtoul s).1.
Proof.
  unfold strtoul. destruct (scan_number s) as [[[neg v] rest]|] eqn:E; [|done].
  apply scan_number_nonneg in E. cbn. destruct (Z.ltb_spec ULONG_MAX v) as [|Hv]; [done|].
  destruct neg; [apply u64_range|]. unfold is_u64, ULONG_MAX, UINT64_MAX in *. lia.
Qed.

Section Ranges.
Context (strtod : list Z → double * list Z).

Definition options_ok (c : sim_options) : Prop := 0 ≤ opt_delay_ms c ∧ is_u32 (opt_seed c).

Lemma number_option_ok option optarg c c' rest :
  options_ok c → number_option strtod option optarg c = Some (c', rest) → options_ok c'.
Proof.
  intros Hc. unfold number_option. pose proof (strtoul_u64 optarg) as Hu. unfold UINT32_MAX.
  destruct (strtod optarg) as [d r]. destruct (strtoul optarg) as [u ru]. destruct (strtol optarg) as [l rl].
  unfold is_u64 in Hu. cbn in Hu. repeat case_match; intros; simplify_eq; try done.
  all: unfold options_ok, is_u32 in *; cbn; repeat match goal with H : (_ <? _) = false |- _ => apply Z.ltb_ge in H end; lia.
Qed.

Lemma device_sim_scan_ok results c :
  options_ok c →
  match device_sim_scan strtod results c with inl c' => options_ok c' | inr status => status = 0 ∨ status = 2 end.
Proof.
  revert c. induction results as [|[option argument|] results IH]; intros c Hc; cbn; [done| |by right].
  destruct (option =? 118); [by apply IH|]. destruct (option =? 104); [by left|].
  destruct argument as [optarg|]; [|by right].
  destruct (number_option strtod option optarg c) as [[c' rest]|] eqn:E; [|by right].
  destruct (not_a_number optarg rest); [by right|]. apply IH. by eapply number_option_ok.
Qed.

Lemma device_sim_config_ok args :
  match device_sim_config strtod args with inl c => in_range c | inr status => status = 0 ∨ status = 2 end.
Proof.
  unfold device_sim_config. destruct (getopt_long device_sim_options args) as [results operands].
  pose proof (device_sim_scan_ok results initial_options ltac:(by split)) as Hs.
  destruct (device_sim_scan strtod results initial_options) as [c|status]; [|done].
  destruct operands; [|by right].
  destruct (checked_rate (opt_drop_rate c)) as [drop|] eqn:E1; [|by right].
  destruct (checked_rate (opt_corrupt_rate c)) as [corrupt|] eqn:E2; [|by right].
  apply checked_rate_ok in E1 as [_ E1], E2 as [_ E2]. destruct Hs as [Hd Hseed].
  destruct (Z.ltb_spec 60000 (opt_delay_ms c)), (Z.ltb_spec (opt_disconnect c) (-1)),
    (Z.ltb_spec 100 (opt_disconnect c)); cbn; try (by right).
  unfold in_range. cbn. done.
Qed.

Definition device_sim_env_ok (env : device_sim_env) (name : list Z) : Prop :=
  fds_ok (pty_open (ds_pty env)) ∧ is_Some (open_retry (pty_open (ds_pty env))) ∧
  len (ds_slave_path env) = 256 ∧ (∀ a, pts_name (ds_pty env) = Some a → holds_string a name) ∧
  Forall iteration_ok (ds_iterations env).

(** C39: the program ends with an exit status, whatever the command line, the number
    parser of the C library and the system calls do, and gives back every descriptor
    it opened.  Status 2 stands for a bad command line, before anything is opened;
    otherwise the simulator runs with a configuration whose rates, delay, percentage
    and seed are in their ranges ([in_range]), on
    the terminal whose name is printed. *)
Theorem device_sim_returns args env name rs :
  device_sim_env_ok env name →
  ∃ status out sent log,
    device_sim_main strtod args env = Some (status, out, sent, log) ∧ held log rs = Some rs ∧
    match device_sim_config strtod args with
    | inr code => status = code ∧ (code = 0 ∨ code = 2) ∧ log = [] ∧ sent = []
    | inl config =>
        in_range config ∧
        (status = 0 ∧ out = [PtyName name] ∨
         status = 1 ∧ ((∃ text, out = [PtyFailed text] ∧ sent = []) ∨ ∃ text, out = [PtyName name; SimStopped text]))
    end.
Proof.
  intros (Hfds & Hopen & Hl & Hname & Hits). unfold device_sim_main.
  pose proof (device_sim_config_ok args) as Hc.
  destruct (device_sim_config strtod args) as [config|code]; [|by do 4 eexists].
  destruct (pty_create_outcome (ds_slave_path env) 256 (ds_pty env) name rs Hfds Hopen ltac:(lia) Hname)
    as (result & fd & path & log & E & Hok & Hbad).
  rewrite E. run_stmt. cbv beta iota. destruct (Z.eqb_spec result DEVMGR_OK) as [->|Hr].
  - destruct (Hok eq_refl) as (Hfd & Hheld & Hpath & _). cbn [negb]. rewrite (c_string_holds path name Hpath). run_stmt.
    destruct (simulator_init_live (ds_simulator env) fd (Some config) (ds_started env) Hfd) as (s & Ei & Hs); [apply Hc|].
    rewrite Ei. run_stmt. cbv beta iota. change (DEVMGR_OK =? DEVMGR_OK) with true. cbv iota.
    destruct (simulator_run_live (ds_iterations env) s [] Hs Hits) as (status & s' & sent & Er & _).
    rewrite Er. run_stmt. cbv beta iota zeta.
    assert (held (log ++ [Released (Fd fd)]) rs = Some rs) as Hback.
    { rewrite held_app, Hheld. cbn. by rewrite decide_True. }
    destruct (status =? DEVMGR_OK); cbn [negb]; do 4 eexists; (split; [done|]); (split; [done|]); (split; [done|]);
      [by left|right; eauto].
  - destruct (Hbad Hr) as (_ & Hheld & _). cbn [negb]. do 4 eexists. split; [done|]. split; [done|]. split; [done|].
    right. split; [done|]. left. eauto.
Qed.

Lemma device_sim_options_ok : table_ok device_sim_options.
Proof.
  split; [|split]; [by apply (bool_decide_unpack _); vm_compute..|].
  repeat constructor; cbn; try done; by repeat constructor.
Qed.

(** The options that stand for a configuration, the rates written as [drop] and
    [corrupt]. *)
Definition written_options (c : simulator_config) (drop corrupt : list Z)
    : list (cli_option * option (list Z)) :=
  [(mk_option (chars "drop-rate") true 100, Some drop); (mk_option (chars "corrupt-rate") true 99, Some corrupt);
   (mk_option (chars "delay-ms") true 108, Some (decimal_u64 (config_response_delay_ms c)));
   (mk_option (chars "disconnect-at-percent") true 120, Some (signed_decimal (config_disconnect_at_percent c)));
   (mk_option (chars "seed") true 115, Some (decimal_u64 (config_random_seed c)))] ++
  (if config_fail_verify c then [(mk_option (chars "fail-verify") false 118, None)] else []).

Lemma written_options_ok c drop corrupt :
  in_range c → drop ≠ [] → corrupt ≠ [] →
  Forall (λ '(o, a), o ∈ device_sim_options ∧ (is_Some a ↔ opt_argument o = true) ∧ a ≠ Some [])
    (written_options c drop corrupt).
Proof.
  intros (_ & _ & Hdelay & _ & Hseed) Hd Hc. unfold is_u32 in Hseed. unfold written_options.
  pose proof (decimal_not_nil (config_response_delay_ms c) ltac:(lia)).
  pose proof (decimal_not_nil (config_random_seed c) ltac:(lia)).
  pose proof (signed_decimal_not_nil (config_disconnect_at_percent c)).
  assert (∀ o (a : list Z), o ∈ device_sim_options → opt_argument o = true → a ≠ [] →
    o ∈ device_sim_options ∧ (is_Some (Some a) ↔ opt_argument o = true) ∧ Some a ≠ Some []) as Hwith.
  { intros o a ? -> ?. split; [done|]. split; [done|]. by intros [=]. }
  repeat (apply Forall_cons; split; [apply Hwith; [by repeat constructor|done..]|]).
  destruct (config_fail_verify c); repeat constructor; done.
Qed.

Lemma scan_number_option option optarg results config config' :
  number_option strtod option optarg config = Some (config', []) → optarg ≠ [] →
  device_sim_scan strtod (Opt option (Some optarg) :: results) config = device_sim_scan strtod results config'.
Proof.
  intros E Hne. assert ((option =? 118) = false ∧ (option =? 104) = false) as [E1 E2].
  { destruct (Z.eqb_spec option 118) as [->|]; [done|]. by destruct (Z.eqb_spec option 104) as [->|]. }
  cbn [device_sim_scan]. rewrite E1, E2, E. unfold not_a_number. by rewrite bool_decide_false by congruence.
Qed.

Ltac read_number E :=
  erewrite scan_number_option;
    [|cbn -[strtoul strtol decimal_u64 signed_decimal UINT32_MAX INT_MIN INT_MAX Z.ltb]; rewrite E;
      unfold UINT32_MAX, INT_MIN, INT_MAX; zreduce; done
     |first [done | apply signed_decimal_not_nil | apply decimal_not_nil; lia]].

(** The options are read back as they were written: every configuration in these
    ranges is the result of a command line that spells its options in any
    of the ways getopt allows, if the C library reads the two rates. *)
Theorem device_sim_command_line c drop corrupt (opts : list (spelling * cli_option * option (list Z))) :
  in_range c → drop ≠ [] → corrupt ≠ [] →
  strtod drop = (Finite (config_drop_rate c), []) → strtod corrupt = (Finite (config_corrupt_rate c), []) →
  map (λ '(_, o, a), (o, a)) opts = written_options c drop corrupt →
  device_sim_config strtod (concat (map (λ '(how, o, a), render how o a) opts)) = inl c.
Proof.
  intros (Hd & Hc & Hdelay & Hpct & Hseed) Hnd Hnc Ed Ec Hopts. unfold device_sim_config.
  assert (map (λ '(_, o, a), Opt (opt_value o) a) opts =
    map (λ '(o, a), Opt (opt_value o) a) (written_options c drop corrupt)) as Er.
  { rewrite <- Hopts, map_map. apply map_ext. by intros [[? ?] ?]. }
  pose proof (getopt_render device_sim_options device_sim_options_ok opts []) as E.
  rewrite app_nil_r in E. rewrite E; [clear E|clear E|constructor].
  - pose proof (strtoul_decimal (config_response_delay_ms c) [] ltac:(unfold is_u64; lia) I) as E1.
    pose proof (strtoul_decimal (config_random_seed c) [] ltac:(unfold is_u64, is_u32 in *; lia) I) as E2.
    pose proof (strtol_decimal (config_disconnect_at_percent c) [] ltac:(unfold LONG_MIN, LONG_MAX; lia) I) as E3.
    rewrite app_nil_r in E1, E2, E3. unfold is_u32 in Hseed.
    rewrite Er. unfold written_options. cbn [app map opt_value].
    read_number Ed. read_number Ec. read_number E1. read_number E3. read_number E2.
    assert (checked_rate (Finite (config_drop_rate c)) = Some (config_drop_rate c)) as F1 by (by apply checked_rate_ok).
    assert (checked_rate (Finite (config_corrupt_rate c)) = Some (config_corrupt_rate c)) as F2 by (by apply checked_rate_ok).
    destruct c as [dr cr dl pc fv sd].
    destruct fv; cbn -[checked_rate Z.ltb] in *; rewrite F1, F2; by zreduce.
  - pose proof (written_options_ok c drop corrupt) as Hw. rewrite <- Hopts in Hw.
    apply Forall_fmap in Hw; [|done..]. eapply Forall_impl; [exact Hw|].
    intros [[how o] a] (? & ? & ?). by split.
Qed.
End Ranges.

(** ** Concrete runs *)

(** Reads the rate 0.5. *)
Definition half_only (s : list Z) : double * list Z :=
  if bool_decide (s = chars "0.5") then (Finite (1 # 2), []) else (Finite (0 # 1), s).

Definition noisy_env : device_sim_env :=
  mk_device_sim_env unset_simulator (zeros 256) (mk_pty_env [Opened 3] false false (Some (literal "/dev/pts/4")))
    0 [noisy_iteration].

Lemma device_sim_returns_witness :
  ∃ status out sent log,
    device_sim_main half_only [chars "--drop-rate=0.5"] noisy_env = Some (status, out, sent, log) ∧
    held log [] = Some [] ∧
    match device_sim_config half_only [chars "--drop-rate=0.5"] with
    | inr code => status = code ∧ (code = 0 ∨ code = 2) ∧ log = [] ∧ sent = []
    | inl config =>
        in_range config ∧
        (status = 0 ∧ out = [PtyName (chars "/dev/pts/4")] ∨
         status = 1 ∧ ((∃ text, out = [PtyFailed text] ∧ sent = []) ∨
                       ∃ text, out = [PtyName (chars "/dev/pts/4"); SimStopped text]))
    end.
Proof.
  apply (device_sim_returns half_only [chars "--drop-rate=0.5"] noisy_env (chars "/dev/pts/4") []).
  split; [by repeat constructor|]. split; [by eexists|]. split; [done|].
  split; [intros a [= <-]; by apply literal_holds|]. constructor; [apply noisy_iteration_ok|constructor].
Defined.

(** The five options that take an argument, in four spellings, and the flag. *)
Definition half_config : simulator_config := mk_sim_config (1 # 2) (1 # 2) 250 (-1) true 7.

Definition half_line : list (spelling * cli_option * option (list Z)) :=
  zip_with (λ how '(o, a), (how, o, a))
    [LongSpace; LongEqual; ShortJoined; ShortSpace; LongEqual; LongSpace]
    (written_options half_config (chars "0.5") (chars "0.5")).

Lemma device_sim_command_line_witness :
  device_sim_config half_only (concat (map (λ '(how, o, a), render how o a) half_line)) = inl half_config.
Proof.
  apply (device_sim_command_line half_only half_config (chars "0.5") (chars "0.5") half_line).
  - unfold in_range, rate_ok, is_u32. cbn. lia.
  - done.
  - done.
  - by vm_compute.
  - by vm_compute.
  - by vm_compute.
Defined.
