(* ===== verification/System.v ===== *)
(** * Host and device together

    A driver, as [Driver] describes the daemon, and a device, as [Device]
    describes the simulator and the bootloader, on a line that loses frames.
    Frames carry the index of the request they belong to; nothing looks at it,
    it is there to reason with. *)

From stdpp Require Import sorting.
From S2P Require Import Prelude Crc32 Frame Session Upgrade Driver Device Simulator.

Section System.
Context {D : Type} `{!UpdateDevice D}.

(** [sy_out] and [sy_in] are what is on its way to the device and back, oldest
    first; [sy_requests] are the requests begun so far, and [sy_start] is the
    offset at which the device let the last transfer start. *)
Record system := mk_system {
  sy_driver : driver;
  sy_device : D;
  sy_out : list (nat * wire_frame);
  sy_in : list (nat * wire_frame);
  sy_requests : list wire_frame;
  sy_start : Z;
}.

#[export] Instance eta_system : Eta system := λ s,
  mk_system (sy_driver s) (sy_device s) (sy_out s) (sy_in s) (sy_requests s) (sy_start s).

Definition start_after (s : system) (d' : driver) : Z :=
  match upgrade_state (dr_upgrade (sy_driver s)) with
  | DEVMGR_UPGRADE_BEGIN => offset (dr_upgrade d')
  | _ => sy_start s
  end.

Inductive sys_step (s : system) : system → Prop :=
  | sys_host d' :
      driver_step (sy_driver s) [] d' →
      sys_step s (s <| sy_driver := d' |>)
  | sys_begin q d' :
      driver_step (sy_driver s) [Begin q] d' →
      sys_step s (s <| sy_driver := d' |> <| sy_requests := sy_requests s ++ [q] |>)
  | sys_emit w d' :
      driver_step (sy_driver s) [Emit w] d' →
      sys_step s (s <| sy_driver := d' |>
                    <| sy_out := sy_out s ++ [(pred (length (sy_requests s)), w)] |>)
  | sys_answer i w out resp dev :
      sy_out s = (i, w) :: out → device_step (sy_device s) w resp dev →
      sys_step s (s <| sy_device := dev |> <| sy_out := out |> <| sy_in := sy_in s ++ [(i, resp)] |>)
  | sys_receive i w rest d' :
      sy_in s = (i, w) :: rest → driver_step (sy_driver s) [Recv w] d' →
      sys_step s (s <| sy_driver := d' |> <| sy_in := rest |> <| sy_start := start_after s d' |>)
  | sys_ignore i w rest :
      sy_in s = (i, w) :: rest → sys_step s (s <| sy_in := rest |>)
  | sys_lose_out l1 x l2 :
      sy_out s = l1 ++ x :: l2 → sys_step s (s <| sy_out := l1 ++ l2 |>)
  | sys_lose_in l1 x l2 :
      sy_in s = l1 ++ x :: l2 → sys_step s (s <| sy_in := l1 ++ l2 |>).

(** Nothing is under way, and the device is in order. *)
Definition sys_initial (s : system) : Prop :=
  dr_pending (sy_driver s) = None ∧ upgrade_running (dr_upgrade (sy_driver s)) = false ∧
  is_u32 (dr_next (sy_driver s)) ∧ dr_next (sy_driver s) ≠ 0 ∧
  sy_out s = [] ∧ sy_in s = [] ∧ sy_requests s = [] ∧ device_ok (sy_device s).

Inductive sys_reachable : system → Prop :=
  | sys_start_ok s : sys_initial s → sys_reachable s
  | sys_step_ok s s' : sys_reachable s → sys_step s s' → sys_reachable s'.

(** ** What is on the line *)

Definition out_item (reqs : list wire_frame) (x : nat * wire_frame) : Prop :=
  reqs !! x.1 = Some (strip x.2) ∧ wire_ok x.2.

Definition in_item (reqs : list wire_frame) (x : nat * wire_frame) : Prop :=
  wire_ok x.2 ∧ ∃ q, reqs !! x.1 = Some q ∧ w_sequence x.2 = w_sequence q.

(** [n0] is the number of the first request. *)
Record line_inv (n0 : Z) (s : system) : Prop := {
  li_device : device_ok (sy_device s);
  li_next : dr_next (sy_driver s) = nth_sequence n0 (length (sy_requests s));
  li_sequences : ∀ i q, sy_requests s !! i = Some q → w_sequence q = nth_sequence n0 i;
  li_pending : ∀ q, dr_pending (sy_driver s) = Some q → last (sy_requests s) = Some q;
  li_sorted : StronglySorted le (map fst (sy_in s ++ sy_out s));
  li_out : Forall (out_item (sy_requests s)) (sy_out s);
  li_in : Forall (in_item (sy_requests s)) (sy_in s);
}.

(** Requests only grow at the end. *)
Lemma out_item_mono reqs q l : Forall (out_item reqs) l → Forall (out_item (reqs ++ q)) l.
Proof.
  intros Hl. eapply Forall_impl; [exact Hl|]. intros x [H Hw]. split; [by apply lookup_app_l_Some|done].
Qed.

Lemma in_item_mono reqs q l : Forall (in_item reqs) l → Forall (in_item (reqs ++ q)) l.
Proof.
  intros Hl. eapply Forall_impl; [exact Hl|]. intros x (Hw & r & H & Hs). split; [done|]. exists r. split; [by apply lookup_app_l_Some|done].
Qed.

Lemma line_sorted_lt n0 s x :
  line_inv n0 s → x ∈ sy_in s ++ sy_out s → (x.1 < length (sy_requests s))%nat.
Proof.
  intros Hi [Hx|Hx]%elem_of_app.
  - destruct (proj1 (Forall_forall _ _) (li_in _ _ Hi) x Hx) as (_ & q & H & _). by eapply lookup_lt_Some.
  - destruct (proj1 (Forall_forall _ _) (li_out _ _ Hi) x Hx) as [H _]. by eapply lookup_lt_Some.
Qed.

Definition line_items (s : system) : Prop :=
  ∀ x, x ∈ sy_in s ++ sy_out s → (x.1 < length (sy_requests s))%nat.

(** What the host's own steps do to the pending request. *)
Lemma silent_step d d' :
  driver_step d [] d' → dr_next d' = dr_next d ∧ (dr_pending d' = dr_pending d ∨ dr_pending d' = None).
Proof. intros H%driver_step_law. inversion H; subst; cbn; auto. Qed.

Lemma begin_step d q d' :
  driver_step d [Begin q] d' →
  dr_pending d' = Some q ∧ w_sequence q = dr_next d ∧ dr_next d' = succ_sequence (dr_next d) ∧
  dr_upgrade d' = dr_upgrade d.
Proof. intros H%driver_step_law. inversion H; by subst. Qed.

Lemma sorted_drop_middle (l1 l2 : list nat) x : StronglySorted le (l1 ++ x :: l2) → StronglySorted le (l1 ++ l2).
Proof.
  rewrite !StronglySorted_app. intros (H1 & H2 & H3%StronglySorted_cons).
  split_and!; [|done|apply H3]. intros y z Hy Hz. apply H1; [done|by right].
Qed.

Lemma last_lookup_pred {A} (l : list A) x : last l = Some x → l !! pred (length l) = Some x.
Proof. by rewrite last_lookup. Qed.

Lemma line_step n0 s s' :
  is_u32 n0 → n0 ≠ 0 → line_inv n0 s → sys_step s s' → line_inv n0 s'.
Proof.
  intros Hn0 Hnz Hi Hstep. destruct Hstep as [d' Hd|q d' Hd|w d' Hd|i w out resp dev Ho Hdev|i w rest d' Hin Hd|
    i w rest Hin|l1 x l2 Ho|l1 x l2 Hin].
  - destruct (silent_step _ _ Hd) as [Hnx Hp].
    destruct Hi as [Hde Hne Hse Hpe Hso Hou Hini]. split; cbn; try done; [congruence|].
    intros q Hq. destruct Hp as [Hp|Hp]; [apply Hpe|]; congruence.
  - destruct (begin_step _ _ _ Hd) as (Hp' & Hq & Hnx & _).
    destruct Hi as [Hde Hne Hse Hpe Hso Hou Hini]. split; cbn; try done.
    + rewrite Hnx, Hne, length_app. cbn. rewrite Nat.add_1_r.
      rewrite succ_sequence_nth by (unfold is_u32, nth_sequence; mlia). unfold nth_sequence. mlia.
    + intros i r [Hr|[Hge Hr]]%lookup_app_Some; [by apply Hse|].
      apply list_lookup_singleton_Some in Hr as [Hz <-]. rewrite Hq, Hne. f_equal. lia.
    + intros r Hr. rewrite last_snoc. congruence.
    + by apply out_item_mono.
    + by apply in_item_mono.
  - apply driver_step_law in Hd; inversion Hd as [| | |w' Hp Hw| | | | |]; subst. pose proof Hi as [Hde Hne Hse Hpe Hso Hou Hini].
    pose proof (last_lookup_pred _ _ (Hpe _ Hp)) as Hl. split; cbn; try done.
    + rewrite (assoc_L (++)), map_app. apply StronglySorted_app. split_and!; [|done|by repeat constructor].
      intros a b (x & -> & Hx)%list_elem_of_fmap [Hb|Hb]%elem_of_cons; [|by apply elem_of_nil in Hb]. subst b.
      pose proof (line_sorted_lt n0 s x Hi Hx). cbn. lia.
    + apply Forall_app. split; [done|]. by apply Forall_singleton.
  - destruct Hi as [Hde Hne Hse Hpe Hso Hou Hini]. rewrite Ho in *. apply Forall_cons in Hou as [[Hr Hw] Hou].
    destruct (device_refines _ _ _ _ Hde Hw Hdev) as (Hde' & Hwr & Hss). split; cbn; try done.
    + rewrite <- (assoc_L (++)). cbn. rewrite map_app in Hso |- *. done.
    + apply Forall_app. split; [done|]. constructor; [|constructor]. split; [done|].
      exists (strip w). split; [done|]. exact (slot_step_sequence _ _ _ _ Hss).
  - apply driver_step_law in Hd; inversion Hd as [| | | | |q w' Hp Hq Hw| | |]; subst. destruct Hi as [Hde Hne Hse Hpe Hso Hou Hini].
    rewrite Hin in *. apply Forall_cons in Hini as [_ Hini]. split; cbn; try done.
    cbn in Hso. by apply StronglySorted_cons in Hso as [_ Hso].
  - destruct Hi as [Hde Hne Hse Hpe Hso Hou Hini]. rewrite Hin in *. apply Forall_cons in Hini as [_ Hini].
    split; cbn; try done. cbn in Hso. by apply StronglySorted_cons in Hso as [_ Hso].
  - destruct Hi as [Hde Hne Hse Hpe Hso Hou Hini]. rewrite Ho in *.
    apply Forall_app in Hou as [Ho1 [_ Ho2]%Forall_cons]. split; cbn; try done; [|by apply Forall_app].
    rewrite !map_app in *. cbn in Hso. rewrite (assoc_L (++)) in *. by eapply sorted_drop_middle.
  - destruct Hi as [Hde Hne Hse Hpe Hso Hou Hini]. rewrite Hin in *.
    apply Forall_app in Hini as [Ho1 [_ Ho2]%Forall_cons]. split; cbn; try done; [|by apply Forall_app].
    rewrite !map_app in *. cbn in Hso. rewrite <- (assoc_L (++)) in *. by eapply sorted_drop_middle.
Qed.

End System.

(** ** What a device does with the requests of one upgrade *)

Section Job.
Context (image version : list Z).

(** The requests of the upgrade of [image] to [version]. *)
Definition is_begin (q : wire_frame) : Prop :=
  w_type q = DEVMGR_MSG_FW_BEGIN ∧
  ∃ chunk, w_payload q = begin_payload (len image) (crc_of image) chunk version [].

Definition is_data (q : wire_frame) : Prop :=
  w_type q = DEVMGR_MSG_FW_DATA ∧
  ∃ id off n, is_u32 id ∧ is_u32 off ∧ 0 ≤ n ∧ off + n ≤ len image ∧
    w_payload q = le_bytes 4 id ++ le_bytes 4 off ++ slice image off n.

(** The requests an upgrade makes in each state, and the one whose answer brought
    it there. *)
Definition own (st : devmgr_upgrade_state) (q : wire_frame) : Prop :=
  match st with
  | DEVMGR_UPGRADE_BEGIN => is_begin q
  | DEVMGR_UPGRADE_TRANSFER | DEVMGR_UPGRADE_RECOVER | DEVMGR_UPGRADE_END =>
      is_data q ∨ w_type q = DEVMGR_MSG_FW_STATUS ∨ w_type q = DEVMGR_MSG_FW_END
  | DEVMGR_UPGRADE_VERIFY => w_type q = DEVMGR_MSG_FW_VERIFY
  | DEVMGR_UPGRADE_ACTIVATE => w_type q = DEVMGR_MSG_FW_ACTIVATE
  | _ => w_type q = DEVMGR_MSG_REBOOT
  end.

Definition entry (st : devmgr_upgrade_state) (q : wire_frame) : Prop :=
  match st with
  | DEVMGR_UPGRADE_BEGIN => True
  | DEVMGR_UPGRADE_TRANSFER | DEVMGR_UPGRADE_RECOVER | DEVMGR_UPGRADE_END => is_begin q
  | DEVMGR_UPGRADE_VERIFY => w_type q = DEVMGR_MSG_FW_END
  | DEVMGR_UPGRADE_ACTIVATE => w_type q = DEVMGR_MSG_FW_VERIFY
  | _ => w_type q = DEVMGR_MSG_FW_ACTIVATE
  end.

(** The device works on this image. *)
Definition ours (sl : slot) : Prop :=
  slot_size sl = len image ∧ slot_crc sl = crc_of image ∧ slot_version sl = version ∧
  len (slot_flash sl) = len image.

(** It holds a prefix of it, if the transfer started from nothing. *)
Definition received (start : Z) (sl : slot) : Prop :=
  start = 0 → 0 ≤ slot_offset sl ≤ len image ∧
    take (Z.to_nat (slot_offset sl)) (slot_flash sl) = take (Z.to_nat (slot_offset sl)) image.

Definition complete (start : Z) (sl : slot) : Prop := start = 0 → slot_flash sl = image.

(** What the host may conclude from the state of its upgrade. *)
Definition known (st : devmgr_upgrade_state) (start : Z) (sl : slot) : Prop :=
  match st with
  | DEVMGR_UPGRADE_BEGIN => True
  | DEVMGR_UPGRADE_TRANSFER | DEVMGR_UPGRADE_RECOVER | DEVMGR_UPGRADE_END =>
      ours sl ∧ received start sl
  | DEVMGR_UPGRADE_VERIFY => ours sl ∧ complete start sl
  | DEVMGR_UPGRADE_ACTIVATE => ours sl ∧ complete start sl ∧ crc_of (slot_flash sl) = crc_of image
  | _ => ours sl ∧ complete start sl ∧ crc_of (slot_flash sl) = crc_of image ∧ slot_running sl = version
  end.

(** What the answer [w] to the request [q] of that state adds. *)
Definition learnt (st : devmgr_upgrade_state) (q w : wire_frame) (sl : slot) : Prop :=
  match st with
  | DEVMGR_UPGRADE_BEGIN =>
      ours sl ∧ slot_open sl = true ∧ (field (w_payload w) 4 4 = 0 → slot_offset sl = 0)
  | DEVMGR_UPGRADE_TRANSFER | DEVMGR_UPGRADE_RECOVER | DEVMGR_UPGRADE_END =>
      w_type q = DEVMGR_MSG_FW_END → slot_offset sl = slot_size sl
  | DEVMGR_UPGRADE_VERIFY => crc_of (slot_flash sl) = crc_of image
  | DEVMGR_UPGRADE_ACTIVATE => slot_running sl = version
  | _ => True
  end.

(** A repeated request to begin is harmless while the transfer is open. *)
Definition reopens (st : devmgr_upgrade_state) (sl : slot) : Prop :=
  match st with
  | DEVMGR_UPGRADE_TRANSFER | DEVMGR_UPGRADE_RECOVER | DEVMGR_UPGRADE_END => slot_open sl = true
  | _ => True
  end.

Lemma received_complete start sl :
  ours sl → received start sl → slot_offset sl = slot_size sl → complete start sl.
Proof.
  intros (Es & _ & _ & Hl) Hr Ho Hst. destruct (Hr Hst) as [_ Hp]. rewrite Ho, Es in Hp.
  rewrite !take_ge in Hp by lia. done.
Qed.

Context (Himage : Forall is_u8 image) (Hsize : 0 < len image ≤ UINT32_MAX)
        (Hversion : Forall (λ b, b ≠ 0) version).

Lemma le_bytes_inj4 a b : is_u32 a → is_u32 b → le_bytes 4 a = le_bytes 4 b → a = b.
Proof.
  intros Ha Hb E. rewrite <- (le_value_bytes 4 a), <- (le_value_bytes 4 b) by done. by rewrite E.
Qed.

Lemma begin_payload_inj size crc chunk v rest chunk' :
  is_u32 size → is_u32 crc → Forall (λ b, b ≠ 0) v →
  begin_payload (len image) (crc_of image) chunk' version [] = begin_payload size crc chunk v rest →
  size = len image ∧ crc = crc_of image ∧ v = version.
Proof.
  intros Hs Hc Hv E. unfold begin_payload in E.
  apply app_inj_1 in E as [E1 E]; [|by rewrite !length_le_bytes].
  apply app_inj_1 in E as [E2 E]; [|by rewrite !length_le_bytes].
  apply app_inj_1 in E as [_ E]; [|by rewrite !length_le_bytes].
  apply le_bytes_inj4 in E1; [|unfold is_u32, UINT32_MAX in *; lia|done].
  apply le_bytes_inj4 in E2; [|by apply crc_of_u32|done]. split; [done|]. split; [done|].
  assert (holds_string (version ++ [0]) version) as H1 by by exists [].
  assert (holds_string (version ++ [0]) v) as H2 by by exists rest.
  apply string_of_holds in H1, H2. congruence.
Qed.

(** Two types that cannot be the same. *)
Ltac type_clash :=
  exfalso;
  match goal with
  | H1 : w_type ?w = _, H2 : w_type ?w = _ |- _ => rewrite H1 in H2; discriminate H2
  | H1 : w_type ?w = _, H2 : ¬ (_ ≤ w_type ?w ≤ _) |- _ => apply H2; rewrite H1; done
  end.

Lemma refused_nack req resp : is_nack req resp → refused resp = true.
Proof. intros (H & _). unfold refused. by rewrite H. Qed.

Lemma field_second a b : is_u32 b → field (le_bytes 4 a ++ le_bytes 4 b) 4 4 = b.
Proof.
  intros Hb. unfold field. rewrite <- (app_nil_r (le_bytes 4 b)).
  rewrite slice_middle by (by rewrite length_le_bytes). by apply le_value_bytes.
Qed.

(** What the device may do with a request that begins the transfer. *)
Lemma begin_cases sl w resp sl' :
  is_begin w → slot_ok sl → slot_step sl w resp sl' →
  refused resp = true ∧ (slot_open sl = true → ours sl → sl' = sl) ∨
  ours sl' ∧ slot_open sl' = true ∧ slot_offset sl' = 0 ∧ slot_running sl' = slot_running sl ∨
  sl' = sl ∧ ours sl ∧ slot_open sl = true ∧ field (w_payload resp) 4 4 = slot_offset sl.
Proof.
  intros [Ht [chunk' Hp]] (_ & _ & Hoff & Hsz & Hopen) Hstep.
  destruct Hstep as [resp Hn|resp Hr|size crc chunk v rest id flash _ Hq Hs Hc Hv _ _ Hf|
    resp size crc chunk v rest flash _ Hn Hq Hs Hc Hv Hno _|size crc chunk v rest _ Hq Hs Hc Hv Ho Es Ec Ev|
    data Hw| |off data Hw|Hw|open Hw|Hw|Hw|open verified Hw]; try type_clash.
  - left. split; [by eapply refused_nack|done].
  - rewrite Hp in Hq. apply begin_payload_inj in Hq as (-> & -> & ->); [|done..]. right. left. by split_and!.
  - rewrite Hp in Hq. apply begin_payload_inj in Hq as (-> & -> & ->); [|done..].
    left. split; [by eapply refused_nack|]. intros Ho (Es & Ec & Ev & _). destruct Hno. by split_and!.
  - rewrite Hp in Hq. apply begin_payload_inj in Hq as (-> & -> & ->); [|done..]. right. right.
    destruct (Hopen Ho) as (_ & Hle & Hfl). split; [done|]. split; [split_and!; congruence|]. split; [done|].
    cbn. apply field_second. unfold is_u32 in *. lia.
Qed.

Lemma take_slice (l : list Z) (o n : Z) :
  0 ≤ o → 0 ≤ n → take (Z.to_nat (o + n)) l = take (Z.to_nat o) l ++ slice l o n.
Proof. intros. by rewrite <- !slice_0, slice_split by lia. Qed.

Lemma take_splice (flash : list Z) (o n : Z) :
  take (Z.to_nat o) flash = take (Z.to_nat o) image → 0 ≤ o → 0 ≤ n → o + n ≤ len image →
  len flash = len image →
  take (Z.to_nat (o + n)) (splice flash o (slice image o n)) = take (Z.to_nat (o + n)) image.
Proof.
  intros Hp Ho Hn Hle Hl. rewrite (take_slice image) by done. unfold splice.
  rewrite <- Hp, (assoc_L (++)). apply take_app_length'.
  rewrite length_app, length_take, length_slice by lia. lia.
Qed.

(** What it may do with any other request of the upgrade. *)
Lemma data_keeps sl w resp sl' start :
  is_data w → slot_ok sl → slot_step sl w resp sl' →
  ours sl → received start sl → ours sl' ∧ received start sl'.
Proof.
  intros [Ht (id & off & n & Hid & Hoff & Hn & Hle & Hp)] Hok Hstep (Es & Ec & Ev & Hl) Hrec.
  destruct Hstep as [resp Hno|resp Hr|? ? ? ? ? ? ? Hw|? ? ? ? ? ? ? Hw|? ? ? ? ? Hw|
    data _ Ho Hq Hfit|resp flash _ _ Ho Hfl Hpre|off' data Hw|Hw|open Hw|Hw|Hw|open verified Hw];
    try type_clash; try (by split_and!).
  - pose proof Hok as (_ & _ & Hoff0 & Hsz & _). rewrite Hp in Hq.
    apply app_inj_1 in Hq as [_ Hq]; [|by rewrite !length_le_bytes].
    apply app_inj_1 in Hq as [Hq <-]; [|by rewrite !length_le_bytes].
    apply le_bytes_inj4 in Hq as ->; [|done|unfold is_u32 in *; lia].
    rewrite Es, len_slice in * by lia. split; [split_and!; try done; cbn; rewrite length_splice|].
    + done.
    + rewrite ?len_slice; lia.
    + rewrite len_slice; lia.
    + intros Hst. destruct (Hrec Hst) as [_ Hpre]. cbn. split; [lia|]. apply take_splice; (done || lia).
  - split; [split_and!; try done; cbn; lia|]. intros Hst. destruct (Hrec Hst) as [? Hpr]. cbn. split; [done|congruence].
Qed.

(** Requests that do not touch the flash. *)
Definition same_flash (sl sl' : slot) : Prop :=
  slot_size sl' = slot_size sl ∧ slot_crc sl' = slot_crc sl ∧ slot_version sl' = slot_version sl ∧
  slot_flash sl' = slot_flash sl ∧ slot_offset sl' = slot_offset sl.

Lemma control_keeps sl w resp sl' :
  w_type w ∈ [DEVMGR_MSG_FW_STATUS; DEVMGR_MSG_FW_END; DEVMGR_MSG_FW_VERIFY; DEVMGR_MSG_FW_ACTIVATE;
              DEVMGR_MSG_REBOOT] →
  slot_step sl w resp sl' →
  same_flash sl sl' ∧
  (slot_running sl' = slot_running sl ∨ w_type w = DEVMGR_MSG_FW_ACTIVATE ∧ slot_running sl' = slot_version sl) ∧
  (refused resp = false →
    (w_type w = DEVMGR_MSG_FW_END → slot_offset sl = slot_size sl) ∧
    (w_type w = DEVMGR_MSG_FW_VERIFY → crc_of (slot_flash sl) = slot_crc sl) ∧
    (w_type w = DEVMGR_MSG_FW_ACTIVATE → slot_running sl' = slot_version sl)).
Proof.
  intros Ht Hstep. rewrite !elem_of_cons, elem_of_nil in Ht.
  destruct Hstep; (destruct Ht as [Ht|[Ht|[Ht|[Ht|[Ht|[]]]]]]; try type_clash);
    (split; [done|]); (split; [by auto|]); intros Hr; try (by erewrite refused_nack in Hr);
    (split_and!; intros; try type_clash; done).
Qed.

Lemma same_flash_ours sl sl' : same_flash sl sl' → ours sl → ours sl'.
Proof. intros (Es & Ec & Ev & Ef & _) (? & ? & ? & ?). split_and!; congruence. Qed.

Lemma same_flash_received start sl sl' : same_flash sl sl' → received start sl → received start sl'.
Proof. intros (_ & _ & _ & Ef & Eo) H Hst. rewrite Ef, Eo. by apply H. Qed.

Lemma same_flash_complete start sl sl' : same_flash sl sl' → complete start sl → complete start sl'.
Proof. intros (_ & _ & _ & Ef & _) H Hst. rewrite Ef. by apply H. Qed.

(** The device after a request that begins the transfer once more. *)
Lemma begin_keeps sl w resp sl' start :
  is_begin w → slot_ok sl → slot_step sl w resp sl' → slot_open sl = true → ours sl → received start sl →
  ours sl' ∧ received start sl' ∧ slot_open sl' = true.
Proof.
  intros Hb Hok Hs Hop Hou Hr.
  destruct (begin_cases sl w resp sl' Hb Hok Hs) as [(_ & E)|[(? & ? & E & _)|(-> & _)]]; [| |done].
  - by rewrite E.
  - split_and!; try done. intros _. rewrite E. split; [lia|done].
Qed.

Lemma data_offset sl w resp sl' :
  is_data w → slot_step sl w resp sl' → slot_offset sl = slot_size sl → slot_offset sl' = slot_size sl'.
Proof.
  intros [Ht _] Hs E. destruct Hs; try type_clash; try done. cbn in *. lia.
Qed.

(** The requests about the transfer, once it has begun. *)
Lemma transfer_step sl w resp sl' start :
  is_data w ∨ w_type w = DEVMGR_MSG_FW_STATUS ∨ w_type w = DEVMGR_MSG_FW_END →
  slot_ok sl → slot_step sl w resp sl' → ours sl → received start sl →
  (ours sl' ∧ received start sl') ∧ (slot_offset sl = slot_size sl → slot_offset sl' = slot_size sl') ∧
  (refused resp = false → w_type w = DEVMGR_MSG_FW_END → slot_offset sl' = slot_size sl').
Proof.
  intros [Hd|Ht] Hok Hs Hou Hr.
  - split; [by eapply data_keeps|]. split; [by eapply data_offset|]. destruct Hd as [Hd _]. intros. type_clash.
  - destruct (control_keeps sl w resp sl') as (Hf & _ & Hn); [set_solver|done|].
    pose proof Hf as (Es & _ & _ & _ & Eo).
    split; [split; [by eapply same_flash_ours|by eapply same_flash_received]|].
    split; [congruence|]. intros Hre He. destruct (Hn Hre) as (Hend & _). rewrite Es, Eo. by apply Hend.
Qed.

(** The requests that follow, which leave the flash alone. *)
Lemma closing_step sl w resp sl' start :
  w_type w ∈ [DEVMGR_MSG_FW_STATUS; DEVMGR_MSG_FW_END; DEVMGR_MSG_FW_VERIFY; DEVMGR_MSG_FW_ACTIVATE;
              DEVMGR_MSG_REBOOT] →
  slot_step sl w resp sl' → ours sl → complete start sl →
  ours sl' ∧ complete start sl' ∧ slot_flash sl' = slot_flash sl ∧
  (slot_running sl = version → slot_running sl' = version) ∧
  (refused resp = false →
    (w_type w = DEVMGR_MSG_FW_VERIFY → crc_of (slot_flash sl) = crc_of image) ∧
    (w_type w = DEVMGR_MSG_FW_ACTIVATE → slot_running sl' = version)).
Proof.
  intros Ht Hs Hou Hc. destruct (control_keeps sl w resp sl' Ht Hs) as (Hf & Hrun & Hn).
  split; [by eapply same_flash_ours|]. split; [by eapply same_flash_complete|].
  destruct Hf as (_ & _ & _ & Ef & _). destruct Hou as (_ & Ec & Ev & _). rewrite <- Ec, <- Ev.
  split; [done|]. split; [|by intros; apply Hn]. intros. destruct Hrun as [|[]]; congruence.
Qed.

(** The device and a request of the state the upgrade is in: what the host knows
    stays true, and it learns from the answer. *)
Lemma own_step st sl w resp sl' start :
  own st w → slot_ok sl → slot_step sl w resp sl' → known st start sl →
  known st start sl' ∧ (refused resp = false → learnt st w resp sl') ∧
  (∀ q r, learnt st q r sl → learnt st q r sl').
Proof.
  intros Ho Hok Hs Hk.
  destruct st; cbn [own known] in Ho, Hk.
  5-7: destruct Hk as [Hou Hr]; destruct (transfer_step sl w resp sl' start Ho Hok Hs Hou Hr) as (Hk' & Hk2 & Hl);
       split; [done|]; split; [done|]; intros q r H He; by apply Hk2, H.
  4: {
    split; [done|].
    destruct (begin_cases sl w resp sl' Ho Hok Hs) as [(Hr & E)|[(? & ? & E & _)|(-> & ? & ? & E)]].
    - rewrite Hr. split; [done|]. intros q r (Hou & Hop & Hz). by rewrite E.
    - split; done.
    - split; [|done]. intros _. split_and!; try done. congruence. }
  all: destruct Hk as (Hou & Hc & Hrest) || destruct Hk as (Hou & Hc);
    destruct (closing_step sl w resp sl' start) as (Hou' & Hc' & Ef & Hrun & Hn); [rewrite Ho; set_solver|done..|];
    cbn [known learnt]; rewrite ?Ef.
  4: { split; [done|]. split; [|done]. intros Hr. by apply Hn. }
  4: { split; [done|]. split; [intros Hr; by apply Hn|]. intros _ _. exact Hrun. }
  all: destruct Hrest as [? ?]; split; [|done]; split_and!; try done; by apply Hrun.
Qed.

(** The device and a late copy of the request that brought the upgrade there. *)
Lemma entry_step st sl w resp sl' start :
  entry st w → slot_ok sl → slot_step sl w resp sl' → known st start sl →
  reopens st sl → known st start sl' ∧ reopens st sl'.
Proof.
  intros He Hok Hs Hk Hre. destruct st; cbn [entry known reopens] in He, Hk, Hre |- *; [| | |done|..].
  4-6: destruct Hk as [Hou Hr]; destruct (begin_keeps sl w resp sl' start He Hok Hs Hre Hou Hr) as (? & ? & ?); done.
  all: destruct Hk as (Hou & Hc & Hrest) || destruct Hk as (Hou & Hc);
    destruct (closing_step sl w resp sl' start) as (Hou' & Hc' & Ef & Hrun & _); [rewrite He; set_solver|done..|];
    rewrite ?Ef; (split; [|done]).
  4: done. 
  4: done.
  all: destruct Hrest as [? ?]; split_and!; try done; by apply Hrun.
Qed.
End Job.

(** ** The upgrade and the line *)

Section EndToEnd.
Context {D : Type} `{!UpdateDevice D}.

(** The upgrade of [image] to [version] is in the state [st] since the request [b]
    was answered. *)
Record stage (image version : list Z) (st : devmgr_upgrade_state) (b : nat) (s : system) : Prop := {
  sg_floor : Forall (λ x, (b ≤ x.1)%nat) (sy_in s ++ sy_out s);
  sg_bound : (b < length (sy_requests s))%nat;
  sg_fresh : dr_pending (sy_driver s) ≠ None → (S b < length (sy_requests s))%nat;
  sg_entry : ∀ q, sy_requests s !! b = Some q → entry image version st q;
  sg_own : ∀ j q, (b < j)%nat → sy_requests s !! j = Some q → own image version st q;
  sg_known : known image version st (sy_start s) (device_slot (sy_device s));
  sg_reopens : ∀ w, (b, w) ∈ sy_out s → reopens st (device_slot (sy_device s));
  sg_learnt : ∀ i r q, (i, r) ∈ sy_in s → (b < i)%nat → sy_requests s !! i = Some q → refused r = false →
    learnt image version st q r (device_slot (sy_device s));
}.

(** The upgrade that is under way. *)
Definition job_inv (s : system) : Prop :=
  upgrade_running (dr_upgrade (sy_driver s)) = true →
  ∃ image version, upgrade_ok image version (dr_upgrade (sy_driver s)) ∧
    image_crc (dr_upgrade (sy_driver s)) = crc_of image ∧
    (upgrade_state (dr_upgrade (sy_driver s)) ≠ DEVMGR_UPGRADE_ENTER_BOOTLOADER →
     ∃ b, stage image version (upgrade_state (dr_upgrade (sy_driver s))) b s).

Lemma upgrade_ok_facts image version u :
  upgrade_ok image version u →
  Forall is_u8 image ∧ 0 < len image ≤ UINT32_MAX ∧ Forall (λ b, b ≠ 0) version.
Proof.
  intros [(_ & _ & Hi & Hl & _ & _ & Hv & _) _]. split_and!; try done; try lia.
  eapply Forall_impl; [exact Hv|]. simpl. lia.
Qed.

(** An upgrade is of one image and one version. *)
Lemma upgrade_ok_unique image version image' version' u :
  upgrade_ok image version u → upgrade_ok image' version' u → image' = image ∧ version' = version.
Proof.
  intros H H'. pose proof (upgrade_ok_facts _ _ _ H) as (_ & _ & Hz). pose proof (upgrade_ok_facts _ _ _ H') as (_ & _ & Hz').
  destruct H as [(Hd & _ & _ & _ & _ & Hv & _ & Hl & _) _], H' as [(Hd' & _ & _ & _ & _ & Hv' & _ & Hl' & _) _].
  split; [congruence|].
  assert (∀ v : list Z, len v ≤ 31 → zeros (32 - len v) = 0 :: zeros (31 - len v)) as Hs.
  { intros v Hlv. unfold zeros. by replace (Z.to_nat (32 - len v)) with (S (Z.to_nat (31 - len v))) by lia. }
  rewrite Hs in Hv, Hv' by lia.
  assert (holds_string (upgrade_version u) version) as H1 by by eexists.
  assert (holds_string (upgrade_version u) version') as H2 by by eexists.
  apply string_of_holds in H1, H2. congruence.
Qed.

(** The requests an upgrade builds are those of its state. *)
Lemma request_own image version u type payload seq :
  upgrade_ok image version u → image_crc u = crc_of image → upgrade_state u ≠ DEVMGR_UPGRADE_ENTER_BOOTLOADER →
  next_request image version u = Some (type, payload) →
  own image version (upgrade_state u) (mk_wire type 0 seq payload).
Proof.
  intros Hu Hc Hne. pose proof Hu as [(_ & _ & _ & Hl & _ & _ & _ & _ & Hch & Hid & Hoff & _) Hst].
  unfold next_request, state_ok in *. destruct (upgrade_state u); intros E; simplify_eq; cbn; try done.
  - split; [done|]. exists (chunk_size u). rewrite Hc. done.
  - left. split; [done|]. exists (session_id u), (offset u), (Z.min (chunk_size u) (len image - offset u)).
    split_and!; try done; lia.
  - by right; left.
  - by right; right.
Qed.

(** Steps that only take from the line, or give up the pending request. *)
Lemma stage_fewer image version st b s s' :
  stage image version st b s →
  (∀ x, x ∈ sy_in s' → x ∈ sy_in s) → (∀ x, x ∈ sy_out s' → x ∈ sy_out s) →
  (dr_pending (sy_driver s') ≠ None → dr_pending (sy_driver s) ≠ None) →
  sy_requests s' = sy_requests s → sy_device s' = sy_device s → sy_start s' = sy_start s →
  stage image version st b s'.
Proof.
  intros [Hfl Hb Hfr Hen How Hkn Hre Hle] Hin Hout Hp Er Ed Es.
  split; rewrite ?Er, ?Ed, ?Es; eauto.
  rewrite Forall_app, !Forall_forall in Hfl |- *. split; naive_solver.
Qed.

Lemma stage_begin image version st b s q d' :
  stage image version st b s → own image version st q → line_items s →
  stage image version st b (s <| sy_driver := d' |> <| sy_requests := sy_requests s ++ [q] |>).
Proof.
  intros [Hfl Hb Hfr Hen How Hkn Hre Hle] Hq Hli. split; cbn; try done.
  - rewrite length_app. lia.
  - rewrite length_app. cbn. lia.
  - intros r. rewrite lookup_app_l by done. apply Hen.
  - intros j r Hj [Hr|[_ [_ <-]%list_lookup_singleton_Some]]%lookup_app_Some; [by eapply How|done].
  - intros i r q' Hi Hbi Hr. rewrite lookup_app_l in Hr by (by apply (Hli (i, r)), elem_of_app; left).
    by apply (Hle i r q').
Qed.

Lemma stage_emit image version st b s w :
  stage image version st b s → dr_pending (sy_driver s) ≠ None →
  stage image version st b (s <| sy_out := sy_out s ++ [(pred (length (sy_requests s)), w)] |>).
Proof.
  intros [Hfl Hb Hfr Hen How Hkn Hre Hle] Hp. pose proof (Hfr Hp) as Hlt. split; cbn; try done.
  - rewrite (assoc_L (++)), Forall_app. split; [done|]. apply Forall_singleton. cbn. lia.
  - intros w' [Hw|Hw]%elem_of_app; [by eapply Hre|]. apply list_elem_of_singleton in Hw. simplify_eq. lia.
Qed.

Lemma stage_answer n0 image version st b s i w out resp dev :
  line_inv n0 s → Forall is_u8 image → 0 < len image ≤ UINT32_MAX → Forall (λ b, b ≠ 0) version →
  stage image version st b s → sy_out s = (i, w) :: out → device_step (sy_device s) w resp dev →
  stage image version st b
    (s <| sy_device := dev |> <| sy_out := out |> <| sy_in := sy_in s ++ [(i, resp)] |>).
Proof.
  intros Hi Him Hl Hv [Hfl Hb Hfr Hen How Hkn Hre Hle] Ho Hdev. pose proof (li_device _ _ Hi) as Hde.
  pose proof (li_out _ _ Hi) as Hout. pose proof (li_sorted _ _ Hi) as Hso. rewrite Ho in *.
  apply Forall_cons in Hout as [[Hr Hw] _].
  destruct (device_refines _ _ _ _ Hde Hw Hdev) as (_ & _ & Hss). pose proof (device_slot_ok _ Hde) as Hok.
  assert (∀ x, x ∈ sy_in s → (x.1 ≤ i)%nat) as Hbefore.
  { intros x Hx. rewrite map_app in Hso. apply StronglySorted_app in Hso as (Hso & _).
    apply Hso; [by apply list_elem_of_fmap_2|by left]. }
  assert (b ≤ i)%nat as Hbi by (by apply Forall_app in Hfl as [_ [? _]%Forall_cons]).
  assert (Forall (λ x, (b ≤ x.1)%nat) ((sy_in s ++ [(i, resp)]) ++ out)) as Hfl'.
  { rewrite !Forall_app, Forall_singleton. by apply Forall_app in Hfl as [? [_ ?]%Forall_cons]. }
  cbn in Hr, Hw, Hss. destruct (decide (i = b)) as [->|Hne].
  - destruct (entry_step image version Him Hl Hv st (device_slot (sy_device s)) w resp (device_slot dev) (sy_start s))
      as [Hkn' Hre']; [by destruct st; exact (Hen _ Hr)|done..|by apply (Hre w); left|].
    split; cbn; try done. intros j r q [Hj|[= -> ->]%list_elem_of_singleton]%elem_of_app Hbj; [|lia].
    apply Hbefore in Hj. cbn in Hj. lia.
  - destruct (own_step image version Him Hl Hv st (device_slot (sy_device s)) w resp (device_slot dev) (sy_start s))
      as (Hkn' & Hnew & Hkeep); [by destruct st; exact (How i _ ltac:(lia) Hr)|done..|].
    split; cbn; try done.
    + intros w' Hw'. rewrite map_app in Hso. apply StronglySorted_app in Hso as (_ & _ & Hso).
      cbn in Hso. apply StronglySorted_cons in Hso as [Hso _]. rewrite Forall_forall in Hso.
      pose proof (Hso b (list_elem_of_fmap_2 fst _ _ Hw')). lia.
    + intros j r q [Hj|[= -> ->]%list_elem_of_singleton]%elem_of_app Hbj Hq Hrf.
      * by apply Hkeep, (Hle j r).
      * rewrite Hr in Hq. simplify_eq. apply Hnew in Hrf. by destruct st.
Qed.

(** The request that is pending is the one whose number the answer carries. *)
Lemma pending_index n0 s i w rest q :
  line_inv n0 s → Z.of_nat (length (sy_requests s)) ≤ 4294967295 →
  sy_in s = (i, w) :: rest → dr_pending (sy_driver s) = Some q → w_sequence w = w_sequence q →
  sy_requests s !! i = Some q ∧ S i = length (sy_requests s).
Proof.
  intros Hi Hn Hin Hp Hw. pose proof (li_in _ _ Hi) as Hini. rewrite Hin in Hini.
  apply Forall_cons in Hini as [(_ & r & Hr & Hs) _]. cbn in *.
  pose proof (last_lookup_pred _ _ (li_pending _ _ Hi q Hp)) as Hl.
  pose proof (li_sequences _ _ Hi _ _ Hr) as E1. pose proof (li_sequences _ _ Hi _ _ Hl) as E2.
  apply lookup_lt_Some in Hr as Hlt. assert (i = pred (length (sy_requests s))) as ->; [|split; [done|lia]].
  destruct (decide (i < pred (length (sy_requests s)))%nat) as [Hc|]; [|lia].
  exfalso. eapply nth_sequence_inj; [exact Hc| |]; [lia|]. rewrite <- E1, <- E2. congruence.
Qed.

(** Nothing older is under way then. *)
Lemma line_after n0 s i w rest x :
  line_inv n0 s → sy_in s = (i, w) :: rest → S i = length (sy_requests s) →
  x ∈ rest ++ sy_out s → x.1 = i.
Proof.
  intros Hi Hin Hlen Hx. pose proof (li_sorted _ _ Hi) as Hso.
  pose proof (line_sorted_lt n0 s x Hi) as Hlt. rewrite Hin in *. cbn in Hso.
  apply StronglySorted_cons in Hso as [Hso _]. rewrite Forall_forall in Hso.
  pose proof (Hso x.1 (list_elem_of_fmap_2 fst _ _ Hx)).
  assert (x.1 < length (sy_requests s))%nat; [|lia]. apply Hlt. cbn. by right.
Qed.

(** Where an answer that is not a refusal leads. *)
Definition onward (u : devmgr_upgrade) (rt : Z) (w : wire_frame) (u' : devmgr_upgrade) : Prop :=
  match upgrade_state u with
  | DEVMGR_UPGRADE_ENTER_BOOTLOADER => upgrade_state u' = DEVMGR_UPGRADE_BEGIN
  | DEVMGR_UPGRADE_BEGIN =>
      upgrade_state u' ∈ [DEVMGR_UPGRADE_TRANSFER; DEVMGR_UPGRADE_END] ∧ offset u' = field (w_payload w) 4 4
  | DEVMGR_UPGRADE_TRANSFER | DEVMGR_UPGRADE_RECOVER =>
      upgrade_state u' ∈ [DEVMGR_UPGRADE_TRANSFER; DEVMGR_UPGRADE_END]
  | DEVMGR_UPGRADE_END => rt = DEVMGR_MSG_FW_END ∧ upgrade_state u' = DEVMGR_UPGRADE_VERIFY
  | DEVMGR_UPGRADE_VERIFY => upgrade_state u' = DEVMGR_UPGRADE_ACTIVATE
  | DEVMGR_UPGRADE_ACTIVATE => upgrade_state u' = DEVMGR_UPGRADE_REBOOT
  | DEVMGR_UPGRADE_REBOOT => upgrade_state u' = DEVMGR_UPGRADE_COMPLETE
  | _ => False
  end.

Lemma answer_moves u rt w :
  image_crc (answer u rt w).2 = image_crc u ∧
  (upgrade_state (answer u rt w).2 = DEVMGR_UPGRADE_ERROR ∨
   refused w = false ∧ onward u rt w (answer u rt w).2).
Proof.
  unfold answer, onward. destruct (refused w); [by split; [|left]|].
  destruct (upgrade_state u); try (by split; [|left]).
  all: match goal with |- context [if ?c then _ else _] => destruct c eqn:Ec end; try (by split; [|left]); cbv zeta.
  2-4: case_match; [by split; [|left]|];
    match goal with |- context [resumed ?v] => destruct (resumed_cases v) as [->| ->] end;
    (split; [done|]); right; set_solver.
  2: apply Z.eqb_eq in Ec.
  all: split; [done|]; right; done.
Qed.

(** The answer to the last request opens the next state. *)
Lemma stage_enter n0 image version st' s s' i w rest q :
  line_inv n0 s → sy_in s = (i, w) :: rest → sy_requests s !! i = Some q → S i = length (sy_requests s) →
  sy_in s' = rest → sy_out s' = sy_out s → sy_requests s' = sy_requests s →
  dr_pending (sy_driver s') = None → entry image version st' q →
  known image version st' (sy_start s') (device_slot (sy_device s')) →
  reopens st' (device_slot (sy_device s')) → stage image version st' i s'.
Proof.
  intros Hi Hin Hq Hlen Ei Eo Er Hp He Hk Hre. split; rewrite ?Er, ?Ei, ?Eo; try done.
  - rewrite Forall_forall. intros x Hx. rewrite (line_after n0 s i w rest x) by done. lia.
  - lia.
  - congruence.
  - intros j r Hj Hr. apply lookup_lt_Some in Hr. lia.
  - intros j r q' Hj Hlt. assert ((j, r).1 = i) as E; [|cbn in E; lia].
    eapply line_after; [done..|]. apply elem_of_app. by left.
Qed.

(** What the host knew and what it learns from the answer make what it knows next. *)
Lemma learns image version u q w u' start sl :
  own image version (upgrade_state u) q → known image version (upgrade_state u) start sl →
  learnt image version (upgrade_state u) q w sl → onward u (w_type q) w u' →
  upgrade_state u ∉ [DEVMGR_UPGRADE_ENTER_BOOTLOADER; DEVMGR_UPGRADE_TRANSFER; DEVMGR_UPGRADE_RECOVER;
                       DEVMGR_UPGRADE_REBOOT] →
  let start' := match upgrade_state u with DEVMGR_UPGRADE_BEGIN => offset u' | _ => start end in
  entry image version (upgrade_state u') q ∧ known image version (upgrade_state u') start' sl ∧
  reopens (upgrade_state u') sl.
Proof.
  unfold onward. intros Ho Hk Hl Hon Hst. destruct (upgrade_state u); try done; try set_solver; cbn [own known learnt] in *.
  - destruct Hon as [Hon Eo]. destruct Hl as (Hou & Hop & Hz). rewrite Eo. cbv zeta.
    assert (received image (field (w_payload w) 4 4) sl) as Hrec.
    { intros E. rewrite (Hz E). split; [lia|done]. }
    rewrite !elem_of_cons, elem_of_nil in Hon. destruct Hon as [->|[->|[]]]; by split_and!.
  - destruct Hon as [Ht ->], Hk as [Hou Hr]. split_and!; try done. cbv zeta. split; [done|].
    apply (received_complete image version); [done|done|by apply Hl].
  - rewrite Hon. destruct Hk as [? ?]. by split_and!.
  - rewrite Hon. destruct Hk as (? & ? & ?). by split_and!.
Qed.

Lemma after_request_state image u :
  upgrade_state (after_request image u) = upgrade_state u ∧ image_crc (after_request image u) = image_crc u.
Proof. unfold after_request. by destruct (upgrade_state u) eqn:E. Qed.

Lemma recovery_state u :
  upgrade_running u = true →
  image_crc (devmgr_upgrade_begin_recovery u).2 = image_crc u ∧
  (upgrade_state (devmgr_upgrade_begin_recovery u).2 = upgrade_state u ∨
   upgrade_state (devmgr_upgrade_begin_recovery u).2 = DEVMGR_UPGRADE_ERROR ∨
   upgrade_state u = DEVMGR_UPGRADE_TRANSFER ∧
   upgrade_state (devmgr_upgrade_begin_recovery u).2 = DEVMGR_UPGRADE_RECOVER).
Proof.
  intros _. unfold devmgr_upgrade_begin_recovery. destruct (session_id u =? 0); [by auto|]. cbn [orb].
  destruct (upgrade_state u) eqn:E; try (by split; [|left]); cbn;
    (destruct (3 <=? recovery_attempts u); split; [done| |done|]; cbn; auto).
Qed.

Lemma stage_recover image version b s :
  stage image version DEVMGR_UPGRADE_TRANSFER b s → stage image version DEVMGR_UPGRADE_RECOVER b s.
Proof. by intros []. Qed.

Lemma stage_end image version b s st st' :
  st ∈ [DEVMGR_UPGRADE_TRANSFER; DEVMGR_UPGRADE_RECOVER] →
  st' ∈ [DEVMGR_UPGRADE_TRANSFER; DEVMGR_UPGRADE_END] →
  stage image version st b s → stage image version st' b s.
Proof.
  rewrite !elem_of_cons, !elem_of_nil. intros [->|[->|[]]] [->|[->|[]]] []; done.
Qed.

(** Steps that leave the upgrade where it is, or start a recovery. *)
Lemma job_fewer s s' :
  job_inv s →
  (upgrade_running (dr_upgrade (sy_driver s')) = true →
    upgrade_running (dr_upgrade (sy_driver s)) = true ∧
    image_crc (dr_upgrade (sy_driver s')) = image_crc (dr_upgrade (sy_driver s)) ∧
    (∀ image version, upgrade_ok image version (dr_upgrade (sy_driver s)) →
       upgrade_ok image version (dr_upgrade (sy_driver s'))) ∧
    (upgrade_state (dr_upgrade (sy_driver s')) = upgrade_state (dr_upgrade (sy_driver s)) ∨
     upgrade_state (dr_upgrade (sy_driver s)) = DEVMGR_UPGRADE_TRANSFER ∧
     upgrade_state (dr_upgrade (sy_driver s')) = DEVMGR_UPGRADE_RECOVER)) →
  (∀ x, x ∈ sy_in s' → x ∈ sy_in s) → (∀ x, x ∈ sy_out s' → x ∈ sy_out s) →
  (dr_pending (sy_driver s') ≠ None → dr_pending (sy_driver s) ≠ None) →
  sy_requests s' = sy_requests s → sy_device s' = sy_device s → sy_start s' = sy_start s →
  job_inv s'.
Proof.
  intros Hj Hu Hin Hout Hp Er Ed Es Hrun. destruct (Hu Hrun) as (Hrun0 & Hc & Hok & Hst).
  destruct (Hj Hrun0) as (image & version & Hu0 & Hc0 & Hsg). exists image, version.
  split; [by apply Hok|]. split; [congruence|]. intros Hne. destruct Hst as [E|[E E']].
  - rewrite E in *. destruct (Hsg Hne) as [b Hb]. exists b. by eapply stage_fewer.
  - rewrite E in Hsg. destruct (Hsg ltac:(done)) as [b Hb]. exists b. rewrite E'.
    apply stage_recover. by eapply stage_fewer.
Qed.

Lemma job_begin n0 s image version type payload d' :
  line_inv n0 s → job_inv s → dr_upgrade d' = dr_upgrade (sy_driver s) →
  upgrade_ok image version (dr_upgrade (sy_driver s)) →
  next_request image version (dr_upgrade (sy_driver s)) = Some (type, payload) →
  job_inv (s <| sy_driver := d' |>
             <| sy_requests := sy_requests s ++ [mk_wire type 0 (dr_next (sy_driver s)) payload] |>).
Proof.
  intros Hi Hj Eu Hu Hnr. unfold job_inv. cbn [sy_driver]. cbn. rewrite Eu. intros Hrun.
  destruct (Hj Hrun) as (image' & version' & Hu' & Hc & Hsg).
  destruct (upgrade_ok_unique _ _ _ _ _ Hu Hu') as [-> ->]. exists image, version.
  split; [done|]. split; [done|]. intros Hne. destruct (Hsg Hne) as [b Hb]. exists b.
  refine (stage_begin image version _ b s _ d' Hb _ _).
  - by eapply request_own.
  - intros x. by apply (line_sorted_lt n0 s).
Qed.

(** The host's own steps. *)
Lemma job_host s d' :
  job_inv s → driver_step (sy_driver s) [] d' → job_inv (s <| sy_driver := d' |>).
Proof.
  intros Hj Hd.
  apply driver_step_law in Hd; inversion Hd as [|image version Hu Hrun| | | | |Hrun|image version u Hrun Hu Hst Hcr|u [Hg _]];
    subst d'; cbn [dr_next dr_pending from_option].
  - apply (job_fewer s); try done. intros _. cbn. destruct (after_request_state image (dr_upgrade (sy_driver s))) as [E1 E2].
    split_and!; [done..| |by left]. intros im v Hok. destruct (upgrade_ok_unique _ _ _ _ _ Hu Hok) as [-> ->].
    by apply after_request_ok.
  - by apply (job_fewer s); auto.
  - apply (job_fewer s); try done. cbn. intros Hr. destruct (recovery_state _ Hrun) as [Ec Hst].
    split_and!; [done..|by intros; apply recovery_ok|]. destruct Hst as [|[E|]]; [by left| |by right].
    unfold upgrade_running in Hr. by rewrite E in Hr.
  - intros _. exists image, version. by split_and!.
  - apply (job_fewer s); try done. cbn. congruence.
Qed.

(** An answer the host takes. *)
Lemma job_receive n0 s i w rest d' :
  line_inv n0 s → Z.of_nat (length (sy_requests s)) ≤ 4294967295 → job_inv s →
  sy_in s = (i, w) :: rest → driver_step (sy_driver s) [Recv w] d' →
  job_inv (s <| sy_driver := d' |> <| sy_in := rest |> <| sy_start := start_after s d' |>).
Proof.
  intros Hi Hn Hj Hin Hd. apply driver_step_law in Hd; inversion Hd as [| | | | |q w' Hp Hw Hok| | |]; subst.
  destruct (pending_index n0 s i w rest q) as [Hq Hlen]; [done..|].
  destruct (upgrade_running (dr_upgrade (sy_driver s))) eqn:Hrun0;
    [|intros Hrun; cbn in Hrun; congruence].
  destruct (Hj Hrun0) as (image & version & Hu & Hc & Hsg). set (u := dr_upgrade (sy_driver s)) in *.
  unfold job_inv. cbn. intros Hrun. exists image, version.
  destruct (answer_moves u (w_type q) w) as [Ec [E|[Hr Hon]]].
  { unfold upgrade_running in Hrun. by rewrite E in Hrun. }
  split; [apply answer_ok; [done|by apply Hok]|]. split; [congruence|]. intros _.
  destruct (decide (upgrade_state u = DEVMGR_UPGRADE_ENTER_BOOTLOADER)) as [E|Hne].
  { unfold onward in Hon. rewrite E in Hon. rewrite Hon. exists i. by eapply stage_enter. }
  destruct (Hsg Hne) as [b Hb]. pose proof (sg_fresh _ _ _ _ _ Hb ltac:(congruence)) as Hfr.
  destruct (decide (upgrade_state u ∈ [DEVMGR_UPGRADE_TRANSFER; DEVMGR_UPGRADE_RECOVER])) as [Ht|Ht].
  - exists b. apply (stage_end _ _ _ _ (upgrade_state u)); [done| |].
    + unfold onward in Hon. rewrite !elem_of_cons, elem_of_nil in Ht. by destruct Ht as [E|[E|[]]]; rewrite E in Hon.
    + eapply stage_fewer; [exact Hb|..]; cbn; try done.
      * intros x Hx. rewrite Hin. by right.
      * unfold start_after. fold u. rewrite !elem_of_cons, elem_of_nil in Ht. by destruct Ht as [->|[->|[]]].
  - exists i. destruct (learns image version u q w (answer u (w_type q) w).2 (sy_start s)
      (device_slot (sy_device s))) as (He & Hk & Hre); [| | |done| |by eapply stage_enter].
    + apply (sg_own _ _ _ _ _ Hb i q); [lia|done].
    + apply Hb.
    + apply (sg_learnt _ _ _ _ _ Hb i w q); [rewrite Hin; by left|lia|done..].
    + rewrite !elem_of_cons, elem_of_nil in Ht. rewrite !elem_of_cons, elem_of_nil.
      intros [E|[E|[E|[E|[]]]]]; try (by auto).
      unfold onward in Hon. rewrite E in Hon. unfold upgrade_running in Hrun. by rewrite Hon in Hrun.
Qed.

Lemma job_step n0 s s' :
  is_u32 n0 → n0 ≠ 0 → line_inv n0 s → Z.of_nat (length (sy_requests s)) ≤ 4294967295 →
  job_inv s → sys_step s s' → job_inv s'.
Proof.
  intros Hn0 Hnz Hi Hn Hj Hstep. destruct Hstep as [d' Hd|q d' Hd|w d' Hd|i w out resp dev Ho Hdev|i w rest d' Hin Hd|
    i w rest Hin|l1 x l2 Ho|l1 x l2 Hin].
  - by apply job_host.
  - apply driver_step_law in Hd; inversion Hd as [type payload _ Hrun| |image version type payload Hp Hu Hnr| | | | | |]; subst;
      [intros E; cbn in E; by rewrite Hrun in E|by eapply job_begin].
  - apply driver_step_law in Hd; inversion Hd as [| | |w' Hp Hw| | | | |]; subst. intros Hrun.
    destruct (Hj Hrun) as (image & version & Hu & Hc & Hsg). exists image, version.
    split; [done|]. split; [done|]. intros Hne. destruct (Hsg Hne) as [b Hb]. exists b.
    by apply (stage_emit image version _ b s w Hb); rewrite Hp.
  - intros Hrun. destruct (Hj Hrun) as (image & version & Hu & Hc & Hsg). exists image, version.
    split; [done|]. split; [done|]. intros Hne. destruct (Hsg Hne) as [b Hb]. exists b.
    pose proof (upgrade_ok_facts _ _ _ Hu) as (? & ? & ?). by eapply stage_answer.
  - by eapply job_receive.
  - apply (job_fewer s); try done; [by auto|]. cbn. intros x Hx. rewrite Hin. by right.
  - apply (job_fewer s); try done; [by auto|]. cbn. intros y Hy. rewrite Ho. set_solver.
  - apply (job_fewer s); try done; [by auto|]. cbn. intros y Hy. rewrite Hin. set_solver.
Qed.

Lemma requests_grow s s' : sys_step s s' → (length (sy_requests s) ≤ length (sy_requests s'))%nat.
Proof.
  intros Hstep. destruct Hstep; cbn; rewrite ?length_app; lia.
Qed.

Lemma reachable_line s : sys_reachable s → ∃ n0, is_u32 n0 ∧ n0 ≠ 0 ∧ line_inv n0 s.
Proof.
  induction 1 as [s (Hp & Hr & Hn & Hnz & Ho & Hin & Hq & Hd)|s s' _ (n0 & Hn0 & Hnz & IH) Hstep].
  - exists (dr_next (sy_driver s)). split; [done|]. split; [done|].
    split; rewrite ?Ho, ?Hin, ?Hq; cbn; try done; [by rewrite nth_sequence_0|intros q E; congruence|constructor].
  - exists n0. split; [done|]. split; [done|by eapply line_step].
Qed.

Lemma reachable_inv s :
  sys_reachable s → Z.of_nat (length (sy_requests s)) ≤ 4294967295 →
  ∃ n0, is_u32 n0 ∧ n0 ≠ 0 ∧ line_inv n0 s ∧ job_inv s.
Proof.
  intros Hr Hlen. destruct (reachable_line s Hr) as (n0 & Hn0 & Hnz & Hl). exists n0. do 3 (split; [done|]).
  clear n0 Hn0 Hnz Hl. revert Hlen. induction Hr as [s (_ & Hrun & _)|s s' Hr IH Hstep]; intros Hlen.
  - intros E. by rewrite Hrun in E.
  - pose proof (requests_grow _ _ Hstep) as Hle. destruct (reachable_line s Hr) as (n0 & Hn0 & Hnz & Hl).
    eapply job_step; [exact Hn0|done|done|lia|apply IH; lia|done].
Qed.

(** Only the answer to the last request completes an upgrade. *)
Lemma completes s s' :
  sys_step s s' → upgrade_running (dr_upgrade (sy_driver s)) = true →
  upgrade_state (dr_upgrade (sy_driver s')) = DEVMGR_UPGRADE_COMPLETE →
  upgrade_state (dr_upgrade (sy_driver s)) = DEVMGR_UPGRADE_REBOOT ∧
  sy_device s' = sy_device s ∧ sy_start s' = sy_start s ∧
  ∀ image version, upgrade_ok image version (dr_upgrade (sy_driver s)) →
    upgrade_ok image version (dr_upgrade (sy_driver s')).
Proof.
  intros Hstep Hrun Hdone.
  assert (upgrade_state (dr_upgrade (sy_driver s)) ≠ DEVMGR_UPGRADE_COMPLETE) as Hno.
  { intros E. unfold upgrade_running in Hrun. by rewrite E in Hrun. }
  destruct Hstep as [d' Hd|q d' Hd|w d' Hd| |i w rest d' Hin Hd| | |]; try done.
  - apply driver_step_law in Hd; inversion Hd as [| | | | | |_|image version u Hr Hu Hst|u [_ Hg]]; subst; cbn in Hdone; try done.
    + by rewrite (proj1 (after_request_state _ _)) in Hdone.
    + destruct (recovery_state _ Hrun) as [_ [E|[E|[_ E]]]]; congruence.
    + congruence.
    + rewrite Hg in Hdone by done. done.
  - cbn in Hdone. destruct (begin_step _ _ _ Hd) as (_ & _ & _ & Eu). congruence.
  - apply driver_step_law in Hd; inversion Hd; subst. done.
  - apply driver_step_law in Hd; inversion Hd as [| | | | |q w' Hp Hw Hok| | |]; subst. cbn in Hdone |- *. rewrite Hrun in Hdone |- *. unfold start_after.
    destruct (answer_moves (dr_upgrade (sy_driver s)) (w_type q) w) as [_ [E|[_ Hon]]]; [congruence|].
    assert (∀ image version, upgrade_ok image version (dr_upgrade (sy_driver s)) →
      upgrade_ok image version (answer (dr_upgrade (sy_driver s)) (w_type q) w).2) as Hu.
    { intros. apply answer_ok; [done|apply Hok]. }
    unfold onward in Hon. rewrite Hdone in Hon. destruct (upgrade_state (dr_upgrade (sy_driver s))); set_solver.
Qed.

(** What is known when the last answer arrives. *)
Lemma completed_upgrade s s' :
  sys_reachable s → sys_step s s' → Z.of_nat (length (sy_requests s)) ≤ 4294967295 →
  upgrade_running (dr_upgrade (sy_driver s)) = true →
  upgrade_state (dr_upgrade (sy_driver s')) = DEVMGR_UPGRADE_COMPLETE →
  ∃ image version, upgrade_ok image version (dr_upgrade (sy_driver s)) ∧
    upgrade_ok image version (dr_upgrade (sy_driver s')) ∧
    let sl := device_slot (sy_device s') in
    slot_running sl = version ∧ len (slot_flash sl) = len image ∧
    crc_of (slot_flash sl) = crc_of image ∧ (sy_start s' = 0 → slot_flash sl = image).
Proof.
  intros Hreach Hstep Hlen Hrun Hdone. destruct (reachable_inv s Hreach Hlen) as (n0 & Hn0 & Hnz & Hi & Hj).
  destruct (Hj Hrun) as (image & version & Hu & Hc & Hsg). exists image, version. split; [done|].
  destruct (completes s s') as (Er & Ed & Es & Hok); [done..|]. split; [by apply Hok|].
  rewrite Er in Hsg. destruct (Hsg ltac:(done)) as [b Hb].
  destruct (sg_known _ _ _ _ _ Hb) as ((_ & _ & _ & Hl) & Hcp & Hcr & Hv).
  cbv zeta. rewrite Ed, Es. by split_and!.
Qed.

(** C2: the upgrade's code against a device that keeps the update contract.  The
    host builds its requests with devmgr_upgrade_build_request and hands the
    answers to devmgr_upgrade_accept_response, over a line that may lose frames
    either way, with retransmissions, recoveries, other requests and answers of
    earlier requests in between.  When that leaves the upgrade complete, and no
    more than 2^32 - 1 requests were begun, the device runs the version that was
    asked for, its flash has the size of the image and its checksum, and it is
    the image byte for byte if the device let the transfer start at offset 0. *)
Theorem upgrade_end_to_end s s' :
  sys_reachable s → sys_step s s' → Z.of_nat (length (sy_requests s)) ≤ 4294967295 →
  upgrade_running (dr_upgrade (sy_driver s)) = true →
  upgrade_state (dr_upgrade (sy_driver s')) = DEVMGR_UPGRADE_COMPLETE →
  ∃ image version, upgrade_ok image version (dr_upgrade (sy_driver s)) ∧
    let sl := device_slot (sy_device s') in
    slot_running sl = version ∧ len (slot_flash sl) = len image ∧
    crc_of (slot_flash sl) = crc_of image ∧ (sy_start s' = 0 → slot_flash sl = image).
Proof.
  intros Hr Hs Hn Hu Hd. destruct (completed_upgrade s s') as (image & version & Hok & _ & H); [done..|].
  by exists image, version.
Qed.
End EndToEnd.

(** ** A run with the simulator *)

Notation sim_system := (@system simulator_state).

Section Run.
Context (image version : list Z) (env : frame_env) (Henv : frame_env_ok env).

(** The simulator's answer to [w]. *)
Definition sim_answer (dev : simulator_state) (w : wire_frame) : option (wire_frame * simulator_state) :=
  let f := request_frame (w_type w) (w_flags w) (w_sequence w) (w_payload w) in
  '(dev1, r) ← handle_request (dev <| rx_frames := u64 (rx_frames dev + 1) |>) f env;
  '(_, dev', _) ← write_frame dev1 r (response_env env);
  Some (view r, dev').

Lemma sim_answer_step dev w resp dev' :
  wire_ok w → sim_answer dev w = Some (resp, dev') → sim_device_step dev w resp dev'.
Proof.
  intros (? & ? & ? & ? & ?) E. unfold sim_answer in E. cbv zeta in E. destruct w as [type flags seq payload].
  cbn in *. destruct (handle_request _ _ _) as [[dev1 r]|] eqn:E1; [|done]. cbn in E.
  destruct (write_frame _ _ _) as [[[result dev2] sent]|] eqn:E2; [|done]. cbn in E. simplify_eq.
  exists (request_frame type flags seq payload), env, dev1, r, result, sent.
  rewrite view_request_frame by done. split_and!; try done; [by apply request_frame_ok].
Qed.

(** The upgrade's next request, up to the answer and with it. *)
Definition ask (s : sim_system) : option sim_system :=
  let u := dr_upgrade (sy_driver s) in let n := dr_next (sy_driver s) in
  '(type, payload) ← next_request image version u;
  let q := mk_wire type 0 n payload in
  '(resp, dev) ← sim_answer (sy_device s) q;
  Some (mk_system (mk_driver (Some q) (succ_sequence n) (after_request image u)) dev []
          [(length (sy_requests s), resp)] (sy_requests s ++ [q]) (sy_start s)).

Definition hear (s : sim_system) : option sim_system :=
  match sy_in s, dr_pending (sy_driver s) with
  | [(_, w)], Some q =>
      let d := mk_driver None (dr_next (sy_driver s)) (answer (dr_upgrade (sy_driver s)) (w_type q) w).2 in
      if w_sequence w =? w_sequence q
      then Some (s <| sy_driver := d |> <| sy_in := [] |> <| sy_start := start_after s d |>) else None
  | _, _ => None
  end.

(** Between two requests. *)
Definition idle (s : sim_system) : Prop :=
  sys_reachable s ∧ dr_pending (sy_driver s) = None ∧ sy_out s = [] ∧ sy_in s = [] ∧
  upgrade_ok image version (dr_upgrade (sy_driver s)).

Lemma ask_ok (s s' : sim_system) :
  idle s → (length (sy_requests s) ≤ 100)%nat → ask s = Some s' →
  sys_reachable s' ∧ upgrade_ok image version (dr_upgrade (sy_driver s')) ∧ sy_out s' = [] ∧
  length (sy_requests s') = S (length (sy_requests s)) ∧ upgrade_running (dr_upgrade (sy_driver s')) = true.
Proof.
  intros (Hr & Hp & Ho & Hi & Hu) Hlen E.
  assert (is_u32 (dr_next (sy_driver s)) ∧ dr_next (sy_driver s) ≠ 0) as [Hn Hnz].
  { destruct (reachable_inv s Hr ltac:(lia)) as (n0 & _ & _ & Hli & _). rewrite (li_next _ _ Hli).
    unfold nth_sequence, is_u32. mlia. }
  unfold ask in E. destruct s as [[pe n0 u] dev out inn reqs start].
  cbn in *. subst. destruct (next_request image version u) as [[type payload]|] eqn:Hnr; [|done]. cbn in E.
  set (q := mk_wire type 0 n0 payload) in *.
  destruct (sim_answer dev q) as [[resp dev']|] eqn:Ha; [|done]. cbn in E. simplify_eq. cbn.
  destruct (request_payload_ok image version u type payload Hu Hnr) as (Ht & Hpl & Hlp).
  assert (wire_ok q) as Hq by by split_and!.
  assert (upgrade_running u = true) as Hrun by (unfold next_request, upgrade_running in *; by destruct (upgrade_state u)).
  split; [|split; [by apply after_request_ok|]; split; [done|]; split; [rewrite length_app; cbn; lia|]].
  2: { unfold upgrade_running in *. by rewrite (proj1 (after_request_state _ _)). }
  assert (sys_reachable (mk_system (mk_driver (Some q) (succ_sequence n0) u) dev [] [] (reqs ++ [q]) start)) as H1.
  { eapply sys_step_ok; [exact Hr|].
    pose proof (driver_begins (mk_driver None n0 u) image version type payload eq_refl Hu Hnr) as Hd.
    exact (sys_begin (mk_system (mk_driver None n0 u) dev [] [] reqs start) _ _ Hd). }
  eapply sys_step_ok in H1; [|eapply sys_host, (driver_builds _ image version); done].
  eapply sys_step_ok in H1; [|apply (sys_emit _ q); by constructor].
  eapply sys_step_ok in H1; [|eapply sys_answer; [done|by apply sim_answer_step]].
  cbn in H1. rewrite length_app, Nat.add_1_r in H1. exact H1.
Qed.

Lemma hear_step (s s' : sim_system) :
  sys_reachable s → (length (sy_requests s) ≤ 100)%nat → upgrade_running (dr_upgrade (sy_driver s)) = true →
  hear s = Some s' → sys_step s s'.
Proof.
  intros Hr Hlen Hrun E. destruct (reachable_inv s Hr ltac:(lia)) as (n0 & _ & _ & Hi & _).
  pose proof (li_in _ _ Hi) as Hw. unfold hear in E. destruct (sy_in s) as [|[i w] [|]] eqn:Ei; [done| |done].
  destruct (dr_pending (sy_driver s)) as [q|] eqn:Ep; [|done].
  destruct (Z.eqb_spec (w_sequence w) (w_sequence q)) as [Hq|]; [|done]. simplify_eq.
  eapply (sys_receive s i w []); [done|].
  apply Forall_cons in Hw as [[Hw _] _].
  pose proof (driver_recvs (sy_driver s) q (fill zero_frame w) Ep) as Hd. rewrite view_fill, Hrun in Hd.
  apply Hd; [by apply fill_ok, frame_ok_array, zero_frame_ok|done].
Qed.

(** One exchange, and the next ones while the upgrade runs. *)
Fixpoint turns (n : nat) (s : sim_system) : option sim_system :=
  match n with
  | O => Some s
  | S n => s1 ← ask s; s2 ← hear s1; turns n s2
  end.

Lemma turns_ok n (s s' : sim_system) :
  idle s → (length (sy_requests s) + n ≤ 100)%nat → turns n s = Some s' →
  idle s' ∧ length (sy_requests s') = (length (sy_requests s) + n)%nat.
Proof.
  revert s. induction n as [|n IH]; intros s Hid Hlen E; cbn in E; [simplify_eq; split; [done|lia]|].
  destruct (ask s) as [s1|] eqn:E1; [|done]. cbn in E. destruct (hear s1) as [s2|] eqn:E2; [|done]. cbn in E.
  destruct (ask_ok s s1) as (Hr & Hu & Ho & Hl & Hrun); [done|lia|done|].
  assert (sy_requests s2 = sy_requests s1) as Eq.
  { unfold hear in E2. destruct (sy_in s1) as [|[i w] [|]]; [done| |done].
    destruct (dr_pending (sy_driver s1)); [|done]. destruct (_ =? _); [|done]. by simplify_eq. }
  replace (length (sy_requests s) + S n)%nat with (length (sy_requests s2) + n)%nat by (rewrite Eq; lia).
  apply IH; [|rewrite Eq; lia|exact E].
  - pose proof (hear_step s1 s2 Hr ltac:(lia) Hrun E2) as Hstep. split; [by eapply sys_step_ok|].
    pose proof (reachable_inv s1 Hr ltac:(lia)) as (n0 & _ & _ & Hi & _). pose proof (li_in _ _ Hi) as Hw.
    unfold hear in E2. destruct (sy_in s1) as [|[i w] [|]] eqn:Ei; [done| |done].
    destruct (dr_pending (sy_driver s1)) as [q|] eqn:Ep; [|done]. destruct (_ =? _); [|done]. simplify_eq. cbn.
    split_and!; try done. apply answer_ok; [done|]. apply Forall_cons in Hw as [[(_ & _ & _ & ? & _) _] _]. done.
Qed.
End Run.

(** The upgrade of three bytes to version "2". *)
Definition run_env : frame_env :=
  mk_frame_env 0 (λ n, if n <? 0 then None else Some (zeros n)) (response_env slow_env).

Lemma run_env_ok : frame_env_ok run_env.
Proof.
  split; [|apply slow_env_ok]. intros n b Hb. cbn in Hb. destruct (Z.ltb_spec n 0); simplify_eq.
  split; [by apply len_zeros|auto with devmgr].
Qed.

Definition run_start : sim_system :=
  mk_system (mk_driver None 1 small_start) fresh_simulator [] [] [] 0.

Lemma run_start_idle : idle small_image small_version run_start.
Proof.
  assert (sys_reachable (run_start <| sy_driver := mk_driver None 1 devmgr_upgrade_init |>)) as H.
  { apply sys_start_ok. do 7 (split; [done|]). apply fresh_simulator_ok. }
  split; [|by do 3 (split; [done|]); apply small_start_ok].
  eapply sys_step_ok; [exact H|].
  refine (sys_host (run_start <| sy_driver := mk_driver None 1 devmgr_upgrade_init |>)
    (mk_driver None 1 small_start) (driver_start _ small_image (small_version ++ [0]) small_version
      DEVMGR_UPGRADE_DEFAULT_CHUNK small_start _ _ _ _ _ _)); try done.
  - apply small_image_Forall.
  - exists []. split; [done|]. by repeat constructor.
  - apply small_version_Forall.
Qed.

Lemma run_result :
  ∃ s0 s s', turns small_image small_version run_env 6 run_start = Some s0 ∧
    ask small_image small_version run_env s0 = Some s ∧ hear s = Some s' ∧
    upgrade_state (dr_upgrade (sy_driver s')) = DEVMGR_UPGRADE_COMPLETE ∧ sy_start s' = 0.
Proof. do 3 eexists. split; [vm_compute; reflexivity|]. by split; [vm_compute; reflexivity|]. Qed.

Lemma upgrade_end_to_end_witness :
  ∃ s' : sim_system, upgrade_state (dr_upgrade (sy_driver s')) = DEVMGR_UPGRADE_COMPLETE ∧
    slot_running (device_slot (sy_device s')) = small_version ∧
    slot_flash (device_slot (sy_device s')) = small_image.
Proof.
  destruct run_result as (s0 & s & s' & E0 & E1 & E2 & Hdone & Hst). exists s'. split; [done|].
  destruct (turns_ok _ _ _ run_env_ok 6 run_start s0 run_start_idle ltac:(cbn; lia) E0) as [Hid Hlen].
  destruct (ask_ok _ _ _ run_env_ok s0 s Hid ltac:(rewrite Hlen; cbn; lia) E1) as (Hr & Hu & _ & Hl & Hrun).
  destruct (upgrade_end_to_end s s' Hr) as (image & version & Hu' & Hv & _ & _ & Hf).
  - apply hear_step; [done|rewrite Hl, Hlen; cbn; lia|done..].
  - rewrite Hl, Hlen. cbn. lia.
  - done.
  - done.
  - destruct (upgrade_ok_unique _ _ _ _ _ Hu Hu') as [-> ->]. split; [done|by apply Hf].
Defined.
