(* ===== verification/Deployment.v ===== *)
(** * The daemon and a device

    The event loop of [DaemonRun] on one end of a line and a device that keeps the
    contract of [Device] on the other.  The frames the daemon queues travel to the
    device, its answers travel back, and either may be lost; what the daemon's parser
    delivers under a sequence number comes from the line, in order.  Such a run is a
    run of [System], so what holds there holds of the daemon itself. *)

From stdpp Require Import gmap.
From S2P Require Import Prelude Crc32 Frame Session Ipc Upgrade Driver Device Os Firmware Worker Daemon DaemonSafety DaemonRun Simulator System.

Section Deployment.
Context {D : Type} `{!UpdateDevice D}.
Context (config : devmgr_daemon_config) (env : setup_env) (k : kernel) (Hsetup : setup_ok config env k).

(** [j_out] and [j_in] are under way to the device and back, oldest first. *)
Record joint := mk_joint {
  j_phase : daemon_phase;
  j_daemon : daemon;
  j_device : D;
  j_out : list wire_frame;
  j_in : list wire_frame;
}.

(** Telemetry has the sequence number 0 and answers nothing. *)
Definition solicited (w : wire_frame) : Prop := w_sequence w ≠ 0.

#[export] Instance solicited_dec w : Decision (solicited w).
Proof. unfold solicited. apply _. Defined.

Inductive joint_step (j : joint) : joint → Prop :=
  | joint_daemon phase d sent heard arrived rest :
      daemon_step (j_phase j, j_daemon j) (phase, d) → in_loop phase = true →
      k_frames (kern d) = k_frames (kern (j_daemon j)) ++ sent →
      k_heard (kern d) = k_heard (kern (j_daemon j)) ++ heard →
      j_in j = arrived ++ rest → filter solicited heard `sublist_of` arrived →
      joint_step j (mk_joint phase d (j_device j) (j_out j ++ sent) rest)
  | joint_device w out resp dev :
      j_out j = w :: out → device_step (j_device j) w resp dev →
      joint_step j (mk_joint (j_phase j) (j_daemon j) dev out (j_in j ++ [resp]))
  | joint_lose l1 w l2 :
      j_out j = l1 ++ w :: l2 →
      joint_step j (mk_joint (j_phase j) (j_daemon j) (j_device j) (l1 ++ l2) (j_in j)).

Inductive joint_reachable : joint → Prop :=
  | joint_booted unset d dev :
      daemon_boot config env unset (blank_context config k) = Some (DEVMGR_OK, d) → device_ok dev →
      joint_reachable (mk_joint (Looping DEVMGR_OK) d dev (k_frames (kern d)) [])
  | joint_stepped j j' : joint_reachable j → joint_step j j' → joint_reachable j'.

(** ** A run of the daemon is a run of the system *)

(** Steps that the device takes no part in. *)
Definition host_step (s s' : system) : Prop := sys_step s s' ∧ sy_device s' = sy_device s.

Lemma host_reachable s s' : sys_reachable s → rtc host_step s s' → sys_reachable s' ∧ sy_device s' = sy_device s.
Proof.
  intros Hr. induction 1 as [|s1 s2 s3 [Hs Hd] _ IH]; [done|]. rewrite <- Hd. apply IH. by eapply sys_step_ok.
Qed.

(** Frames that arrive and are not taken. *)
Lemma skip_in s (l1 l2 : list wire_frame) :
  map snd (sy_in s) = l1 ++ l2 →
  ∃ items, map snd items = l2 ∧ rtc host_step s (s <| sy_in := items |>).
Proof.
  revert s. induction l1 as [|w l1 IH]; intros s E.
  - exists (sy_in s). split; [done|]. replace (s <| sy_in := sy_in s |>) with s by by destruct s. done.
  - destruct (sy_in s) as [|[i w'] items] eqn:Ei; [done|]. cbn in E. injection E as -> E.
    set (s1 := s <| sy_in := items |>). destruct (IH s1 E) as (items' & Hi & Hr). exists items'. split; [done|].
    eapply rtc_l; [|exact Hr]. split; [by eapply sys_ignore|done].
Qed.

(** The frames a run of the driver takes are on the line. *)
Lemma pending_solicited s q : sys_reachable s → dr_pending (sy_driver s) = Some q → w_sequence q ≠ 0.
Proof.
  intros (n0 & Hn0 & Hnz & Hi)%reachable_line Hp. apply (li_pending _ _ Hi) in Hp.
  rewrite last_lookup in Hp. rewrite (li_sequences _ _ Hi _ _ Hp). unfold nth_sequence. mlia.
Qed.

Lemma filter_sublist_mono (l l' : list wire_frame) :
  l `sublist_of` l' → filter solicited l `sublist_of` filter solicited l'.
Proof.
  induction 1 as [|x l l' _ IH|x l l' _ IH]; [done| |]; rewrite ?filter_cons; case_decide;
    [by constructor|done|by constructor|done].
Qed.

(** What a run of the driver does to the system. *)
Definition simulates (s s' : system) (ls : list label) (d' : driver) : Prop :=
  rtc host_step s s' ∧ sy_driver s' = d' ∧
  map snd (sy_out s') = map snd (sy_out s) ++ omap emits ls ∧
  sy_requests s' = sy_requests s ++ omap begins ls.

Lemma simulates_step s s' ls d' :
  sys_step s s' → sy_device s' = sy_device s → sy_driver s' = d' →
  map snd (sy_out s') = map snd (sy_out s) ++ omap emits ls →
  sy_requests s' = sy_requests s ++ omap begins ls → simulates s s' ls d'.
Proof. intros Hs Hd. split; [|done]. by apply rtc_once. Qed.

Lemma step_simulates d ls d' s rest :
  driver_step d ls d' → sys_reachable s → sy_driver s = d →
  map snd (sy_in s) = omap receives ls ++ rest → ∃ s', simulates s s' ls d' ∧ map snd (sy_in s') = rest.
Proof.
  intros Hd Hr <- Ein.
  assert (ls = [] ∨ (∃ q, ls = [Begin q]) ∨ (∃ w, ls = [Emit w]) ∨ ∃ w, ls = [Recv w]) as Hls
    by (destruct Hd; eauto 10).
  destruct Hls as [->|[(q & ->)|[(w & ->)|(w & ->)]]]; cbn in Ein.
  - exists (s <| sy_driver := d' |>). split; [|done].
    apply simulates_step; [by apply sys_host|done..| |]; cbn; by rewrite app_nil_r.
  - exists (s <| sy_driver := d' |> <| sy_requests := sy_requests s ++ [q] |>). split; [|done].
    apply simulates_step; [by apply sys_begin|done|done|cbn; by rewrite app_nil_r|done].
  - eexists. split; [apply simulates_step; [by apply (sys_emit s w d')|done..| |]|done]; cbn;
      [by rewrite map_app|by rewrite app_nil_r].
  - destruct (sy_in s) as [|[i w'] items] eqn:Ei; [done|]. cbn in Ein. injection Ein as -> Ein.
    eexists. split; [apply simulates_step; [by eapply (sys_receive s i w items d')|done..| |]|done]; cbn; by rewrite app_nil_r.
Qed.

Lemma run_simulates d ls d' s arrived rest :
  driver_run d ls d' → sys_reachable s → sy_driver s = d → map snd (sy_in s) = arrived ++ rest →
  filter solicited (omap receives ls) `sublist_of` arrived →
  ∃ s', simulates s s' ls d' ∧ map snd (sy_in s') = rest.
Proof.
  intros Hrun. revert s arrived. induction Hrun as [d|d ls d1 ls' d2 Hstep _ IH]; intros s arrived Hr Ed Ein Hsub.
  - destruct (skip_in s arrived rest Ein) as (items & Hi & Hs). exists (s <| sy_in := items |>). split; [|done].
    split; [done|]. split; [done|]. cbn. by rewrite !app_nil_r.
  - rewrite omap_app, filter_app in Hsub.
    assert (∃ l1 l2, arrived = l1 ++ omap receives ls ++ l2 ∧ filter solicited (omap receives ls') `sublist_of` l2)
      as (l1 & l2 & Ea & Hsub').
    { pose proof Hstep as Hlaw. apply driver_step_law in Hlaw.
      destruct Hlaw as [| | | | |q w Hp Hw Hok| | |]; cbn in Hsub |- *; try (by exists [], arrived).
      subst d. rewrite decide_True in Hsub.
      - apply sublist_cons_l in Hsub as (k1 & k2 & -> & Hsub). by exists k1, k2.
      - unfold solicited. rewrite Hw. by apply (pending_solicited s). }
    rewrite Ea, <- (assoc_L (++)) in Ein. destruct (skip_in s _ _ Ein) as (items & Hi & Hs).
    destruct (host_reachable _ _ Hr Hs) as [Hr1 _]. set (s1 := s <| sy_in := items |>) in *.
    rewrite <- (assoc_L (++)) in Hi.
    destruct (step_simulates d ls d1 s1 (l2 ++ rest) Hstep Hr1 Ed Hi) as (s2 & (R2 & E2 & O2 & Q2) & I2).
    destruct (host_reachable _ _ Hr1 R2) as [Hr2 _].
    destruct (IH s2 l2 Hr2 E2 I2 Hsub') as (s3 & (R3 & E3 & O3 & Q3) & I3).
    exists s3. split; [|done]. split; [by etrans; [exact Hs|etrans]|]. split; [done|].
    rewrite O3, O2, Q3, Q2, !omap_app, !(assoc_L (++)). done.
Qed.

(** ** The simulation *)

Record mirrors (j : joint) (s : system) : Prop := {
  mi_reachable : sys_reachable s;
  mi_daemon : phase_ok (j_phase j, j_daemon j);
  mi_driver : sy_driver s = driver_of (j_daemon j);
  mi_device : sy_device s = j_device j;
  mi_out : map snd (sy_out s) = j_out j;
  mi_in : map snd (sy_in s) = j_in j;
  mi_requests : sy_requests s = map strip (k_requests (kern (j_daemon j)));
}.

(** A step of the daemon, with what it queued and what was delivered. *)
Lemma daemon_mirrored j s phase d sent heard arrived rest :
  mirrors j s → daemon_step (j_phase j, j_daemon j) (phase, d) → in_loop phase = true →
  k_frames (kern d) = k_frames (kern (j_daemon j)) ++ sent →
  k_heard (kern d) = k_heard (kern (j_daemon j)) ++ heard →
  j_in j = arrived ++ rest → filter solicited heard `sublist_of` arrived →
  ∃ s', mirrors (mk_joint phase d (j_device j) (j_out j ++ sent) rest) s' ∧ rtc host_step s s'.
Proof.
  intros Hm Hstep Hin Hf Hh Ein Hsub. pose proof (mi_daemon _ _ Hm) as Hd.
  destruct (loop_drives _ _ _ _ Hd Hstep Hin) as (ls & fs & Hrun & Hf' & Hq & Hh' & Hfs).
  rewrite Hf in Hf'. rewrite Hh in Hh'. apply app_inv_head in Hf', Hh'. subst sent fs.
  destruct (run_simulates _ _ _ s arrived rest Hrun) as (s' & (Hr & Ed & Eo & Eq) & Ei).
  - apply Hm.
  - apply Hm.
  - rewrite (mi_in _ _ Hm). done.
  - etrans; [|exact Hsub]. by apply filter_sublist_mono.
  - destruct (host_reachable s s' (mi_reachable _ _ Hm) Hr) as [Hr' Edev]. exists s'. split; [|done]. split; cbn; try done.
    + exact (phase_step _ _ Hd Hstep).
    + by rewrite Edev, (mi_device _ _ Hm).
    + by rewrite Eo, (mi_out _ _ Hm).
    + by rewrite Eq, (mi_requests _ _ Hm), Hq.
Qed.

Lemma joint_mirrored j j' s :
  mirrors j s → joint_step j j' → ∃ s', mirrors j' s' ∧ rtc sys_step s s'.
Proof.
  intros Hm Hstep. destruct Hstep as [phase d sent heard arrived rest Hd Hin Hf Hh Ein Hsub|w out resp dev Eo Hdev|l1 w l2 Eo].
  - destruct (daemon_mirrored j s phase d sent heard arrived rest) as (s' & Hm' & Hr); [done..|].
    exists s'. split; [done|]. eapply rtc_subrel; [|exact Hr]. by intros ?? [].
  - pose proof (mi_out _ _ Hm) as E. rewrite Eo in E. destruct (sy_out s) as [|[i w'] items] eqn:Es; [done|].
    cbn in E. injection E as -> E. rewrite <- (mi_device _ _ Hm) in Hdev.
    pose proof (sys_answer s i w items resp dev Es Hdev) as Hs.
    eexists. split; [|by apply rtc_once]. destruct Hm as [Hr ? ? ? ? Hi ?].
    split; cbn; try done; [by eapply sys_step_ok|]. by rewrite map_app, Hi.
  - pose proof (mi_out _ _ Hm) as E. rewrite Eo in E. apply map_eq_app in E as (k1 & k2 & E & E1 & E2).
    destruct k2 as [|x k2]; [done|]. cbn in E2. injection E2 as _ E2.
    pose proof (sys_lose_out s k1 x k2 E) as Hs. eexists. split; [|by apply rtc_once].
    destruct Hm as [Hr ? ? ? ? ? ?]. split; cbn; try done; [by eapply sys_step_ok|]. by rewrite map_app, E1, E2.
Qed.

Lemma boot_mirrored unset d dev :
  daemon_boot config env unset (blank_context config k) = Some (DEVMGR_OK, d) → device_ok dev →
  ∃ s, mirrors (mk_joint (Looping DEVMGR_OK) d dev (k_frames (kern d)) []) s.
Proof.
  intros E Hdev. destruct (wp_elim _ _ _ _ _ (boot_ok config env k unset Hsetup) E) as [Hp H].
  destruct (H eq_refl) as (_ & d0 & E0 & T0 & ms & Hn & Ht & Hrun). rewrite E0 in Hrun. cbn [app] in Hrun.
  rewrite T0 in Ht.
  set (s0 := mk_system (mk_driver None 1 devmgr_upgrade_init) dev [] [] [] 0).
  assert (sys_reachable s0) as Hr by by apply sys_start_ok.
  destruct (run_simulates _ _ _ s0 [] [] Hrun Hr) as (s & (Hs & Ed & Eo & Eq) & Ei); [done|done|by rewrite Hn|].
  destruct (host_reachable s0 s Hr Hs) as [Hr' Edev]. injection Ht as Hf _ Hq. cbn in Hf, Hq, Eo, Eq.
  exists s. split; cbn; try done; congruence.
Qed.

Lemma reachable_mirrored j : joint_reachable j → ∃ s, mirrors j s.
Proof.
  induction 1 as [unset d dev E Hdev|j j' _ (s & Hm) Hstep]; [by eapply boot_mirrored|].
  destruct (joint_mirrored j j' s Hm Hstep) as (s' & Hm' & _). by exists s'.
Qed.

(** ** Upgrades *)

(** Once an upgrade that was running is complete, it stays as it is until the device
    acts again. *)
Lemma still_complete s s' :
  sys_step s s' → upgrade_running (dr_upgrade (sy_driver s)) = false →
  upgrade_state (dr_upgrade (sy_driver s')) = DEVMGR_UPGRADE_COMPLETE →
  dr_upgrade (sy_driver s') = dr_upgrade (sy_driver s).
Proof.
  intros Hstep Hrun Hdone. destruct Hstep as [d' Hd|q d' Hd|w d' Hd| |i w rest d' Hin Hd| | |]; try done.
  - apply driver_step_law in Hd; inversion Hd as [|? ? ? Hr| | | | |Hr|? ? u _ _ Hst|u [_ Hg]]; subst; cbn in Hdone |- *; try congruence; try done.
    by apply Hg.
  - by destruct (begin_step _ _ _ Hd) as (_ & _ & _ & E).
  - by apply driver_step_law in Hd; inversion Hd; subst.
  - apply driver_step_law in Hd; inversion Hd; subst. cbn. by rewrite Hrun.
Qed.

Lemma host_completes s s' :
  sys_reachable s → rtc host_step s s' → Z.of_nat (length (sy_requests s')) ≤ 4294967295 →
  upgrade_running (dr_upgrade (sy_driver s)) = true →
  upgrade_state (dr_upgrade (sy_driver s')) = DEVMGR_UPGRADE_COMPLETE →
  ∃ image version, upgrade_ok image version (dr_upgrade (sy_driver s')) ∧
    let sl := device_slot (sy_device s') in
    slot_running sl = version ∧ len (slot_flash sl) = len image ∧ crc_of (slot_flash sl) = crc_of image.
Proof.
  intros Hr Hrtc. revert s' Hrtc. refine (rtc_ind_r _ s _ _);
    [|intros s1 s2 Hrtc [Hstep Hdev] IH]; intros Hlen Hrun Hdone.
  - unfold upgrade_running in Hrun. by rewrite Hdone in Hrun.
  - pose proof (requests_grow _ _ Hstep) as Hg. destruct (host_reachable _ _ Hr Hrtc) as [Hr1 _].
    destruct (upgrade_running (dr_upgrade (sy_driver s1))) eqn:Hrun1.
    + destruct (completed_upgrade s1 s2) as (image & version & _ & Hu & Hv & Hl & Hc & _); [done|done|lia|done|done|].
      by exists image, version.
    + pose proof (still_complete _ _ Hstep Hrun1 Hdone) as E. rewrite Hdev, E in *. apply IH; [lia|done..].
Qed.

(** C1: the daemon upgrades the device.  The event loop with everything it does, on a
    line that loses frames, and any device that keeps the update contract: when a step
    of the daemon ends a running upgrade as complete, the device runs the requested
    version, and its flash has the size and the checksum of the image.  (Up to the
    2^32 - 1 requests after which sequence numbers come round.) *)
Theorem daemon_upgrades_device j j' :
  joint_reachable j → joint_step j j' →
  Z.of_nat (length (k_requests (kern (j_daemon j')))) ≤ 4294967295 →
  upgrade_running (upgrade (j_daemon j)) = true →
  upgrade_state (upgrade (j_daemon j')) = DEVMGR_UPGRADE_COMPLETE →
  ∃ image version, upgrade_ok image version (upgrade (j_daemon j')) ∧
    let sl := device_slot (j_device j') in
    slot_running sl = version ∧ len (slot_flash sl) = len image ∧ crc_of (slot_flash sl) = crc_of image.
Proof.
  intros (s & Hm)%reachable_mirrored Hstep Hlen Hrun Hdone.
  assert (upgrade (j_daemon j) ≠ upgrade (j_daemon j')) as Hne.
  { intros E. unfold upgrade_running in Hrun. by rewrite E, Hdone in Hrun. }
  destruct Hstep as [phase d sent heard arrived rest Hd Hin Hf Hh Ein Hsub| |]; [|done..].
  destruct (daemon_mirrored j s phase d sent heard arrived rest) as (s' & Hm' & Hr); [done..|].
  pose proof (mi_driver _ _ Hm) as Ed. pose proof (mi_driver _ _ Hm') as Ed'.
  destruct (host_completes s s') as (image & version & Hu & H); [apply Hm|done| |by rewrite Ed|by rewrite Ed'|].
  - rewrite (mi_requests _ _ Hm'), length_map. done.
  - exists image, version. rewrite Ed', (mi_device _ _ Hm') in *. done.
Qed.
End Deployment.

(** ** An upgrade of the simulated device *)

(** What happens next: an event or the worker, the daemon reads all that arrived, or
    the device answers the oldest frame. *)
Inductive scene := Host (c : cue) | Listen | Answer.

Definition sim_joint := @joint simulator_state.

Definition arrival (inn : list wire_frame) : cue := At 5 EPOLLIN [] (concat (map encode_wire inn)).

(** The frames queued, and the frames delivered, between two states. *)
Definition sent_since (d d' : daemon) : list wire_frame := drop (length (k_frames (kern d))) (k_frames (kern d')).
Definition heard_since (d d' : daemon) : list wire_frame := drop (length (k_heard (kern d))) (k_heard (kern d')).

(** One act of the daemon that is given the frames [arrived]. *)
Definition daemon_scene (c : cue) (arrived : list wire_frame) (d : daemon) : option (daemon * list wire_frame) :=
  '(result, d') ← play [cue_act c] d;
  if (result =? DEVMGR_OK) && cue_ok c && bool_decide (heard_since d d' = arrived)
  then Some (d', sent_since d d') else None.

Definition joint_scene (sc : scene) (j : sim_joint) : option sim_joint :=
  let at_rest d sim out inn := Some (mk_joint (Looping DEVMGR_OK) d sim out inn) in
  match sc with
  | Host c =>
      '(d, sent) ← daemon_scene c [] (j_daemon j); at_rest d (j_device j) (j_out j ++ sent) (j_in j)
  | Listen =>
      '(d, sent) ← daemon_scene (arrival (j_in j)) (j_in j) (j_daemon j);
      at_rest d (j_device j) (j_out j ++ sent) []
  | Answer =>
      match j_out j with
      | [] => None
      | w :: out =>
          '(resp, sim) ← sim_answer run_env (j_device j) w;
          at_rest (j_daemon j) sim out (j_in j ++ [resp])
      end
  end.

Fixpoint joint_play (scenes : list scene) (j : sim_joint) : option sim_joint :=
  match scenes with
  | [] => Some j
  | sc :: scenes => j ← joint_scene sc j; joint_play scenes j
  end.

Definition exchange_scenes : list scene := [Host (At 5 EPOLLOUT [] []); Answer; Listen].

(** Handshake, a client that asks for an upgrade, validation, and all requests of the
    upgrade but the answer to the last. *)
Definition upgrade_scenes : list scene :=
  exchange_scenes ++
  map Host ([At 6 EPOLLIN [10] []; At 10 EPOLLIN [] (ipc_message DEVMGR_IPC_UPGRADE [] [102; 0; 49; 0])] ++
            replicate 4 Work ++ [At 4 EPOLLIN [] []]) ++
  concat (replicate 6 exchange_scenes) ++ [Host (At 5 EPOLLOUT [] []); Answer].

Definition opening (b : option (Z * daemon)) : option sim_joint :=
  '(result, d) ← b;
  if result =? DEVMGR_OK then Some (mk_joint (Looping DEVMGR_OK) d fresh_simulator (k_frames (kern d)) []) else None.

(** The run up to the last answer, and what the daemon makes of it. *)
Definition finale (scenes : list scene) (b : option (Z * daemon)) : bool :=
  match j ← opening b; joint_play scenes j with
  | Some j =>
      upgrade_running (upgrade (j_daemon j)) &&
      match daemon_scene (arrival (j_in j)) (j_in j) (j_daemon j) with
      | Some (d, _) => bool_decide (upgrade_state (upgrade d) = DEVMGR_UPGRADE_COMPLETE) &&
                       (len (k_requests (kern d)) =? 8)
      | None => false
      end
  | None => false
  end.

Lemma finale_holds : finale upgrade_scenes (booted (sample_kernel 1000)) = true.
Proof. by vm_compute. Qed.

Section Played.
Context (config : devmgr_daemon_config) (env : setup_env) (k : kernel) (Hsetup : setup_ok config env k).

Notation reached := (joint_reachable (D:=simulator_state) config env k).

Lemma reached_phase j : reached j → phase_ok (j_phase j, j_daemon j).
Proof. intros (s & Hm)%reachable_mirrored; [apply Hm|done]. Qed.

(** A step of the daemon at which nothing is queued or delivered. *)
Lemma reached_quiet phase d sim out inn phase' d' :
  reached (mk_joint phase d sim out inn) → daemon_step (phase, d) (phase', d') → in_loop phase' = true →
  kern d' = kern d → reached (mk_joint phase' d' sim out inn).
Proof.
  intros Hj Hstep Hin Hk. eapply joint_stepped; [exact Hj|]. rewrite <- (app_nil_r out) at 2.
  apply (joint_daemon (mk_joint phase d sim out inn) phase' d' [] [] [] inn); cbn; try done; by rewrite Hk, app_nil_r.
Qed.

(** A step with what was queued and delivered. *)
Lemma reached_step phase d sim out inn phase' d' rest :
  reached (mk_joint phase d sim out inn) → daemon_step (phase, d) (phase', d') → in_loop phase' = true →
  inn = heard_since d d' ++ rest →
  joint_step (mk_joint phase d sim out inn) (mk_joint phase' d' sim (out ++ sent_since d d') rest).
Proof.
  intros Hj Hstep Hin Ei. pose proof (reached_phase _ Hj) as Hp.
  destruct (loop_drives _ _ _ _ Hp Hstep Hin) as (ls & fs & _ & Hf & _ & Hh & _).
  assert (heard_since d d' = fs) as Eh by (unfold heard_since; rewrite Hh; by rewrite drop_app_length).
  assert (sent_since d d' = omap emits ls) as Es by (unfold sent_since; rewrite Hf; by rewrite drop_app_length).
  apply (joint_daemon (mk_joint phase d sim out inn) phase' d' (sent_since d d') fs fs rest); cbn;
    [done|done|by rewrite Es|done|by rewrite <- Eh|apply sublist_filter].
Qed.

Lemma event_scene fd flags accepted bytes arrived rest d sim out d' sent :
  let c := At fd flags accepted bytes in
  reached (mk_joint (Looping DEVMGR_OK) d sim out (arrived ++ rest)) → daemon_scene c arrived d = Some (d', sent) →
  ∃ e, reached (mk_joint (Handling [e] DEVMGR_OK) d sim out (arrived ++ rest)) ∧
    joint_step (mk_joint (Handling [e] DEVMGR_OK) d sim out (arrived ++ rest))
      (mk_joint (Handling [] DEVMGR_OK) d' sim (out ++ sent) rest).
Proof.
  intros c Hj E. unfold daemon_scene in E.
  destruct (play [cue_act c] d) as [[result d1]|] eqn:Ep; [|done]. cbn [mbind option_bind] in E.
  destruct (_ && _) eqn:Eok in E; [|done]. injection E as -> <-.
  rewrite !andb_true_iff in Eok. destruct Eok as [[->%Z.eqb_eq Hc%cue_act_ok] Hh%bool_decide_eq_true].
  cbn [cue_act c play] in Ep, Hc. case_guard as Hrun; [|done]. cbn [mret option_ret mbind option_bind] in Ep.
  set (e := mk_event _ _ _ _ _ _) in *. exists e. destruct (handle_event e d) as [[r d2]|] eqn:Ee; [|done].
  cbn [mbind option_bind] in Ep. assert (r = DEVMGR_OK ∧ d2 = d') as [-> ->].
  { destruct (Z.eqb_spec r DEVMGR_OK); by simplify_eq. }
  assert (reached (mk_joint (Handling [e] DEVMGR_OK) d sim out (arrived ++ rest))) as Hj1.
  { eapply reached_quiet; [exact Hj| |done|done]. apply (daemon_wait d (Ready [e])); [done|].
    intros events [= <-]. by constructor. }
  split; [done|]. apply reached_step; [done|by apply daemon_event|done|by rewrite Hh].
Qed.

Lemma work_scene arrived rest d sim out d' sent :
  reached (mk_joint (Looping DEVMGR_OK) d sim out (arrived ++ rest)) → daemon_scene Work arrived d = Some (d', sent) →
  reached (mk_joint (Looping DEVMGR_OK) d' sim (out ++ sent) rest).
Proof.
  intros Hj E. unfold daemon_scene in E.
  destruct (play [cue_act Work] d) as [[result d1]|] eqn:Ep; [|done]. cbn [mbind option_bind] in E.
  destruct (_ && _) eqn:Eok in E; [|done]. injection E as -> <-.
  rewrite !andb_true_iff in Eok. destruct Eok as [_ Hh%bool_decide_eq_true].
  cbn [cue_act play] in Ep. destruct (thread_run _ _) as [ws|] eqn:Et; [|done]. cbn [mbind option_bind] in Ep.
  injection Ep as _ <-. eapply joint_stepped; [exact Hj|]. apply reached_step; [done| |done|by rewrite Hh].
  apply daemon_thread. eapply thread_run_step; [apply sample_firmware_env_ok|exact Et].
Qed.

Lemma daemon_scene_reached c arrived rest d sim out d' sent :
  reached (mk_joint (Looping DEVMGR_OK) d sim out (arrived ++ rest)) → daemon_scene c arrived d = Some (d', sent) →
  reached (mk_joint (Looping DEVMGR_OK) d' sim (out ++ sent) rest).
Proof.
  intros Hj E. destruct c as [fd flags accepted bytes|]; [|by eapply work_scene].
  destruct (event_scene _ _ _ _ _ _ _ _ _ _ _ Hj E) as (e & He & Hs).
  eapply reached_quiet; [by eapply joint_stepped| |done|done]. apply daemon_batch_done. by left.
Qed.

Lemma joint_scene_reached sc j j' :
  reached j → j_phase j = Looping DEVMGR_OK → joint_scene sc j = Some j' → reached j' ∧ j_phase j' = Looping DEVMGR_OK.
Proof.
  destruct j as [phase d sim out inn]. cbn. intros Hj -> E. destruct sc as [c| |];
    cbn [joint_scene j_daemon j_device j_out j_in] in E.
  - destruct (daemon_scene c [] d) as [[d1 sent]|] eqn:Ed; [|done].
    cbn [mbind option_bind] in E. injection E as <-. split; [|done].
    by eapply (daemon_scene_reached c []).
  - destruct (daemon_scene (arrival inn) inn d) as [[d1 sent]|] eqn:Ed; [|done].
    cbn [mbind option_bind] in E. injection E as <-. split; [|done].
    eapply (daemon_scene_reached (arrival inn) inn []); [by rewrite app_nil_r|done].
  - destruct out as [|w out]; [done|]. destruct (sim_answer run_env sim w) as [[resp sim']|] eqn:Ea; [|done].
    cbn [mbind option_bind] in E. injection E as <-. split; [|done]. eapply joint_stepped; [exact Hj|].
    eapply (joint_device (mk_joint (Looping DEVMGR_OK) d sim (w :: out) inn)); [done|].
    apply (sim_answer_step run_env run_env_ok); [|exact Ea].
    destruct (reachable_mirrored _ _ _ Hsetup _ Hj) as (s & Hm). pose proof (mi_out _ _ Hm) as Eo.
    destruct (reachable_line s (mi_reachable _ _ Hm)) as (n0 & _ & _ & Hl). pose proof (li_out _ _ Hl) as Ho.
    destruct (sy_out s) as [|[i w'] items]; [done|]. cbn in Eo. injection Eo as -> _.
    by apply Forall_cons in Ho as [[_ ?] _].
Qed.

Lemma joint_play_reached scenes j j' :
  reached j → j_phase j = Looping DEVMGR_OK → joint_play scenes j = Some j' → reached j' ∧ j_phase j' = Looping DEVMGR_OK.
Proof.
  revert j. induction scenes as [|sc scenes IH]; intros j Hj Hp E; [cbn in E; by simplify_eq|].
  cbn [joint_play] in E. destruct (joint_scene sc j) as [j1|] eqn:Es; [|done]. cbn [mbind option_bind] in E.
  destruct (joint_scene_reached sc j j1 Hj Hp Es) as [Hj1 Hp1]. by eapply IH.
Qed.

(** The run is one of the deployment, and its last step completes the upgrade. *)
Lemma finale_joint scenes unset b :
  b = daemon_boot config env unset (blank_context config k) → finale scenes b = true →
  ∃ j j' : sim_joint, reached j ∧ joint_step j j' ∧
    upgrade_running (upgrade (j_daemon j)) = true ∧
    upgrade_state (upgrade (j_daemon j')) = DEVMGR_UPGRADE_COMPLETE ∧ len (k_requests (kern (j_daemon j'))) = 8.
Proof.
  intros Eb H. unfold finale in H. destruct (opening b) as [j0|] eqn:E0; [|done]. cbn [mbind option_bind] in H.
  unfold opening in E0. destruct b as [[r d0]|]; [|done]. cbn [mbind option_bind] in E0.
  destruct (Z.eqb_spec r DEVMGR_OK) as [->|]; [|done]. injection E0 as <-.
  destruct (joint_play scenes _) as [j|] eqn:Ep in H; [|done].
  apply joint_play_reached in Ep as [Hj Hp];
    [|eapply joint_booted; [exact (eq_sym Eb)|apply fresh_simulator_ok]|done].
  destruct j as [phase d sim out inn]. cbn [j_phase j_daemon j_in] in *. subst phase.
  apply andb_true_iff in H as [Hrun H]. destruct (daemon_scene _ _ _) as [[d' sent]|] eqn:Ed; [|done].
  apply andb_true_iff in H as [Hdone%bool_decide_eq_true Hn%Z.eqb_eq].
  rewrite <- (app_nil_r inn) in Hj at 1.
  destruct (event_scene _ _ _ _ _ _ _ _ _ _ _ Hj Ed) as (e & Hj1 & Hs). by eexists _, _.
Qed.
End Played.

Lemma sample_finale scenes k :
  setup_ok sample_config sample_setup k → finale scenes (booted k) = true →
  ∃ j j' : sim_joint, joint_reachable sample_config sample_setup k j ∧ joint_step j j' ∧
    upgrade_running (upgrade (j_daemon j)) = true ∧
    upgrade_state (upgrade (j_daemon j')) = DEVMGR_UPGRADE_COMPLETE ∧ len (k_requests (kern (j_daemon j'))) = 8.
Proof. intros Hk H. eapply (finale_joint _ _ _ Hk scenes zero_frame); [|exact H]. by unfold booted. Qed.

Lemma daemon_upgrades_device_witness :
  ∃ (j' : sim_joint) image version, upgrade_state (upgrade (j_daemon j')) = DEVMGR_UPGRADE_COMPLETE ∧
    upgrade_ok image version (upgrade (j_daemon j')) ∧
    slot_running (device_slot (j_device j')) = version ∧
    crc_of (slot_flash (device_slot (j_device j'))) = crc_of image.
Proof.
  destruct (sample_finale upgrade_scenes (sample_kernel 1000) (sample_setup_ok 1000) finale_holds)
    as (j & j' & Hj & Hs & Hrun & Hdone & Hn).
  destruct (daemon_upgrades_device sample_config sample_setup (sample_kernel 1000) (sample_setup_ok 1000) j j' Hj Hs)
    as (image & version & Hu & Hv & _ & Hc).
  - rewrite Hn. lia.
  - exact Hrun.
  - exact Hdone.
  - by exists j', image, version.
Defined.
