(* ===== verification/ClientServer.v ===== *)
(** * Client and daemon, client and device

    The two sides of the IPC protocol and of the device's descriptions together:
    what devctl puts into an upgrade request is what the daemon hands to the worker,
    and what the simulated device says of itself is what devctl prints. *)

From S2P Require Import Prelude Crc32 RingBuffer Frame Parser Session Ipc Upgrade Driver Os Cli Transport.
From S2P Require Import Firmware Worker Daemon DaemonSafety DaemonClients DaemonRun Devctl Device Simulator.

(** ** Upgrade requests *)

(** Statements that leave the worker and the operation alone. *)
Definition keeps_job {A} (m : M A) : Prop :=
  ∀ d a d', m d = Some (a, d') →
    worker d' = worker d ∧ upgrade_operation_id d' = upgrade_operation_id d.

Lemma keeps_bind {A B} (m : M A) (k : A → M B) :
  keeps_job m → (∀ a, keeps_job (k a)) → keeps_job (m ≫= k).
Proof.
  intros Hm Hk d b d'. unfold mbind, M_bind. destruct (m d) as [[a d1]|] eqn:E; [|done]. intros E'.
  destruct (Hm _ _ _ E), (Hk _ _ _ _ E'). split; congruence.
Qed.

Lemma keeps_ret {A} (a : A) : keeps_job (mret a).
Proof. by intros d b d' [= <- <-]. Qed.

Lemma keeps_gets {A} (f : daemon → A) : keeps_job (gets f).
Proof. by intros d b d' [= <- <-]. Qed.

Lemma keeps_lift {A} (o : option A) : keeps_job (lift o).
Proof. intros d b d'. unfold lift. destruct o; [|done]. by intros [= <- <-]. Qed.

Lemma keeps_modify f :
  (∀ d, worker (f d) = worker d ∧ upgrade_operation_id (f d) = upgrade_operation_id d) → keeps_job (modify f).
Proof. intros H d b d' [= <- <-]. apply H. Qed.

Create HintDb keeps.
#[export] Hint Resolve keeps_bind keeps_ret keeps_gets keeps_lift keeps_modify : keeps.

Lemma keeps_epoll_update op fd events : keeps_job (epoll_update op fd events).
Proof.
  unfold epoll_update, epoll_ctl, next_call.
  repeat (apply keeps_bind; [|intros ?]); auto with keeps; try (apply keeps_modify; by intros).
  all: repeat case_match; auto with keeps; try (apply keeps_modify; by intros).
Qed.

Lemma keeps_queue_client_response i command status payload n :
  keeps_job (queue_client_response i command status payload n).
Proof.
  unfold queue_client_response, get_client, set_client. apply keeps_bind; [auto with keeps|]. intros c.
  destruct (if _ <? _ then _ else _) as [m st]. apply keeps_bind; [auto with keeps|]. intros bytes.
  apply keeps_bind; [auto with keeps|]. intros [[result output] size].
  apply keeps_bind; [by apply keeps_modify|]. intros _. destruct (negb _); [auto with keeps|].
  apply keeps_bind; [auto with keeps|]. intros client. apply keeps_bind; [by apply keeps_modify|]. intros _.
  apply keeps_epoll_update.
Qed.

Lemma wp_keeps {A} (m : M A) d (P : A → daemon → Prop) :
  keeps_job m → wp m d P →
  wp m d (λ a d', P a d' ∧ worker d' = worker d ∧ upgrade_operation_id d' = upgrade_operation_id d).
Proof. intros Hk (a & d' & E & H). exists a, d'. split; [done|]. split; [done|by eapply Hk]. Qed.

(** The worker has room for a job. *)
Definition worker_free (w : devmgr_worker) : Prop :=
  job_pending w = false ∧ job_running w = false ∧ result_pending w = false.

(** [version] is being prepared from the image at [path]. *)
Definition handed_over (path version : list Z) (d : daemon) : Prop :=
  upgrade_state (upgrade d) = DEVMGR_UPGRADE_VALIDATING ∧
  string_of (pending_upgrade_version d) = version ∧
  job_pending (ws_worker (worker d)) = true ∧ string_of (job_path (ws_worker (worker d))) = path ∧
  job_id (ws_worker (worker d)) = upgrade_operation_id d.

Lemma submit_free fd rest ws id p path :
  worker_inv fd rest ws → ws_reactor ws = Running → worker_free (ws_worker ws) → id ≠ 0 →
  holds_string p path → 0 < len path < DEVMGR_WORKER_PATH_MAX →
  ∃ w, devmgr_worker_submit_firmware (ws_worker ws) id (Some p) = Some (DEVMGR_OK, w, true) ∧
    job_pending w = true ∧ string_of (job_path w) = path ∧ job_id w = id.
Proof.
  intros Hw Hrun (F1 & F2 & F3) Hid Hp Hl. unfold devmgr_worker_submit_firmware.
  destruct (inv_alive _ _ _ Hw) as [-> _]; [by rewrite Hrun|]. rewrite (proj2 (Z.eqb_neq _ _) Hid). cbn [negb orb].
  rewrite (strlen_holds _ _ Hp). run_stmt. zreduce.
  assert (stop (ws_worker ws) = false) as ->.
  { pose proof (inv_stop _ _ _ Hw) as Hs. destruct (stop _); [|done]. by destruct (proj1 Hs eq_refl). }
  rewrite F1, F2, F3. cbn [orb]. pose proof (holds_string_bound _ _ Hp).
  destruct (inv_path _ _ _ Hw) as [Hjl _]. rewrite memcpy_ok by lia. run_stmt. eexists. split; [done|].
  split; [done|]. split; [|done]. cbn. apply string_of_holds. rewrite (holds_string_slice _ _ Hp).
  apply holds_string_splice; [|lia]. by destruct Hp as (? & _ & ?).
Qed.

Lemma submit_upgrade_hands i request unset path version r d :
  daemon_ok d → devmgr_upgrade_active (upgrade d) = false → 0 ≤ i < MAX_CLIENTS → request_ok request →
  request_payload request = path ++ 0 :: version ++ 0 :: r →
  Forall (λ x, x ≠ 0) path → 0 < len path < DEVMGR_WORKER_PATH_MAX →
  Forall (λ x, x ≠ 0) version → 1 ≤ len version ≤ 31 → worker_free (ws_worker (worker d)) →
  Forall is_u8 unset → 4 ≤ len unset →
  wp (submit_upgrade i request (len path + 1) (len version) unset) d (λ _ d', handed_over path version d').
Proof.
  intros Hd Ha Hi (Hc & Hpl & Hl & Hb) Hp Hpz Hpn Hvz Hvn (F1 & F2 & F3) Hub Hul.
  unfold submit_upgrade, set_upgrade_result, set_upgrade_state. wp_step. unfold id.
  set (job := if _ =? 0 then 1 else _).
  assert (is_u32 job ∧ job ≠ 0) as [Hj Hj0] by (unfold job; apply next_session_id). clearbody job.
  do 3 wp_step. apply wp_bind. pose proof Hd as [(_ & _ & _ & _ & _ & _ & (Hvl & _ & _) & _ & _ & [[fd Hw] Hrun]) _].
  assert (slice (request_payload request) (len path + 1) (len version + 1) = version ++ [0]) as Hsl.
  { rewrite Hp. change (0 :: version ++ 0 :: r) with ([0] ++ version ++ 0 :: r). rewrite (assoc_L (++)).
    apply slice_terminated; [rewrite length_app; cbn; lia|done]. }
  assert (Forall is_u8 version) as Hvb.
  { rewrite Hp in Hb. apply Forall_app in Hb as [_ [_ Hb]%Forall_cons]. by apply Forall_app in Hb as [? _]. }
  assert (len path + 1 + (len version + 1) ≤ len (request_payload request)) as Hfit
    by (rewrite Hp, length_app; cbn; rewrite length_app; cbn; lia).
  eapply wp_lift; [apply memcpy_ok; lia|]. rewrite Hsl. wp_step.
  change (_ <| pending_upgrade_version := _ |>) with (validating job version d).
  destruct (validating_ok job version d) as [H1 _]; [done..|].
  set (d1 := validating job version d) in *. apply wp_bind.
  unfold submit_firmware. wp_step. apply wp_bind. change (worker d1) with (worker d).
  assert (holds_string (request_payload request) path) as Hstr by (by eexists; rewrite Hp).
  destruct (submit_free fd (daemon_resources d) (worker d) job (request_payload request) path) as (w & E & Ew1 & Ew2 & Ew3);
    [done..|]. eapply wp_lift; [exact E|]. cbv iota. do 2 wp_step.
  change (DEVMGR_OK =? DEVMGR_OK) with true. cbn [negb].
  set (d2 := d1 <| worker := _ |>). assert (base_ok d2) as H2.
  { pose proof H1 as [Hb1 _]. clear Hw. open_base Hb1. destruct Hwo as [[fd' Hw'] Hr']. unfold d2. keep_base. split; [|done].
    exists fd'. eapply step_submit_inv; [done|done| |exact E]. intros p [= <-]. split; [done|by exists path]. }
  assert (handed_over path version d2) as Hh.
  { split; [done|]. split; [apply version_copy; [|apply Hd|..]; done || lia|]. by split_and!. }
  clearbody d2. apply wp_bind, wp_put_word; [done|rewrite length_take; lia|by apply Forall_take|]. intros a Hal Hab.
  eapply wp_mono.
  { apply wp_keeps; [apply keeps_queue_client_response|]. apply queue_client_response_ok; [done..|].
    rewrite length_take in Hal. split; [split; [done|lia]|done]. }
  intros ? d3 ((_ & _ & Hu & _ & Hv & _) & Ewk & Eid). unfold handed_over in *. by rewrite Hu, Hv, Ewk, Eid.
Qed.

Lemma memchr0_at (p s r : list Z) off n :
  off = len p → Forall (λ x, x ≠ 0) s → len s < n → off + n ≤ len (p ++ s ++ 0 :: r) →
  memchr0 (p ++ s ++ 0 :: r) off n = Some (Some (len s)).
Proof.
  intros -> Hs Hn Hl. unfold memchr0. rewrite mem_read_ok by lia. run_stmt.
  assert (slice (p ++ s ++ 0 :: r) (len p) n = s ++ 0 :: take (Z.to_nat n - length s - 1) r) as ->.
  { unfold slice. rewrite Nat2Z.id, drop_app_length, take_app_ge by lia. f_equal.
    destruct (Z.to_nat n - length s)%nat as [|k] eqn:E; [lia|]. cbn. do 2 f_equal. lia. }
  by rewrite find_zero_string.
Qed.

Lemma start_upgrade_hands i request unset path version r d :
  daemon_ok d → session_state (session d) = DEVMGR_DEVICE_READY → active_client d < 0 →
  devmgr_upgrade_active (upgrade d) = false → 0 ≤ i < MAX_CLIENTS → request_ok request →
  request_payload request = path ++ 0 :: version ++ 0 :: r →
  request_payload_length request = len path + 1 + (len version + 1) →
  Forall (λ x, x ≠ 0) path → 0 < len path < DEVMGR_WORKER_PATH_MAX →
  Forall (λ x, x ≠ 0) version → 1 ≤ len version ≤ 31 → worker_free (ws_worker (worker d)) →
  Forall is_u8 unset → 4 ≤ len unset →
  wp (start_upgrade i request unset) d (λ _ d', handed_over path version d').
Proof.
  intros Hd Hst Hac Ha Hi Hreq Hp Hn Hpz Hpn Hvz Hvn Hf Hub Hul. pose proof Hreq as (_ & _ & Hl & _).
  assert (len (request_payload request) = 4096) as Hl' by done. unfold start_upgrade. apply wp_bind.
  assert (len path + 1 + (len version + 1) ≤ 4096) as Hfit by (rewrite <- Hl', Hp, length_app; cbn; rewrite length_app; cbn; lia).
  pose proof (memchr0_at [] path (version ++ 0 :: r) 0 (request_payload_length request) eq_refl Hpz) as E1.
  cbn [app] in E1. rewrite <- Hp in E1. eapply wp_lift; [apply E1; lia|].
  cbv beta iota zeta. rewrite (proj2 (Z.eqb_neq (len path) 0)), (proj2 (Z.leb_gt (request_payload_length request) _)) by lia.
  cbn [orb]. apply wp_bind. eapply wp_lift.
  { rewrite Hp at 1. change (0 :: version ++ 0 :: r) with ([0] ++ version ++ 0 :: r). rewrite (assoc_L (++) path).
    apply memchr0_at; try done; [rewrite length_app; cbn; lia|lia|].
    rewrite <- (assoc_L (++)). cbn [app]. rewrite <- Hp. lia. }
  unfold DEVMGR_UPGRADE_VERSION_MAX. rewrite (proj2 (Z.eqb_neq (len version) 0)), (proj2 (Z.ltb_ge 31 _)) by lia.
  cbn [orb]. wp_step. unfold id. rewrite bool_decide_true, (proj2 (Z.leb_gt 0 _)), Ha by (done || lia). cbn [negb orb].
  by eapply submit_upgrade_hands.
Qed.


(** *** An instance: the daemon after the handshake *)

Definition is_ready (d : daemon) : bool :=
  bool_decide (session_state (session d) = DEVMGR_DEVICE_READY) && (active_client d <? 0) &&
  negb (devmgr_upgrade_active (upgrade d)) &&
  let w := ws_worker (worker d) in negb (job_pending w || job_running w || result_pending w).

Lemma ready_daemon :
  ∃ d, daemon_ok d ∧ session_state (session d) = DEVMGR_DEVICE_READY ∧ active_client d < 0 ∧
    devmgr_upgrade_active (upgrade d) = false ∧ worker_free (ws_worker (worker d)).
Proof.
  destruct (sample_comes_to (sample_kernel 1000) (DaemonRun.sent ++ answered 1 [])
    (λ r d, (r =? DEVMGR_OK) && is_ready d)) as (r & d & H & Hr); [by vm_compute|].
  apply andb_true_iff in H as [->%Z.eqb_eq H]. unfold is_ready in H. cbv zeta in H.
  rewrite !andb_true_iff, !negb_true_iff, !orb_false_iff in H. destruct H as [[[H1 H2] H3] [[H4 H5] H6]].
  apply (reachable_ok _ _ _ _ (sample_setup_ok 1000)) in Hr. exists d. split; [by apply Hr|].
  apply bool_decide_eq_true in H1. apply Z.ltb_lt in H2. done.
Qed.


(** ** Descriptions of the device *)

Lemma next_string_at (p s r : list Z) length off :
  off = len p → Forall (λ x, x ≠ 0) s → off + len s + 1 ≤ length → length ≤ len (p ++ s ++ 0 :: r) →
  next_string (p ++ s ++ 0 :: r) length off = Some (Some off, off + len s + 1).
Proof.
  intros -> Hs Hn Hl. unfold next_string. rewrite (proj2 (Z.leb_gt length _)) by lia.
  rewrite memchr0_at by (done || lia). by run_stmt.
Qed.

(** A payload that holds five strings behind four bytes. *)
Lemma info_report_strings head s1 s2 s3 s4 s5 rest length id :
  let payload := head ++ s1 ++ 0 :: s2 ++ 0 :: s3 ++ 0 :: s4 ++ 0 :: s5 ++ 0 :: rest in
  len head = 4 → Forall (Forall (λ x, x ≠ 0)) [s1; s2; s3; s4; s5] →
  length = 9 + len s1 + len s2 + len s3 + len s4 + len s5 → devmgr_get_le32 payload 0 = Some id →
  info_report payload length = Some (DeviceInfo id s1 s2 s3 s4 s5).
Proof.
  intros payload Hh Hz Hn E. rewrite !Forall_cons in Hz. destruct Hz as (H1 & H2 & H3 & H4 & H5 & _).
  assert (length ≤ len payload) as Hl by (unfold payload; repeat (rewrite ?length_app; cbn [Datatypes.length]); lia).
  set (p1 := head ++ s1 ++ [0]). set (p2 := p1 ++ s2 ++ [0]). set (p3 := p2 ++ s3 ++ [0]). set (p4 := p3 ++ s4 ++ [0]).
  assert (len p1 = 5 + len s1) as L1 by (unfold p1; rewrite !length_app; cbn; lia).
  assert (len p2 = 6 + len s1 + len s2) as L2 by (unfold p2; rewrite !length_app; cbn; lia).
  assert (len p3 = 7 + len s1 + len s2 + len s3) as L3 by (unfold p3; rewrite !length_app; cbn; lia).
  assert (len p4 = 8 + len s1 + len s2 + len s3 + len s4) as L4 by (unfold p4; rewrite !length_app; cbn; lia).
  assert (∀ p s r, payload = p ++ s ++ 0 :: r → Forall (λ x, x ≠ 0) s → len p + len s + 1 ≤ length →
    next_string payload length (len p) = Some (Some (len p), len p + len s + 1) ∧ c_string payload (len p) = Some s) as Hs.
  { intros p s r Ep Hs Hle. rewrite Ep in Hl |- *. split; [by apply next_string_at|by apply c_string_at]. }
  destruct (Hs head s1 (s2 ++ 0 :: s3 ++ 0 :: s4 ++ 0 :: s5 ++ 0 :: rest)) as [N1 C1]; [done|done|lia|].
  destruct (Hs p1 s2 (s3 ++ 0 :: s4 ++ 0 :: s5 ++ 0 :: rest)) as [N2 C2];
    [unfold payload, p1; by rewrite <- !(assoc_L (++))|done|lia|].
  destruct (Hs p2 s3 (s4 ++ 0 :: s5 ++ 0 :: rest)) as [N3 C3];
    [unfold payload, p2, p1; by rewrite <- !(assoc_L (++))|done|lia|].
  destruct (Hs p3 s4 (s5 ++ 0 :: rest)) as [N4 C4];
    [unfold payload, p3, p2, p1; by rewrite <- !(assoc_L (++))|done|lia|].
  destruct (Hs p4 s5 rest) as [N5 C5];
    [unfold payload, p4, p3, p2, p1; by rewrite <- !(assoc_L (++))|done|lia|].
  unfold info_report. rewrite E. run_stmt. rewrite Hh in N1, C1.
  replace (4 + len s1 + 1) with (len p1) in N1 by lia. replace (len p1 + len s2 + 1) with (len p2) in N2 by lia.
  replace (len p2 + len s3 + 1) with (len p3) in N3 by lia. replace (len p3 + len s4 + 1) with (len p4) in N4 by lia.
  rewrite N1. run_stmt. cbv beta iota. rewrite N2. run_stmt. cbv beta iota. rewrite N3. run_stmt. cbv beta iota.
  rewrite N4. run_stmt. cbv beta iota. rewrite N5. run_stmt. cbv beta iota.
  by rewrite C1, C2, C3, C4, C5.
Qed.

(** C37: the client prints what the device says of itself.  The simulator answers
    GET_INFO, and a response that carries the payload of that answer is reported with
    the device's number, its four fixed strings and the version it runs. *)
Theorem info_printed s f :
  sim_ok s →
  ∃ r, handle_info s (Simulator.blank_response f) = Some r ∧
    ∀ response elapsed,
      Ipc.response_ok response → response_status response = DEVMGR_OK →
      response_bytes response = w_payload (view r) →
      print_response DEVMGR_MSG_GET_INFO response elapsed =
        Some [DeviceInfo (device_id s) (chars "STM32-SIM") (chars "HW-1.0")
                (string_of (firmware_version s)) (chars "BL-1.0.0") (chars "SIM00000001")].
Proof.
  intros Hs. destruct (handle_info_spec s f Hs) as (E & Hi8 & Hil). eexists. split; [exact E|].
  intros response elapsed Hr Hst Hb.
  rewrite view_request_frame in Hb by (done || (unfold DEVMGR_PROTOCOL_MAX_PAYLOAD; lia)). cbn [w_payload] in Hb.
  destruct (response_bytes_facts response Hr) as [Hl _]. rewrite Hb in Hl.
  pose proof Hs as ((Hid & _) & _ & _ & _ & _ & _ & (_ & _ & v & Hv) & _).
  set (rest := drop (Z.to_nat (response_payload_length response)) (response_payload response)).
  assert (response_payload response = info_payload s ++ rest) as Ep.
  { unfold rest. rewrite <- Hb. unfold response_bytes. by rewrite slice_0, take_drop. }
  clearbody rest. pose proof Hr as (_ & _ & Hn & Hrl & Hru). rewrite Ep in Hrl, Hru.
  assert (devmgr_get_le32 (info_payload s ++ rest) 0 = Some (device_id s)) as Eid.
  { rewrite get_le32_spec by (done || (rewrite Hrl; unfold DEVMGR_IPC_MAX_PAYLOAD; lia)). unfold info_payload. rewrite <- (assoc_L (++)), slice_prefix by done.
    by rewrite le_value_bytes. }
  rewrite (string_of_holds _ v Hv). unfold print_response. rewrite Hst, <- Hl, Ep.
  change (negb (DEVMGR_OK =? DEVMGR_OK)) with false. cbv iota.
  change (DEVMGR_MSG_GET_INFO =? DEVMGR_MSG_PING) with false. cbv iota.
  change (DEVMGR_MSG_GET_INFO =? DEVMGR_MSG_GET_INFO) with true. cbn [andb].
  revert Hil Eid. unfold info_payload, literal. rewrite (string_of_holds _ v Hv), <- !(assoc_L (++)). cbn [app].
  intros Hil Eid. rewrite (proj2 (Z.leb_le 4 _)) by (rewrite length_app, length_le_bytes; lia).
  erewrite info_report_strings; [done|by rewrite length_le_bytes| |
    repeat (rewrite ?length_app, ?length_le_bytes; cbn [Datatypes.length]); lia|exact Eid].
  destruct Hv as (? & _ & Hv). repeat constructor; done.
Qed.

(** The response that carries the description of a fresh simulator. *)
Definition info_response : devmgr_ipc_response :=
  let payload := info_payload fresh_simulator in
  mk_ipc_response DEVMGR_MSG_GET_INFO DEVMGR_OK (len payload) (payload ++ zeros (DEVMGR_IPC_MAX_PAYLOAD - len payload)).

Lemma info_response_ok : Ipc.response_ok info_response.
Proof.
  destruct (handle_info_spec fresh_simulator sample_frame fresh_simulator_ok) as (_ & H8 & Hl).
  unfold info_response, Ipc.response_ok, DEVMGR_IPC_MAX_PAYLOAD. cbn. do 2 (split; [done|]). split; [lia|]. split.
  - rewrite length_app. unfold zeros. rewrite length_replicate. lia.
  - apply Forall_app. split; [done|apply zeros_Forall].
Qed.

Lemma info_printed_witness :
  (∃ r, handle_info fresh_simulator (Simulator.blank_response sample_frame) = Some r ∧
        response_bytes info_response = w_payload (view r)) ∧
  print_response DEVMGR_MSG_GET_INFO info_response 0 =
    Some [DeviceInfo (device_id fresh_simulator) (chars "STM32-SIM") (chars "HW-1.0")
            (string_of (firmware_version fresh_simulator)) (chars "BL-1.0.0") (chars "SIM00000001")].
Proof.
  destruct (info_printed fresh_simulator sample_frame fresh_simulator_ok) as (r & E & H).
  assert (response_bytes info_response = w_payload (view r)) as Hb.
  { vm_compute in E. injection E as <-. by vm_compute. }
  split; [by exists r|]. apply H; [apply info_response_ok|done|exact Hb].
Defined.
